(* ===== verification/_CoqProject ===== *)
-Q . S2P
Prelude.v
GoStrings.v
Float64.v
Library.v
Version.v
Paths.v
Web.v
Migrations.v
Store.v
StoreTables.v
StoreInv.v
Metrics.v
StoreSteps.v
Limiter.v
TailBuffer.v
Update.v
Proxy.v
Wol.v
Webauthn.v
Protocol.v
JSON.v
Hub.v
Auth.v
AuthProps.v
Passkeys.v
Users.v
Alerts.v
AlertProps.v
AlertApi.v
Notify.v
State.v
Gateway.v
Systems.v
Routes.v
Links.v
Control.v
Shell.v
Files.v
FileProps.v
Runs.v
RunProps.v
Maintenance.v
HubCommand.v
Events.v
Host.v
AgentConfig.v
AgentState.v
AgentUpdate.v
Sign.v
AgentServices.v
Processes.v
Agent.v
AgentCommand.v
AgentShell.v
AgentProps.v
Collect.v
HubStart.v
Wire.v
Decode.v
EndToEnd.v
Commands.v
Server.v
Authority.v
Access.v
