(* ===== verification/Prelude.v ===== *)
(** * Lotse: a verified model of the hub, the agent and the commands

    Lotse is a monitoring hub with remote control: agents on machines connect to a hub over
    SSH, report samples and carry out commands; users sign in to the hub with a browser. This
    library models the Go program: the hub ([src/internal/hub]), the agent
    ([src/internal/agent]), the packages both are built on
    ([src/internal/{protocol,update,wol,sshkey,version}]) and the commands ([src/cmd]), and
    proves what makes them correct.

    ** The program and its model

    The hub is one process: an SQLite database behind a single connection, in-memory state under
    mutexes, HTTP handlers and one goroutine per agent. The model is state passing: [M S A] of
    this file is a function from a state to a result and a new state. A database method runs on
    [mach] (tables, clock, random source, schedule of failing statements); a handler runs on
    [hub] (a [mach] and the in-memory parts) and gives a [response]. What a handler does to the
    outside (closing a connection, sending a request to an agent, stopping a stream, starting a
    goroutine) is appended to the trace [h_trace]. What comes from outside and may be anything
    is an argument or a component of the state: the clock's advances, which statements fail,
    random bytes, the agents' answers, what happens on a machine during a script.

    The agent runs on a [host]: files and folders, a random source, a schedule of failing system
    calls and a trace of what was started; its own state is [agent]. What the hub sends it
    is a request, a channel or a stream given as an argument. The commands run on a [host], with the
    service manager's answers ([machine]), or on a [process] with its user and group.

    Files, in order, with the code they follow (paths under [src/internal]):

    - [Prelude]: [int64] wrap-around, durations and times, the state monad with its weakest
      preconditions [wp] and step relation [steps], tactics, list lemmas.
    - [GoStrings], [Float64]: what the code uses of [strings], [utf8], [strconv], and
      IEEE binary64 as an executable specification.
    - [Library]: the class [Lib] of what is not in the repository (hashes, signatures,
      address parsing) as parameters, with a concrete instance [demoLib] for evaluation.
    - [Version] ([version/version.go]), [Paths] (package [path] and [remotePath] of
      [hub/files.go]), [Web] ([hub/{install,static}.go]): names, paths, install commands.
    - [Migrations] ([Open] and [migrate] of [hub/store/store.go]); [Store] (the rest of
      it), [StoreTables] ([hub/store/{passkeys,alerts,scripts,audit}.go]), [Metrics]
      ([hub/store/metrics.go]): the tables and every statement.
    - [StoreInv], [StoreSteps]: the integrity of the database, kept by every statement.
    - [Limiter], [TailBuffer], [Update], [Proxy], [Wol], [Webauthn]: components without
      database: [loginLimiter] of [hub/auth.go], [tailBuffer] of [hub/scripts.go],
      [update/update.go], [hub/proxy.go], [wol/wol.go], [hub/webauthn.go].
    - [Protocol] ([protocol/protocol.go]): messages and JSON values. The class [Marshal] stands
      for [json.Marshal], [Unmarshal A] for [json.Unmarshal] into an [A]. [JSON]: both of them on
      bytes: escaping, both layouts, UTF-8, the parser, decoding into structs; only the text of
      floating-point numbers and reading it are parameters ([FloatText], and [FloatParse] of [Decode]), with the law that they are inverse.
    - [Hub] ([hub/{hub,api,conns,broker,audit}.go]): the state of the hub, requests,
      responses, the activity log, open connections, event channels.
    - [Auth], [AuthProps] ([hub/auth.go]), [Passkeys] ([hub/passkeys.go]), [Users]
      ([hub/users.go]): signing in, re-authentication, accounts.
    - [Alerts], [AlertProps], [AlertApi] ([hub/alerts.go], the settings part of
      [hub/notify.go]), [Notify] (the senders of [hub/notify.go]): the alert engine, delivery,
      rules and channels.
    - [State] ([hub/state.go]): samples in memory and the 1-minute averages.
    - [Gateway], [Links] ([hub/gateway.go]): admission of agents and the life of their links.
    - [Systems], [Routes] ([hub/api.go]), [Control] ([hub/{processes,control,wake,
      agentupdate}.go], [protocol/request.go]): systems, charts, enrollment, the routing
      table, acting on machines.
    - [Shell] ([hub/shell.go]), [Files], [FileProps] ([hub/files.go]): the browser's terminal
      and file transfer. The SFTP client is the class [Sftp], with what it promises about files.
    - [Runs], [RunProps] ([hub/scripts.go]): scripts, runs and their live output.
    - [Maintenance] ([hub/hub.go]): start, periodic work, report interval; [Events]
      ([handleEvents] of [hub/broker.go]): the event stream to a browser.
    - [HubCommand] ([cmd/hub]), [Sign] ([cmd/sign], [Sign] and [ReadManifest] of
      [update/update.go]), [AgentCommand] ([cmd/agent]): the commands.
    - [Host]: files, folders and commands of a machine; [AgentConfig] ([agent/config.go],
      [sshkey/sshkey.go]), [AgentState], [Agent] ([agent/agent.go]), [AgentUpdate]
      ([agent/update.go]), [AgentServices] ([agent/{services,services_linux,
      services_darwin,services_windows,power}.go]), [AgentShell] ([agent/{shell,script}.go]),
      [Processes], [Collect] ([agent/collect]): the agent. [AgentProps]: what the hub can
      and cannot make it do.
    - [HubStart] ([New], [openData], [ConfigFromEnv] and [Run] of [hub/hub.go], [hub/agentupdate.go]):
      a start of the hub from its files and its database, and its stop.
    - [Wire] ([protocol/{protocol,request}.go]): the bytes of every message and how the other side reads
      them. [EndToEnd]: hub and agent composed through these bytes. [Commands] ([main] of [cmd/agent],
      [cmd/hub] and [cmd/sign], [hub/scripts/install.sh]): flags, commands, exit status, and the way from
      a token to an agent that runs.
    - [Decode] (the types of [protocol/protocol.go] and of [hub/{scripts,notify,shell,webauthn}.go] the hub reads):
      samples, lists, stored results and settings as they are decoded, and a sample's way to the charts.
    - [Server] ([Handler] of [hub/api.go], [getRunEvents] of [hub/scripts.go]): the hub assembled, every handler
      behind its route, as one function from a request to its answer. [Authority]: an abstract specification of who may change what, which
      operations of the store and which effects on machines a sender of a request may cause, and every handler's
      proof that it stays within. [Access]: the assembled hub refines the specification, and what follows from it.

    Definitions keep the names of the source where a Rocq name allows it. Record fields carry a
    prefix ([u_Role] is [User.Role]); a Go method that shares its name with a type is prefixed
    ([getUser] for [Store.User]); the three platforms' versions of a function carry the
    platform's name ([listSystemd], [listLaunchd], [listWindows]).

    ** What the theorems show

    - Access to the hub: the assembled hub refines a specification of authority (C2), from which
      follows, for any request at all, that settings and accounts change only for administrators, scripts and machines
      only for operators, and credentials only for their owner or an administrator (C1); the routing table gives
      each path the role it needs, behind the same-origin check (C3, [AuthProps.requireRole_sound]); sign-in needs the password and an unused code (C4, C30) or
      a passkey of the right key with a counter that advances and is stored unless the database fails (C9, [Webauthn.challenges_single_use]); a
      changed password or role takes effect at once (C33); guessing is limited
      to five attempts in five minutes, exactly (C39); clients cannot forge their address ([Proxy.forwarded_not_forgeable]); agents need a known key
      or a token (C5).
    - Acting on machines, seen from the hub: commands and files reach a machine only after re-authentication and
      where its owner allows it, and are logged (C6, C34); an upload replaces a file
      as a whole or not at all, through a temporary file that is new (C28), at a path that means what it shows ([Paths.remotePath_confined]).
    - Acting on machines, seen from the agent: whatever the hub sends, nothing is started on a machine whose owner did
      not allow it (C7), only signed, newer releases are installed (C8), services are controlled
      one at a time and never the agent's own ([AgentServices.service_control_safe]), and sessions are limited (C29).
    - The agent comes back after any failure, at most 90 seconds after the session under way has ended (C35); what it reports about services
      and filesystems is well formed (C38, [Collect.filesystems_spec]).
    - Database: opening brings every version up to date across failures (C36), its constraints hold
      after any interleaving of statements, failed ones included (C18), an administrator remains
      (C31), rollups can overlap: every complete bucket holds the averages of exactly its minutes (C40).
    - Alerts: events alternate (C21), come exactly when they are due (C23), and agree with the
      database across restarts (C22); mails are sent protected and complete ([Notify.email_protected]).
    - Samples: the charts show what the agents measured, from the bytes an agent sends to the averages of exactly
      the samples of each minute and the live series, over the first connection since the start (C13).
    - Links: one link for a system, every other one closed (C24); a deleted system leaves
      nothing behind (C27).
    - Runs and events: output is shown exactly once (C19), every run ends, its viewers are told and released and, with a working database, it is recorded (C20); the
      output buffer refines "the last bytes of everything written" (C32); browsers see
      events in order, each once, and no stream leaves its subscriber behind, however it ends (C37).
    - Hub and agent together: messages are read as they were written (C15), and so is what the hub stores (C16); what the browser is told of
      a remote action is what happened on the machine, as far as the agent knows it when it answers (a reboot is started by a timer
      afterwards: [powerDue]) (C10); a machine enrolls with its token once
      and is known by its key afterwards, restarts of the agent included (C11); an update the hub offers is one the agent takes
      unless it is larger than the agent accepts (C12).
    - Start and stop: a hub that starts has its schema, its key and no run left open, and offers only signed updates
      (C25); one that stops, its database working, has stored every sample, whether links end meanwhile or not (C26).
    - Commands: a token printed on the hub becomes, through the printed command and the install script, an agent
      that runs with it; the script's own effects, the binary and its temporary files, are part of the model (C14); what is signed is accepted (C17); installing is
      safe ([AgentCommand.install_sound]), install commands are quoted ([Web.install_command_words]), the hub gives up root
      ([HubCommand.privileges_dropped]).

    Further theorems, without a number, complete the components, among them
    [Limiter.limiter_bounds], [Limiter.eviction_keeps_locked_out], [Users.deleteUser_complete],
    [AuthProps.postSetup_once], [AuthProps.postPassword_signs_out], [Update.updates_never_downgrade],
    [Update.message_injective], [Metrics.rollup_bucket], [Maintenance.agents_know_interval],
    [Systems.chart_series], [State.minute_averages], [State.live_chart], [AlertApi.notifier_secrets_hidden],
    [Notify.errors_hide_secrets], [Webauthn.parseAuthData_roundtrip], [Routes.routing_total],
    [Shell.shell_guarded], [AgentConfig.save_atomic], [AgentConfig.identity_stable],
    [AgentShell.script_leaves_nothing], [AgentProps.session_one_program],
    [AgentProps.token_forgotten], [AgentCommand.uninstall_clean],
    [AgentCommand.log_keeps_tail], [HubCommand.token_enrolls], [Collect.probe_single_flight] and
    [Processes.processes_busiest].

    Some theorems evaluate the model on an input where the code does not do what it
    means to: [Metrics.catch_up_rollup_degrades_bucket], [Systems.deleted_rule_stays_active],
    [Systems.reconnect_replaces_minute], [AlertApi.deleted_channel_stays_attached],
    [RunProps.final_bytes_left_out], [Notify.telegram_token_echoed],
    [Notify.mail_link_line_breaks], [Collect.counter_error_spike],
    [AgentCommand.macos_log_survives_purge], [Server.subscription_left_behind].

    ** Interleaving

    Every statement is atomic on the one connection, and the properties of the database are
    stated for [dbStep], a single operation, and its closure, which contains every interleaving
    of requests. The properties of the limiter, of challenges, alerts, links, runs, the
    report interval, the agent's sessions and its filesystem probes are stated for step relations whose
    steps are the critical sections of the code. Handlers themselves are sequential functions: theorems about one
    handler hold for a handler that is not interrupted. [execute] serves its systems in an arbitrary order given as
    an argument; what is published while an event stream waits is given by its rounds; the order in which Go visits
    a map is a parameter too.

    ** Bounds and fuel

    Loops are structural, or have a fuel that is shown to suffice: [overwrite] of [TailBuffer]
    consumes at least one byte a round, so the length of the data is enough
    (C32 is proved for the fuel the definition uses); the parser of [JSON] descends at most
    as deep as the text is long, and [JSON.value_fuel] shows that more fuel than it has changes nothing. The agent's endless loop of sessions is [Run],
    the state after a number of rounds. Times and durations are
    [int64] counts of nanoseconds, [timeSub] saturates as [Time.Sub] does. Go slices [nil] and
    empty are not distinguished in JSON values. Row numbers are unbounded integers, as SQLite
    would reach [int64]'s limit after 2^63 rows.

    ** What is not modelled

    The HTTP server, WebSocket and SSH transport, the SFTP server, the script for Windows and the
    contents of the embedded web interface, the reading of counters from the operating system,
    access control lists and process groups of Windows, what the commands print, restarting the
    agent's process, and the browser application: they are libraries, operating-system calls or another language. The
    time a stopping hub waits for links and runs is an argument: whatever they still do. Of the SQL of the migrations
    only the schema and the rows after the last one are modelled. The payloads of terminal requests are encoded by the SSH
    library. In [Server] a request is served without interruption: interleaving is covered for the
    operations of the store and for the step relations above, and not for the handlers among each other. *)
From stdpp Require Import base gmap list strings sorting.
From Stdlib Require Import ZArith Lia.

Declare Scope lotse_scope.
Delimit Scope lotse_scope with lotse.

(** ** Go integers and times *)

Definition two63 : Z := 9223372036854775808.
Definition maxInt64 : Z := two63 - 1.
Definition minInt64 : Z := - two63.

(** Two's complement wrap-around of an [int64] result. *)
Definition wrap64 (z : Z) : Z := (z + two63) mod (2 * two63) - two63.

(** [time.Duration] is an [int64] count of nanoseconds, [time.Time] is a count of
    nanoseconds since the Unix epoch; the zero [time.Time] is 1 January of year 1. *)
Definition nsec : Z := 1000000000.
Definition seconds (n : Z) : Z := n * nsec.
Definition minutes (n : Z) : Z := seconds (n * 60).
Definition hours (n : Z) : Z := minutes (n * 60).
Definition zeroTime : Z := - 62135596800 * nsec.
Definition isZeroTime (t : Z) : bool := Z.eqb t zeroTime.

(** [t.Unix()]: whole seconds, rounded towards minus infinity. *)
Definition unix (t : Z) : Z := t / nsec.
(** [time.Unix(s, 0)]. *)
Definition fromUnix (s : Z) : Z := s * nsec.
(** [t.Sub(u)] saturates at the limits of [time.Duration]. *)
Definition timeSub (t u : Z) : Z := Z.max minInt64 (Z.min maxInt64 (t - u)).

(** [d.Round(m)] of a [time.Duration]: halves away from zero, saturating. *)
Definition durationRound (d m : Z) : Z :=
  (if d <? 0 then
    let r := - Z.rem d m in
    if r + r <? m then d + r else if wrap64 (d - m + r) <? d then wrap64 (d - m + r) else minInt64
  else
    let r := Z.rem d m in
    if r + r <? m then d - r else if d <? wrap64 (d + m - r) then wrap64 (d + m - r) else maxInt64)%Z.

(** Go's [/] on integers truncates towards zero. *)
Notation "a /! b" := (Z.quot a b) (at level 40, left associativity) : lotse_scope.

(** ** A state monad

    Every operation of the program is a function from a state to a result and a
    new state. *)
Definition M (S A : Type) : Type := S → A * S.
#[export] Instance M_ret S : MRet (M S) := λ A a s, (a, s).
#[export] Instance M_bind S : MBind (M S) := λ A B k m s, let '(a, s') := m s in k a s'.

Definition mget {S} : M S S := λ s, (s, s).
Definition mput {S} (s : S) : M S unit := λ _, (tt, s).
Definition mmodify {S} (f : S → S) : M S unit := λ s, (tt, f s).
Definition mgets {S A} (f : S → A) : M S A := λ s, (f s, s).

(** [if err := m; err != nil { return err }]; the value is the message of the error, [None] for nil. *)
Notation "m ;? k" := (mbind (λ e, match e with Some _ => mret e | None => k end) m)
  (at level 100, right associativity, only parsing) : lotse_scope.

(** A primitive step, given as a function. *)
Definition mstate {S A} (f : S → A * S) : M S A := f.

(** [steps R m]: whatever [m] does is an [R]-step. Invariants are the case
    [R s s' := P s → P s'], frame conditions the case [R s s' := f s' = f s]. *)
Definition steps {S A} (R : S → S → Prop) (m : M S A) : Prop := ∀ s, R s (m s).2.
Definition keeps {S} (P : S → Prop) : S → S → Prop := λ s s', P s → P s'.
Definition frames {S B} (f : S → B) : S → S → Prop := λ s s', f s' = f s.

#[export] Instance keeps_preorder {S} (P : S → Prop) : PreOrder (keeps P).
Proof. split; unfold keeps; [intros s | intros s t u]; auto. Qed.
#[export] Instance frames_preorder {S B} (f : S → B) : PreOrder (frames f).
Proof. split; unfold frames; [intros s | intros s t u]; congruence. Qed.

(** [both R Q]: a step that is an [R]-step and a [Q]-step. *)
Definition both {S} (R Q : S → S → Prop) : S → S → Prop := λ s s', R s s' ∧ Q s s'.
#[export] Instance both_preorder {S} (R Q : S → S → Prop) `{!PreOrder R, !PreOrder Q} :
  PreOrder (both R Q).
Proof.
  split; unfold both.
  - intros s; split; reflexivity.
  - intros s t u [??] [??]; split; etrans; eauto.
Qed.

Section steps.
Context {S : Type} (R : S → S → Prop) `{!PreOrder R}.

Lemma steps_ret {A} (a : A) : steps R (mret a).
Proof. intros s; reflexivity. Qed.
Lemma steps_bind {A B} (m : M S A) (k : A → M S B) :
  steps R m → (∀ a, steps R (k a)) → steps R (m ≫= k).
Proof.
  intros Hm Hk s. unfold mbind, M_bind.
  destruct (m s) as [a s'] eqn:E.
  transitivity s'; [pose proof (Hm s) as H; by rewrite E in H | apply Hk].
Qed.
Lemma steps_get : steps R (@mget S).
Proof. intros s; reflexivity. Qed.
Lemma steps_gets {A} (f : S → A) : steps R (mgets f).
Proof. intros s; reflexivity. Qed.
Lemma steps_modify (f : S → S) : (∀ s, R s (f s)) → steps R (mmodify f).
Proof. intros H s. apply H. Qed.
Lemma steps_state {A} (f : S → A * S) : (∀ s, R s (f s).2) → steps R (mstate f).
Proof. intros H s. apply H. Qed.
Lemma steps_if {A} (b : bool) (m1 m2 : M S A) :
  steps R m1 → steps R m2 → steps R (if b then m1 else m2).
Proof. by destruct b. Qed.
End steps.

Lemma steps_and {S A} (R Q : S → S → Prop) (m : M S A) :
  steps R m → steps Q m → steps (both R Q) m.
Proof. intros Hr Hq s. split; [apply Hr|apply Hq]. Qed.

Create HintDb steps discriminated.

(** One syntax-directed step of a [steps] proof: binds, returns, conditionals and
    matches; what is left are the primitive state changes of the component. *)
Ltac step1 :=
  lazymatch goal with
  | |- steps _ (mbind _ _) => apply steps_bind; [ apply _ | | intros ? ]
  | |- steps _ (mret _) => apply steps_ret; apply _
  | |- steps _ mget => apply steps_get; apply _
  | |- steps _ (mgets _) => apply steps_gets; apply _
  | |- steps _ (if ?b then _ else _) => destruct b
  | |- steps _ (match ?x with _ => _ end) => destruct x
  | |- steps _ (let '_ := ?x in _) => destruct x
  end.
Ltac go_steps := repeat first [ solve [eauto 2 with steps] | step1 ].

(** ** Weakest preconditions, for reasoning about what an operation answers *)
Definition wp {S A} (m : M S A) (Q : A → S → Prop) (s : S) : Prop := Q (m s).1 (m s).2.

Section wp.
Context {S : Type}.
Implicit Types (s : S).
Lemma wp_ret {A} (a : A) (Q : A → S → Prop) s : Q a s → wp (mret a) Q s.
Proof. done. Qed.
Lemma wp_bind {A B} (m : M S A) (k : A → M S B) Q s :
  wp m (λ a, wp (k a) Q) s → wp (m ≫= k) Q s.
Proof. unfold wp, mbind, M_bind. by destruct (m s). Qed.
Lemma wp_modify (f : S → S) (Q : unit → S → Prop) s : Q tt (f s) → wp (mmodify f) Q s.
Proof. done. Qed.
Lemma wp_get (Q : S → S → Prop) s : Q s s → wp mget Q s.
Proof. done. Qed.
Lemma wp_gets {A} (f : S → A) (Q : A → S → Prop) s : Q (f s) s → wp (mgets f) Q s.
Proof. done. Qed.
Lemma wp_mono {A} (m : M S A) (Q Q' : A → S → Prop) s :
  wp m Q s → (∀ a s', Q a s' → Q' a s') → wp m Q' s.
Proof. unfold wp. eauto. Qed.
Lemma wp_and {A} (m : M S A) (Q Q' : A → S → Prop) s :
  wp m Q s → wp m Q' s → wp m (λ a s', Q a s' ∧ Q' a s') s.
Proof. done. Qed.
(** Use only what kind of step [m] makes. *)
Lemma wp_steps {A} (R : S → S → Prop) (m : M S A) (Q : A → S → Prop) s :
  steps R m → (∀ a s', R s s' → Q a s') → wp m Q s.
Proof. intros Hm HQ. apply HQ, Hm. Qed.
Lemma wp_let {A} (m : M S A) (Q : A → S → Prop) s : wp m Q s → let '(a, s') := m s in Q a s'.
Proof. unfold wp. by destruct (m s). Qed.
Lemma wp_run {A} (m : M S A) (Q : A → S → Prop) s a s' : wp m Q s → m s = (a, s') → Q a s'.
Proof. unfold wp. intros Hq Heq. by rewrite Heq in Hq. Qed.
End wp.

#[global] Arguments wp : simpl never.

(** ** Results of fallible operations *)
Inductive result (E A : Type) : Type :=
| Ok (a : A)
| Err (e : E).
Arguments Ok {E A} a.
Arguments Err {E A} e.

Definition is_ok {E A} (r : result E A) : bool := match r with Ok _ => true | Err _ => false end.

(** ** Lists *)
Section lists.
Context {A : Type}.
Implicit Types (l : list A) (p : A → bool) (f : A → A).

(** UPDATE: apply [f] to the rows that satisfy [p]. *)
Definition updateWhere p f l : list A := map (λ x, if p x then f x else x) l.
(** WHERE: the rows that satisfy [p]. *)
Definition selectWhere p l : list A := List.filter p l.
(** DELETE: the rows that do not satisfy [p]. *)
Definition deleteWhere p l : list A := List.filter (λ x, negb (p x)) l.
Definition countWhere p l : nat := length (List.filter p l).
Definition existsWhere p l : bool := existsb p l.

Lemma elem_of_selectWhere p l x : x ∈ selectWhere p l ↔ x ∈ l ∧ p x = true.
Proof. unfold selectWhere. rewrite !list_elem_of_In, filter_In. done. Qed.
Lemma elem_of_deleteWhere p l x : x ∈ deleteWhere p l ↔ x ∈ l ∧ p x = false.
Proof. unfold deleteWhere. rewrite !list_elem_of_In, filter_In, negb_true_iff. done. Qed.
Lemma elem_of_updateWhere p f l x :
  x ∈ updateWhere p f l ↔ ∃ y, y ∈ l ∧ x = (if p y then f y else y).
Proof. unfold updateWhere. rewrite list_elem_of_fmap. naive_solver. Qed.
Lemma existsWhere_true p l : existsWhere p l = true ↔ ∃ x, x ∈ l ∧ p x = true.
Proof.
  unfold existsWhere. rewrite existsb_exists.
  setoid_rewrite list_elem_of_In. done.
Qed.
Lemma existsWhere_false p l : existsWhere p l = false ↔ ∀ x, x ∈ l → p x = false.
Proof.
  rewrite <-not_true_iff_false, existsWhere_true.
  setoid_rewrite <-not_true_iff_false. naive_solver.
Qed.
Lemma countWhere_pos p l : (0 < countWhere p l)%nat ↔ ∃ x, x ∈ l ∧ p x = true.
Proof.
  setoid_rewrite <-elem_of_selectWhere. unfold countWhere, selectWhere.
  destruct (List.filter p l) as [|y k]; cbn.
  - split; [lia | intros (x & Hx)]. by apply not_elem_of_nil in Hx.
  - split; [intros _; exists y; constructor | lia].
Qed.
Lemma countWhere_cons p x l : countWhere p (x :: l) = ((if p x then 1 else 0) + countWhere p l)%nat.
Proof. unfold countWhere. cbn. by destruct (p x). Qed.
Lemma countWhere_zero p l : countWhere p l = 0%nat ↔ ∀ x, x ∈ l → p x = false.
Proof.
  rewrite <-existsWhere_false, <-not_true_iff_false, existsWhere_true, <-countWhere_pos. lia.
Qed.
Lemma map_updateWhere {B} (g : A → B) p f l :
  (∀ x, p x = true → g (f x) = g x) → map g (updateWhere p f l) = map g l.
Proof.
  intros H. unfold updateWhere. rewrite map_map. apply map_ext. intros x.
  destruct (p x) eqn:E; [by apply H | done].
Qed.
End lists.
(** A column with distinct values identifies the row. *)
Lemma key_unique {A K} (key : A → K) (l : list A) (x y : A) :
  NoDup (map key l) → x ∈ l → y ∈ l → key x = key y → x = y.
Proof.
  induction l as [|z l IH]; cbn; [by intros _ ?%not_elem_of_nil|]. rewrite NoDup_cons, !elem_of_cons.
  intros [Hz Hn] Hx Hy Hk. destruct Hx as [->|Hx], Hy as [->|Hy]; [done| | |by apply IH]; exfalso; apply Hz;
    apply list_elem_of_fmap; eauto.
Qed.
#[global] Arguments updateWhere : simpl never.
#[global] Arguments selectWhere : simpl never.
#[global] Arguments deleteWhere : simpl never.
#[global] Arguments countWhere : simpl never.
#[global] Arguments existsWhere : simpl never.

(** ORDER BY: sorting with a boolean comparison. *)
#[export] Instance boolrel_dec {A} (le : A → A → bool) : RelDecision (λ a b, le a b = true) :=
  λ a b, decide (le a b = true).
Definition sortBy {A} (le : A → A → bool) (l : list A) : list A :=
  merge_sort (λ a b, le a b = true) l.
Lemma sortBy_perm {A} (le : A → A → bool) (l : list A) : sortBy le l ≡ₚ l.
Proof. apply merge_sort_Permutation. Qed.

(** [r] followed by case analysis on every boolean test and option in sight. *)
Ltac bool_hyps :=
  repeat match goal with
  | H : _ && _ = true |- _ => apply andb_true_iff in H; destruct H
  | H : _ || _ = false |- _ => apply orb_false_iff in H; destruct H
  | H : negb _ = true |- _ => apply negb_true_iff in H
  | H : negb _ = false |- _ => apply negb_false_iff in H
  | H : Z.eqb _ _ = true |- _ => apply Z.eqb_eq in H
  | H : Z.eqb _ _ = false |- _ => apply Z.eqb_neq in H
  | H : Z.ltb _ _ = true |- _ => apply Z.ltb_lt in H
  | H : Z.ltb _ _ = false |- _ => apply Z.ltb_ge in H
  | H : Z.leb _ _ = true |- _ => apply Z.leb_le in H
  | H : Z.leb _ _ = false |- _ => apply Z.leb_gt in H
  | H : Nat.ltb _ _ = true |- _ => apply Nat.ltb_lt in H
  | H : Nat.ltb _ _ = false |- _ => apply Nat.ltb_ge in H
  | H : Nat.leb _ _ = true |- _ => apply Nat.leb_le in H
  | H : Nat.leb _ _ = false |- _ => apply Nat.leb_gt in H
  | H : Nat.eqb _ _ = true |- _ => apply Nat.eqb_eq in H
  | H : Nat.eqb _ _ = false |- _ => apply Nat.eqb_neq in H
  | H : String.eqb _ _ = true |- _ => apply String.eqb_eq in H
  | H : String.eqb _ _ = false |- _ => apply String.eqb_neq in H
  | H : bool_decide _ = true |- _ => apply bool_decide_eq_true in H
  | H : bool_decide _ = false |- _ => apply bool_decide_eq_false in H
  end.

Ltac case_all :=
  repeat (case_match; simplify_eq/=; try done).

Lemma unix_mono t u : (t ≤ u)%Z → (unix t ≤ unix u)%Z.
Proof. intros H. unfold unix, nsec. by apply Z.div_le_mono. Qed.
Lemma unix_fromUnix s : unix (fromUnix s) = s.
Proof. unfold unix, fromUnix, nsec. by rewrite Z.div_mul. Qed.
Lemma timeSub_exact t u : (minInt64 ≤ t - u ≤ maxInt64)%Z → timeSub t u = (t - u)%Z.
Proof. unfold timeSub. lia. Qed.
