(* ===== verification/GoStrings.v ===== *)
(** * Strings, UTF-8 and numbers of the Go standard library

    Go strings and byte slices are byte sequences; [String.string] is one too. The
    functions here follow the library functions the program calls: [unicode/utf8]
    ([RuneStart], [FullRune], [RuneCountInString]), [strings] ([TrimSpace], [Split],
    [Cut], [HasPrefix], ...) and [strconv] ([ParseInt], [Atoi]). *)
From S2P Require Import Prelude.
From Stdlib Require Import ZArith Lia Ascii String.
From stdpp Require Import base strings pretty list.
Local Open Scope Z_scope.

(** ** Bytes of a string *)
Definition byte_of (a : ascii) : Z := Z.of_N (N_of_ascii a).
Definition ascii_of (b : Z) : ascii := ascii_of_N (Z.to_N b).
Definition bytesOf (s : string) : list Z := map byte_of (String.list_ascii_of_string s).
Definition stringOf (l : list Z) : string := String.string_of_list_ascii (map ascii_of l).
(** [len(s)]. *)
Definition strLen (s : string) : Z := Z.of_nat (String.length s).
Definition isByte (b : Z) : Prop := 0 ≤ b < 256.

Lemma byte_of_range a : isByte (byte_of a).
Proof. unfold isByte, byte_of. pose proof (N_ascii_bounded a). lia. Qed.
Lemma ascii_of_byte_of a : ascii_of (byte_of a) = a.
Proof. unfold ascii_of, byte_of. by rewrite N2Z.id, ascii_N_embedding. Qed.
Lemma stringOf_bytesOf s : stringOf (bytesOf s) = s.
Proof.
  unfold stringOf, bytesOf. rewrite map_map.
  rewrite (map_ext _ (λ a, a)) by apply ascii_of_byte_of.
  by rewrite map_id, string_of_list_ascii_of_string.
Qed.
Lemma bytesOf_isByte s : Forall isByte (bytesOf s).
Proof. unfold bytesOf. apply Forall_forall. intros x (a & -> & _)%list_elem_of_fmap. apply byte_of_range. Qed.
Lemma bytesOf_stringOf l : Forall isByte l → bytesOf (stringOf l) = l.
Proof.
  unfold bytesOf, stringOf. rewrite list_ascii_of_string_of_list_ascii, map_map.
  induction 1 as [|b l Hb Hl IH]; [done|]. cbn [map]. rewrite IH. f_equal. unfold byte_of, ascii_of, isByte in *. rewrite N_ascii_embedding; lia.
Qed.
Lemma stringOf_app a b : stringOf (a ++ b) = (stringOf a ++ stringOf b)%string.
Proof.
  unfold stringOf. rewrite map_app. induction (map ascii_of a) as [|x l IH]; [done|].
  cbn. by rewrite IH.
Qed.
Lemma length_list_ascii s : length (String.list_ascii_of_string s) = String.length s.
Proof. induction s; cbn; congruence. Qed.
Lemma strLen_bytesOf s : strLen s = Z.of_nat (length (bytesOf s)).
Proof. unfold strLen, bytesOf. by rewrite length_map, length_list_ascii. Qed.

Lemma append_cons a s t : (String a s ++ t)%string = String a (s ++ t).
Proof. done. Qed.
Lemma append_nil t : (EmptyString ++ t)%string = t.
Proof. done. Qed.
Lemma append_assoc s t u : (s ++ (t ++ u))%string = ((s ++ t) ++ u)%string.
Proof. induction s as [|a s IH]; [done|]. by rewrite !append_cons, IH. Qed.
Lemma append_nil_r s : (s ++ EmptyString)%string = s.
Proof. induction s as [|a s IH]; [done|]. by rewrite append_cons, IH. Qed.
Lemma length_append (s t : string) : String.length (s ++ t)%string = (String.length s + String.length t)%nat.
Proof. induction s as [|a s IH]; [done|]. rewrite append_cons. cbn. by rewrite IH. Qed.
Lemma strLen_append s t : strLen (s ++ t)%string = strLen s + strLen t.
Proof. unfold strLen. rewrite length_append. lia. Qed.
Lemma strLen_nonneg s : 0 ≤ strLen s.
Proof. unfold strLen. lia. Qed.

(** ** UTF-8 *)
Definition UTFMax : Z := 4.
(** Continuation bytes are 10xxxxxx. *)
Definition RuneStart (b : Z) : bool := negb (Z.eqb (Z.land b 192) 128).

(** For a first byte: the length of the sequence it announces and the range of the
    second byte; bytes that cannot start a sequence count as one-byte sequences. *)
Definition runeFirst (b : Z) : nat * Z * Z :=
  if (b <? 194) then (1%nat, 0, 0)
  else if (b <? 224) then (2%nat, 128, 191)
  else if (b =? 224) then (3%nat, 160, 191)
  else if (b =? 237) then (3%nat, 128, 159)
  else if (b <? 240) then (3%nat, 128, 191)
  else if (b =? 240) then (4%nat, 144, 191)
  else if (b <? 244) then (4%nat, 128, 191)
  else if (b =? 244) then (4%nat, 128, 143)
  else (1%nat, 0, 0).
Definition isCont (b : Z) : bool := (128 <=? b) && (b <=? 191).

(** [utf8.FullRune]: the bytes begin with a full encoding (or one that is already
    known to be invalid, which decodes as an error of width 1). *)
Definition FullRune (p : list Z) : bool :=
  match p with
  | [] => false
  | b0 :: rest =>
    let '(n, lo, hi) := runeFirst b0 in
    if (n <=? length p)%nat then true
    else match rest with
         | [] => false
         | b1 :: rest' =>
           if (b1 <? lo) || (hi <? b1) then true
           else match rest' with
                | [] => false
                | b2 :: _ => negb (isCont b2)
                end
         end
  end.

(** The width [utf8.DecodeRune] reports for the first character. *)
Definition runeWidth (p : list Z) : nat :=
  match p with
  | [] => 0%nat
  | b0 :: rest =>
    let '(n, lo, hi) := runeFirst b0 in
    let ok1 b1 := (lo <=? b1) && (b1 <=? hi) in
    match n, rest with
    | 2%nat, b1 :: _ => if ok1 b1 then 2%nat else 1%nat
    | 3%nat, b1 :: b2 :: _ => if ok1 b1 && isCont b2 then 3%nat else 1%nat
    | 4%nat, b1 :: b2 :: b3 :: _ =>
      if ok1 b1 && isCont b2 && isCont b3 then 4%nat else 1%nat
    | _, _ => 1%nat
    end
  end.
Fixpoint runeCount (fuel : nat) (p : list Z) : nat :=
  match fuel, p with
  | S f, _ :: _ => S (runeCount f (drop (runeWidth p) p))
  | _, _ => 0
  end.
(** [utf8.RuneCountInString]; every character takes at least one byte, so the length
    of the string is enough fuel. *)
Definition RuneCountInString (s : string) : Z :=
  Z.of_nat (runeCount (length (bytesOf s)) (bytesOf s)).

Lemma runeWidth_pos b p : (1 ≤ runeWidth (b :: p))%nat.
Proof. unfold runeWidth. repeat case_match; lia. Qed.
Lemma runeCount_le f p : (runeCount f p ≤ length p)%nat.
Proof.
  revert p; induction f as [|f IH]; intros [|b p]; [cbn; lia.. |].
  cbn [runeCount]. specialize (IH (drop (runeWidth (b :: p)) (b :: p))).
  rewrite length_drop in IH. pose proof (runeWidth_pos b p). cbn [length] in *. lia.
Qed.
Lemma RuneCount_strLen s : RuneCountInString s ≤ strLen s.
Proof.
  unfold RuneCountInString. rewrite strLen_bytesOf.
  pose proof (runeCount_le (length (bytesOf s)) (bytesOf s)). lia.
Qed.

(** ** Trimming: [strings.TrimSpace]

    The encodings of the characters with the Unicode property White_Space. *)
Definition spaceSeqs : list (list Z) :=
  [[9]; [10]; [11]; [12]; [13]; [32]; [194; 133]; [194; 160]; [225; 154; 128];
   [226; 128; 128]; [226; 128; 129]; [226; 128; 130]; [226; 128; 131]; [226; 128; 132];
   [226; 128; 133]; [226; 128; 134]; [226; 128; 135]; [226; 128; 136]; [226; 128; 137];
   [226; 128; 138]; [226; 128; 168]; [226; 128; 169]; [226; 128; 175]; [226; 129; 159];
   [227; 128; 128]].

Fixpoint stripPrefix (p l : list Z) : option (list Z) :=
  match p, l with
  | [], _ => Some l
  | x :: p', y :: l' => if x =? y then stripPrefix p' l' else None
  | _ :: _, [] => None
  end.
Fixpoint stripAny (seqs : list (list Z)) (l : list Z) : option (list Z) :=
  match seqs with
  | [] => None
  | p :: ps => match stripPrefix p l with Some l' => Some l' | None => stripAny ps l end
  end.
Fixpoint stripAll (seqs : list (list Z)) (fuel : nat) (l : list Z) : list Z :=
  match fuel with
  | O => l
  | S f => match stripAny seqs l with Some l' => stripAll seqs f l' | None => l end
  end.
Definition trimLeftBytes (l : list Z) : list Z := stripAll spaceSeqs (length l) l.
Definition trimRightBytes (l : list Z) : list Z :=
  reverse (stripAll (map reverse spaceSeqs) (length l) (reverse l)).
Definition TrimSpace (s : string) : string :=
  stringOf (trimRightBytes (trimLeftBytes (bytesOf s))).

(** ** Searching and splitting *)
Definition HasPrefix (s p : string) : bool := String.prefix p s.
Definition TrimPrefix (s p : string) : string :=
  if String.prefix p s then String.substring (String.length p) (String.length s - String.length p) s else s.

(** [strings.Cut] at the first byte [c]. *)
Fixpoint Cut (c : ascii) (s : string) : string * string * bool :=
  match s with
  | EmptyString => (EmptyString, EmptyString, false)
  | String a r =>
    if Ascii.eqb a c then (EmptyString, r, true)
    else let '(b, af, ok) := Cut c r in (String a b, af, ok)
  end.
(** [strings.Split] on a single byte: never empty. *)
Fixpoint Split (c : ascii) (s : string) : list string :=
  match s with
  | EmptyString => [EmptyString]
  | String a r =>
    if Ascii.eqb a c then EmptyString :: Split c r
    else match Split c r with
         | [] => [String a EmptyString]
         | h :: t => String a h :: t
         end
  end.
Fixpoint containsByte (c : ascii) (s : string) : bool :=
  match s with EmptyString => false | String a r => Ascii.eqb a c || containsByte c r end.
(** [strings.ContainsAny] for ASCII character sets. *)
Definition ContainsAny (s : string) (cs : list ascii) : bool := existsb (λ c, containsByte c s) cs.
Fixpoint Join (sep : string) (l : list string) : string :=
  match l with
  | [] => EmptyString
  | [x] => x
  | x :: r => (x ++ sep ++ Join sep r)%string
  end.

Definition lowerByte (a : ascii) : ascii :=
  let n := byte_of a in if (65 <=? n) && (n <=? 90) then ascii_of (n + 32) else a.
(** SQLite's NOCASE collation folds the 26 ASCII letters only. *)
Fixpoint nocase (s : string) : string :=
  match s with EmptyString => EmptyString | String a r => String (lowerByte a) (nocase r) end.
Definition nocaseEq (a b : string) : bool := String.eqb (nocase a) (nocase b).

(** [strings.EqualFold] for an ASCII second argument: besides the 26 letters, U+017F folds
    to s and U+212A to k. *)
Definition lowerZ (b : Z) : Z := if (65 <=? b) && (b <=? 90) then b + 32 else b.
Fixpoint foldBytes (l : list Z) : list Z :=
  match l with
  | b :: ((c :: r1) as r) =>
    if (b =? 197) && (c =? 191) then 115 :: foldBytes r1
    else match r1 with
         | d :: r2 => if (b =? 226) && (c =? 132) && (d =? 170) then 107 :: foldBytes r2
                      else lowerZ b :: foldBytes r
         | [] => lowerZ b :: foldBytes r
         end
  | [b] => [lowerZ b]
  | [] => []
  end.
Definition EqualFold (s t : string) : bool := bool_decide (foldBytes (bytesOf s) = foldBytes (bytesOf t)).
(** [strings.ReplaceAll(s, " ", "")]. *)
Fixpoint removeSpaces (s : string) : string :=
  match s with
  | EmptyString => EmptyString
  | String a r => if Ascii.eqb a " " then removeSpaces r else String a (removeSpaces r)
  end.

(** Comparison of SQLite's NOCASE collation, for ORDER BY. *)
Definition nocaseLe (a b : string) : bool :=
  match String.compare (nocase a) (nocase b) with Gt => false | _ => true end.

(** ** Numbers *)
Definition digitVal (a : ascii) : option Z :=
  let n := byte_of a in if (48 <=? n) && (n <=? 57) then Some (n - 48) else None.
Fixpoint digitsVal (acc : Z) (s : string) : option Z :=
  match s with
  | EmptyString => Some acc
  | String a r => match digitVal a with Some d => digitsVal (acc * 10 + d) r | None => None end
  end.
Definition parseDigits (s : string) : option Z :=
  match s with EmptyString => None | _ => digitsVal 0 s end.

(** [strconv.ParseInt(s, 10, bits)]: the value and whether [err == nil]. A syntax error
    yields 0, a range error the nearest value that fits. *)
Definition ParseInt (bits : Z) (s : string) : Z * bool :=
  let '(neg, ds) := match s with
                    | String "+" r => (false, r)
                    | String "-" r => (true, r)
                    | _ => (false, s)
                    end%char in
  match parseDigits ds with
  | None => (0, false)
  | Some n =>
    let cutoff := 2 ^ (bits - 1) in
    if neg then (if cutoff <? n then (- cutoff, false) else (- n, true))
    else (if cutoff <=? n then (cutoff - 1, false) else (n, true))
  end.
Definition Atoi (s : string) : Z * bool := ParseInt 64 s.
(** [%d] of an integer. *)
Definition itoa (z : Z) : string := pretty z.

Lemma ParseInt_range bits s : 1 ≤ bits →
  - 2 ^ (bits - 1) ≤ (ParseInt bits s).1 < 2 ^ (bits - 1).
Proof.
  intros Hb. assert (1 ≤ 2 ^ (bits - 1)) by (apply (Z.pow_le_mono_r 2 0); lia).
  unfold ParseInt. destruct (match s with EmptyString => _ | _ => _ end) as [neg ds].
  destruct (parseDigits ds) as [n|] eqn:Hd; [|cbn; lia].
  assert (0 ≤ n).
  { unfold parseDigits in Hd. destruct ds as [|a r]; [done|]. revert Hd.
    generalize (String a r). clear. intros s.
    assert (G : ∀ s acc, 0 ≤ acc → ∀ n, digitsVal acc s = Some n → 0 ≤ n); [|by apply G].
    induction s0 as [|b t IH]; cbn; intros acc Ha m Hm; [by simplify_eq|].
    unfold digitVal in Hm. case_match eqn:E; [|done].
    case_match eqn:E2; [|done]. simplify_eq. bool_hyps. eapply IH; [|done]. lia. }
  destruct neg; case_match eqn:E; cbn; bool_hyps; lia.
Qed.
