(* ===== verification/Float64.v ===== *)
(** * Go's [float64]

    IEEE 754 binary64 as the executable specification of the Standard Library
    ([SpecFloat] with 53 bits of precision and maximal exponent 1024). *)
From Stdlib Require Import ZArith SpecFloat Ascii String.
From S2P Require Import Prelude.
From stdpp Require Import base strings pretty.
Local Open Scope Z_scope.

Definition f64 : Type := spec_float.
Definition fprec : Z := 53.
Definition femax : Z := 1024.
Definition fzero : f64 := S754_zero false.
Definition fnan : f64 := S754_nan.
(** [float64(n)] of an integer, rounded to nearest even. *)
Definition ofInt (n : Z) : f64 := binary_normalize fprec femax n 0 false.
Definition fadd (a b : f64) : f64 := SFadd fprec femax a b.
Definition fmul (a b : f64) : f64 := SFmul fprec femax a b.
Definition fdiv (a b : f64) : f64 := SFdiv fprec femax a b.
(** The comparisons of Go: all false when an operand is NaN. *)
Definition flt (a b : f64) : bool := SFltb a b.
Definition fle (a b : f64) : bool := SFleb a b.
Definition fgt (a b : f64) : bool := SFltb b a.
Definition fge (a b : f64) : bool := SFleb b a.

Definition fsub (a b : f64) : f64 := SFsub fprec femax a b.
(** The built-in [min] and [max]: NaN when an operand is. *)
Definition fmin (a b : f64) : f64 :=
  match a, b with S754_nan, _ | _, S754_nan => fnan | _, _ => if SFltb b a then b else a end.
Definition fmax (a b : f64) : f64 :=
  match a, b with S754_nan, _ | _, S754_nan => fnan | _, _ => if SFltb a b then b else a end.

(** [%.1f]: the exact value rounded to tenths, ties to even. *)
Definition roundHalfEven (num den : Z) : Z :=
  let q := num / den in
  match 2 * (num mod den) ?= den with Lt => q | Gt => q + 1 | Eq => if Z.even q then q else q + 1 end.
Definition formatF1 (f : f64) : string :=
  match f with
  | S754_nan => "NaN"
  | S754_infinity s => if s then "-Inf" else "+Inf"
  | S754_zero s => if s then "-0.0" else "0.0"
  | S754_finite s m e =>
    let tenths := if 0 <=? e then Z.pos m * 2 ^ e * 10 else roundHalfEven (Z.pos m * 10) (2 ^ (- e)) in
    ((if s then "-" else "") ++ pretty (tenths / 10) ++ "." ++ pretty (tenths mod 10))%string
  end.
Example formatF1_half : formatF1 (fdiv (ofInt 1536) (ofInt 1024)) = "1.5"%string.
Proof. reflexivity. Qed.

Example ofInt_90 : fgt (fmul (fdiv (ofInt 91) (ofInt 100)) (ofInt 100)) (ofInt 90) = true.
Proof. reflexivity. Qed.
Example fgt_nan : fgt fnan fzero = false.
Proof. reflexivity. Qed.
