(* ===== verification/Library.v ===== *)
(** * Code outside the repository

    What the program takes from cryptographic and network libraries and from the
    renderers of the standard library, as parameters: every definition that uses one of
    these functions has the class [Lib] as an argument. Theorems that need more than
    determinism of them state it as a hypothesis. *)
From Stdlib Require Import ZArith Ascii String.
From S2P Require Import Prelude.
From stdpp Require Import base gmap strings pretty list.

(** [netip.Addr]: an IPv4 address, or an IPv6 address with its zone. *)
Inductive netAddr : Type :=
| Addr4 (n : Z)
| Addr6 (n : Z) (zone : string).
#[export] Instance netAddr_eq_dec : EqDecision netAddr.
Proof. solve_decision. Defined.

(** The keys [x509.ParsePKIXPublicKey] returns, with what the program asks of them. *)
Inductive pubKey : Type :=
| EcdsaKey (key : string) (p256 : bool)
| Ed25519Key (key : string)
| RsaKey (key : string) (bitLen : Z)
| OtherKey.
Record parsedURL := mkURL { url_Scheme : string; url_Host : string; url_Hostname : string }.

Class Lib := {
  (** [fmt]'s [%q]. *)
  Quote : string → string;
  (** [crypto/sha256]. *)
  sha256 : string → string;
  (** [encoding/base64], raw URL alphabet. *)
  b64urlEncode : string → string;
  b64urlDecode : string → option string;
  (** [bcrypt.GenerateFromPassword] with a salt; [None] is an error. *)
  bcryptGenerate : string → string → option string;
  (** [bcrypt.CompareHashAndPassword(hash, password) == nil]. *)
  bcryptCompare : string → string → bool;
  (** [totp.GenerateCodeCustom(secret, time.Unix(t, 0), totpOpts)]. *)
  totpCode : string → Z → option string;
  (** [totp.Generate]: the secret of a new key from a random seed. *)
  totpGenerate : string → string → option string;
  (** [net/netip]: parsing and printing. *)
  ParseAddr : string → option netAddr;
  ParseAddrPort : string → option netAddr;
  ParsePrefix : string → option (netAddr * Z);
  addrString : netAddr → string;
  prefixString : netAddr → Z → string;
  (** [encoding/base64], standard alphabet; [crypto/ed25519]: [Verify(key, message, sig)]. *)
  b64Decode : string → option string;
  ed25519Verify : string → string → string → bool;
  (** [crypto/x509.ParsePKIXPublicKey] and the verification of a signature [sig] over a
      digest with an ECDSA key or over a message digest with an RSA key. *)
  ParsePKIXPublicKey : string → option pubKey;
  ecdsaVerifyASN1 : string → string → string → bool;
  rsaVerifyPKCS1v15 : string → string → string → bool;
  (** [net/url.Parse]: scheme, host (with port) and hostname. *)
  urlParse : string → option parsedURL;
  (** [netip.AddrPort.String]. *)
  addrPortString : netAddr → Z → string;
  (** [net.ParseIP(s).To4()]. *)
  ParseIP4 : string → option Z;
  (** [net.SplitHostPort]: the host. *)
  SplitHostPort : string → option string;
  (** [net.ParseMAC]: the bytes of the address. *)
  netParseMAC : string → option (list Z);
  (** [net.ParseCIDR] of an IPv4 network: address and prefix length; [None] for an error or
      an IPv6 address. *)
  ParseCIDR4 : string → option (Z * Z);
  (** The address [net.ParseCIDR] returns. *)
  ParseCIDRAddr : string → option netAddr;
  (** Printing of an IPv4 address. *)
  ip4String : Z → string;
  (** The order in which [range] visits a map; Go leaves it open. *)
  rangeOrder : gmap string nat → list (string * nat);
}.

(** [Addr.Unmap]: an IPv4-mapped IPv6 address (::ffff:a.b.c.d) becomes the IPv4 address. *)
Definition Unmap (a : netAddr) : netAddr :=
  match a with
  | Addr6 n _ => if Z.eqb (Z.shiftr n 32) 65535 then Addr4 (Z.land n 4294967295) else a
  | Addr4 _ => a
  end.
Definition Is6 (a : netAddr) : bool := match a with Addr6 _ _ => true | Addr4 _ => false end.
Definition BitLen (a : netAddr) : Z := match a with Addr6 _ _ => 128 | Addr4 _ => 32 end.
(** [Addr.Prefix(bits)] and [Prefix.Masked]: the network part, without a zone. *)
Definition maskAddr (a : netAddr) (bits : Z) : netAddr :=
  match a with
  | Addr4 n => Addr4 (Z.shiftl (Z.shiftr n (32 - bits)) (32 - bits))
  | Addr6 n _ => Addr6 (Z.shiftl (Z.shiftr n (128 - bits)) (128 - bits)) EmptyString
  end.
(** [Prefix.Contains]: same family, no zone, same network part. *)
Definition prefixContains (p : netAddr * Z) (a : netAddr) : bool :=
  match p.1, a with
  | Addr4 x, Addr4 y => Z.eqb (Z.shiftr x (32 - p.2)) (Z.shiftr y (32 - p.2))
  | Addr6 x _, Addr6 y z => String.eqb z EmptyString && Z.eqb (Z.shiftr x (128 - p.2)) (Z.shiftr y (128 - p.2))
  | _, _ => false
  end.

(** A concrete instance, to evaluate the model on examples: the identity stands for the
    hash, passwords are stored with a prefix, a TOTP code is the time, an address is
    written as an @ and as many characters as its number. *)
Definition demoLib : Lib := {|
  Quote s := s;
  sha256 s := s;
  b64urlEncode s := s;
  b64urlDecode s := Some s;
  bcryptGenerate salt pw := Some (salt ++ pw)%string;
  bcryptCompare h pw := String.eqb h (String.append "salt" pw);
  totpCode secret t := Some (pretty t);
  totpGenerate issuer seed := Some seed;
  ParseAddr s := match s with String "@"%char r => Some (Addr4 (Z.of_nat (String.length r))) | _ => None end;
  ParseAddrPort s := match s with String "@"%char r => Some (Addr4 (Z.of_nat (String.length r))) | _ => None end;
  ParsePrefix s := None;
  addrString a := EmptyString;
  prefixString a n := EmptyString;
  b64Decode s := Some s;
  ed25519Verify key msg sig := String.eqb sig (key ++ msg);
  ParsePKIXPublicKey s := Some (Ed25519Key s);
  ecdsaVerifyASN1 key digest sig := String.eqb sig (key ++ digest);
  rsaVerifyPKCS1v15 key digest sig := String.eqb sig (key ++ digest);
  urlParse s := Some (mkURL "https" s s);
  addrPortString a n := EmptyString;
  ParseIP4 s := Some 4294967295%Z;
  SplitHostPort s := Some s;
  netParseMAC s := Some [2; 0; 0; 0; 0; 1]%Z;
  ParseCIDR4 s := Some (3232235796, 24)%Z;
  ParseCIDRAddr s := Some (Addr4 3232235796)%Z;
  ip4String z := pretty z;
  rangeOrder m := map_to_list m;
|}.
