(* ===== verification/Version.v ===== *)
(** * Build metadata ([internal/version/version.go]) *)
From Stdlib Require Import ZArith Ascii String.
From S2P Require Import Prelude GoStrings.
From stdpp Require Import base strings list.
Local Open Scope string_scope.
Local Open Scope Z_scope.

Definition AppName : string := "lotse".
Definition AgentName : string := AppName +:+ "-agent".
Definition Repo : string := "Jackolix/Lotse".
Definition startsWithDigit (s : string) : bool :=
  match s with String a _ => bool_decide (is_Some (digitVal a)) | EmptyString => false end.
(** [Version] is set when the program is built. *)
Definition ReleaseAssetURL (version file : string) : string :=
  if String.eqb version "" || String.eqb version "dev" || negb (startsWithDigit version) then ""
  else "https://github.com/" +:+ Repo +:+ "/releases/download/v" +:+ version +:+ "/" +:+ file.
