(* ===== verification/Paths.v ===== *)
(** * Slash-separated paths and the quoting of commands

    [path] of the Go standard library as far as the program uses it ([Clean], [Join], [Base],
    [Dir]), [remotePath] of [internal/hub/files.go], which cleans the paths browsers send, and
    [strings.ReplaceAll]. *)
From Stdlib Require Import ZArith Lia Ascii String.
From S2P Require Import Prelude GoStrings.
From stdpp Require Import base strings list.
Local Open Scope string_scope.
Local Open Scope list_scope.
Local Open Scope Z_scope.

Definition slash : ascii := "/".
Definition backslash : ascii := "\".
Definition nul : ascii := ascii_of 0.

(** [strings.ReplaceAll] of one byte by a string. *)
Fixpoint replaceByte (c : ascii) (new : string) (s : string) : string :=
  match s with
  | EmptyString => EmptyString
  | String a r => if Ascii.eqb a c then (new +:+ replaceByte c new r)%string else String a (replaceByte c new r)
  end.

(** [strings.HasSuffix]. *)
Definition HasSuffix (s suffix : string) : bool :=
  (String.length suffix <=? String.length s)%nat
  && String.eqb (substring (String.length s - String.length suffix) (String.length suffix) s) suffix.

Definition TrimSuffix (s suf : string) : string :=
  if HasSuffix s suf then substring 0 (String.length s - String.length suf) s else s.

(** ** [path.Clean]

    The elements are taken one by one: empty ones and "." are dropped, ".." removes the
    element before it; at the root ".." is dropped, in front of a relative path it stays. [acc]
    holds the elements kept so far, the last one first. *)
Fixpoint cleanElems (rooted : bool) (acc : list string) (l : list string) : list string :=
  match l with
  | [] => reverse acc
  | e :: rest =>
    if String.eqb e "" || String.eqb e "." then cleanElems rooted acc rest
    else if String.eqb e ".." then
      match acc with
      | top :: acc' => if String.eqb top ".." then cleanElems rooted (e :: acc) rest else cleanElems rooted acc' rest
      | [] => cleanElems rooted (if rooted then [] else [e]) rest
      end
    else cleanElems rooted (e :: acc) rest
  end.
Definition rootedPath (p : string) : bool := HasPrefix p "/".
Definition Clean (p : string) : string :=
  if String.eqb p "" then "." else
  let out := GoStrings.Join "/" (cleanElems (rootedPath p) [] (Split slash p)) in
  if rootedPath p then "/" +:+ out else if String.eqb out "" then "." else out.
(** [path.Join]: empty elements are ignored. *)
Definition pathJoin (l : list string) : string :=
  match selectWhere (λ e, negb (String.eqb e "")) l with [] => "" | k => Clean (GoStrings.Join "/" k) end.

(** The part after the last slash and the part up to and including it ([path.Split]). *)
Definition lastElem (l : list string) : string := default "" (last l).
Definition pathSplit (p : string) : string * string :=
  let l := Split slash p in
  (match removelast l with [] => "" | k => GoStrings.Join "/" k +:+ "/" end, lastElem l).
Fixpoint dropSlashes (l : list ascii) : list ascii :=
  match l with a :: r => if Ascii.eqb a slash then dropSlashes r else l | [] => [] end.
(** Without trailing slashes. *)
Definition trimSlashes (p : string) : string :=
  String.string_of_list_ascii (reverse (dropSlashes (reverse (String.list_ascii_of_string p)))).
Definition Base (p : string) : string :=
  if String.eqb p "" then "." else
  let b := lastElem (Split slash (trimSlashes p)) in if String.eqb b "" then "/" else b.
Definition Dir (p : string) : string := Clean (pathSplit p).1.

(** ** Paths from the browser *)
Definition remotePath (p : string) : option string :=
  if String.eqb p "" || containsByte nul p then None
  else Some (Clean ("/" +:+ replaceByte backslash "/" p)).

(** ** Properties *)
#[local] Arguments Ascii.eqb : simpl never.
(** An element of a cleaned absolute path. *)
Definition plainElem (e : string) : Prop :=
  e ≠ "" ∧ e ≠ "." ∧ e ≠ ".." ∧ containsByte slash e = false.
(** The absolute path with the given elements. *)
Definition rootPath (l : list string) : string := "/" +:+ GoStrings.Join "/" l.

Lemma Split_none c s : containsByte c s = false → Split c s = [s].
Proof.
  induction s as [|a s IH]; cbn; [done|]. destruct (Ascii.eqb a c); cbn; [done|]. intros Hc. by rewrite IH.
Qed.
Lemma Split_nonempty c s : Split c s ≠ [].
Proof. destruct s as [|a s]; cbn; [done|]. destruct (Ascii.eqb a c); [done|]. by destruct (Split c s). Qed.
Lemma Split_app c s t : containsByte c s = false → Split c (s +:+ String c t)%string = s :: Split c t.
Proof.
  induction s as [|a s IH]; [rewrite append_nil; cbn; by rewrite Ascii.eqb_refl|].
  rewrite append_cons. cbn. destruct (Ascii.eqb a c); cbn; [done|]. intros Hc. by rewrite IH.
Qed.
Lemma Split_elems c s e : e ∈ Split c s → containsByte c e = false.
Proof.
  revert e. induction s as [|a s IH]; cbn; intros e.
  - by intros ->%list_elem_of_singleton.
  - destruct (Ascii.eqb a c) eqn:E.
    + intros [->|He]%elem_of_cons; [done|by apply IH].
    + destruct (Split c s) as [|h t]; [by intros ->%list_elem_of_singleton; cbn; rewrite E|].
      intros [->|He]%elem_of_cons; [cbn; rewrite E; apply IH; left|apply IH; by right].
Qed.
(** Splitting what was joined gives the elements back. *)
Lemma Split_Join l : l ≠ [] → Forall (λ e, containsByte slash e = false) l → Split slash (GoStrings.Join "/" l) = l.
Proof.
  induction l as [|x [|y l] IH]; [done|intros _ Hf|intros _ Hf]; inversion Hf; subst.
  - by apply Split_none.
  - change (GoStrings.Join "/" (x :: y :: l)) with (x +:+ String slash (GoStrings.Join "/" (y :: l)))%string.
    rewrite Split_app by done. f_equal. by apply IH.
Qed.

Lemma cleanElems_spec acc l :
  Forall plainElem acc → Forall (λ e, containsByte slash e = false) l → Forall plainElem (cleanElems true acc l).
Proof.
  revert acc. induction l as [|e l IH]; intros acc Ha Hl; cbn; [by rewrite Forall_reverse|].
  inversion Hl as [|? ? He Hl']; subst.
  destruct (String.eqb_spec e ""); cbn; [by apply IH|]. destruct (String.eqb_spec e "."); cbn; [by apply IH|].
  destruct (String.eqb_spec e "..").
  - destruct acc as [|top acc]; [by apply IH|]. inversion Ha as [|? ? Ht Ha']; subst.
    destruct (String.eqb_spec top ".."); [by destruct Ht as (_ & _ & ? & _)|]. by apply IH.
  - apply IH; [|done]. by constructor.
Qed.
(** A path that is clean already stays as it is. *)
Lemma cleanElems_plain rooted acc l : Forall plainElem l → cleanElems rooted acc l = reverse acc ++ l.
Proof.
  revert acc. induction l as [|e l IH]; intros acc Hl; cbn; [by rewrite app_nil_r|].
  inversion Hl as [|? ? (He0 & He1 & He2 & _) Hl']; subst.
  destruct (String.eqb_spec e ""); [done|]. destruct (String.eqb_spec e "."); [done|].
  destruct (String.eqb_spec e ".."); [done|]. cbn. rewrite IH by done. by rewrite reverse_cons, <-app_assoc.
Qed.
Lemma plain_noslash l : Forall plainElem l → Forall (λ e, containsByte slash e = false) l.
Proof. intros Hl. eapply Forall_impl; [exact Hl|]. by intros e (_ & _ & _ & ?). Qed.

Lemma rooted_slash s : rootedPath ("/" +:+ s) = true.
Proof. by destruct s. Qed.
Lemma Clean_rooted p : rootedPath p = true → Clean p = rootPath (cleanElems true [] (Split slash p)).
Proof.
  intros Hr. unfold Clean. destruct (String.eqb_spec p ""); [by subst|]. by rewrite Hr.
Qed.
Lemma Split_rootPath l : l ≠ [] → Forall plainElem l → Split slash (rootPath l) = "" :: l.
Proof.
  intros Hne Hl. change (rootPath l) with ("" +:+ String slash (GoStrings.Join "/" l))%string.
  rewrite Split_app by done. f_equal. apply Split_Join; [done|by apply plain_noslash].
Qed.
Lemma Clean_rootPath l : Forall plainElem l → Clean (rootPath l) = rootPath l.
Proof.
  intros Hl. rewrite Clean_rooted by apply rooted_slash. destruct l as [|e l]; [done|].
  rewrite Split_rootPath by done. change (cleanElems true [] ("" :: e :: l)) with (cleanElems true [] (e :: l)).
  by rewrite cleanElems_plain.
Qed.
(** Every cleaned absolute path is made of plain elements. *)
Lemma Clean_plain p : rootedPath p = true → ∃ l, Clean p = rootPath l ∧ Forall plainElem l.
Proof.
  intros Hr. exists (cleanElems true [] (Split slash p)). split; [by apply Clean_rooted|].
  apply cleanElems_spec; [constructor|]. apply Forall_forall. apply Split_elems.
Qed.

(** [strings.ReplaceAll(s, `\`, "/")] leaves no backslash. *)
Lemma containsByte_append c s t : containsByte c (s +:+ t)%string = containsByte c s || containsByte c t.
Proof. induction s as [|a s IH]; [by rewrite append_nil|]. rewrite append_cons. cbn. by rewrite IH, orb_assoc. Qed.
Lemma replaceByte_gone c new s : containsByte c new = false → containsByte c (replaceByte c new s) = false.
Proof.
  intros Hn. induction s as [|a s IH]; cbn; [done|]. destruct (Ascii.eqb a c) eqn:E; cbn.
  - by rewrite containsByte_append, Hn, IH.
  - by rewrite E, IH.
Qed.
Lemma replaceByte_none c new s : containsByte c s = false → replaceByte c new s = s.
Proof. induction s as [|a s IH]; cbn; [done|]. destruct (Ascii.eqb a c); cbn; [done|]. intros Hs. by rewrite IH. Qed.
Lemma replaceByte_other c d new s : containsByte d new = false → containsByte d s = false →
  containsByte d (replaceByte c new s) = false.
Proof.
  intros Hn. induction s as [|a s IH]; cbn; [done|]. intros [Ha Hs]%orb_false_iff.
  destruct (Ascii.eqb a c); cbn; [by rewrite containsByte_append, Hn, IH|by rewrite Ha, IH].
Qed.
(** Cleaning brings in no byte but dots and slashes. *)
Lemma containsByte_Join c sep l : containsByte c sep = false → Forall (λ e, containsByte c e = false) l →
  containsByte c (GoStrings.Join sep l) = false.
Proof.
  intros Hs Hl. induction Hl as [|x [|y l] Hx Hl IH]; [done|done|].
  change (GoStrings.Join sep (x :: y :: l)) with (x +:+ (sep +:+ GoStrings.Join sep (y :: l)))%string.
  by rewrite !containsByte_append, Hx, Hs, IH.
Qed.
Lemma Split_free c d s : containsByte d s = false → Forall (λ e, containsByte d e = false) (Split c s).
Proof.
  induction s as [|a s IH]; cbn; [by repeat constructor|]. intros [Ha Hs]%orb_false_iff.
  destruct (Ascii.eqb a c); [by constructor; auto|]. specialize (IH Hs).
  destruct IH as [|h t]; constructor; cbn; rewrite ?Ha; auto.
Qed.
Lemma cleanElems_free (P : string → Prop) rooted acc l :
  P ".." → Forall P acc → Forall P l → Forall P (cleanElems rooted acc l).
Proof.
  intros Hdd. revert acc. induction l as [|e l IH]; intros acc Ha Hl; cbn; [by rewrite Forall_reverse|].
  inversion Hl; subst. destruct (_ || _); [by apply IH|]. destruct (String.eqb e ".."); [|apply IH; [by constructor|done]].
  destruct acc as [|top acc]; [apply IH; [destruct rooted; by repeat constructor|done]|].
  inversion Ha; subst. destruct (String.eqb top ".."); apply IH; try done. by constructor.
Qed.
Lemma Clean_free c p : rootedPath p = true → containsByte c "/" = false → containsByte c ".." = false →
  containsByte c p = false → containsByte c (Clean p) = false.
Proof.
  intros Hr Hs Hd Hp. rewrite Clean_rooted by done. unfold rootPath. rewrite containsByte_append, Hs. cbn.
  apply containsByte_Join; [done|]. apply cleanElems_free; [done|constructor|by apply Split_free].
Qed.

(** ** Folder and name of a path *)
Lemma Split_slash_app c s t : Split c (s +:+ String c t)%string = Split c s ++ Split c t.
Proof.
  induction s as [|a s IH]; [rewrite append_nil; cbn; by rewrite Ascii.eqb_refl|].
  rewrite append_cons. cbn. destruct (Ascii.eqb a c); cbn; [by rewrite IH|]. rewrite IH.
  pose proof (Split_nonempty c s). by destruct (Split c s).
Qed.
Lemma cleanElems_plain_app rooted acc l k :
  Forall plainElem l → cleanElems rooted acc (l ++ k) = cleanElems rooted (reverse l ++ acc) k.
Proof.
  revert acc. induction l as [|e l IH]; intros acc Hl; [done|]. rewrite reverse_cons, <-app_assoc. cbn.
  inversion Hl as [|? ? (He0 & He1 & He2 & _) Hl']; subst.
  destruct (String.eqb_spec e ""); [done|]. destruct (String.eqb_spec e "."); [done|].
  destruct (String.eqb_spec e ".."); [done|]. cbn. by rewrite IH.
Qed.
(** Splitting an absolute path, up to empty elements. *)
Lemma clean_rootPath_app l k : Forall plainElem l →
  cleanElems true [] (Split slash (rootPath l) ++ k) = cleanElems true (reverse l) k.
Proof.
  intros Hl. destruct l as [|e l]; [done|]. rewrite Split_rootPath by done.
  change (cleanElems true [] (("" :: e :: l) ++ k)) with (cleanElems true [] ((e :: l) ++ k)).
  by rewrite cleanElems_plain_app, app_nil_r.
Qed.
Lemma rootPath_snoc l e : l ≠ [] → rootPath (l ++ [e]) = (rootPath l +:+ String slash e)%string.
Proof.
  intros Hl. unfold rootPath. rewrite <-append_assoc. f_equal. induction l as [|x [|y l] IH]; [done|done|].
  change (GoStrings.Join "/" ((x :: y :: l) ++ [e])) with (x +:+ ("/" +:+ GoStrings.Join "/" ((y :: l) ++ [e])))%string.
  rewrite IH by done. change (GoStrings.Join "/" (x :: y :: l)) with (x +:+ ("/" +:+ GoStrings.Join "/" (y :: l)))%string.
  by rewrite !append_assoc.
Qed.
Lemma list_ascii_app s t : String.list_ascii_of_string (s +:+ t)%string = String.list_ascii_of_string s ++ String.list_ascii_of_string t.
Proof. induction s as [|a s IH]; [done|]. rewrite append_cons. cbn. by rewrite IH. Qed.
Lemma containsByte_elem c s : containsByte c s = false → c ∉ String.list_ascii_of_string s.
Proof.
  induction s as [|a s IH]; cbn; [intros _ ?%not_elem_of_nil; done|]. intros [Ha Hs]%orb_false_iff [->|Hin]%elem_of_cons.
  - by rewrite Ascii.eqb_refl in Ha.
  - by apply IH.
Qed.
Lemma trimSlashes_id s e : e ≠ "" → containsByte slash e = false → trimSlashes (s +:+ e) = (s +:+ e)%string.
Proof.
  intros Hne Hc. unfold trimSlashes. rewrite list_ascii_app, reverse_app.
  pose proof (containsByte_elem _ _ Hc) as Hin.
  destruct (String.list_ascii_of_string e) as [|a k] eqn:E using rev_ind; [by destruct e|]. clear IHk.
  destruct (Ascii.eqb_spec a slash) as [->|Ha].
  { exfalso. apply Hin, elem_of_app. right. by constructor. }
  apply Ascii.eqb_neq in Ha. assert (Hd : ∀ r, dropSlashes (reverse (k ++ [a]) ++ r) = reverse (k ++ [a]) ++ r).
  { intros r. rewrite reverse_snoc. cbn. by rewrite Ha. }
  rewrite Hd, <-reverse_app, reverse_involutive, <-E, <-list_ascii_app. apply String.string_of_list_ascii_of_string.
Qed.
Lemma removelast_snoc {A} (l : list A) x : removelast (l ++ [x]) = l.
Proof. apply removelast_last. Qed.

Section folder.
Context (l : list string) (e : string).
Hypothesis (Hl : Forall plainElem l) (He : plainElem e).
Lemma split_file : Split slash (rootPath (l ++ [e])) = ("" :: l) ++ [e].
Proof. rewrite Split_rootPath; [done|by destruct l|by apply Forall_app_2; [|constructor]]. Qed.
Lemma Base_rootPath : Base (rootPath (l ++ [e])) = e.
Proof.
  destruct He as (He0 & _ & _ & Hes). unfold Base.
  destruct (String.eqb_spec (rootPath (l ++ [e])) "") as [Hx|_]; [by vm_compute in Hx|].
  assert (∃ s, rootPath (l ++ [e]) = (s +:+ e)%string) as [s Es].
  { destruct l as [|x k] eqn:El; [by exists "/"|]. exists (rootPath (x :: k) +:+ "/")%string.
    rewrite rootPath_snoc by done. by rewrite <-append_assoc. }
  assert (trimSlashes (rootPath (l ++ [e])) = rootPath (l ++ [e])) as -> by (rewrite Es; by apply trimSlashes_id).
  rewrite split_file. unfold lastElem. rewrite last_snoc. cbn. by destruct (String.eqb_spec e "").
Qed.
Lemma Dir_rootPath : Dir (rootPath (l ++ [e])) = rootPath l.
Proof.
  unfold Dir, pathSplit. rewrite split_file, removelast_snoc. cbn [fst].
  assert (GoStrings.Join "/" ("" :: l) +:+ "/" = match l with [] => "/" | _ => rootPath l +:+ String slash "" end)%string as Ej.
  { destruct l as [|x k]; [done|]. done. }
  cbn [app]. rewrite Ej. destruct l as [|x k] eqn:El; [done|].
  rewrite Clean_rooted by (unfold rootPath; rewrite <-append_assoc; apply rooted_slash).
  rewrite Split_slash_app, clean_rootPath_app by done.
  change (cleanElems true ?acc (Split slash "")) with (reverse acc). by rewrite reverse_involutive.
Qed.
End folder.
Lemma pathJoin_rootPath l e : Forall plainElem l → plainElem e → pathJoin [rootPath l; e] = rootPath (l ++ [e]).
Proof.
  intros Hl He. destruct (id He) as (He0 & _ & _ & Hs). unfold pathJoin, selectWhere. cbn [List.filter].
  destruct (String.eqb_spec (rootPath l) "") as [Hx|_]; [by vm_compute in Hx|].
  destruct (String.eqb_spec e ""); [done|]. cbn [negb].
  change (GoStrings.Join "/" [rootPath l; e]) with (rootPath l +:+ String slash e)%string.
  rewrite Clean_rooted by (unfold rootPath; rewrite <-append_assoc; apply rooted_slash).
  rewrite Split_slash_app, clean_rootPath_app, Split_none by done.
  by rewrite cleanElems_plain, reverse_involutive by by constructor.
Qed.

(** A path from the browser cannot lead astray: what the file handlers work with is an absolute
    path without "..", ".", empty elements, backslashes or NUL bytes (so it names exactly the file
    shown), and cleaning it again does not change it. *)
Theorem remotePath_confined (p q : string) (Hq : remotePath p = Some q) :
  (∃ l, q = rootPath l ∧ Forall plainElem l)
  ∧ containsByte backslash q = false ∧ containsByte nul q = false ∧ remotePath q = Some q.
Proof.
  unfold remotePath in Hq. destruct (String.eqb_spec p ""); [done|].
  destruct (containsByte nul p) eqn:Hn; [done|]. injection Hq as <-.
  set (q := "/" +:+ _). assert (Hr : rootedPath q = true) by apply rooted_slash.
  assert (Hb : containsByte backslash (Clean q) = false).
  { apply Clean_free; try done. unfold q. rewrite containsByte_append. cbn. by apply replaceByte_gone. }
  assert (H0 : containsByte nul (Clean q) = false).
  { apply Clean_free; try done. unfold q. rewrite containsByte_append. cbn. by apply replaceByte_other. }
  destruct (Clean_plain q Hr) as (l & El & Hl). split_and!; [by exists l|done|done|].
  unfold remotePath. rewrite H0, replaceByte_none by done. rewrite El.
  destruct (String.eqb_spec (rootPath l) "") as [Habs|_]; [by vm_compute in Habs|]. cbn. f_equal.
  change ("/" +:+ rootPath l) with ("" +:+ String slash (rootPath l))%string.
  rewrite Clean_rooted by done.
  rewrite Split_app by done. destruct l as [|e l]; [done|]. rewrite Split_rootPath by done.
  change (cleanElems true [] ("" :: "" :: e :: l)) with (cleanElems true [] (e :: l)).
  by rewrite cleanElems_plain.
Qed.
Lemma remotePath_confined_witness : remotePath "C:\Users\..\..\..\etc/./passwd" = Some "/etc/passwd" ∧ remotePath "/etc/passwd" = Some "/etc/passwd".
Proof. split; [reflexivity|]. apply (remotePath_confined "C:\Users\..\..\..\etc/./passwd"). reflexivity. Defined.
