(* ===== verification/Web.v ===== *)
(** * Files the hub serves and install commands ([internal/hub/{install,static}.go])

    The hub's own files (the agent binaries, the embedded web interface, the embedded install
    scripts) are functions from names to contents. *)
From Stdlib Require Import ZArith Lia Ascii String.
From S2P Require Import Prelude GoStrings Library Version Paths.
From stdpp Require Import base strings list.
Local Open Scope string_scope.
Local Open Scope list_scope.
Local Open Scope Z_scope.

(** ** Responses with headers *)
Inductive webBody : Type :=
| WBytes (s : string)            (* the bytes as they are *)
| WServeFile (name : string)     (* handed to the file server, which knows ranges and dates *)
| WError (msg : string)          (* a JSON error *)
| WText (msg : string).          (* a plain-text error *)
Record webResponse := mkWebResponse { wr_status : Z; wr_headers : list (string * string); wr_body : webBody }.
(** [strings.Contains]. *)
Definition Contains (s sub : string) : bool := bool_decide (is_Some (String.index 0 sub s)).

Definition getInstallScript (scripts : string → option string) (urlPath : string) : webResponse :=
  match scripts ("scripts/" +:+ Base urlPath) with
  | None => mkWebResponse 404 [] (WError "not found")
  | Some data => mkWebResponse 200 [("Content-Type", "text/plain; charset=utf-8"); ("Cache-Control", "no-cache")] (WBytes data)
  end.

(** The names [agentFileRE] matches, with its groups. *)
Definition agentFiles : list (string * (string * string * string)) :=
  flat_map (λ os, flat_map (λ arch, map (λ ext, (AgentName +:+ "-" +:+ os +:+ "-" +:+ arch +:+ ext, (os, arch, ext)))
    [""; ".exe"]) ["amd64"; "arm64"]) ["linux"; "darwin"; "windows"].
Definition agentFileRE (name : string) : option (string * string * string) :=
  snd <$> List.find (λ kv, String.eqb kv.1 name) agentFiles.
(** [open]: the contents of a file of the hub's machine, [statOK] whether the file's attributes can be
    read, [gunzip] the uncompressed contents. *)
Definition getAgentBinary (agentDir version : string) (open : string → option string) (statOK : string → bool)
    (gunzip : string → option string) (name acceptEncoding : string) : webResponse :=
  match agentFileRE name with
  | None => mkWebResponse 404 [] (WError "unknown agent binary")
  | Some (os, arch, ext) =>
    if negb (Bool.eqb (String.eqb os "windows") (String.eqb ext ".exe"))
    then mkWebResponse 404 [] (WError "unknown agent binary") else
    let file := pathJoin [agentDir; name] in
    let hdr := [("Cache-Control", "no-cache"); ("Content-Type", "application/octet-stream");
                ("Content-Disposition", "attachment; filename=" +:+ String (ascii_of 34) name +:+ String (ascii_of 34) "")] in
    match open (file +:+ ".gz") with
    | Some data =>
      let hdr := hdr ++ [("Vary", "Accept-Encoding")] in
      if Contains acceptEncoding "gzip" then
        let len := if statOK (file +:+ ".gz") then [("Content-Length", itoa (strLen data))] else [] in
        mkWebResponse 200 (hdr ++ len ++ [("Content-Encoding", "gzip")]) (WBytes data)
      else match gunzip data with
           | None => mkWebResponse 500 hdr (WError "internal error")
           | Some raw => mkWebResponse 200 hdr (WBytes raw)
           end
    | None =>
      if bool_decide (is_Some (open file)) && statOK file then mkWebResponse 200 hdr (WServeFile file) else
      let url := ReleaseAssetURL version name in
      if negb (String.eqb url "") then mkWebResponse 302 (hdr ++ [("Location", url)]) (WBytes "")
      else mkWebResponse 404 hdr (WError ("this hub build has no agent for " +:+ os +:+ "/" +:+ arch))
    end
  end.

(** [dist]: the files of the built web interface. *)
Definition static (dist : string → option string) (method urlPath : string) : webResponse :=
  if negb (String.eqb method "GET" || String.eqb method "HEAD")
  then mkWebResponse 405 [] (WError "method not allowed") else
  if HasPrefix urlPath "/assets/"
  then mkWebResponse 200 [("Cache-Control", "public, max-age=31536000, immutable")] (WServeFile urlPath) else
  let p := TrimPrefix (Clean urlPath) "/" in
  if negb (String.eqb p "") && negb (String.eqb p "index.html") && bool_decide (is_Some (dist p))
  then mkWebResponse 200 [] (WServeFile urlPath) else
  match dist "index.html" with
  | None => mkWebResponse 503 [] (WText "The web UI is not part of this build. Run `npm run build` in web/ and rebuild the hub.")
  | Some index => mkWebResponse 200 [("Content-Type", "text/html; charset=utf-8"); ("Cache-Control", "no-cache")] (WBytes index)
  end.

(** ** Install commands *)
Definition quote1 : ascii := "'".
Definition shQuote (s : string) : string := "'" +:+ replaceByte quote1 "'\''" s +:+ "'".
Definition psQuote (s : string) : string := "'" +:+ replaceByte quote1 "''" s +:+ "'".
Definition unixCommand (hubURL hubKey token : string) (allowShell : bool) : string :=
  "curl -fsSL " +:+ shQuote (hubURL +:+ "/install.sh") +:+ " | sudo sh -s -- --hub " +:+ shQuote hubURL
  +:+ " --key " +:+ shQuote hubKey +:+ " --token " +:+ shQuote token
  +:+ (if allowShell then " --allow-shell" else "").
Definition InstallCommands (hubURL hubKey token : string) (allowShell : bool) : list (string * string) :=
  let unix := unixCommand hubURL hubKey token allowShell in
  let win := "& ([scriptblock]::Create((irm " +:+ psQuote (hubURL +:+ "/install.ps1") +:+ "))) -Hub " +:+ psQuote hubURL
             +:+ " -Key " +:+ psQuote hubKey +:+ " -Token " +:+ psQuote token
             +:+ (if allowShell then " -AllowShell" else "") in
  [("linux", unix); ("darwin", unix); ("windows", win)].

(** ** What a POSIX shell makes of a command line

    A word is made of single-quoted parts, characters after a backslash, and plain characters;
    blanks end it, [|] is the pipe. Any other character outside quotes would mean something else
    to a shell and makes the reader fail. *)
Inductive shToken : Type := Word (s : string) | Pipe.
Inductive shMode : Type := Plain | Quoted | Escaped.
Record shState := mkShState { sh_mode : shMode; sh_word : option string; sh_done : list shToken }.
Definition plainChar (a : ascii) : bool :=
  let n := byte_of a in
  ((48 <=? n) && (n <=? 57)) || ((65 <=? n) && (n <=? 90)) || ((97 <=? n) && (n <=? 122))
  || existsb (Ascii.eqb a) ["-"; "_"; "."; "/"; ":"; "+"; ","; "@"; "%"]%char.
Definition addChar (a : ascii) (w : option string) : option string := Some (default "" w +:+ String a "").
Definition endWord (st : shState) : list shToken :=
  sh_done st ++ match sh_word st with Some w => [Word w] | None => [] end.
Definition shStep (o : option shState) (a : ascii) : option shState :=
  st ← o;
  match sh_mode st with
  | Quoted => Some (if Ascii.eqb a quote1 then mkShState Plain (sh_word st) (sh_done st)
                    else mkShState Quoted (addChar a (sh_word st)) (sh_done st))
  | Escaped => Some (mkShState Plain (addChar a (sh_word st)) (sh_done st))
  | Plain =>
    if Ascii.eqb a quote1 then Some (mkShState Quoted (Some (default "" (sh_word st))) (sh_done st))
    else if Ascii.eqb a backslash then Some (mkShState Escaped (sh_word st) (sh_done st))
    else if Ascii.eqb a " " then Some (mkShState Plain None (endWord st))
    else if Ascii.eqb a "|" then Some (mkShState Plain None (endWord st ++ [Pipe]))
    else if plainChar a then Some (mkShState Plain (addChar a (sh_word st)) (sh_done st))
    else None
  end.
Definition shRun (o : option shState) (s : string) : option shState :=
  fold_left shStep (String.list_ascii_of_string s) o.
Definition shTokens (s : string) : option (list shToken) :=
  st ← shRun (Some (mkShState Plain None [])) s;
  match sh_mode st with Plain => Some (endWord st) | _ => None end.

(** ** Properties *)
Lemma shRun_app o s t : shRun o (s +:+ t)%string = shRun (shRun o s) t.
Proof.
  unfold shRun. revert o. induction s as [|a s IH]; intros o; [done|]. rewrite append_cons. cbn. apply IH.
Qed.
(** Inside quotes, an escaped string adds the string itself. *)
Lemma shRun_inner s w done :
  shRun (Some (mkShState Quoted (Some w) done)) (replaceByte quote1 "'\''" s) = Some (mkShState Quoted (Some (w +:+ s)) done).
Proof.
  revert w. induction s as [|a s IH]; intros w; cbn [replaceByte].
  - by rewrite append_nil_r.
  - destruct (Ascii.eqb_spec a quote1) as [->|Hne].
    + rewrite shRun_app. change (shRun _ "'\''") with (Some (mkShState Quoted (addChar quote1 (Some w)) done)).
      unfold addChar. cbn [default from_option]. rewrite IH. by rewrite <-append_assoc.
    + change (shRun ?o (String a ?r)) with (shRun (shStep o a) r). cbn [shStep mbind option_bind sh_mode sh_word sh_done].
      apply Ascii.eqb_neq in Hne. rewrite Hne. unfold addChar. cbn [default from_option]. rewrite IH. by rewrite <-append_assoc.
Qed.
Lemma shRun_quote s done : shRun (Some (mkShState Plain None done)) (shQuote s) = Some (mkShState Plain (Some s) done).
Proof.
  unfold shQuote. rewrite !shRun_app. change (shRun (Some (mkShState Plain None done)) "'") with (Some (mkShState Quoted (Some "") done)).
  rewrite shRun_inner. by rewrite append_nil.
Qed.

(** Install commands mean what they should: whatever the hub's address, its key and the token
    contain, a shell reads the command as exactly these words, so nothing in them is executed. *)
Theorem install_command_words (hubURL hubKey token : string) (allowShell : bool) :
  InstallCommands hubURL hubKey token allowShell !! 0%nat = Some ("linux", unixCommand hubURL hubKey token allowShell)
  ∧ shTokens (unixCommand hubURL hubKey token allowShell)
    = Some ([Word "curl"; Word "-fsSL"; Word (hubURL +:+ "/install.sh"); Pipe; Word "sudo"; Word "sh"; Word "-s"; Word "--";
             Word "--hub"; Word hubURL; Word "--key"; Word hubKey; Word "--token"; Word token]
            ++ if allowShell then [Word "--allow-shell"] else []).
Proof.
  split; [done|]. unfold shTokens, unixCommand. rewrite !shRun_app.
  set (words := [Word "curl"; Word "-fsSL"]).
  change (shRun (Some (mkShState Plain None [])) "curl -fsSL ") with (Some (mkShState Plain None words)).
  rewrite shRun_quote. change (shRun (Some (mkShState Plain (Some ?w) words)) ?s) with
    (Some (mkShState Plain None (words ++ [Word w; Pipe; Word "sudo"; Word "sh"; Word "-s"; Word "--"; Word "--hub"]))).
  rewrite shRun_quote. set (d1 := words ++ _). change (shRun (Some (mkShState Plain (Some ?w) d1)) " --key ") with
    (Some (mkShState Plain None ((d1 ++ [Word w]) ++ [Word "--key"]))).
  rewrite shRun_quote. set (d2 := (d1 ++ _) ++ _). change (shRun (Some (mkShState Plain (Some ?w) d2)) " --token ") with
    (Some (mkShState Plain None ((d2 ++ [Word w]) ++ [Word "--token"]))).
  rewrite shRun_quote. by destruct allowShell.
Qed.
