(* ===== verification/Migrations.v ===== *)
(** * Opening the database ([Open] and [migrate] of [internal/hub/store/store.go])

    A database file: the number of migrations it has had and its contents. A migration is what its statements do to
    the contents, or the error of the one that fails. Every statement may fail, and the hub may stop at any
    point; what a transaction did is kept when it commits, and undone otherwise. *)
From Stdlib Require Import ZArith Lia Ascii String.
From S2P Require Import Prelude.
From stdpp Require Import base list relations strings pretty.
Local Open Scope string_scope.
Local Open Scope list_scope.
Local Open Scope lotse_scope.

Section migrations.
Context {C : Type} (migrations : list (C → string + C)).

Record dbFile := mkDbFile { fi_version : nat; fi_contents : C; fi_faults : list (option string) }.
Implicit Types (f : dbFile).
(** A statement outside of the migration itself: its error, if any. *)
Definition stmt : M dbFile (option string) := mstate (λ f,
  (default None (head (fi_faults f)), mkDbFile (fi_version f) (fi_contents f) (tail (fi_faults f)))).
(** The loop, from migration [v] on, with [rest] to do. *)
Fixpoint migrateFrom (v : nat) (rest : list (C → string + C)) : M dbFile (option string) :=
  match rest with
  | [] => mret None
  | m :: rest' =>
    begun ← stmt;
    match begun with
    | Some e => mret (Some e)
    | None =>
      f ← mget;
      ran ← stmt;
      match (match ran with Some e => inl e | None => m (fi_contents f) end) with
      | inl e => mret (Some ("migration " +:+ pretty (S v) +:+ ": " +:+ e))
      | inr c =>
        pragma ← stmt;
        match pragma with
        | Some e => mret (Some e)
        | None =>
          committed ← stmt;
          match committed with
          | Some e => mret (Some e)
          | None =>
            mmodify (λ f, mkDbFile (S v) c (fi_faults f));;
            migrateFrom (S v) rest'
          end
        end
      end
    end
  end.
Definition migrate : M dbFile (option string) :=
  read ← stmt;
  match read with
  | Some e => mret (Some e)
  | None => f ← mget; migrateFrom (fi_version f) (drop (fi_version f) migrations)
  end.
(** [Open], once the driver has opened the file. *)
Definition Open : M dbFile (option string) :=
  err ← migrate;
  mret (match err with Some e => Some ("migrate: " +:+ e) | None => None end).

(** The contents after the first [n] migrations. *)
Definition applyNext (o : option C) (m : C → string + C) : option C :=
  c ← o; match m c with inr c' => Some c' | inl _ => None end.
Definition migrated (n : nat) (c0 : C) : option C := foldl applyNext (Some c0) (take n migrations).
Definition wellMigrated (c0 : C) f : Prop :=
  (fi_version f ≤ length migrations)%nat ∧ migrated (fi_version f) c0 = Some (fi_contents f).
(** A start of the hub; the hub may also stop in the middle, which is a start whose remaining statements fail. *)
Inductive start : dbFile → dbFile → Prop :=
| start_run f faults f' r : Open (mkDbFile (fi_version f) (fi_contents f) faults) = (r, f') → start f f'.

Definition kept f f' : Prop := fi_version f' = fi_version f ∧ fi_contents f' = fi_contents f ∧ (fi_faults f = [] → fi_faults f' = []).
Lemma kept_trans f1 f2 f3 : kept f1 f2 → kept f2 f3 → kept f1 f3.
Proof. intros (?&?&?) (?&?&?). split_and!; [congruence|congruence|auto]. Qed.
Lemma kept_faulty f f' : kept f f' → fi_faults f' ≠ [] → fi_faults f ≠ [].
Proof. intros (_ & _ & H) Hf' Hf. by apply Hf', H. Qed.
Hint Resolve kept_trans kept_faulty : core.
Lemma wp_stmt (Q : option string → dbFile → Prop) f :
  (∀ f', kept f f' → Q None f') → (∀ e f', kept f f' → fi_faults f ≠ [] → Q (Some e) f') → wp stmt Q f.
Proof.
  intros HT HF. unfold wp, stmt, mstate. set (f1 := mkDbFile _ _ _). assert (Hk : kept f f1) by (split_and!; [done|done|by cbn; intros ->]).
  destruct (default None (head (fi_faults f))) eqn:E; cbn; [|by apply HT]. apply HF; [done|]. intros En. by rewrite En in E.
Qed.
(** The first [n] of the migrations [rest] turn the contents of one file into those of the other. *)
Definition advances (rest : list (C → string + C)) (n : nat) f f' : Prop :=
  fi_version f' = (fi_version f + n)%nat ∧ (n ≤ length rest)%nat
  ∧ foldl applyNext (Some (fi_contents f)) (take n rest) = Some (fi_contents f').
Lemma advances_kept rest f f' : kept f f' → advances rest 0 f f'.
Proof. intros (Ev & Ec & _). split_and!; [lia|lia|]. cbn. by rewrite Ec. Qed.
Lemma applyNext_stuck l : foldl applyNext None l = None.
Proof. by induction l. Qed.
Definition ranFrom (rest : list (C → string + C)) f (r : option string) f' : Prop :=
  (∃ n, advances rest n f f' ∧ (r = None → n = length rest))
  ∧ (fi_faults f = [] → is_Some (foldl applyNext (Some (fi_contents f)) rest) → r = None).
Lemma migrateFrom_spec rest f : wp (migrateFrom (fi_version f) rest) (ranFrom rest f) f.
Proof.
  revert f. induction rest as [|m rest IH]; intros f; cbn [migrateFrom].
  { apply wp_ret. split; [|done]. exists 0%nat. split; [by apply advances_kept|done]. }
  assert (Hend : ∀ f' e, kept f f' → fi_faults f ≠ [] → ranFrom (m :: rest) f (Some e) f').
  { intros f' e Hk Hf. split; [|done]. exists 0%nat. split; [by apply advances_kept|done]. }
  apply wp_bind, wp_stmt; [|intros e f1 Hk Hf; apply wp_ret; by apply Hend].
  intros f1 K1. apply wp_bind, wp_get, wp_bind, wp_stmt; [|intros e f2 K2 Hf; apply wp_ret, Hend; eauto].
  assert (Ec : fi_contents f1 = fi_contents f) by apply K1. rewrite Ec.
  intros f2 K2. destruct (m (fi_contents f)) as [e|c] eqn:Em.
  { apply wp_ret. split; [exists 0%nat; split; [apply advances_kept; eauto|done]|]. intros _ Hall. exfalso.
    cbn in Hall. rewrite Em, applyNext_stuck in Hall. by destruct Hall. }
  apply wp_bind, wp_stmt; [|intros e f3 K3 Hf; apply wp_ret, Hend; eauto].
  intros f3 K3. apply wp_bind, wp_stmt; [|intros e f4 K4 Hf; apply wp_ret, Hend; eauto 6].
  intros f4 K4. apply wp_bind, wp_modify. set (f5 := mkDbFile _ _ _).
  eapply wp_mono; [apply (IH f5)|]. intros r f' [(n & (Hv & Hn & Hc) & Hall) Hgo]. split.
  - exists (S n). split; [|intros Hr; cbn; by rewrite (Hall Hr)]. split_and!; [cbn in Hv; lia|cbn; lia|]. cbn. rewrite Em. exact Hc.
  - cbn. rewrite Em. intros Hf. apply Hgo. cbn. by apply K4, K3, K2, K1.
Qed.
Lemma Open_ran f : wp Open (ranFrom (drop (fi_version f) migrations) f) f.
Proof.
  unfold Open, migrate. apply wp_bind, wp_bind, wp_stmt.
  - intros g1 K1. apply wp_bind, wp_get. assert (K1' := K1). destruct K1' as (Ev & Ec & Ef).
    eapply wp_mono; [apply (migrateFrom_spec _ g1)|]. intros r g2 [(n & (Hv & Hn & Hc) & Hall) Hgo].
    rewrite Ev in Hv, Hn, Hc, Hall, Hgo. apply wp_ret.
    split; [exists n; split; [split_and!; [lia|done|by rewrite <-Ec]|by destruct r; auto]|].
    intros Hf Hs. by rewrite (Hgo (Ef Hf)) by by rewrite Ec.
  - intros e g1 K1 Hf. apply wp_ret, wp_ret. split; [exists 0%nat; split; [by apply advances_kept|done]|done].
Qed.
Lemma migrated_drop v c0 c : migrated v c0 = Some c → (v ≤ length migrations)%nat →
  ∀ n, migrated (v + n) c0 = foldl applyNext (Some c) (take n (drop v migrations)).
Proof.
  intros Hc Hv n. unfold migrated in *. rewrite <-take_take_drop, foldl_app, Hc. done.
Qed.
Lemma Open_spec c0 g : wellMigrated c0 g →
  wp Open (λ r f', wellMigrated c0 f' ∧ (r = None → fi_version f' = length migrations)
      ∧ (fi_faults g = [] → is_Some (migrated (length migrations) c0) → r = None)) g.
Proof.
  intros [Hv Hc]. eapply wp_mono; [apply Open_ran|]. intros r f' [(n & (Hv' & Hn & Hc') & Hall) Hgo].
  rewrite length_drop in Hn, Hall. pose proof (migrated_drop _ _ _ Hc Hv) as Hd.
  split_and!; [|intros Hr; rewrite Hv', (Hall Hr); lia|].
  - split; [lia|]. by rewrite Hv', Hd.
  - intros Hf Hs. apply Hgo; [done|]. specialize (Hd (length migrations - fi_version g)%nat).
    rewrite take_ge in Hd by (rewrite length_drop; lia). rewrite <-Hd. by replace (fi_version g + _)%nat with (length migrations) by lia.
Qed.

(** C36. Opening the database brings every version up to date, across failures. Through any number of starts, whatever
    statement fails and wherever the hub stops, the contents are those of exactly the first migrations, each applied once
    and in order, as many as the version says; a start that reports success has applied all; and when nothing fails, a
    start succeeds. *)
Theorem migrate_resumes (c0 : C) (f f' : dbFile) (Hnew : fi_version f = 0%nat ∧ fi_contents f = c0) (Hruns : rtc start f f') :
  wellMigrated c0 f'
  ∧ (∀ faults, let '(r, f'') := Open (mkDbFile (fi_version f') (fi_contents f') faults) in
       (r = None → fi_version f'' = length migrations ∧ migrated (length migrations) c0 = Some (fi_contents f''))
       ∧ (faults = [] → is_Some (migrated (length migrations) c0) → r = None)).
Proof.
  assert (Hwell : wellMigrated c0 f').
  { destruct Hnew as [Hv Hc]. assert (Hf : wellMigrated c0 f) by (split; [lia|by rewrite Hv, Hc]). clear Hv Hc.
    induction Hruns as [|x y z Hxy _ IH]; [done|]. apply IH. destruct Hxy as [x faults y r Hr].
    by destruct (wp_run _ _ _ _ _ (Open_spec c0 (mkDbFile (fi_version x) (fi_contents x) faults) Hf) Hr). }
  split; [done|]. intros faults. apply wp_let. eapply wp_mono; [by apply (Open_spec c0)|]. intros r f2 ([_ Hm] & Hok & Hgo).
  split; [|exact Hgo]. intros Hr. specialize (Hok Hr). split; [done|]. by rewrite <-Hok.
Qed.
End migrations.

(** *** Witness: the second migration fails once, the next start goes on from there *)
Definition demoMigrations : list (nat → string + nat) := [λ n, inr (n + 1)%nat; λ n, inr (n * 10)%nat].
Definition demoFaults : list (option string) := [None; None; None; None; None; None; Some "disk full"].
Lemma migrate_resumes_witness :
  let f := mkDbFile 0 4%nat demoFaults in
  let f1 := (Open demoMigrations f).2 in
  wellMigrated demoMigrations 4%nat f1 ∧ (Open demoMigrations f).1 = Some "migrate: migration 2: disk full"
  ∧ f1 = mkDbFile 1 5%nat [] ∧ (Open demoMigrations f1).2 = mkDbFile 2 50%nat [].
Proof.
  cbv zeta. split; [|split_and!; reflexivity].
  refine (proj1 (migrate_resumes demoMigrations 4%nat (mkDbFile 0 4%nat []) _ _ _)); [by split|].
  apply rtc_once. apply (start_run demoMigrations (mkDbFile 0 4%nat []) demoFaults _ _ (surjective_pairing _)).
Defined.
