(* ===== verification/Store.v ===== *)
(** * The hub's database: schema, statements and the user, session, enrollment and
    system tables ([internal/hub/store/store.go])

    A table is the list of its rows in rowid order. A statement is a function on the
    tables; [sql] runs one on the single connection, where it may fail instead (the
    fault schedule of the environment decides), so every error branch of the callers
    is reachable. The clock, the fault schedule and the random source are part of the
    machine state. *)
From Stdlib Require Import ZArith Lia Ascii String.
From S2P Require Import Prelude GoStrings Float64 Library.
From stdpp Require Import base gmap strings list sorting.
Local Open Scope Z_scope.

(** ** Errors *)
Inductive sqlError : Type :=
| SqlFault                      (* disk full, I/O error, busy, ... *)
| SqlUnique (column : string)   (* UNIQUE constraint failed: column *)
| SqlForeignKey.                (* FOREIGN KEY constraint failed *)
Inductive error : Type :=
| ErrNotFound
| ErrLastAdmin
| ErrUsernameTaken
| ErrPasskeyExists
| ErrSQL (e : sqlError)
| ErrText (msg : string).
#[export] Instance sqlError_eq_dec : EqDecision sqlError.
Proof. solve_decision. Defined.
#[export] Instance error_eq_dec : EqDecision error.
Proof. solve_decision. Defined.

Abbreviation res A := (result error A).

Definition errorText (e : error) : string :=
  match e with
  | ErrNotFound => "not found"
  | ErrLastAdmin => "the hub needs at least one administrator"
  | ErrUsernameTaken => "that username is taken"
  | ErrPasskeyExists => "this passkey is already registered"
  | ErrSQL SqlFault => "database error"
  | ErrSQL (SqlUnique c) => "constraint failed: UNIQUE constraint failed: " ++ c
  | ErrSQL SqlForeignKey => "constraint failed: FOREIGN KEY constraint failed"
  | ErrText m => m
  end%string.

(** ** Rows *)
Record User := mkUser {
  u_ID : Z;
  u_Username : string;
  u_PasswordHash : string;
  u_TOTPSecret : string;
  u_Role : string;
  u_CreatedAt : Z;
  u_LastLogin : Z;
}.
(** A row of [users]: the [User] and the WebAuthn handle, NULL until the first passkey. *)
Record userRow := mkUserRow { ur_user : User; ur_handle : option string }.
Definition ur_ID (r : userRow) : Z := u_ID (ur_user r).

Record sessionRow := mkSessionRow {
  sr_token_hash : string;
  sr_user_id : Z;
  sr_expires_at : Z;
  sr_elevated_until : Z;
}.
Record Session := mkSession {
  s_User : User;
  s_TokenHash : string;
  s_ElevatedUntil : Z;
}.
Record enrollRow := mkEnrollRow { er_token_hash : string; er_created_at : Z; er_expires_at : Z }.
Record System := mkSystem {
  sy_ID : Z;
  sy_Name : string;
  sy_Fingerprint : string;
  sy_Info : string;
  sy_AgentVersion : string;
  sy_LastSeen : Z;
  sy_LastMetrics : string;
  sy_CreatedAt : Z;
}.
Record Notifier := mkNotifier {
  n_ID : Z;
  n_Name : string;
  n_Type : string;
  n_Config : string;
  n_Enabled : bool;
  n_LastSent : Z;
  n_LastError : string;
  n_CreatedAt : Z;
}.
Record AlertRule := mkAlertRule {
  r_ID : Z;
  r_Name : string;
  r_SystemID : option Z;
  r_Metric : string;
  r_Threshold : f64;
  r_Duration : Z;
  r_Notifiers : list Z;
  r_Enabled : bool;
  r_CreatedAt : Z;
}.
Record Alert := mkAlert {
  a_ID : Z;
  a_RuleID : Z;
  a_RuleName : string;
  a_SystemID : Z;
  a_SystemName : string;
  a_Metric : string;
  a_Threshold : f64;
  a_Value : f64;
  a_StartedAt : Z;
  a_ResolvedAt : option Z;
}.
Record AuditEntry := mkAuditEntry {
  ae_ID : Z;
  ae_Time : Z;
  ae_Username : string;
  ae_Action : string;
  ae_SystemID : option Z;
  ae_SystemName : string;
  ae_Remote : string;
  ae_Detail : string;
}.
Record Passkey := mkPasskey {
  pk_ID : Z;
  pk_UserID : Z;
  pk_Name : string;
  pk_RPID : string;
  pk_CredentialID : string;
  pk_PublicKey : string;
  pk_Algorithm : Z;
  pk_SignCount : Z;
  pk_CreatedAt : Z;
  pk_LastUsed : Z;
}.
Record Script := mkScript {
  sc_ID : Z;
  sc_Name : string;
  sc_Description : string;
  sc_Shell : string;
  sc_Content : string;
  sc_Timeout : Z;
  sc_CreatedBy : string;
  sc_CreatedAt : Z;
  sc_UpdatedAt : Z;
}.
Record ScriptRun := mkScriptRun {
  sn_ID : Z;
  sn_ScriptID : option Z;
  sn_Name : string;
  sn_Shell : string;
  sn_Content : string;
  sn_Timeout : Z;
  sn_Username : string;
  sn_StartedAt : Z;
  sn_FinishedAt : option Z;
  sn_Targets : string;
}.
(** A row of [script_runs]: the run and its [summary] column. *)
Record runRow := mkRunRow { rr_run : ScriptRun; rr_summary : string }.
Definition rr_ID (r : runRow) : Z := sn_ID (rr_run r).

(** ** The database *)
Record store := mkStore {
  users : list userRow;
  sessions : list sessionRow;
  enroll_tokens : list enrollRow;
  systems : list System;
  metrics : gmap (Z * Z * Z) (list f64);   (* (system_id, res, ts) -> values *)
  audit_log : list AuditEntry;
  notifiers : list Notifier;
  alert_rules : list AlertRule;
  alerts : list Alert;
  passkeys : list Passkey;
  scripts : list Script;
  script_runs : list runRow;
}.
Definition set_users (x : list userRow) (s : store) : store :=
  let '(mkStore _ b c d e f g h i j k l) := s in mkStore x b c d e f g h i j k l.
Definition set_sessions (x : list sessionRow) (s : store) : store :=
  let '(mkStore a _ c d e f g h i j k l) := s in mkStore a x c d e f g h i j k l.
Definition set_enroll_tokens (x : list enrollRow) (s : store) : store :=
  let '(mkStore a b _ d e f g h i j k l) := s in mkStore a b x d e f g h i j k l.
Definition set_systems (x : list System) (s : store) : store :=
  let '(mkStore a b c _ e f g h i j k l) := s in mkStore a b c x e f g h i j k l.
Definition set_metrics (x : gmap (Z * Z * Z) (list f64)) (s : store) : store :=
  let '(mkStore a b c d _ f g h i j k l) := s in mkStore a b c d x f g h i j k l.
Definition set_audit_log (x : list AuditEntry) (s : store) : store :=
  let '(mkStore a b c d e _ g h i j k l) := s in mkStore a b c d e x g h i j k l.
Definition set_notifiers (x : list Notifier) (s : store) : store :=
  let '(mkStore a b c d e f _ h i j k l) := s in mkStore a b c d e f x h i j k l.
Definition set_alert_rules (x : list AlertRule) (s : store) : store :=
  let '(mkStore a b c d e f g _ i j k l) := s in mkStore a b c d e f g x i j k l.
Definition set_alerts (x : list Alert) (s : store) : store :=
  let '(mkStore a b c d e f g h _ j k l) := s in mkStore a b c d e f g h x j k l.
Definition set_passkeys (x : list Passkey) (s : store) : store :=
  let '(mkStore a b c d e f g h i _ k l) := s in mkStore a b c d e f g h i x k l.
Definition set_scripts (x : list Script) (s : store) : store :=
  let '(mkStore a b c d e f g h i j _ l) := s in mkStore a b c d e f g h i j x l.
Definition set_script_runs (x : list runRow) (s : store) : store :=
  let '(mkStore a b c d e f g h i j k _) := s in mkStore a b c d e f g h i j k x.

(** ** The machine: database, clock, fault schedule, random source *)
Record env := mkEnv {
  e_now : Z;             (* the wall clock, ns *)
  e_ticks : list Z;      (* how far it moves before each reading; may be negative *)
  e_faults : list bool;  (* whether each statement fails; none does once it is empty *)
  e_rand : list string;  (* what the random source yields *)
}.
Record mach := mkMach { m_db : store; m_env : env }.

(** [time.Now()]. *)
Definition timeNow : M mach Z := λ m,
  let 'mkMach db (mkEnv t ks fs rs) := m in
  match ks with
  | [] => (t, m)
  | k :: ks' => (t + k, mkMach db (mkEnv (t + k) ks' fs rs))
  end.
(** [rand.Read] of a fresh value. *)
Definition randRead : M mach string := λ m,
  let 'mkMach db (mkEnv t ks fs rs) := m in
  match rs with
  | [] => (EmptyString, m)
  | r :: rs' => (r, mkMach db (mkEnv t ks fs rs'))
  end.
(** One statement on the single connection. *)
Definition sql {A} (f : store → res A * store) : M mach (res A) := λ m,
  let 'mkMach db (mkEnv t ks fs rs) := m in
  match fs with
  | true :: fs' => (Err (ErrSQL SqlFault), mkMach db (mkEnv t ks fs' rs))
  | _ => let '(a, db') := f db in (a, mkMach db' (mkEnv t ks (tail fs) rs))
  end.
(** A query changes nothing. *)
Definition query {A} (f : store → res A) : M mach (res A) := sql (λ s, (f s, s)).
(** [QueryRow(...).Scan] and [notFound]: the first row, or [ErrNotFound]. *)
Definition oneRow {A} (l : list A) : res A :=
  match l with [] => Err ErrNotFound | x :: _ => Ok x end.
(** [affected]: an UPDATE or DELETE that touched no row is [ErrNotFound]. *)
Definition affected (n : nat) : res unit := if (n =? 0)%nat then Err ErrNotFound else Ok tt.

(** INTEGER PRIMARY KEY without AUTOINCREMENT: one more than the largest rowid in use. *)
Definition nextID (ids : list Z) : Z := foldr Z.max 0 ids + 1.

(** ** Roles *)
Definition RoleViewer : string := "viewer".
Definition RoleOperator : string := "operator".
Definition RoleAdmin : string := "admin".
Definition roleRank (r : string) : Z :=
  if String.eqb r RoleViewer then 1
  else if String.eqb r RoleOperator then 2
  else if String.eqb r RoleAdmin then 3
  else 0.
Definition ValidRole (r : string) : bool := 0 <? roleRank r.
Definition RoleIncludes (role need : string) : bool := roleRank need <=? roleRank role.
Definition Can (u : User) (role : string) : bool := RoleIncludes (u_Role u) role.

(** ** Users *)
Definition CountUsers : M mach (res Z) := query (λ s, Ok (Z.of_nat (length (users s)))).

(** [strings.Contains(err.Error(), "UNIQUE constraint failed: " + column)]. *)
Definition uniqueFailed (column : string) (e : error) : bool :=
  match e with ErrSQL (SqlUnique c) => String.eqb c column | _ => false end.
Definition insertUser (username hash role : string) (now : Z) (s : store) : res Z * store :=
  if existsWhere (λ r, nocaseEq (u_Username (ur_user r)) username) (users s)
  then (Err (ErrSQL (SqlUnique "users.username")), s)
  else let id := nextID (map ur_ID (users s)) in
       (Ok id, set_users (users s ++ [mkUserRow (mkUser id username hash "" role now 0) None]) s).

Definition CreateUser `{Lib} (username passwordHash role : string) : M mach (res User) :=
  if negb (ValidRole role) then mret (Err (ErrText ("unknown role " ++ Quote role))) else
  t ← timeNow;
  r ← sql (insertUser username passwordHash role (unix t));
  mret (match r with
        | Err e => Err (if uniqueFailed "users.username" e then ErrUsernameTaken else e)
        | Ok id => Ok (mkUser id username passwordHash "" role (unix t) 0)
        end).

Definition UserByName (username : string) : M mach (res User) :=
  query (λ s, oneRow (map ur_user (selectWhere (λ r, nocaseEq (u_Username (ur_user r)) username) (users s)))).
Definition getUser (id : Z) : M mach (res User) :=
  query (λ s, oneRow (map ur_user (selectWhere (λ r, ur_ID r =? id) (users s)))).
Definition Users : M mach (res (list User)) :=
  query (λ s, Ok (sortBy (λ a b, nocaseLe (u_Username a) (u_Username b)) (map ur_user (users s)))).

Definition isAdmin (r : userRow) : bool := String.eqb (u_Role (ur_user r)) RoleAdmin.
Definition admins (s : store) : nat := countWhere isAdmin (users s).

Definition withUser (f : User → User) (r : userRow) : userRow := mkUserRow (f (ur_user r)) (ur_handle r).
Definition withRole (role : string) (u : User) : User :=
  mkUser (u_ID u) (u_Username u) (u_PasswordHash u) (u_TOTPSecret u) role (u_CreatedAt u) (u_LastLogin u).
Definition withPassword (h : string) (u : User) : User :=
  mkUser (u_ID u) (u_Username u) h (u_TOTPSecret u) (u_Role u) (u_CreatedAt u) (u_LastLogin u).
Definition withTOTP (x : string) (u : User) : User :=
  mkUser (u_ID u) (u_Username u) (u_PasswordHash u) x (u_Role u) (u_CreatedAt u) (u_LastLogin u).
Definition withLastLogin (t : Z) (u : User) : User :=
  mkUser (u_ID u) (u_Username u) (u_PasswordHash u) (u_TOTPSecret u) (u_Role u) (u_CreatedAt u) t.

(** UPDATE users SET ... WHERE p: the number of rows and the new tables. *)
Definition updateUsers (p : userRow → bool) (f : User → User) (s : store) : res nat * store :=
  (Ok (countWhere p (users s)), set_users (updateWhere p (withUser f) (users s)) s).

(** DELETE FROM users WHERE p, with ON DELETE CASCADE to sessions and passkeys. *)
Definition deleteUsers (p : userRow → bool) (s : store) : res nat * store :=
  let gone id := existsWhere (λ r, p r && (ur_ID r =? id)) (users s) in
  (Ok (countWhere p (users s)),
   set_users (deleteWhere p (users s))
     (set_sessions (deleteWhere (λ x, gone (sr_user_id x)) (sessions s))
        (set_passkeys (deleteWhere (λ x, gone (pk_UserID x)) (passkeys s)) s))).

Definition lastAdminCheck (r : res nat) (userID : Z) : M mach (res unit) :=
  match r with
  | Err e => mret (Err e)
  | Ok n =>
    match affected n with
    | Ok _ => mret (Ok tt)
    | Err _ =>
      u ← getUser userID;
      mret (match u with Err e => Err e | Ok _ => Err ErrLastAdmin end)
    end
  end.

(** The WHERE clause of the guarded role change and deletion. *)
Definition roleGuard (userID : Z) (role : string) (s : store) (r : userRow) : bool :=
  (ur_ID r =? userID) &&
  (String.eqb role RoleAdmin || negb (isAdmin r) || (1 <? admins s)%nat).
Definition deleteGuard (userID : Z) (s : store) (r : userRow) : bool :=
  (ur_ID r =? userID) && (negb (isAdmin r) || (1 <? admins s)%nat).

Definition SetRole `{Lib} (userID : Z) (role : string) : M mach (res unit) :=
  if negb (ValidRole role) then mret (Err (ErrText ("unknown role " ++ Quote role))) else
  r ← sql (λ s, updateUsers (roleGuard userID role s) (withRole role) s);
  lastAdminCheck r userID.
Definition DeleteUser (userID : Z) : M mach (res unit) :=
  r ← sql (λ s, deleteUsers (deleteGuard userID s) s);
  lastAdminCheck r userID.

Definition ignoreCount (r : res nat) : res unit :=
  match r with Ok _ => Ok tt | Err e => Err e end.
Definition needAffected (r : res nat) : res unit :=
  match r with Ok n => affected n | Err e => Err e end.

Definition SetLastLogin (userID t : Z) : M mach (res unit) :=
  r ← sql (updateUsers (λ r, ur_ID r =? userID) (withLastLogin (unix t)));
  mret (ignoreCount r).
Definition SetPassword (userID : Z) (hash : string) : M mach (res unit) :=
  r ← sql (updateUsers (λ r, ur_ID r =? userID) (withPassword hash));
  mret (ignoreCount r).
Definition SetTOTPSecret (userID : Z) (secret : string) : M mach (res unit) :=
  r ← sql (updateUsers (λ r, ur_ID r =? userID) (withTOTP secret));
  mret (ignoreCount r).

(** ** Sessions *)
Definition insertSession (hash : string) (userID expires : Z) (s : store) : res unit * store :=
  if existsWhere (λ x, String.eqb (sr_token_hash x) hash) (sessions s)
  then (Err (ErrSQL (SqlUnique "sessions.token_hash")), s)
  else if negb (existsWhere (λ r, ur_ID r =? userID) (users s))
  then (Err (ErrSQL SqlForeignKey), s)
  else (Ok tt, set_sessions (sessions s ++ [mkSessionRow hash userID expires 0]) s).
Definition CreateSession (hash : string) (userID expires : Z) : M mach (res unit) :=
  sql (insertSession hash userID (unix expires)).

(** sessions JOIN users, restricted to the unexpired session with this token hash. *)
Definition joinSessions (hash : string) (now : Z) (s : store) : list Session :=
  flat_map (λ x,
    map (λ r, mkSession (ur_user r) hash (sr_elevated_until x))
      (selectWhere (λ r, ur_ID r =? sr_user_id x) (users s)))
    (selectWhere (λ x, String.eqb (sr_token_hash x) hash && (now <? sr_expires_at x)) (sessions s)).
Definition getSession (hash : string) : M mach (res Session) :=
  t ← timeNow;
  query (λ s, oneRow (joinSessions hash (unix t) s)).

Definition withElevated (until : Z) (x : sessionRow) : sessionRow :=
  mkSessionRow (sr_token_hash x) (sr_user_id x) (sr_expires_at x) until.
Definition ElevateSession (hash : string) (until : Z) : M mach (res unit) :=
  sql (λ s, (Ok tt, set_sessions (updateWhere (λ x, String.eqb (sr_token_hash x) hash)
                                    (withElevated (unix until)) (sessions s)) s)).
Definition deleteSessionsWhere (p : sessionRow → bool) : M mach (res unit) :=
  sql (λ s, (Ok tt, set_sessions (deleteWhere p (sessions s)) s)).
Definition DeleteOtherSessions (userID : Z) (keep : string) : M mach (res unit) :=
  deleteSessionsWhere (λ x, (sr_user_id x =? userID) && negb (String.eqb (sr_token_hash x) keep)).
Definition DeleteSessions (userID : Z) : M mach (res unit) :=
  deleteSessionsWhere (λ x, sr_user_id x =? userID).
Definition DeleteSession (hash : string) : M mach (res unit) :=
  deleteSessionsWhere (λ x, String.eqb (sr_token_hash x) hash).

(** ** Enrollment tokens *)
Definition CreateEnrollToken (hash : string) (expires : Z) : M mach (res unit) :=
  t ← timeNow;
  sql (λ s, if existsWhere (λ x, String.eqb (er_token_hash x) hash) (enroll_tokens s)
            then (Err (ErrSQL (SqlUnique "enroll_tokens.token_hash")), s)
            else (Ok tt, set_enroll_tokens
                           (enroll_tokens s ++ [mkEnrollRow hash (unix t) (unix expires)]) s)).
Definition ValidEnrollToken (hash : string) : M mach (res bool) :=
  t ← timeNow;
  query (λ s, Ok (0 <? countWhere (λ x, String.eqb (er_token_hash x) hash && (unix t <? er_expires_at x)%Z)
                         (enroll_tokens s))%nat).
Definition DeleteExpired : M mach (res unit) :=
  t ← timeNow;
  r ← deleteSessionsWhere (λ x, sr_expires_at x <=? unix t);
  match r with
  | Err e => mret (Err e)
  | Ok _ => sql (λ s, (Ok tt, set_enroll_tokens
                               (deleteWhere (λ x, er_expires_at x <=? unix t) (enroll_tokens s)) s))
  end.

(** ** Systems *)
Definition getSystem (id : Z) : M mach (res System) :=
  query (λ s, oneRow (selectWhere (λ x, sy_ID x =? id) (systems s))).
Definition SystemByFingerprint (fp : string) : M mach (res System) :=
  query (λ s, oneRow (selectWhere (λ x, String.eqb (sy_Fingerprint x) fp) (systems s))).
Definition systemLe (a b : System) : bool :=
  match String.compare (nocase (sy_Name a)) (nocase (sy_Name b)) with
  | Lt => true
  | Eq => sy_ID a <=? sy_ID b
  | Gt => false
  end.
Definition Systems : M mach (res (list System)) :=
  query (λ s, Ok (sortBy systemLe (systems s))).
Definition insertSystem (name fp info version : string) (now : Z) (s : store) : res Z * store :=
  if existsWhere (λ x, String.eqb (sy_Fingerprint x) fp) (systems s)
  then (Err (ErrSQL (SqlUnique "systems.fingerprint")), s)
  else let id := nextID (map sy_ID (systems s)) in
       (Ok id, set_systems (systems s ++ [mkSystem id name fp info version now "" now]) s).
Definition CreateSystem (name fp info version : string) : M mach (res System) :=
  t ← timeNow;
  r ← sql (insertSystem name fp info version (unix t));
  match r with Err e => mret (Err e) | Ok id => getSystem id end.

Definition updateSystems (id : Z) (f : System → System) (s : store) : res nat * store :=
  (Ok (countWhere (λ x, sy_ID x =? id) (systems s)),
   set_systems (updateWhere (λ x, sy_ID x =? id) f (systems s)) s).
Definition withInfo (info version : string) (x : System) : System :=
  mkSystem (sy_ID x) (sy_Name x) (sy_Fingerprint x) info version (sy_LastSeen x) (sy_LastMetrics x) (sy_CreatedAt x).
Definition withName (name : string) (x : System) : System :=
  mkSystem (sy_ID x) name (sy_Fingerprint x) (sy_Info x) (sy_AgentVersion x) (sy_LastSeen x) (sy_LastMetrics x) (sy_CreatedAt x).
Definition withSeen (ts : Z) (lm : string) (x : System) : System :=
  mkSystem (sy_ID x) (sy_Name x) (sy_Fingerprint x) (sy_Info x) (sy_AgentVersion x) ts lm (sy_CreatedAt x).
Definition UpdateSystemInfo (id : Z) (info version : string) : M mach (res unit) :=
  r ← sql (updateSystems id (withInfo info version)); mret (ignoreCount r).
Definition RenameSystem (id : Z) (name : string) : M mach (res unit) :=
  r ← sql (updateSystems id (withName name)); mret (needAffected r).
Definition UpdateLastSeen (id ts : Z) (lm : string) : M mach (res unit) :=
  r ← sql (updateSystems id (withSeen ts lm)); mret (ignoreCount r).

(** DELETE FROM systems, with ON DELETE CASCADE to metrics and the system's own rules. *)
Definition deleteSystems (id : Z) (s : store) : res nat * store :=
  let n := countWhere (λ x, sy_ID x =? id) (systems s) in
  if (n =? 0)%nat then (Ok 0%nat, s) else
  (Ok n,
   set_systems (deleteWhere (λ x, sy_ID x =? id) (systems s))
     (set_metrics (filter (λ kv, kv.1.1.1 ≠ id) (metrics s))
        (set_alert_rules (deleteWhere (λ r, bool_decide (r_SystemID r = Some id)) (alert_rules s)) s))).
Definition DeleteSystem (id : Z) : M mach (res unit) :=
  r ← sql (deleteSystems id); mret (needAffected r).
