(* ===== verification/StoreTables.v ===== *)
(** * The remaining tables: passkeys, notifiers, rules, alerts, scripts, runs, audit log
    and metrics ([internal/hub/store/{passkeys,alerts,scripts,audit,metrics}.go]) *)
From Stdlib Require Import ZArith Lia Ascii String.
From S2P Require Import Prelude GoStrings Float64 Library Store.
From stdpp Require Import base gmap strings list sorting.
Local Open Scope Z_scope.

(** ** Passkeys *)
Definition handleOf (userID : Z) (s : store) : res (option string) :=
  oneRow (map ur_handle (selectWhere (λ r, ur_ID r =? userID) (users s))).
Definition handleTaken (h : string) (s : store) : bool :=
  existsWhere (λ r, bool_decide (ur_handle r = Some h)) (users s).
Definition isHandleless (userID : Z) (r : userRow) : bool :=
  (ur_ID r =? userID) && bool_decide (ur_handle r = None).
(** UPDATE users SET passkey_handle = ? WHERE id = ? AND passkey_handle IS NULL, under
    the unique index on the handles. *)
Definition setHandle (userID : Z) (h : string) (s : store) : res unit * store :=
  if (0 <? countWhere (isHandleless userID) (users s))%nat && handleTaken h s
  then (Err (ErrSQL (SqlUnique "users.passkey_handle")), s)
  else (Ok tt, set_users (updateWhere (isHandleless userID)
                            (λ r, mkUserRow (ur_user r) (Some h)) (users s)) s).
(** Reading NULL into a byte slice gives nil, which has length 0. *)
Definition handleBytes (o : option string) : string := default EmptyString o.

Definition PasskeyHandle (userID : Z) : M mach (res string) :=
  r ← query (handleOf userID);
  match r with
  | Err e => mret (Err e)
  | Ok o =>
    if 0 <? strLen (handleBytes o) then mret (Ok (handleBytes o)) else
    h ← randRead;
    u ← sql (setHandle userID h);
    match u with
    | Err e => mret (Err e)
    | Ok _ =>
      r' ← query (handleOf userID);
      mret (match r' with Err e => Err e | Ok o' => Ok (handleBytes o') end)
    end
  end.

Definition withPkID (id now : Z) (p : Passkey) : Passkey :=
  mkPasskey id (pk_UserID p) (pk_Name p) (pk_RPID p) (pk_CredentialID p) (pk_PublicKey p)
    (pk_Algorithm p) (pk_SignCount p) now (pk_LastUsed p).
Definition insertPasskey (p : Passkey) (now : Z) (s : store) : res Passkey * store :=
  if existsWhere (λ x, String.eqb (pk_CredentialID x) (pk_CredentialID p)) (passkeys s)
  then (Err (ErrSQL (SqlUnique "passkeys.credential_id")), s)
  else if negb (existsWhere (λ r, ur_ID r =? pk_UserID p) (users s))
  then (Err (ErrSQL SqlForeignKey), s)
  else let p' := withPkID (nextID (map pk_ID (passkeys s))) now p in
       let row := mkPasskey (pk_ID p') (pk_UserID p') (pk_Name p') (pk_RPID p') (pk_CredentialID p')
                    (pk_PublicKey p') (pk_Algorithm p') (pk_SignCount p') now 0 in
       (Ok p', set_passkeys (passkeys s ++ [row]) s).
Definition CreatePasskey (p : Passkey) : M mach (res Passkey) :=
  t ← timeNow;
  r ← sql (insertPasskey p (unix t));
  mret (match r with Err (ErrSQL (SqlUnique _)) => Err ErrPasskeyExists | _ => r end).

Definition Passkeys (userID : Z) : M mach (res (list Passkey)) :=
  query (λ s, Ok (selectWhere (λ p, pk_UserID p =? userID) (passkeys s))).
Definition PasskeyCounts : M mach (res (Z → nat)) :=
  query (λ s, Ok (λ id, countWhere (λ p, pk_UserID p =? id) (passkeys s))).
Definition PasskeyByCredential (credID : string) : M mach (res Passkey) :=
  query (λ s, oneRow (selectWhere (λ p, String.eqb (pk_CredentialID p) credID) (passkeys s))).
Definition withUse (count t : Z) (p : Passkey) : Passkey :=
  mkPasskey (pk_ID p) (pk_UserID p) (pk_Name p) (pk_RPID p) (pk_CredentialID p) (pk_PublicKey p)
    (pk_Algorithm p) count (pk_CreatedAt p) t.
Definition withPkName (name : string) (p : Passkey) : Passkey :=
  mkPasskey (pk_ID p) (pk_UserID p) name (pk_RPID p) (pk_CredentialID p) (pk_PublicKey p)
    (pk_Algorithm p) (pk_SignCount p) (pk_CreatedAt p) (pk_LastUsed p).
Definition updatePasskeys (p : Passkey → bool) (f : Passkey → Passkey) (s : store) : res nat * store :=
  (Ok (countWhere p (passkeys s)), set_passkeys (updateWhere p f (passkeys s)) s).
Definition UsePasskey (id signCount : Z) : M mach (res unit) :=
  t ← timeNow;
  r ← sql (updatePasskeys (λ p, pk_ID p =? id) (withUse signCount (unix t)));
  mret (ignoreCount r).
Definition RenamePasskey (id userID : Z) (name : string) : M mach (res unit) :=
  r ← sql (updatePasskeys (λ p, (pk_ID p =? id) && (pk_UserID p =? userID)) (withPkName name));
  mret (needAffected r).
Definition deletePasskeysWhere (p : Passkey → bool) (s : store) : res nat * store :=
  (Ok (countWhere p (passkeys s)), set_passkeys (deleteWhere p (passkeys s)) s).
Definition DeletePasskey (id userID : Z) : M mach (res Passkey) :=
  p ← query (λ s, oneRow (selectWhere (λ p, (pk_ID p =? id) && (pk_UserID p =? userID)) (passkeys s)));
  match p with
  | Err e => mret (Err e)
  | Ok key =>
    r ← sql (deletePasskeysWhere (λ p, pk_ID p =? id));
    mret (match needAffected r with Ok _ => Ok key | Err e => Err e end)
  end.
Definition DeletePasskeysOf (userID : Z) : M mach (res Z) :=
  r ← sql (deletePasskeysWhere (λ p, pk_UserID p =? userID));
  mret (match r with Ok n => Ok (Z.of_nat n) | Err e => Err e end).
Definition UserByPasskeyHandle (handle : string) : M mach (res User) :=
  if strLen handle =? 0 then mret (Err ErrNotFound) else
  query (λ s, oneRow (map ur_user (selectWhere (λ r, bool_decide (ur_handle r = Some handle)) (users s)))).

(** ** Notifiers *)
Definition notifierLe (a b : Notifier) : bool :=
  match String.compare (nocase (n_Name a)) (nocase (n_Name b)) with
  | Lt => true | Eq => n_ID a <=? n_ID b | Gt => false
  end.
Definition Notifiers : M mach (res (list Notifier)) :=
  query (λ s, Ok (sortBy notifierLe (notifiers s))).
Definition getNotifier (id : Z) : M mach (res Notifier) :=
  query (λ s, oneRow (selectWhere (λ n, n_ID n =? id) (notifiers s))).
Definition updateNotifiers (id : Z) (f : Notifier → Notifier) (s : store) : res nat * store :=
  (Ok (countWhere (λ n, n_ID n =? id) (notifiers s)),
   set_notifiers (updateWhere (λ n, n_ID n =? id) f (notifiers s)) s).
Definition withSettings (n x : Notifier) : Notifier :=
  mkNotifier (n_ID x) (n_Name n) (n_Type n) (n_Config n) (n_Enabled n)
    (n_LastSent x) (n_LastError x) (n_CreatedAt x).
(** The saved notifier (its ID and creation time set on insert). *)
Definition SaveNotifier (n : Notifier) : M mach (res Notifier) :=
  if n_ID n =? 0 then
    t ← timeNow;
    sql (λ s, let id := nextID (map n_ID (notifiers s)) in
              let row := mkNotifier id (n_Name n) (n_Type n) (n_Config n) (n_Enabled n) 0 "" (unix t) in
              (Ok (mkNotifier id (n_Name n) (n_Type n) (n_Config n) (n_Enabled n)
                     (n_LastSent n) (n_LastError n) (unix t)),
               set_notifiers (notifiers s ++ [row]) s))
  else
    r ← sql (updateNotifiers (n_ID n) (withSettings n));
    mret (match needAffected r with Ok _ => Ok n | Err e => Err e end).
Definition DeleteNotifier (id : Z) : M mach (res unit) :=
  r ← sql (λ s, (Ok (countWhere (λ n, n_ID n =? id) (notifiers s)),
                 set_notifiers (deleteWhere (λ n, n_ID n =? id) (notifiers s)) s));
  mret (needAffected r).
Definition withResult (sent : Z) (msg : string) (x : Notifier) : Notifier :=
  mkNotifier (n_ID x) (n_Name x) (n_Type x) (n_Config x) (n_Enabled x) sent msg (n_CreatedAt x).
Definition NotifierResult (id sentAt : Z) (msg : string) : M mach (res unit) :=
  r ← sql (updateNotifiers id (withResult sentAt msg)); mret (ignoreCount r).

(** ** Alert rules *)
Definition AlertRules : M mach (res (list AlertRule)) := query (λ s, Ok (alert_rules s)).
Definition getAlertRule (id : Z) : M mach (res AlertRule) :=
  query (λ s, oneRow (selectWhere (λ r, r_ID r =? id) (alert_rules s))).
Definition withRuleID (id created : Z) (r : AlertRule) : AlertRule :=
  mkAlertRule id (r_Name r) (r_SystemID r) (r_Metric r) (r_Threshold r) (r_Duration r)
    (r_Notifiers r) (r_Enabled r) created.
(** REFERENCES systems(id). *)
Definition systemExists (o : option Z) (s : store) : bool :=
  match o with None => true | Some id => existsWhere (λ x, sy_ID x =? id) (systems s) end.
Definition insertRule (r : AlertRule) (now : Z) (s : store) : res AlertRule * store :=
  if negb (systemExists (r_SystemID r) s) then (Err (ErrSQL SqlForeignKey), s) else
  let r' := withRuleID (nextID (map r_ID (alert_rules s))) now r in
  (Ok r', set_alert_rules (alert_rules s ++ [r']) s).
Definition updateRule (r : AlertRule) (s : store) : res nat * store :=
  let n := countWhere (λ x, r_ID x =? r_ID r) (alert_rules s) in
  if (0 <? n)%nat && negb (systemExists (r_SystemID r) s) then (Err (ErrSQL SqlForeignKey), s) else
  (Ok n, set_alert_rules (updateWhere (λ x, r_ID x =? r_ID r)
                            (λ x, withRuleID (r_ID x) (r_CreatedAt x) r) (alert_rules s)) s).
Definition SaveAlertRule (r : AlertRule) : M mach (res AlertRule) :=
  if r_ID r =? 0 then
    t ← timeNow; sql (insertRule r (unix t))
  else
    n ← sql (updateRule r);
    mret (match needAffected n with Ok _ => Ok r | Err e => Err e end).
Definition DeleteAlertRule (id : Z) : M mach (res unit) :=
  r ← sql (λ s, (Ok (countWhere (λ r, r_ID r =? id) (alert_rules s)),
                 set_alert_rules (deleteWhere (λ r, r_ID r =? id) (alert_rules s)) s));
  mret (needAffected r).

(** ** Alerts *)
Definition isActive (a : Alert) : bool := bool_decide (a_ResolvedAt a = None).
Definition ActiveAlerts : M mach (res (list Alert)) :=
  query (λ s, Ok (sortBy (λ a b, a_StartedAt b <=? a_StartedAt a) (selectWhere isActive (alerts s)))).
Definition resolvedAt (a : Alert) : Z := default 0 (a_ResolvedAt a).
Definition ResolvedAlerts (limit : nat) : M mach (res (list Alert)) :=
  query (λ s, Ok (take limit (sortBy (λ a b, resolvedAt b <=? resolvedAt a)
                                (selectWhere (λ a, negb (isActive a)) (alerts s))))).
Definition withAlertID (id : Z) (a : Alert) : Alert :=
  mkAlert id (a_RuleID a) (a_RuleName a) (a_SystemID a) (a_SystemName a) (a_Metric a)
    (a_Threshold a) (a_Value a) (a_StartedAt a) (a_ResolvedAt a).
Definition withResolved (at_ : Z) (a : Alert) : Alert :=
  mkAlert (a_ID a) (a_RuleID a) (a_RuleName a) (a_SystemID a) (a_SystemName a) (a_Metric a)
    (a_Threshold a) (a_Value a) (a_StartedAt a) (Some at_).
Definition withUnresolved (a : Alert) : Alert :=
  mkAlert (a_ID a) (a_RuleID a) (a_RuleName a) (a_SystemID a) (a_SystemName a) (a_Metric a)
    (a_Threshold a) (a_Value a) (a_StartedAt a) None.
Definition CreateAlert (a : Alert) : M mach (res Alert) :=
  sql (λ s, let a' := withAlertID (nextID (map a_ID (alerts s))) a in
            (Ok a', set_alerts (alerts s ++ [withUnresolved a']) s)).
Definition resolveWhere (p : Alert → bool) (at_ : Z) : M mach (res unit) :=
  sql (λ s, (Ok tt, set_alerts (updateWhere (λ a, isActive a && p a) (withResolved at_) (alerts s)) s)).
Definition ResolveAlert (id at_ : Z) : M mach (res unit) := resolveWhere (λ a, a_ID a =? id) at_.
Definition ResolveAlertsWhere (ruleID systemID at_ : Z) : M mach (res unit) :=
  resolveWhere (λ a, (negb (ruleID =? 0) && (a_RuleID a =? ruleID))
                     || (negb (systemID =? 0) && (a_SystemID a =? systemID))) at_.
Definition AlertRetention : Z := hours (90 * 24).
Definition PruneAlerts (now : Z) : M mach (res unit) :=
  sql (λ s, (Ok tt, set_alerts
    (deleteWhere (λ a, negb (isActive a) && (resolvedAt a <? unix (now - AlertRetention))) (alerts s)) s)).

(** ** Scripts and runs *)
Definition scriptLe (a b : Script) : bool :=
  match String.compare (nocase (sc_Name a)) (nocase (sc_Name b)) with
  | Lt => true | Eq => sc_ID a <=? sc_ID b | Gt => false
  end.
Definition Scripts : M mach (res (list Script)) := query (λ s, Ok (sortBy scriptLe (scripts s))).
Definition getScript (id : Z) : M mach (res Script) :=
  query (λ s, oneRow (selectWhere (λ x, sc_ID x =? id) (scripts s))).
Definition withScriptIDs (id created updated : Z) (sc : Script) : Script :=
  mkScript id (sc_Name sc) (sc_Description sc) (sc_Shell sc) (sc_Content sc) (sc_Timeout sc)
    (sc_CreatedBy sc) created updated.
Definition withScriptBody (sc : Script) (now : Z) (x : Script) : Script :=
  mkScript (sc_ID x) (sc_Name sc) (sc_Description sc) (sc_Shell sc) (sc_Content sc) (sc_Timeout sc)
    (sc_CreatedBy x) (sc_CreatedAt x) now.
Definition SaveScript (sc : Script) : M mach (res Script) :=
  t ← timeNow;
  let now := unix t in
  if sc_ID sc =? 0 then
    sql (λ s, let sc' := withScriptIDs (nextID (map sc_ID (scripts s))) now now sc in
              (Ok sc', set_scripts (scripts s ++ [sc']) s))
  else
    r ← sql (λ s, (Ok (countWhere (λ x, sc_ID x =? sc_ID sc) (scripts s)),
                   set_scripts (updateWhere (λ x, sc_ID x =? sc_ID sc) (withScriptBody sc now) (scripts s)) s));
    mret (match needAffected r with
          | Ok _ => Ok (withScriptIDs (sc_ID sc) (sc_CreatedAt sc) now sc)
          | Err e => Err e
          end).
Definition DeleteScript (id : Z) : M mach (res unit) :=
  r ← sql (λ s, (Ok (countWhere (λ x, sc_ID x =? id) (scripts s)),
                 set_scripts (deleteWhere (λ x, sc_ID x =? id) (scripts s)) s));
  mret (needAffected r).

Section runs.
(** SQLite's JSON functions: the results without each system's output. *)
Context (targetsSummary : string → string).
Definition withRunID (id : Z) (r : ScriptRun) : ScriptRun :=
  mkScriptRun id (sn_ScriptID r) (sn_Name r) (sn_Shell r) (sn_Content r) (sn_Timeout r)
    (sn_Username r) (sn_StartedAt r) (sn_FinishedAt r) (sn_Targets r).
Definition withFinish (finished : option Z) (targets : string) (r : ScriptRun) : ScriptRun :=
  mkScriptRun (sn_ID r) (sn_ScriptID r) (sn_Name r) (sn_Shell r) (sn_Content r) (sn_Timeout r)
    (sn_Username r) (sn_StartedAt r) finished targets.
Definition CreateRun (r : ScriptRun) : M mach (res ScriptRun) :=
  sql (λ s, let r' := withRunID (nextID (map rr_ID (script_runs s))) r in
            (Ok r', set_script_runs
               (script_runs s ++ [mkRunRow (withFinish None (sn_Targets r') r') (targetsSummary (sn_Targets r))]) s)).
Definition FinishRun (id finishedAt : Z) (targets : string) : M mach (res unit) :=
  sql (λ s, (Ok tt, set_script_runs
    (updateWhere (λ x, rr_ID x =? id)
       (λ x, mkRunRow (withFinish (Some finishedAt) targets (rr_run x)) (targetsSummary targets))
       (script_runs s)) s)).
End runs.
Definition getRunRec (id : Z) : M mach (res ScriptRun) :=
  query (λ s, oneRow (map rr_run (selectWhere (λ x, rr_ID x =? id) (script_runs s)))).
(** The list view: no script, and the summary in place of the results. *)
Definition runSummary (x : runRow) : ScriptRun :=
  let r := rr_run x in
  mkScriptRun (sn_ID r) (sn_ScriptID r) (sn_Name r) (sn_Shell r) "" (sn_Timeout r)
    (sn_Username r) (sn_StartedAt r) (sn_FinishedAt r) (rr_summary x).
Definition Runs (limit : nat) : M mach (res (list ScriptRun)) :=
  query (λ s, Ok (take limit (map runSummary (sortBy (λ a b, rr_ID b <=? rr_ID a) (script_runs s))))).
Definition UnfinishedRuns : M mach (res (list ScriptRun)) :=
  query (λ s, Ok (map rr_run (selectWhere (λ x, bool_decide (sn_FinishedAt (rr_run x) = None)) (script_runs s)))).
Definition RunRetention : Z := hours (90 * 24).
Definition PruneRuns (now : Z) : M mach (res unit) :=
  sql (λ s, (Ok tt, set_script_runs
    (deleteWhere (λ x, sn_StartedAt (rr_run x) <? unix (now - RunRetention)) (script_runs s)) s)).

(** ** Audit log *)
Definition AuditRetention : Z := hours (366 * 24).
Definition AddAudit (e : AuditEntry) : M mach (res unit) :=
  t ← (if ae_Time e =? 0 then n ← timeNow; mret (unix n) else mret (ae_Time e));
  sql (λ s, (Ok tt, set_audit_log (audit_log s ++
    [mkAuditEntry (nextID (map ae_ID (audit_log s))) t (ae_Username e) (ae_Action e)
       (ae_SystemID e) (ae_SystemName e) (ae_Remote e) (ae_Detail e)]) s)).
Definition AuditOf (username : string) (beforeID : Z) (limit : nat) : M mach (res (list AuditEntry)) :=
  let before := if beforeID <=? 0 then 2 ^ 62 else beforeID in
  query (λ s, Ok (take limit (sortBy (λ a b, ae_ID b <=? ae_ID a)
    (selectWhere (λ e, (ae_ID e <? before)
                       && (String.eqb username "" || nocaseEq (ae_Username e) username)) (audit_log s))))).
Definition Audit (beforeID : Z) (limit : nat) : M mach (res (list AuditEntry)) := AuditOf "" beforeID limit.
Definition PruneAudit (now : Z) : M mach (res unit) :=
  sql (λ s, (Ok tt, set_audit_log (deleteWhere (λ e, ae_Time e <? unix (now - AuditRetention)) (audit_log s)) s)).
