(* ===== verification/StoreInv.v ===== *)
(** * Integrity of the database

    The constraints the schema declares (primary keys, unique indexes, foreign keys) and
    the rule that the hub keeps an administrator, as invariants of every statement the
    program issues. Statements are atomic, so an invariant of every statement is an
    invariant of every interleaving of requests, whatever fails in between. *)
From Stdlib Require Import ZArith Lia Ascii String.
From S2P Require Import Prelude GoStrings Float64 Library Store StoreTables.
From stdpp Require Import base gmap strings list sorting.
Local Open Scope Z_scope.

(** ** Tables *)
Section tables.
Context {A K : Type} (key : A → K).
Implicit Types (l : list A) (p : A → bool).

Lemma NoDup_deleteWhere p l : NoDup (map key l) → NoDup (map key (deleteWhere p l)).
Proof.
  unfold deleteWhere. induction l as [|x l IH]; cbn; [done|].
  rewrite NoDup_cons. intros [Hx Hl]. destruct (negb (p x)); cbn; [|by apply IH].
  rewrite NoDup_cons. split; [|by apply IH]. contradict Hx.
  apply list_elem_of_fmap in Hx as (y & Hy & Hin). apply list_elem_of_fmap.
  exists y. split; [done|]. apply list_elem_of_In in Hin. apply filter_In in Hin as [Hin _].
  by apply list_elem_of_In.
Qed.
Lemma NoDup_updateWhere p (f : A → A) l :
  (∀ x, p x = true → key (f x) = key x) → NoDup (map key l) → NoDup (map key (updateWhere p f l)).
Proof. intros H. by rewrite map_updateWhere. Qed.
Lemma NoDup_snoc l x : key x ∉ map key l → NoDup (map key l) → NoDup (map key (l ++ [x])).
Proof.
  intros Hx Hl. rewrite map_app. apply NoDup_app. split; [done|]. split; [|apply NoDup_singleton].
  intros k Hk Hk'. cbn in Hk'. apply list_elem_of_singleton in Hk'. naive_solver.
Qed.
Lemma key_fresh `{!EqDecision K} (eqb : K → K → bool) l x :
  (∀ a b, eqb a b = true ↔ a = b) →
  existsWhere (λ y, eqb (key y) x) l = false → x ∉ map key l.
Proof.
  intros Heq H Hx. apply list_elem_of_fmap in Hx as (y & -> & Hy).
  rewrite existsWhere_false in H. apply H in Hy. by rewrite (proj2 (Heq _ _)) in Hy.
Qed.
End tables.

Lemma nextID_gt ids id : id ∈ ids → id < nextID ids.
Proof.
  unfold nextID. induction ids as [|i ids IH]; [by intros ?%not_elem_of_nil|].
  rewrite elem_of_cons. cbn. intros [->|H]; [lia|]. apply IH in H. lia.
Qed.
Lemma nextID_fresh ids : nextID ids ∉ ids.
Proof. intros H%nextID_gt. lia. Qed.
Lemma nextID_pos ids : 0 < nextID ids.
Proof. unfold nextID. induction ids; cbn; lia. Qed.

(** ** Well-formed databases *)
Definition userKnown (s : store) (id : Z) : Prop := id ∈ map ur_ID (users s).
Definition systemKnown (s : store) (id : Z) : Prop := id ∈ map sy_ID (systems s).
Definition userName (r : userRow) : string := nocase (u_Username (ur_user r)).

Record store_wf (s : store) : Prop := {
  wf_user_ids : NoDup (map ur_ID (users s));
  wf_user_names : NoDup (map userName (users s));
  wf_roles : Forall (λ r, ValidRole (u_Role (ur_user r)) = true) (users s);
  wf_sessions : NoDup (map sr_token_hash (sessions s));
  wf_session_user : Forall (λ x, userKnown s (sr_user_id x)) (sessions s);
  wf_enroll : NoDup (map er_token_hash (enroll_tokens s));
  wf_system_ids : NoDup (map sy_ID (systems s));
  wf_fingerprints : NoDup (map sy_Fingerprint (systems s));
  wf_metrics : ∀ k v, metrics s !! k = Some v → systemKnown s k.1.1;
  wf_audit_ids : NoDup (map ae_ID (audit_log s));
  wf_notifier_ids : NoDup (map n_ID (notifiers s));
  wf_rule_ids : NoDup (map r_ID (alert_rules s));
  wf_rule_system : Forall (λ r, ∀ id, r_SystemID r = Some id → systemKnown s id) (alert_rules s);
  wf_alert_ids : NoDup (map a_ID (alerts s));
  wf_passkey_ids : NoDup (map pk_ID (passkeys s));
  wf_credentials : NoDup (map pk_CredentialID (passkeys s));
  wf_passkey_user : Forall (λ p, userKnown s (pk_UserID p)) (passkeys s);
  wf_script_ids : NoDup (map sc_ID (scripts s));
  wf_run_ids : NoDup (map rr_ID (script_runs s));
}.

(** The hub has an administrator. *)
Definition has_admin (s : store) : Prop := (0 < admins s)%nat.

(** Lifting relations on the database to the machine. *)
Definition onDB (R : store → store → Prop) : mach → mach → Prop := λ m m', R (m_db m) (m_db m').
#[export] Instance onDB_preorder R `{!PreOrder R} : PreOrder (onDB R).
Proof. split; unfold onDB; [intros ?; reflexivity | intros ???; etrans; eauto]. Qed.

Section onDB.
Context (R : store → store → Prop) `{!PreOrder R}.
Lemma steps_timeNow : steps (onDB R) timeNow.
Proof. intros [db [t [|k ks] fs rs]]; unfold onDB; cbn; reflexivity. Qed.
Lemma steps_randRead : steps (onDB R) randRead.
Proof. intros [db [t ks fs [|r rs]]]; unfold onDB; cbn; reflexivity. Qed.
Lemma steps_sql {A} (f : store → res A * store) :
  (∀ s, R s (f s).2) → steps (onDB R) (sql f).
Proof.
  intros H [db [t ks fs rs]]; unfold onDB, sql.
  destruct fs as [|[] fs']; [|reflexivity|]; specialize (H db); destruct (f db); apply H.
Qed.
Lemma steps_query {A} (f : store → res A) : steps (onDB R) (query f).
Proof. apply steps_sql. intros s; cbn. reflexivity. Qed.
End onDB.
#[export] Hint Extern 1 (steps (onDB _) timeNow) => apply steps_timeNow; apply _ : steps.
#[export] Hint Extern 1 (steps (onDB _) randRead) => apply steps_randRead; apply _ : steps.
#[export] Hint Extern 1 (steps (onDB _) (query _)) => apply steps_query; apply _ : steps.

(** Statements that leave [users] alone leave the administrators alone. *)
Lemma has_admin_frame s s' : users s' = users s → keeps has_admin s s'.
Proof. unfold keeps, has_admin, admins. by intros ->. Qed.

(** ** One lemma per kind of statement *)
Ltac open_store s Hwf :=
  destruct s as [us ss es sy ms al ns ar aa ps sc rs];
  destruct Hwf; unfold userKnown, systemKnown in *; cbn in *.
Ltac wf_split := split; unfold userKnown, systemKnown; cbn; try done.

Lemma map_ur_ID_update p f l :
  (∀ u, u_ID (f u) = u_ID u) → map ur_ID (updateWhere p (withUser f) l) = map ur_ID l.
Proof. intros H. apply map_updateWhere. intros x _. unfold ur_ID; cbn. apply H. Qed.

Lemma wf_updateUsers p f s :
  (∀ u, u_ID (f u) = u_ID u) → (∀ u, u_Username (f u) = u_Username u) →
  (∀ u, ValidRole (u_Role u) = true → ValidRole (u_Role (f u)) = true) →
  store_wf s → store_wf (updateUsers p f s).2.
Proof.
  intros Hid Hname Hrole Hwf. open_store s Hwf.
  wf_split; rewrite ?map_ur_ID_update by done; try done.
  - apply NoDup_updateWhere; [|done]. intros x _. unfold userName; cbn. by rewrite Hname.
  - apply Forall_forall. intros x (y & Hy & ->)%elem_of_updateWhere.
    rewrite Forall_forall in wf_roles0. specialize (wf_roles0 _ Hy). destruct (p y); cbn; auto.
Qed.

Lemma wf_setHandle id h s : store_wf s → store_wf (setHandle id h s).2.
Proof.
  intros Hwf. unfold setHandle. destruct (_ && _); [done|]. open_store s Hwf.
  assert (Hm : ∀ {B} (g : userRow → B), (∀ r o, g (mkUserRow (ur_user r) o) = g r) →
    map g (updateWhere (isHandleless id) (λ r, mkUserRow (ur_user r) (Some h)) us) = map g us).
  { intros B g Hg. apply map_updateWhere. intros x _. apply Hg. }
  wf_split; rewrite ?Hm by done; try done.
  apply Forall_forall. intros x (y & Hy & ->)%elem_of_updateWhere.
  rewrite Forall_forall in wf_roles0. specialize (wf_roles0 _ Hy). by destruct (isHandleless id y).
Qed.

Lemma wf_insertUser name hash role now s :
  ValidRole role = true → store_wf s → store_wf (insertUser name hash role now s).2.
Proof.
  intros Hrole Hwf. unfold insertUser.
  destruct (existsWhere _ _) eqn:Hex; [done|]. open_store s Hwf.
  assert (Hup : ∀ id, id ∈ map ur_ID us → id ∈ map ur_ID (us ++ [mkUserRow (mkUser (nextID (map ur_ID us)) name hash "" role now 0) None])).
  { intros id Hid. rewrite map_app. set_solver. }
  wf_split.
  - apply NoDup_snoc; [apply nextID_fresh | done].
  - apply NoDup_snoc; [|done]. apply (key_fresh userName String.eqb); [apply String.eqb_eq | done].
  - apply Forall_app. by rewrite Forall_singleton.
  - eapply Forall_impl; [done|]. cbn. eauto.
  - eapply Forall_impl; [done|]. cbn. eauto.
Qed.

Lemma wf_deleteUsers p s : store_wf s → store_wf (deleteUsers p s).2.
Proof.
  intros Hwf. unfold deleteUsers.
  assert (Hkeep : ∀ id, userKnown s id →
    existsWhere (λ r, p r && (ur_ID r =? id)) (users s) = false → id ∈ map ur_ID (deleteWhere p (users s))).
  { intros id (r & -> & Hr)%list_elem_of_fmap Hg. apply list_elem_of_fmap. exists r. split; [done|].
    apply elem_of_deleteWhere. split; [done|]. rewrite existsWhere_false in Hg.
    specialize (Hg _ Hr). rewrite Z.eqb_refl, andb_true_r in Hg. done. }
  open_store s Hwf. wf_split.
  1,2,4,6,7: by apply NoDup_deleteWhere.
  - rewrite Forall_forall in *. intros x [Hx _]%elem_of_deleteWhere. by apply wf_roles0.
  - rewrite Forall_forall in *. intros x [Hx Hg]%elem_of_deleteWhere. apply Hkeep; auto.
  - rewrite Forall_forall in *. intros x [Hx Hg]%elem_of_deleteWhere. apply Hkeep; auto.
Qed.

(** Statements on one table that only touch columns no constraint mentions, or delete
    rows no other table refers to. *)
Lemma wf_insertSession hash id exp s : store_wf s → store_wf (insertSession hash id exp s).2.
Proof.
  intros Hwf. unfold insertSession. destruct (existsWhere _ (sessions s)) eqn:Hh; [done|].
  destruct (existsWhere _ (users s)) eqn:Hu; [|done]. cbn. open_store s Hwf. wf_split.
  - apply NoDup_snoc; [|done]. apply (key_fresh _ String.eqb); [apply String.eqb_eq|done].
  - apply Forall_app. split; [done|]. apply Forall_singleton. cbn.
    apply existsWhere_true in Hu as (r & Hr & Hid%Z.eqb_eq). apply list_elem_of_fmap. eauto.
Qed.
Lemma wf_set_sessions_sub l s :
  NoDup (map sr_token_hash l) → Forall (λ x, userKnown s (sr_user_id x)) l →
  store_wf s → store_wf (set_sessions l s).
Proof. intros Hl Hf Hwf. unfold userKnown in *. open_store s Hwf. wf_split. Qed.
Lemma wf_elevate p until s :
  store_wf s → store_wf (set_sessions (updateWhere p (withElevated until) (sessions s)) s).
Proof.
  intros Hwf. apply wf_set_sessions_sub; [| |done].
  - apply NoDup_updateWhere; [done|apply Hwf].
  - apply Forall_forall. intros x (y & Hy & ->)%elem_of_updateWhere.
    pose proof (wf_session_user _ Hwf) as Hf. rewrite Forall_forall in Hf.
    destruct (p y); cbn; by apply Hf.
Qed.
Lemma wf_deleteSessions p s : store_wf s → store_wf (set_sessions (deleteWhere p (sessions s)) s).
Proof.
  intros Hwf. apply wf_set_sessions_sub; [| |done].
  - apply NoDup_deleteWhere, Hwf.
  - apply Forall_forall. intros x [Hx _]%elem_of_deleteWhere.
    pose proof (wf_session_user _ Hwf) as Hf. rewrite Forall_forall in Hf. by apply Hf.
Qed.
Lemma wf_set_enroll l s : NoDup (map er_token_hash l) → store_wf s → store_wf (set_enroll_tokens l s).
Proof. intros Hl Hwf. open_store s Hwf. wf_split. Qed.
Lemma wf_set_audit l s : NoDup (map ae_ID l) → store_wf s → store_wf (set_audit_log l s).
Proof. intros Hl Hwf. open_store s Hwf. wf_split. Qed.
Lemma wf_set_notifiers l s : NoDup (map n_ID l) → store_wf s → store_wf (set_notifiers l s).
Proof. intros Hl Hwf. open_store s Hwf. wf_split. Qed.
Lemma wf_set_alerts l s : NoDup (map a_ID l) → store_wf s → store_wf (set_alerts l s).
Proof. intros Hl Hwf. open_store s Hwf. wf_split. Qed.
Lemma wf_set_scripts l s : NoDup (map sc_ID l) → store_wf s → store_wf (set_scripts l s).
Proof. intros Hl Hwf. open_store s Hwf. wf_split. Qed.
Lemma wf_set_runs l s : NoDup (map rr_ID l) → store_wf s → store_wf (set_script_runs l s).
Proof. intros Hl Hwf. open_store s Hwf. wf_split. Qed.
Lemma wf_set_rules l s :
  NoDup (map r_ID l) → Forall (λ r, ∀ id, r_SystemID r = Some id → systemKnown s id) l →
  store_wf s → store_wf (set_alert_rules l s).
Proof. intros Hl Hf Hwf. unfold systemKnown in *. open_store s Hwf. wf_split. Qed.
Lemma wf_set_passkeys l s :
  NoDup (map pk_ID l) → NoDup (map pk_CredentialID l) → Forall (λ p, userKnown s (pk_UserID p)) l →
  store_wf s → store_wf (set_passkeys l s).
Proof. intros Hl Hc Hf Hwf. unfold userKnown in *. open_store s Hwf. wf_split. Qed.
Lemma wf_set_metrics m s :
  (∀ k v, m !! k = Some v → systemKnown s k.1.1) → store_wf s → store_wf (set_metrics m s).
Proof. intros Hm Hwf. unfold systemKnown in *. open_store s Hwf. wf_split. Qed.

Lemma systemExists_known o s : systemExists o s = true → ∀ id, o = Some id → systemKnown s id.
Proof.
  intros H id ->. cbn in H. apply existsWhere_true in H as (x & Hx & Hid%Z.eqb_eq).
  apply list_elem_of_fmap. eauto.
Qed.
Lemma wf_insertRule r now s : store_wf s → store_wf (insertRule r now s).2.
Proof.
  intros Hwf. unfold insertRule. destruct (systemExists _ _) eqn:He; [|done]. cbn.
  apply wf_set_rules; [| |done].
  - apply NoDup_snoc; [apply nextID_fresh|apply Hwf].
  - apply Forall_app. split; [apply Hwf|]. apply Forall_singleton. cbn.
    by apply systemExists_known.
Qed.
Lemma wf_updateRule r s : store_wf s → store_wf (updateRule r s).2.
Proof.
  intros Hwf. unfold updateRule.
  destruct (0 <? countWhere _ _)%nat eqn:Hn; [destruct (systemExists _ _) eqn:He; [|done]|];
    cbn; (apply wf_set_rules; [apply NoDup_updateWhere; [done|apply Hwf]| |done]);
    apply Forall_forall; intros x (y & Hy & ->)%elem_of_updateWhere;
    pose proof (wf_rule_system _ Hwf) as Hf; rewrite Forall_forall in Hf; specialize (Hf _ Hy);
    destruct (r_ID y =? r_ID r) eqn:E; cbn; auto.
  - by apply systemExists_known.
  - bool_hyps. assert (Hc : (0 < countWhere (λ x, (r_ID x =? r_ID r)%Z) (alert_rules s))%nat).
    { apply countWhere_pos. exists y. split; [done|]. by apply Z.eqb_eq. }
    lia.
Qed.
Lemma wf_deleteRules p s : store_wf s → store_wf (set_alert_rules (deleteWhere p (alert_rules s)) s).
Proof.
  intros Hwf. apply wf_set_rules; [apply NoDup_deleteWhere, Hwf| |done].
  apply Forall_forall. intros x [Hx _]%elem_of_deleteWhere.
  pose proof (wf_rule_system _ Hwf) as Hf. rewrite Forall_forall in Hf. by apply Hf.
Qed.
Lemma wf_insertPasskey p now s : store_wf s → store_wf (insertPasskey p now s).2.
Proof.
  intros Hwf. unfold insertPasskey. destruct (existsWhere _ (passkeys s)) eqn:Hc; [done|].
  destruct (existsWhere _ (users s)) eqn:Hu; [|done]. cbn. apply wf_set_passkeys; [| | |done].
  - apply NoDup_snoc; [apply nextID_fresh|apply Hwf].
  - apply NoDup_snoc; [|apply Hwf]. cbn. apply (key_fresh _ String.eqb); [apply String.eqb_eq|done].
  - apply Forall_app. split; [apply Hwf|]. apply Forall_singleton. cbn.
    apply existsWhere_true in Hu as (r & Hr & Hid%Z.eqb_eq). apply list_elem_of_fmap. eauto.
Qed.
Lemma wf_updatePasskeys p f s :
  (∀ x, pk_ID (f x) = pk_ID x) → (∀ x, pk_CredentialID (f x) = pk_CredentialID x) →
  (∀ x, pk_UserID (f x) = pk_UserID x) → store_wf s → store_wf (updatePasskeys p f s).2.
Proof.
  intros Hi Hc Hu Hwf. cbn. apply wf_set_passkeys; [| | |done].
  1,2: apply NoDup_updateWhere; [auto|apply Hwf].
  apply Forall_forall. intros x (y & Hy & ->)%elem_of_updateWhere.
  pose proof (wf_passkey_user _ Hwf) as Hf. rewrite Forall_forall in Hf.
  destruct (p y); rewrite ?Hu; by apply Hf.
Qed.
Lemma wf_deletePasskeys p s : store_wf s → store_wf (deletePasskeysWhere p s).2.
Proof.
  intros Hwf. cbn. apply wf_set_passkeys; [apply NoDup_deleteWhere, Hwf..| |done].
  apply Forall_forall. intros x [Hx _]%elem_of_deleteWhere.
  pose proof (wf_passkey_user _ Hwf) as Hf. rewrite Forall_forall in Hf. by apply Hf.
Qed.
Lemma wf_insertSystem n fp i v now s : store_wf s → store_wf (insertSystem n fp i v now s).2.
Proof.
  intros Hwf. unfold insertSystem. destruct (existsWhere _ _) eqn:He; [done|].
  cbn. open_store s Hwf.
  assert (Hup : ∀ id r, id ∈ map sy_ID sy → id ∈ map sy_ID (sy ++ [r])).
  { intros id r Hid. rewrite map_app. set_solver. }
  wf_split.
  - apply NoDup_snoc; [apply nextID_fresh | done].
  - apply NoDup_snoc; [|done]. apply (key_fresh _ String.eqb); [apply String.eqb_eq | done].
  - eauto.
  - eapply Forall_impl; [done|]. cbn. eauto.
Qed.
Lemma wf_updateSystems id f s :
  (∀ x, sy_ID (f x) = sy_ID x) → (∀ x, sy_Fingerprint (f x) = sy_Fingerprint x) →
  store_wf s → store_wf (updateSystems id f s).2.
Proof.
  intros Hi Hf Hwf. cbn. open_store s Hwf.
  wf_split; rewrite ?(map_updateWhere sy_ID), ?(map_updateWhere sy_Fingerprint) by auto; done.
Qed.
Lemma wf_deleteSystems id s : store_wf s → store_wf (deleteSystems id s).2.
Proof.
  intros Hwf. unfold deleteSystems. destruct (_ =? 0)%nat; [done|].
  assert (Hkeep : ∀ i, systemKnown s i → i ≠ id →
    i ∈ map sy_ID (deleteWhere (λ x, sy_ID x =? id) (systems s))).
  { intros i (x & -> & Hx)%list_elem_of_fmap Hne. apply list_elem_of_fmap. exists x.
    split; [done|]. apply elem_of_deleteWhere. split; [done|]. by apply Z.eqb_neq. }
  open_store s Hwf. wf_split; [by apply NoDup_deleteWhere..| |by apply NoDup_deleteWhere|].
  - intros k v [Hk Hne]%map_lookup_filter_Some. cbn in *. apply Hkeep; eauto.
  - rewrite Forall_forall in *. intros r [Hr Hs]%elem_of_deleteWhere i Hi.
    apply Hkeep; [by eapply wf_rule_system0|]. intros ->. bool_hyps. done.
Qed.

(** The database right after its creation ([migrate] on an empty file): every table is
    empty but for the default rules of the third migration. *)
Definition defaultRules (now : Z) : list AlertRule :=
  [mkAlertRule 1 "System offline" None "offline" (ofInt 0) 120 [] true now;
   mkAlertRule 2 "High CPU" None "cpu" (ofInt 90) 300 [] true now;
   mkAlertRule 3 "High memory" None "memory" (ofInt 90) 300 [] true now;
   mkAlertRule 4 "Disk almost full" None "disk" (ofInt 90) 60 [] true now]%string.
Definition freshStore (now : Z) : store := mkStore [] [] [] [] ∅ [] [] (defaultRules now) [] [] [] [].
Lemma wf_freshStore now : store_wf (freshStore now).
Proof.
  split; cbn; try apply NoDup_nil_2; try apply Forall_nil_2.
  - intros k v. by rewrite lookup_empty.
  - by apply (bool_decide_unpack _); vm_compute.
  - repeat constructor; cbn; congruence.
Qed.
