(* ===== verification/Metrics.v ===== *)
(** * Metric history ([internal/hub/store/metrics.go])

    One row per system, resolution and bucket start. [Rollup] builds the 10- and 60-minute
    buckets from the 1-minute rows, [PruneMetrics] drops rows past their retention. *)
From Stdlib Require Import ZArith Lia Ascii String.
From S2P Require Import Prelude GoStrings Float64 Library Store StoreTables StoreInv.
From stdpp Require Import base gmap strings list list_numbers sorting.
Local Open Scope Z_scope.
Local Open Scope lotse_scope.

Definition MetricCols : list string :=
  ["cpu"; "mem_used"; "mem_total"; "swap_used"; "swap_total"; "disk_used"; "disk_total";
   "disk_read"; "disk_write"; "net_rx"; "net_tx"; "load1"; "load5"; "load15"]%string.
Definition NumMetricCols : nat := 14.
(** Capacity columns roll up with MAX, everything else with AVG. *)
Definition maxCols (c : string) : bool :=
  existsb (String.eqb c) ["mem_total"; "swap_total"; "disk_total"]%string.

Record MetricRow := mkMetricRow { mr_TS : Z; mr_Values : list f64 }.

Definition Res1 : Z := 1.
Definition Res10 : Z := 10.
Definition Res60 : Z := 60.
Definition Retention : list (Z * Z) :=
  [(Res1, hours 48); (Res10, hours (31 * 24)); (Res60, hours (366 * 24))].

(** INSERT OR REPLACE under the foreign key to systems. *)
Definition insertMetric (systemID res_ : Z) (row : MetricRow) (s : store) : res unit * store :=
  if negb (systemExists (Some systemID) s) then (Err (ErrSQL SqlForeignKey), s)
  else (Ok tt, set_metrics (<[(systemID, res_, mr_TS row) := mr_Values row]> (metrics s)) s).
Definition InsertMetrics (systemID res_ : Z) (row : MetricRow) : M mach (res unit) :=
  sql (insertMetric systemID res_ row).

(** Rows with from <= ts <= to, oldest first. *)
Definition metricRows (m : gmap (Z * Z * Z) (list f64)) (p : Z * Z * Z → bool) : list (Z * Z * Z * list f64) :=
  map_to_list (filter (λ kv, p kv.1 = true) m).
Definition QueryMetrics (systemID res_ from to : Z) : M mach (res (list MetricRow)) :=
  query (λ s, Ok (sortBy (λ a b, mr_TS a <=? mr_TS b)
    (map (λ kv, mkMetricRow kv.1.2 kv.2)
       (metricRows (metrics s)
          (λ k, (k.1.1 =? systemID) && (k.1.2 =? res_) && (from <=? k.2) && (k.2 <=? to)))))).

Section rollup.
(** SQLite's aggregates over a column of a group, in key order. *)
Context (sqlAvg sqlMax : list f64 → f64).

Definition aggregate (rows : list (list f64)) : list f64 :=
  map (λ ic, (if maxCols ic.2 then sqlMax else sqlAvg) (map (λ r, nth ic.1 r fzero) rows))
    (zip (seq 0 NumMetricCols) MetricCols).

(** (ts / bucket) * bucket in SQLite's truncating integer arithmetic. *)
Definition bucketOf (bucket ts : Z) : Z := ts /! bucket * bucket.

(** The key order of the rows of one resolution. *)
Definition rowLe (a b : Z * Z * list f64) : bool :=
  (a.1.1 <? b.1.1) || ((a.1.1 =? b.1.1) && (a.1.2 <=? b.1.2)).
(** FROM metrics WHERE system_id IN (SELECT id FROM systems) AND res = 1 AND since <= ts < until,
    as (system, ts, values) in key order. *)
Definition minuteRows (s : store) (since until : Z) : list (Z * Z * list f64) :=
  sortBy rowLe
    (map (λ kv, (kv.1.1.1, kv.1.2, kv.2))
       (metricRows (metrics s)
          (λ k, systemExists (Some k.1.1) s && (k.1.2 =? Res1) && (since <=? k.2) && (k.2 <? until)))).
Definition groupOf (bucket : Z) (rows : list (Z * Z * list f64)) (sys b : Z) : list (list f64) :=
  map snd (List.filter (λ r, (r.1.1 =? sys) && (bucketOf bucket r.1.2 =? b)) rows).
(** GROUP BY system_id, bucket. *)
Definition rollupRows (toRes bucket : Z) (rows : list (Z * Z * list f64)) : gmap (Z * Z * Z) (list f64) :=
  list_to_map (map (λ k, ((k.1, toRes, k.2), aggregate (groupOf bucket rows k.1 k.2)))
                 (remove_dups (map (λ r, (r.1.1, bucketOf bucket r.1.2)) rows))).

Definition rollupUntil (toRes now : Z) : Z := unix now /! (toRes * 60) * (toRes * 60).
Definition rollupSince (toRes window now : Z) : Z :=
  (rollupUntil toRes now - window /! nsec) /! (toRes * 60) * (toRes * 60).
Definition rollupStmt (toRes since until : Z) (s : store) : store :=
  set_metrics (rollupRows toRes (toRes * 60) (minuteRows s since until) ∪ metrics s) s.
Definition Rollup (toRes window now : Z) : M mach (res unit) :=
  sql (λ s, (Ok tt, rollupStmt toRes (rollupSince toRes window now) (rollupUntil toRes now) s)).
End rollup.

Definition pruneStmt (res_ before : Z) (s : store) : store :=
  set_metrics (filter (λ kv, systemExists (Some kv.1.1.1) s && (kv.1.1.2 =? res_) && (kv.1.2 <? before) = false)
                 (metrics s)) s.
Fixpoint pruneAll (l : list (Z * Z)) (now : Z) : M mach (res unit) :=
  match l with
  | [] => mret (Ok tt)
  | (res_, keep) :: l' =>
    r ← sql (λ s, (Ok tt, pruneStmt res_ (unix (now - keep)) s));
    match r with Err e => mret (Err e) | Ok _ => pruneAll l' now end
  end.
(** The iteration order over the retention map does not matter: the resolutions differ. *)
Definition PruneMetrics (now : Z) : M mach (res unit) := pruneAll Retention now.

(** ** Lemmas *)
Lemma metrics_rollupStmt avg mx toRes since until s :
  metrics (rollupStmt avg mx toRes since until s)
  = rollupRows avg mx toRes (toRes * 60) (minuteRows s since until) ∪ metrics s.
Proof. by destruct s. Qed.
Lemma systemExists_set_metrics o m s : systemExists o (set_metrics m s) = systemExists o s.
Proof. by destruct s, o. Qed.

Lemma rollupRows_lookup avg mx toRes bucket rows sys b :
  rollupRows avg mx toRes bucket rows !! (sys, toRes, b)
  = match groupOf bucket rows sys b with
    | [] => None
    | g => Some (aggregate avg mx g)
    end.
Proof.
  unfold rollupRows.
  set (ks := remove_dups (map (λ r, (r.1.1, bucketOf bucket r.1.2)) rows)).
  assert (Hin : (sys, b) ∈ ks ↔ groupOf bucket rows sys b ≠ []).
  { unfold ks. rewrite elem_of_remove_dups, list_elem_of_fmap. unfold groupOf. split.
    - intros ([[i ts] v] & Heq & Hr). simplify_eq/=. intros Hnil%map_eq_nil.
      assert (Hf : (i, ts, v) ∈ List.filter (λ r, (r.1.1 =? i) && (bucketOf bucket r.1.2 =? bucketOf bucket ts)) rows).
      { apply list_elem_of_In, filter_In. split; [by apply list_elem_of_In|]. cbn.
        by rewrite !Z.eqb_refl. }
      rewrite Hnil in Hf. by apply not_elem_of_nil in Hf.
    - intros Hne. destruct (List.filter _ rows) as [|r l] eqn:Hf; [done|].
      assert (Hr : r ∈ r :: l) by constructor. rewrite <-Hf in Hr.
      apply list_elem_of_In, filter_In in Hr as [Hr Hp]. bool_hyps. exists r.
      split; [by f_equal|by apply list_elem_of_In]. }
  destruct (decide ((sys, b) ∈ ks)) as [Hk|Hk].
  - rewrite elem_of_list_to_map_1' with (x := aggregate avg mx (groupOf bucket rows sys b)).
    + apply Hin in Hk. by destruct (groupOf _ _ _ _).
    + intros y (k & Heq & Hk')%list_elem_of_fmap. simplify_eq/=. by destruct k.
    + apply list_elem_of_fmap. by exists (sys, b).
  - rewrite not_elem_of_list_to_map_1.
    + destruct (groupOf _ _ _ _); [done|]. exfalso. apply Hk, Hin. done.
    + intros H. apply list_elem_of_fmap in H as ([k v] & Heq & H). cbn in Heq. subst k.
      apply list_elem_of_fmap in H as ([i c] & Heq & H). simplify_eq/=. done.
Qed.
Lemma rollupRows_other avg mx toRes bucket rows sys res_ b :
  res_ ≠ toRes → rollupRows avg mx toRes bucket rows !! (sys, res_, b) = None.
Proof.
  intros Hne. unfold rollupRows. apply not_elem_of_list_to_map_1. intros H.
  apply list_elem_of_fmap in H as ([k v] & Heq & H). cbn in Heq. subst k.
  apply list_elem_of_fmap in H as ([i c] & Heq & H). simplify_eq/=.
Qed.

(** The 1-minute rows a rollup reads are not among those it writes. *)
Lemma minuteRows_rollup avg mx toRes since until since' until' s :
  toRes ≠ Res1 →
  minuteRows (rollupStmt avg mx toRes since until s) since' until' = minuteRows s since' until'.
Proof.
  intros Hne. unfold minuteRows, metricRows. rewrite metrics_rollupStmt. do 3 f_equal.
  apply map_eq. intros [[i r] t]. apply option_eq. intros v.
  rewrite !map_lookup_filter_Some. cbn [fst snd].
  assert (Hs : systemExists (Some i) (rollupStmt avg mx toRes since until s) = systemExists (Some i) s)
    by by destruct s.
  rewrite Hs, lookup_union_Some_raw. split.
  - intros [[Hl|[_ Hl]] Hp]; [|done]. rewrite rollupRows_other in Hl; [done|]. bool_hyps. congruence.
  - intros [Hl Hp]. split; [|done]. right. split; [|done].
    apply rollupRows_other. bool_hyps. congruence.
Qed.

Lemma elem_of_minuteRows s since until sys ts v :
  store_wf s →
  (sys, ts, v) ∈ minuteRows s since until ↔
  metrics s !! (sys, Res1, ts) = Some v ∧ since ≤ ts < until.
Proof.
  intros Hwf. unfold minuteRows, metricRows. rewrite sortBy_perm, list_elem_of_fmap. split.
  - intros ([[[i r] t] w] & Heq & Hin). simplify_eq/=.
    apply elem_of_map_to_list, map_lookup_filter_Some in Hin as [Hl Hp]. cbn in Hp. bool_hyps.
    subst r. split; [done|lia].
  - intros [Hl Hts]. exists (sys, Res1, ts, v). split; [done|].
    apply elem_of_map_to_list, map_lookup_filter_Some. split; [done|]. cbn [fst snd].
    assert (systemExists (Some sys) s = true) as ->.
    { pose proof (wf_metrics _ Hwf _ _ Hl) as Hk. cbn in Hk. unfold systemKnown in Hk.
      apply list_elem_of_fmap in Hk as (x & -> & Hx). apply existsWhere_true. exists x.
      split; [done|]. apply Z.eqb_refl. }
    rewrite Z.eqb_refl. cbn. apply andb_true_iff. split; lia.
Qed.

(** For a bucket that starts after the epoch, truncating division is plain division. *)
Lemma bucketOf_pos bucket ts b :
  0 < bucket → 0 < b → b `mod` bucket = 0 → bucketOf bucket ts = b ↔ b ≤ ts < b + bucket.
Proof.
  intros Hk Hb Hm. unfold bucketOf.
  assert (Hbe : b = bucket * (b / bucket)) by (pose proof (Z.div_mod b bucket); lia).
  split.
  - intros Heq. destruct (Z.le_gt_cases 0 ts).
    + rewrite Z.quot_div_nonneg in Heq by lia. pose proof (Z.mul_div_le ts bucket).
      pose proof (Z.mul_succ_div_gt ts bucket). lia.
    + assert (ts /! bucket ≤ 0); [|nia]. rewrite <-(Z.opp_involutive ts), Z.quot_opp_l by lia.
      pose proof (Z.quot_pos (- ts) bucket). lia.
  - intros Hts. rewrite Z.quot_div_nonneg by lia.
    assert (ts / bucket = b / bucket) as ->; [|lia].
    symmetry. apply Z.div_unique with (r := ts - b); [lia|]. lia.
Qed.

#[local] Instance rowLe_trans : Transitive (λ a b, rowLe a b = true).
Proof. intros [[i t] v] [[j u] w] [[k x] y]; unfold rowLe; cbn. rewrite !orb_true_iff, !andb_true_iff. lia. Qed.
#[local] Instance rowLe_total : Total (λ a b, rowLe a b = true).
Proof. intros [[i t] v] [[j u] w]; unfold rowLe; cbn. rewrite !orb_true_iff, !andb_true_iff. lia. Qed.

Lemma sorted_filter {A} (R : A → A → Prop) (p : A → bool) l :
  StronglySorted R l → StronglySorted R (List.filter p l).
Proof.
  induction 1 as [|x l Hl IH Hx]; cbn; [constructor|]. destruct (p x); [|done].
  constructor; [done|]. rewrite Forall_forall in *. intros y Hy%list_elem_of_In.
  apply filter_In in Hy as [Hy _]. by apply Hx, list_elem_of_In.
Qed.
Lemma minuteRows_sorted s since until : StronglySorted (λ a b, rowLe a b = true) (minuteRows s since until).
Proof. apply StronglySorted_merge_sort; apply _. Qed.
Lemma minuteRows_NoDup s since until : NoDup (minuteRows s since until).
Proof.
  unfold minuteRows. rewrite sortBy_perm. apply NoDup_fmap_2_strong; [|apply NoDup_map_to_list].
  intros [[[i r] t] v] [[[j q] u] w] H1 H2 Heq. simplify_eq/=.
  unfold metricRows in *. apply elem_of_map_to_list, map_lookup_filter_Some in H1 as [_ H1].
  apply elem_of_map_to_list, map_lookup_filter_Some in H2 as [_ H2]. cbn in *. bool_hyps. congruence.
Qed.

(** The 1-minute values of a system with lo <= ts < hi, oldest first. *)
Definition minuteValues (s : store) (sys lo hi : Z) : list (list f64) :=
  map snd (List.filter (λ r, r.1.1 =? sys) (minuteRows s lo hi)).

Lemma groupOf_window s bucket sys b since until :
  store_wf s → 0 < bucket → 0 < b → b `mod` bucket = 0 → since ≤ b → b + bucket ≤ until →
  groupOf bucket (minuteRows s since until) sys b = minuteValues s sys b (b + bucket).
Proof.
  intros Hwf Hk Hb Hm Hs Hu. unfold groupOf, minuteValues. f_equal.
  assert (HN : ∀ (p : Z * Z * list f64 → bool) lo hi, NoDup (List.filter p (minuteRows s lo hi))).
  { intros p lo hi. apply NoDup_ListNoDup, List.NoDup_filter, NoDup_ListNoDup, minuteRows_NoDup. }
  apply (StronglySorted_unique_strong (λ a b, rowLe a b = true)).
  - intros [[i t] v] [[j u] w] H1 H2. unfold rowLe; cbn. rewrite !orb_true_iff, !andb_true_iff.
    intros Hle1 Hle2. assert (i = j ∧ t = u) as [-> ->] by lia.
    apply list_elem_of_In, filter_In in H1 as [H1 _]. apply list_elem_of_In, filter_In in H2 as [H2 _].
    apply list_elem_of_In, elem_of_minuteRows in H1 as [H1 _]; [|done].
    apply list_elem_of_In, elem_of_minuteRows in H2 as [H2 _]; [|done]. congruence.
  - apply sorted_filter, minuteRows_sorted.
  - apply sorted_filter, minuteRows_sorted.
  - apply NoDup_Permutation; [apply HN..|]. intros [[i t] v].
    rewrite !list_elem_of_In, !filter_In, <-!list_elem_of_In, !elem_of_minuteRows by done. cbn.
    rewrite andb_true_iff, !Z.eqb_eq, bucketOf_pos by done. intuition lia.
Qed.

Lemma wf_insertMetric id r row s : store_wf s → store_wf (insertMetric id r row s).2.
Proof.
  intros Hwf. unfold insertMetric. destruct (systemExists _ _) eqn:He; [|done]. cbn.
  apply wf_set_metrics; [|done]. intros k v [[<- _]|[_ Hk]]%lookup_insert_Some; cbn.
  - by eapply systemExists_known.
  - by eapply wf_metrics.
Qed.
Lemma wf_rollupStmt avg mx toRes since until s : store_wf s → store_wf (rollupStmt avg mx toRes since until s).
Proof.
  intros Hwf. unfold rollupStmt. apply wf_set_metrics; [|done].
  intros k v [Hk|[_ Hk]]%lookup_union_Some_raw; [|by eapply wf_metrics].
  unfold rollupRows in Hk. apply elem_of_list_to_map_2 in Hk.
  apply list_elem_of_fmap in Hk as ([i b] & Heq & Hk). simplify_eq/=.
  apply elem_of_remove_dups, list_elem_of_fmap in Hk as ([[j t] w] & Heq & Hk). simplify_eq/=.
  apply elem_of_minuteRows in Hk as [Hk _]; [|done]. by apply wf_metrics in Hk.
Qed.
Lemma wf_pruneStmt r before s : store_wf s → store_wf (pruneStmt r before s).
Proof.
  intros Hwf. unfold pruneStmt. apply wf_set_metrics; [|done].
  intros k v [Hk _]%map_lookup_filter_Some. by eapply wf_metrics.
Qed.

Section correctness.
Context (sqlAvg sqlMax : list f64 → f64).

(** A rolled-up bucket holds the aggregate of exactly the 1-minute rows inside it,
    however the rollup's window is placed around it; a bucket without 1-minute rows keeps
    what was stored. *)
Theorem rollup_bucket (s : store) (toRes since until sys b : Z)
    (Hwf : store_wf s) (Hres : 0 < toRes) (Hb : 0 < b) (Hal : b `mod` (toRes * 60) = 0)
    (Hs : since ≤ b) (Hu : b + toRes * 60 ≤ until) :
  metrics (rollupStmt sqlAvg sqlMax toRes since until s) !! (sys, toRes, b)
  = match minuteValues s sys b (b + toRes * 60) with
    | [] => metrics s !! (sys, toRes, b)
    | g => Some (aggregate sqlAvg sqlMax g)
    end.
Proof.
  rewrite metrics_rollupStmt, lookup_union, rollupRows_lookup.
  rewrite groupOf_window by (done || lia). by case_match; destruct (metrics s !! _).
Qed.

(** A rollup's bounds are bucket boundaries: a bucket is inside its window or not touched. *)
Lemma rollup_elsewhere (s : store) (toRes since until sys b : Z) :
  store_wf s → 0 < toRes → 0 < b → b `mod` (toRes * 60) = 0 →
  since `mod` (toRes * 60) = 0 → until `mod` (toRes * 60) = 0 → ¬ (since ≤ b ∧ b + toRes * 60 ≤ until) →
  metrics (rollupStmt sqlAvg sqlMax toRes since until s) !! (sys, toRes, b) = metrics s !! (sys, toRes, b).
Proof.
  intros Hwf Hres Hb Hal Hs Hu Hout. rewrite metrics_rollupStmt, lookup_union, rollupRows_lookup.
  destruct (groupOf _ _ _ _) as [|v l] eqn:E; [by destruct (metrics s !! _)|exfalso].
  assert (Hv : v ∈ v :: l) by constructor. rewrite <-E in Hv. unfold groupOf in Hv.
  apply list_elem_of_fmap in Hv as ([[i t] w] & -> & Hv). apply list_elem_of_In, filter_In in Hv as [Hv Hp].
  apply list_elem_of_In, elem_of_minuteRows in Hv as [_ Ht]; [|done]. cbn in Hp. bool_hyps.
  match goal with H : bucketOf _ _ = b |- _ => apply bucketOf_pos in H; [|lia..] end.
  apply Z.mod_divide in Hal as [kb Hkb], Hs as [ks Hks], Hu as [ku Hku]; [|lia..].
  assert (ks ≤ kb ∨ kb < ks) as [|] by lia; assert (kb + 1 ≤ ku ∨ ku < kb + 1) as [|] by lia; nia.
Qed.
Lemma quot_mul_mod a k : 0 < k → (a /! k * k) `mod` k = 0.
Proof. intros. apply Z.mod_mul. lia. Qed.
Lemma rollup_window (toRes window now b : Z) :
  0 < toRes → 0 < b → b `mod` (toRes * 60) = 0 →
  b + toRes * 60 ≤ unix now → unix now - window /! nsec ≤ b →
  rollupSince toRes window now ≤ b ∧ b + toRes * 60 ≤ rollupUntil toRes now.
Proof.
  intros Hres Hb Hal Hn Hw. unfold rollupSince. set (k := toRes * 60) in *.
  assert (Hu : rollupUntil toRes now = unix now / k * k).
  { unfold rollupUntil. fold k. by rewrite Z.quot_div_nonneg by lia. }
  rewrite Hu. apply Z.mod_divide in Hal as [kb ->]; [|lia].
  pose proof (Z.mul_div_le (unix now) k). split.
  - set (x := unix now / k * k - window /! nsec). destruct (Z.le_gt_cases 0 x).
    + rewrite Z.quot_div_nonneg by lia. pose proof (Z.mul_div_le x k). lia.
    + pose proof (Z.quot_pos (- x) k). rewrite <-(Z.opp_involutive x), Z.quot_opp_l by lia. nia.
  - assert (kb + 1 ≤ unix now / k) by (apply Z.div_le_lower_bound; lia). nia.
Qed.

(** The 1-minute rows of a system in a bucket, minute by minute: what a rolled-up row is
    made from. *)
Definition bucketMinutes (s : store) (sys b len : Z) : list (list f64) :=
  omap (λ ts, metrics s !! (sys, Res1, ts)) (seqZ b len).
Lemma minuteValues_seq (s : store) (sys b len : Z) :
  store_wf s → minuteValues s sys b (b + len) = bucketMinutes s sys b len.
Proof.
  intros Hwf. set (f := λ ts, (λ v, (sys, ts, v)) <$> metrics s !! (sys, Res1, ts)).
  assert (Hin : ∀ lo n i t v, (i, t, v) ∈ omap f (seqZ lo n) ↔ i = sys ∧ metrics s !! (sys, Res1, t) = Some v ∧ lo ≤ t < lo + n).
  { intros lo n i t v. rewrite list_elem_of_omap. unfold f. setoid_rewrite elem_of_seqZ.
    setoid_rewrite fmap_Some. naive_solver. }
  assert (Hsrt : ∀ n lo, StronglySorted (λ a b, rowLe a b = true) (omap f (seqZ lo (Z.of_nat n)))
                          ∧ NoDup (omap f (seqZ lo (Z.of_nat n)))).
  { induction n as [|n IH]; intros lo; [by rewrite seqZ_nil by lia; repeat constructor|].
    rewrite seqZ_cons by lia. replace (Z.pred (Z.of_nat (S n))) with (Z.of_nat n) by lia.
    destruct (IH (Z.succ lo)) as [Hs Hn]. cbn. destruct (f lo) as [r|] eqn:Ef; [|done].
    unfold f in Ef. apply fmap_Some in Ef as (v & Ev & ->). split; constructor; try done.
    - apply Forall_forall. intros [[i t] w] (-> & _ & ?)%Hin. unfold rowLe; cbn.
      rewrite Z.eqb_refl. apply orb_true_iff. right. cbn. lia.
    - intros (_ & _ & ?)%Hin. lia. }
  assert (Heq : List.filter (λ r, r.1.1 =? sys) (minuteRows s b (b + len)) = omap f (seqZ b len)).
  { destruct (Z.le_gt_cases 0 len) as [Hl|Hl].
    - rewrite <-(Z2Nat.id len Hl). destruct (Hsrt (Z.to_nat len) b) as [Hs Hn].
      apply (StronglySorted_unique_strong (λ a b, rowLe a b = true)).
      + intros [[i t] v] [[j u] w] H1 (-> & H2 & _)%Hin. apply list_elem_of_In, filter_In in H1 as [H1 Hp].
        apply list_elem_of_In, elem_of_minuteRows in H1 as [H1 _]; [|done]. cbn in Hp. bool_hyps. subst i.
        unfold rowLe; cbn. rewrite !orb_true_iff, !andb_true_iff. intros ??. assert (t = u) as -> by lia. congruence.
      + apply sorted_filter, minuteRows_sorted.
      + done.
      + apply NoDup_Permutation; [|done|].
        { apply NoDup_ListNoDup, List.NoDup_filter, NoDup_ListNoDup, minuteRows_NoDup. }
        intros [[i t] v]. rewrite Hin, list_elem_of_In, filter_In, <-list_elem_of_In, elem_of_minuteRows by done. cbn.
        rewrite Z.eqb_eq. naive_solver.
    - rewrite seqZ_nil by lia. apply elem_of_nil_inv. intros [[i t] v] Hf%list_elem_of_In.
      apply filter_In in Hf as [Hf _]. apply list_elem_of_In, elem_of_minuteRows in Hf as [_ ?]; [lia|done]. }
  unfold minuteValues, bucketMinutes. rewrite Heq. clear. subst f. induction (seqZ b len) as [|t l IH]; [done|]. cbn.
  destruct (metrics s !! _); cbn; by rewrite ?IH.
Qed.

(** The rolled-up row of some 1-minute rows: the average of every column but the sizes of
    memory, swap and disk (columns 2, 4 and 6), of which it is the largest. *)
Definition rolledRow (rows : list (list f64)) : list f64 :=
  let avg i := sqlAvg (map (λ r, nth i r fzero) rows) in
  let max i := sqlMax (map (λ r, nth i r fzero) rows) in
  [avg 0; avg 1; max 2; avg 3; max 4; avg 5; max 6; avg 7; avg 8; avg 9; avg 10; avg 11; avg 12; avg 13]%nat.
Definition rolledUp (s : store) (toRes sys b : Z) : option (list f64) :=
  match bucketMinutes s sys b (toRes * 60) with
  | [] => metrics s !! (sys, toRes, b)
  | rows => Some (rolledRow rows)
  end.

(** Any number of rollups: their resolutions, windows and times. *)
Fixpoint rollups (l : list (Z * Z * Z)) : M mach (list (res unit)) :=
  match l with
  | [] => mret []
  | (toRes, window, now) :: l' =>
    r ← Rollup sqlAvg sqlMax toRes window now;
    rs ← rollups l';
    mret (r :: rs)
  end.

(** One rollup, which the database may refuse: the 1-minute rows stay, and so does every bucket
    already rolled up from them. *)
Lemma Rollup_step toRes0 window0 now0 m r m' :
  store_wf (m_db m) → 1 < toRes0 → Rollup sqlAvg sqlMax toRes0 window0 now0 m = (r, m') →
  store_wf (m_db m')
  ∧ (∀ sys ts, metrics (m_db m') !! (sys, Res1, ts) = metrics (m_db m) !! (sys, Res1, ts))
  ∧ (∀ toRes sys b, 1 < toRes → 0 < b → b `mod` (toRes * 60) = 0 →
       metrics (m_db m') !! (sys, toRes, b) = metrics (m_db m) !! (sys, toRes, b)
       ∨ metrics (m_db m') !! (sys, toRes, b) = rolledUp (m_db m) toRes sys b)
  ∧ (∀ sys b, r = Ok tt → 0 < b → b `mod` (toRes0 * 60) = 0 → b + toRes0 * 60 ≤ unix now0 →
       unix now0 - window0 /! nsec ≤ b → metrics (m_db m') !! (sys, toRes0, b) = rolledUp (m_db m) toRes0 sys b).
Proof.
  intros Hwf Hres Hrun. unfold Rollup, sql in Hrun. destruct m as [db [t ks fs rs]]. cbn in Hwf.
  set (since := rollupSince toRes0 window0 now0) in *. set (until := rollupUntil toRes0 now0) in *.
  assert (Hcase : (r = Err (ErrSQL SqlFault) ∧ m_db m' = db)
                  ∨ (r = Ok tt ∧ m_db m' = rollupStmt sqlAvg sqlMax toRes0 since until db)).
  { destruct fs as [|[] fs]; injection Hrun as <- <-; cbn; auto. }
  clear Hrun. cbn [m_db]. destruct Hcase as [[-> ->]|[-> ->]]; [split_and!; auto; done|].
  assert (Hcov : ∀ sys b, 0 < b → b `mod` (toRes0 * 60) = 0 → since ≤ b → b + toRes0 * 60 ≤ until →
     metrics (rollupStmt sqlAvg sqlMax toRes0 since until db) !! (sys, toRes0, b) = rolledUp db toRes0 sys b).
  { intros sys b Hb Hal Hs Hu. rewrite rollup_bucket by (done || lia). unfold rolledUp.
    rewrite minuteValues_seq by done. by destruct (bucketMinutes _ _ _ _). }
  split_and!.
  - by apply wf_rollupStmt.
  - intros sys ts. rewrite metrics_rollupStmt, lookup_union, rollupRows_other by (unfold Res1; lia).
    by destruct (metrics db !! _).
  - intros toRes sys b Hr Hb Hal. destruct (decide (toRes = toRes0)) as [->|Hne].
    + destruct (decide (since ≤ b ∧ b + toRes0 * 60 ≤ until)) as [[Hs Hu]|Hout]; [right; by apply Hcov|left].
      apply rollup_elsewhere; try done; [lia| |]; apply quot_mul_mod; lia.
    + left. rewrite metrics_rollupStmt, lookup_union, rollupRows_other by done. by destruct (metrics db !! _).
  - intros sys b _ Hb Hal Hn Hw. destruct (rollup_window toRes0 window0 now0 b) as [Hs Hu]; [lia|done..|].
    by apply Hcov.
Qed.
Lemma bucketMinutes_same s s' sys b len :
  (∀ ts, metrics s' !! (sys, Res1, ts) = metrics s !! (sys, Res1, ts)) →
  bucketMinutes s' sys b len = bucketMinutes s sys b len.
Proof. intros Hm. unfold bucketMinutes. induction (seqZ b len) as [|t l IH]; [done|]. cbn. by rewrite Hm, IH. Qed.
Lemma rolledUp_same s s' toRes sys b :
  (∀ ts, metrics s' !! (sys, Res1, ts) = metrics s !! (sys, Res1, ts)) →
  metrics s' !! (sys, toRes, b) = metrics s !! (sys, toRes, b) ∨ metrics s' !! (sys, toRes, b) = rolledUp s toRes sys b →
  rolledUp s' toRes sys b = rolledUp s toRes sys b.
Proof.
  intros Hm Hr. unfold rolledUp in *. rewrite (bucketMinutes_same s s') by done.
  destruct (bucketMinutes _ _ _ _); naive_solver.
Qed.

(** C40. Rollups can overlap: after any sequence of rollups, of any resolutions above a minute,
    with whatever windows and times and some of them refused by the database, a bucket that
    lay complete inside the window of one that succeeded holds the averages (for the sizes
    of memory, swap and disk the largest values) of exactly the 1-minute rows inside it, as
    if it had been rolled up once; a bucket without 1-minute rows keeps what was stored. The
    1-minute rows never change. (The hub's catch-up window reaches back to minutes already
    pruned, see [catch_up_rollup_degrades_bucket]: the 1-minute rows meant here are those that
    exist when the rollups run.) *)
Theorem rollup_idempotent (l : list (Z * Z * Z)) (m m' : mach) (rs : list (res unit))
    (i : nat) (toRes window now sys b : Z)
    (Hwf : store_wf (m_db m)) (Hall : Forall (λ r, 1 < r.1.1) l) (Hrun : rollups l m = (rs, m'))
    (Hi : l !! i = Some (toRes, window, now)) (Hok : rs !! i = Some (Ok tt))
    (Hb : 0 < b) (Hal : b `mod` (toRes * 60) = 0)
    (Hdone : b + toRes * 60 ≤ unix now) (Hwin : unix now - window /! nsec ≤ b) :
  metrics (m_db m') !! (sys, toRes, b) = rolledUp (m_db m) toRes sys b
  ∧ ∀ ts, metrics (m_db m') !! (sys, Res1, ts) = metrics (m_db m) !! (sys, Res1, ts).
Proof.
  assert (Hres : 1 < toRes) by exact (Forall_lookup_1 _ _ _ _ Hall Hi).
  (* what holds once the bucket has been rolled up, and what holds before *)
  assert (Hafter : ∀ l m rs m', Forall (λ r, 1 < r.1.1) l → store_wf (m_db m) → rollups l m = (rs, m') →
    (∀ ts, metrics (m_db m') !! (sys, Res1, ts) = metrics (m_db m) !! (sys, Res1, ts))
    ∧ (metrics (m_db m) !! (sys, toRes, b) = rolledUp (m_db m) toRes sys b →
       metrics (m_db m') !! (sys, toRes, b) = rolledUp (m_db m) toRes sys b)).
  { clear -Hres Hb Hal. induction l as [|[[r0 w0] n0] l IH]; intros m rs m' Hall Hwf Hrun; [by injection Hrun as <- <-|cbn in Hrun].
    unfold mbind, mret, M_bind, M_ret in Hrun. destruct (Rollup _ _ _ _ _ m) as [r m1] eqn:E1.
    destruct (rollups l m1) as [rs1 m2] eqn:E2. simplify_eq. apply Forall_cons in Hall as [H1 Hall].
    apply Rollup_step in E1 as (Hwf1 & Hm1 & Hb1 & _); [|done..]. destruct (IH _ _ _ Hall Hwf1 E2) as [Hm2 Hb2].
    split; [intros ts; by rewrite Hm2|]. intros H0.
    assert (Hs : metrics (m_db m1) !! (sys, toRes, b) = rolledUp (m_db m) toRes sys b)
      by (destruct (Hb1 toRes sys b) as [Hx|Hx]; [done..| |]; by rewrite Hx).
    pose proof (rolledUp_same _ _ _ _ _ (Hm1 sys) (or_intror Hs)) as Hsame. rewrite <-Hsame. apply Hb2. by rewrite Hsame. }
  revert m rs i Hwf Hrun Hi Hok. induction l as [|[[r0 w0] n0] l IH]; intros m rs i Hwf Hrun Hi Hok; [done|].
  split; [|by eapply Hafter].
  cbn in Hrun. unfold mbind, mret, M_bind, M_ret in Hrun. destruct (Rollup _ _ _ _ _ m) as [r m1] eqn:E1.
  destruct (rollups l m1) as [rs1 m2] eqn:E2. simplify_eq. apply Forall_cons in Hall as [H1 Hall].
  apply Rollup_step in E1 as (Hwf1 & Hm1 & Hb1 & Hcov); [|done..]. destruct i as [|i]; simplify_eq/=.
  - assert (Hs : metrics (m_db m1) !! (sys, toRes, b) = rolledUp (m_db m) toRes sys b) by by apply Hcov.
    pose proof (rolledUp_same _ _ _ _ _ (Hm1 sys) (or_intror Hs)) as Hsame. rewrite <-Hsame.
    apply (Hafter _ _ _ _ Hall Hwf1 E2). by rewrite Hsame.
  - destruct (IH Hall m1 rs1 i) as [Hr _]; [done..|]. rewrite Hr.
    by apply rolledUp_same, Hb1.
Qed.
End correctness.

(** ** A concrete history: one system, a busy minute at 10:00 and a quiet one at 10:59 *)
Definition plainAvg (l : list f64) : f64 := fdiv (fold_left fadd l fzero) (ofInt (Z.of_nat (length l))).
Definition plainMax (l : list f64) : f64 := fold_left (λ a b, if flt a b then b else a) l fzero.
Definition cpuRow (ts cpu : Z) : MetricRow := mkMetricRow ts (ofInt cpu :: repeat fzero 13).
Definition demoHistory : store :=
  (insertMetric 1 Res1 (cpuRow 39540 20)
     (insertMetric 1 Res1 (cpuRow 36000 80)
        (insertSystem "nas" "fp" "{}" "1.0.0" 0 (freshStore 0)).2).2).2.
Lemma wf_demoHistory : store_wf demoHistory.
Proof. apply wf_insertMetric, wf_insertMetric, wf_insertSystem, wf_freshStore. Qed.

Lemma rollup_bucket_witness :
  metrics (rollupStmt plainAvg plainMax Res60 0 39600 demoHistory) !! (1, Res60, 36000)
  = Some (ofInt 50 :: repeat fzero 13).
Proof.
  rewrite (rollup_bucket plainAvg plainMax demoHistory Res60 0 39600 1 36000
             wf_demoHistory ltac:(done) ltac:(done) ltac:(done) ltac:(done) ltac:(done)).
  vm_compute. reflexivity.
Defined.
Definition demoRollups : list (Z * Z * Z) :=
  [(Res60, hours 2, fromUnix 39700); (Res10, hours 2, fromUnix 39700); (Res60, hours 5, fromUnix 41000)].
Lemma rollup_idempotent_witness :
  metrics (m_db (rollups plainAvg plainMax demoRollups (mkMach demoHistory (mkEnv 0 [] [] []))).2) !! (1, Res60, 36000)
  = Some (ofInt 50 :: repeat fzero 13).
Proof.
  rewrite (proj1 (rollup_idempotent plainAvg plainMax demoRollups (mkMach demoHistory (mkEnv 0 [] [] []))
             (rollups plainAvg plainMax demoRollups (mkMach demoHistory (mkEnv 0 [] [] []))).2 [Ok tt; Ok tt; Ok tt] 0
             Res60 (hours 2) (fromUnix 39700) 1 36000
             wf_demoHistory ltac:(repeat constructor; done) ltac:(vm_compute; reflexivity) eq_refl eq_refl
             ltac:(done) ltac:(done) ltac:(done) ltac:(vm_compute; done))).
  vm_compute. reflexivity.
Defined.

(** When the hub restarts 48 hours and 50 minutes later: the hourly pruning has dropped the
    first 1-minute row, and the catch-up rollup reaches back into that hour. *)
Definition restartAt : Z := fromUnix (36000 + 48 * 3600 + 50 * 60).
Definition hourlyCPU (s : store) : option f64 := metrics s !! (1, Res60, 36000) ≫= head.
Definition noFaults (now : Z) (db : store) : mach := mkMach db (mkEnv now [] [] []).
(** What the maintenance loop does to the database between two times. *)
Definition firstRollup : M mach (res unit) := Rollup plainAvg plainMax Res60 (hours 2) (fromUnix 39600).
Definition pruneThenRestart : M mach (res unit) :=
  _ ← firstRollup; _ ← PruneMetrics restartAt; Rollup plainAvg plainMax Res60 (hours 48) restartAt.

(** Finding: the catch-up rollup after a restart is not harmless: the oldest hour of its window has
    lost 1-minute rows to the pruning, and the rollup replaces the hour's stored average
    (50 %) by the average of the rows that are left (20 %). *)
Theorem catch_up_rollup_degrades_bucket :
  hourlyCPU (m_db (firstRollup (noFaults 0 demoHistory)).2) = Some (ofInt 50)
  ∧ hourlyCPU (m_db (pruneThenRestart (noFaults 0 demoHistory)).2) = Some (ofInt 20).
Proof. split; vm_compute; reflexivity. Qed.
