(* ===== verification/StoreSteps.v ===== *)
(** * Every statement of the program keeps the database intact

    [dbStep] is one database operation of the hub, with any arguments and any outcome the
    fault schedule imposes; its reflexive transitive closure covers every order and
    interleaving of requests, since each statement is atomic on the single connection. *)
From Stdlib Require Import ZArith Lia Ascii String.
From S2P Require Import Prelude GoStrings Float64 Library Store StoreTables StoreInv Metrics.
From stdpp Require Import base gmap strings list sorting relations.
Local Open Scope Z_scope.

Section steps.
Context `{Lib} (targetsSummary : string → string) (sqlAvg sqlMax : list f64 → f64).

Inductive dbStep (m : mach) : mach → Prop :=
| step_now : dbStep m (timeNow m).2
| step_rand : dbStep m (randRead m).2
| step_query {A} (f : store → res A) : dbStep m (query f m).2
| step_CreateUser n h r : dbStep m (CreateUser n h r m).2
| step_SetRole id r : dbStep m (SetRole id r m).2
| step_DeleteUser id : dbStep m (DeleteUser id m).2
| step_SetLastLogin id t : dbStep m (SetLastLogin id t m).2
| step_SetPassword id h : dbStep m (SetPassword id h m).2
| step_SetTOTPSecret id x : dbStep m (SetTOTPSecret id x m).2
| step_CreateSession h id e : dbStep m (CreateSession h id e m).2
| step_ElevateSession h u : dbStep m (ElevateSession h u m).2
| step_DeleteOtherSessions id k : dbStep m (DeleteOtherSessions id k m).2
| step_DeleteSessions id : dbStep m (DeleteSessions id m).2
| step_DeleteSession h : dbStep m (DeleteSession h m).2
| step_CreateEnrollToken h e : dbStep m (CreateEnrollToken h e m).2
| step_DeleteExpired : dbStep m (DeleteExpired m).2
| step_CreateSystem n f i v : dbStep m (CreateSystem n f i v m).2
| step_UpdateSystemInfo id i v : dbStep m (UpdateSystemInfo id i v m).2
| step_RenameSystem id n : dbStep m (RenameSystem id n m).2
| step_UpdateLastSeen id t l : dbStep m (UpdateLastSeen id t l m).2
| step_DeleteSystem id : dbStep m (DeleteSystem id m).2
| step_PasskeyHandle id : dbStep m (PasskeyHandle id m).2
| step_CreatePasskey p : dbStep m (CreatePasskey p m).2
| step_UsePasskey id n : dbStep m (UsePasskey id n m).2
| step_RenamePasskey id u n : dbStep m (RenamePasskey id u n m).2
| step_DeletePasskey id u : dbStep m (DeletePasskey id u m).2
| step_DeletePasskeysOf u : dbStep m (DeletePasskeysOf u m).2
| step_SaveNotifier n : dbStep m (SaveNotifier n m).2
| step_DeleteNotifier id : dbStep m (DeleteNotifier id m).2
| step_NotifierResult id t e : dbStep m (NotifierResult id t e m).2
| step_SaveAlertRule r : dbStep m (SaveAlertRule r m).2
| step_DeleteAlertRule id : dbStep m (DeleteAlertRule id m).2
| step_CreateAlert a : dbStep m (CreateAlert a m).2
| step_ResolveAlert id t : dbStep m (ResolveAlert id t m).2
| step_ResolveAlertsWhere r y t : dbStep m (ResolveAlertsWhere r y t m).2
| step_PruneAlerts t : dbStep m (PruneAlerts t m).2
| step_SaveScript x : dbStep m (SaveScript x m).2
| step_DeleteScript id : dbStep m (DeleteScript id m).2
| step_CreateRun r : dbStep m (CreateRun targetsSummary r m).2
| step_FinishRun id t x : dbStep m (FinishRun targetsSummary id t x m).2
| step_PruneRuns t : dbStep m (PruneRuns t m).2
| step_AddAudit e : dbStep m (AddAudit e m).2
| step_PruneAudit t : dbStep m (PruneAudit t m).2
| step_InsertMetrics id r row : dbStep m (InsertMetrics id r row m).2
| step_Rollup r w t : dbStep m (Rollup sqlAvg sqlMax r w t m).2
| step_PruneMetrics t : dbStep m (PruneMetrics t m).2.

(** ** The administrator count *)
Section counting.
Context {A K : Type} (key : A → K) (k : K).
Implicit Types (p q : A → bool) (l : list A).
Lemma not_p_of_key p l x :
  (∀ y, p y = true → key y = k) → p x = true → key x ∉ map key l → ∀ y, y ∈ l → p y = false.
Proof.
  intros Hp Hx Hn y Hy. apply not_true_iff_false. intros Hpy. apply Hn.
  rewrite (Hp _ Hx), <-(Hp _ Hpy). apply list_elem_of_fmap. eauto.
Qed.
Lemma deleteWhere_none p l : (∀ y, y ∈ l → p y = false) → deleteWhere p l = l.
Proof.
  unfold deleteWhere. induction l as [|y l IH]; cbn; intros Hn; [done|].
  rewrite (Hn y) by constructor. cbn. f_equal. apply IH. intros z Hz. apply Hn. by constructor.
Qed.
Lemma updateWhere_none p f l : (∀ y, y ∈ l → p y = false) → updateWhere p f l = l.
Proof.
  unfold updateWhere. induction l as [|y l IH]; cbn; intros Hn; [done|].
  rewrite (Hn y) by constructor. cbn. f_equal. apply IH. intros z Hz. apply Hn. by constructor.
Qed.
Lemma countWhere_delete p q l :
  (∀ y, p y = true → key y = k) → NoDup (map key l) →
  (countWhere q l ≤ S (countWhere q (deleteWhere p l)))%nat.
Proof.
  intros Hp. induction l as [|x l IH]; [unfold countWhere; cbn; lia|]. cbn; rewrite NoDup_cons. intros [Hx Hl].
  rewrite countWhere_cons. destruct (p x) eqn:E.
  - assert (deleteWhere p (x :: l) = l) as ->.
    { rewrite <-(deleteWhere_none p l) at 2 by by apply (not_p_of_key p l x).
      unfold deleteWhere; cbn. by rewrite E. }
    destruct (q x); lia.
  - assert (deleteWhere p (x :: l) = x :: deleteWhere p l) as ->
      by by (unfold deleteWhere; cbn; rewrite E).
    rewrite countWhere_cons. specialize (IH Hl). lia.
Qed.
Lemma countWhere_update p q f l :
  (∀ y, p y = true → key y = k) → NoDup (map key l) →
  (countWhere q l ≤ S (countWhere q (updateWhere p f l)))%nat.
Proof.
  intros Hp. induction l as [|x l IH]; [unfold countWhere; cbn; lia|]. cbn; rewrite NoDup_cons. intros [Hx Hl].
  assert (updateWhere p f (x :: l) = (if p x then f x else x) :: updateWhere p f l) as -> by done.
  rewrite !countWhere_cons. specialize (IH Hl). destruct (p x) eqn:E; [|lia].
  rewrite updateWhere_none by by apply (not_p_of_key p l x). destruct (q x); lia.
Qed.
End counting.

Lemma countWhere_update_mono {A} (p q : A → bool) f l :
  (∀ x, p x = true → q x = true → q (f x) = true) →
  (countWhere q l ≤ countWhere q (updateWhere p f l))%nat.
Proof.
  intros Hq. induction l as [|x l IH]; [done|].
  assert (updateWhere p f (x :: l) = (if p x then f x else x) :: updateWhere p f l) as -> by done.
  rewrite !countWhere_cons. destruct (p x) eqn:E; [|lia].
  destruct (q x) eqn:Eq; [rewrite Hq by done; lia|]. lia.
Qed.

(** A database that satisfies the schema and has an administrator. *)
Definition healthy (s : store) : Prop := store_wf s ∧ has_admin s.

Lemma admin_setRole id role s :
  store_wf s → has_admin s → has_admin (updateUsers (roleGuard id role s) (withRole role) s).2.
Proof.
  intros Hwf Ha. unfold has_admin, admins in *. unfold updateUsers; cbn.
  assert (users (set_users (updateWhere (roleGuard id role s) (withUser (withRole role)) (users s)) s)
          = updateWhere (roleGuard id role s) (withUser (withRole role)) (users s)) as -> by by destruct s.
  destruct (1 <? admins s)%nat eqn:Hmany.
  - bool_hyps. unfold admins in Hmany.
    pose proof (countWhere_update ur_ID id (roleGuard id role s) isAdmin (withUser (withRole role)) (users s)
      ltac:(unfold roleGuard; intros; bool_hyps; done) (wf_user_ids _ Hwf)). lia.
  - eapply Nat.lt_le_trans; [exact Ha|]. apply countWhere_update_mono.
    intros x Hg Hx. unfold roleGuard in Hg. rewrite Hmany, Hx, !orb_false_r in Hg. bool_hyps.
    subst role. done.
Qed.
Lemma admin_delete id s : store_wf s → has_admin s → has_admin (deleteUsers (deleteGuard id s) s).2.
Proof.
  intros Hwf Ha. unfold has_admin, admins in *. unfold deleteUsers; cbn.
  match goal with |- (0 < countWhere _ (users ?s'))%nat =>
    assert (users s' = deleteWhere (deleteGuard id s) (users s)) as -> by by destruct s end.
  destruct (1 <? admins s)%nat eqn:Hmany.
  - bool_hyps. unfold admins in Hmany.
    pose proof (countWhere_delete ur_ID id (deleteGuard id s) isAdmin (users s)
      ltac:(unfold deleteGuard; intros; bool_hyps; done) (wf_user_ids _ Hwf)). lia.
  - apply countWhere_pos in Ha as (x & Hx & Hax). apply countWhere_pos. exists x. split; [|done].
    apply elem_of_deleteWhere. split; [done|]. unfold deleteGuard. rewrite Hmany, Hax. cbn.
    apply andb_false_r.
Qed.
Lemma admin_updateUsers p f s :
  (∀ u, u_Role (f u) = u_Role u) → has_admin s → has_admin (updateUsers p f s).2.
Proof.
  intros Hr Ha. unfold has_admin, admins in *. unfold updateUsers; cbn.
  assert (users (set_users (updateWhere p (withUser f) (users s)) s) = updateWhere p (withUser f) (users s))
    as -> by by destruct s.
  eapply Nat.lt_le_trans; [exact Ha|]. apply countWhere_update_mono.
  intros x _. unfold isAdmin; cbn. by rewrite Hr.
Qed.
Lemma admin_more us s : users s ⊆+ us → has_admin s → has_admin (set_users us s).
Proof.
  intros Hsub Ha. unfold has_admin, admins in *.
  assert (users (set_users us s) = us) as -> by by destruct s.
  apply countWhere_pos in Ha as (x & Hx & Hp). apply countWhere_pos. exists x. split; [|done].
  by eapply elem_of_submseteq.
Qed.

(** ** Statements are sound: they keep the schema and, given the schema, an administrator *)
Definition sound (s s' : store) : Prop := store_wf s → store_wf s' ∧ (has_admin s → has_admin s').
#[export] Instance sound_preorder : PreOrder sound.
Proof. split; unfold sound; [intros s | intros s t u]; naive_solver. Qed.
Lemma sound_frame s s' : users s' = users s → (store_wf s → store_wf s') → sound s s'.
Proof. intros Hu Hw Hwf. split; [by apply Hw|]. by apply has_admin_frame. Qed.

Create HintDb wf discriminated.
Hint Resolve wf_setHandle wf_insertUser wf_deleteUsers wf_insertSession wf_elevate
  wf_deleteSessions wf_insertRule wf_updateRule wf_deleteRules wf_insertPasskey wf_deletePasskeys
  wf_insertSystem wf_deleteSystems wf_insertMetric wf_rollupStmt wf_pruneStmt : wf.

(** A table with a fresh rowid, with columns outside the key changed, or with fewer rows. *)
Ltac keys := first
  [ apply NoDup_snoc; [apply nextID_fresh|] | apply NoDup_updateWhere; [done|] | apply NoDup_deleteWhere ].
Ltac stmt :=
  apply steps_sql; [apply _ | intros ?s; apply sound_frame; [by destruct s | cbn; intros ?Hwf]].

Lemma insertUser_sound n h r t s : ValidRole r = true → sound s (insertUser n h r t s).2.
Proof.
  intros Hr Hwf. split; [by apply wf_insertUser|]. intros Ha. unfold insertUser.
  destruct (existsWhere _ _); [done|]. apply admin_more; [|done]. apply submseteq_inserts_r. done.
Qed.
Lemma updateUsers_sound p f s :
  (∀ u, u_ID (f u) = u_ID u) → (∀ u, u_Username (f u) = u_Username u) →
  (∀ u, u_Role (f u) = u_Role u) → sound s (updateUsers p f s).2.
Proof.
  intros Hi Hn Hr Hwf. split; [|by apply admin_updateUsers].
  apply wf_updateUsers; [done..| |done]. intros u. by rewrite Hr.
Qed.
Lemma setHandle_sound id h s : sound s (setHandle id h s).2.
Proof.
  intros Hwf. split; [by apply wf_setHandle|]. intros Ha. unfold setHandle.
  destruct (_ && _); [done|]. cbn. unfold has_admin, admins in *.
  match goal with |- (0 < countWhere _ (users (set_users ?l s)))%nat =>
    assert (users (set_users l s) = l) as -> by by destruct s end.
  eapply Nat.lt_le_trans; [exact Ha|]. by apply countWhere_update_mono.
Qed.

Lemma lastAdminCheck_sound r id : steps (onDB sound) (lastAdminCheck r id).
Proof. unfold lastAdminCheck, getUser. go_steps. Qed.
Hint Resolve lastAdminCheck_sound : steps.

Lemma user_ops_sound :
  (∀ n h r, steps (onDB sound) (CreateUser n h r)) ∧
  (∀ id r, steps (onDB sound) (SetRole id r)) ∧
  (∀ id, steps (onDB sound) (DeleteUser id)) ∧
  (∀ id t, steps (onDB sound) (SetLastLogin id t)) ∧
  (∀ id h, steps (onDB sound) (SetPassword id h)) ∧
  (∀ id x, steps (onDB sound) (SetTOTPSecret id x)) ∧
  (∀ id, steps (onDB sound) (PasskeyHandle id)).
Proof.
  split_and!; intros.
  - unfold CreateUser. destruct (ValidRole r) eqn:Hr; cbn; go_steps.
    apply steps_sql; [apply _|]. intros s. by apply insertUser_sound.
  - unfold SetRole. destruct (ValidRole r) eqn:Hr; cbn; go_steps.
    apply steps_sql; [apply _|]. intros s Hwf. split; [|by apply admin_setRole].
    by apply wf_updateUsers.
  - unfold DeleteUser. go_steps. apply steps_sql; [apply _|]. intros s Hwf.
    split; [by apply wf_deleteUsers|by apply admin_delete].
  - unfold SetLastLogin. go_steps. apply steps_sql; [apply _|]. intros s. by apply updateUsers_sound.
  - unfold SetPassword. go_steps. apply steps_sql; [apply _|]. intros s. by apply updateUsers_sound.
  - unfold SetTOTPSecret. go_steps. apply steps_sql; [apply _|]. intros s. by apply updateUsers_sound.
  - unfold PasskeyHandle. go_steps. apply steps_sql; [apply _|]. intros s. apply setHandle_sound.
Qed.

Lemma session_ops_sound :
  (∀ h id e, steps (onDB sound) (CreateSession h id e)) ∧
  (∀ h u, steps (onDB sound) (ElevateSession h u)) ∧
  (∀ p, steps (onDB sound) (deleteSessionsWhere p)) ∧
  (∀ h e, steps (onDB sound) (CreateEnrollToken h e)) ∧
  steps (onDB sound) DeleteExpired.
Proof.
  assert (Hdel : ∀ p, steps (onDB sound) (deleteSessionsWhere p)).
  { intros p. unfold deleteSessionsWhere. stmt. auto with wf. }
  split_and!; intros; [| |done| |].
  - unfold CreateSession. apply steps_sql; [apply _|]. intros s. apply sound_frame; [|auto with wf].
    unfold insertSession. repeat case_match; by destruct s.
  - unfold ElevateSession. stmt. auto with wf.
  - unfold CreateEnrollToken. go_steps. apply steps_sql; [apply _|]. intros s.
    destruct (existsWhere _ _) eqn:Hex; cbn; [reflexivity|].
    apply sound_frame; [by destruct s|]. intros Hwf. apply wf_set_enroll; [|done].
    apply NoDup_snoc; [|apply Hwf]. apply (key_fresh _ String.eqb); [apply String.eqb_eq|done].
  - unfold DeleteExpired. go_steps. stmt. apply wf_set_enroll; [|done]. keys. apply Hwf.
Qed.

Lemma system_ops_sound :
  (∀ n f i v, steps (onDB sound) (CreateSystem n f i v)) ∧
  (∀ id i v, steps (onDB sound) (UpdateSystemInfo id i v)) ∧
  (∀ id n, steps (onDB sound) (RenameSystem id n)) ∧
  (∀ id t l, steps (onDB sound) (UpdateLastSeen id t l)) ∧
  (∀ id, steps (onDB sound) (DeleteSystem id)) ∧
  (∀ id r row, steps (onDB sound) (InsertMetrics id r row)) ∧
  (∀ r w t, steps (onDB sound) (Rollup sqlAvg sqlMax r w t)) ∧
  (∀ t, steps (onDB sound) (PruneMetrics t)).
Proof.
  split_and!; intros.
  - unfold CreateSystem, getSystem. go_steps. apply steps_sql; [apply _|]. intros s.
    apply sound_frame; [|auto with wf]. unfold insertSystem. case_match; by destruct s.
  - unfold UpdateSystemInfo. go_steps. stmt. by apply wf_updateSystems.
  - unfold RenameSystem. go_steps. stmt. by apply wf_updateSystems.
  - unfold UpdateLastSeen. go_steps. stmt. by apply wf_updateSystems.
  - unfold DeleteSystem. go_steps. apply steps_sql; [apply _|]. intros s.
    apply sound_frame; [|auto with wf]. unfold deleteSystems. case_match; by destruct s.
  - unfold InsertMetrics. apply steps_sql; [apply _|]. intros s.
    apply sound_frame; [|auto with wf]. unfold insertMetric. case_match; by destruct s.
  - unfold Rollup. stmt. auto with wf.
  - unfold PruneMetrics. generalize Retention. intros l. induction l as [|[r k] l IH]; cbn; go_steps.
    stmt. auto with wf.
Qed.

Lemma passkey_ops_sound :
  (∀ p, steps (onDB sound) (CreatePasskey p)) ∧
  (∀ id n, steps (onDB sound) (UsePasskey id n)) ∧
  (∀ id u n, steps (onDB sound) (RenamePasskey id u n)) ∧
  (∀ id u, steps (onDB sound) (DeletePasskey id u)) ∧
  (∀ u, steps (onDB sound) (DeletePasskeysOf u)).
Proof.
  split_and!; intros.
  - unfold CreatePasskey. go_steps. apply steps_sql; [apply _|]. intros s.
    apply sound_frame; [|auto with wf]. unfold insertPasskey. repeat case_match; by destruct s.
  - unfold UsePasskey. go_steps. stmt. by apply wf_updatePasskeys.
  - unfold RenamePasskey. go_steps. stmt. by apply wf_updatePasskeys.
  - unfold DeletePasskey. go_steps. stmt. by apply wf_deletePasskeys.
  - unfold DeletePasskeysOf. go_steps. stmt. by apply wf_deletePasskeys.
Qed.

Lemma alert_ops_sound :
  (∀ n, steps (onDB sound) (SaveNotifier n)) ∧
  (∀ id, steps (onDB sound) (DeleteNotifier id)) ∧
  (∀ id t e, steps (onDB sound) (NotifierResult id t e)) ∧
  (∀ r, steps (onDB sound) (SaveAlertRule r)) ∧
  (∀ id, steps (onDB sound) (DeleteAlertRule id)) ∧
  (∀ a, steps (onDB sound) (CreateAlert a)) ∧
  (∀ p t, steps (onDB sound) (resolveWhere p t)) ∧
  (∀ t, steps (onDB sound) (PruneAlerts t)).
Proof.
  split_and!; intros.
  - unfold SaveNotifier. go_steps; stmt; (apply wf_set_notifiers; [|done]); keys; apply Hwf.
  - unfold DeleteNotifier. go_steps. stmt. apply wf_set_notifiers; [|done]. keys. apply Hwf.
  - unfold NotifierResult. go_steps. stmt. apply wf_set_notifiers; [|done]. keys. apply Hwf.
  - unfold SaveAlertRule. go_steps; (apply steps_sql; [apply _|]; intros s; apply sound_frame; [|auto with wf]).
    + unfold insertRule. case_match; by destruct s.
    + unfold updateRule. case_match; by destruct s.
  - unfold DeleteAlertRule. go_steps. stmt. auto with wf.
  - unfold CreateAlert. stmt. apply wf_set_alerts; [|done]. keys. apply Hwf.
  - unfold resolveWhere. stmt. apply wf_set_alerts; [|done]. keys. apply Hwf.
  - unfold PruneAlerts. stmt. apply wf_set_alerts; [|done]. keys. apply Hwf.
Qed.

Lemma log_ops_sound :
  (∀ x, steps (onDB sound) (SaveScript x)) ∧
  (∀ id, steps (onDB sound) (DeleteScript id)) ∧
  (∀ r, steps (onDB sound) (CreateRun targetsSummary r)) ∧
  (∀ id t x, steps (onDB sound) (FinishRun targetsSummary id t x)) ∧
  (∀ t, steps (onDB sound) (PruneRuns t)) ∧
  (∀ e, steps (onDB sound) (AddAudit e)) ∧
  (∀ t, steps (onDB sound) (PruneAudit t)).
Proof.
  split_and!; intros.
  - unfold SaveScript. go_steps; stmt; (apply wf_set_scripts; [|done]); keys; apply Hwf.
  - unfold DeleteScript. go_steps. stmt. apply wf_set_scripts; [|done]. keys. apply Hwf.
  - unfold CreateRun. stmt. apply wf_set_runs; [|done]. keys. apply Hwf.
  - unfold FinishRun. stmt. apply wf_set_runs; [|done]. keys. apply Hwf.
  - unfold PruneRuns. stmt. apply wf_set_runs; [|done]. keys. apply Hwf.
  - unfold AddAudit. go_steps. stmt. apply wf_set_audit; [|done]. keys. apply Hwf.
  - unfold PruneAudit. stmt. apply wf_set_audit; [|done]. keys. apply Hwf.
Qed.

Lemma dbStep_sound m m' : dbStep m m' → sound (m_db m) (m_db m').
Proof.
  pose proof user_ops_sound as Hu. pose proof session_ops_sound as Hs.
  pose proof system_ops_sound as Hy. pose proof passkey_ops_sound as Hp.
  pose proof alert_ops_sound as Ha. pose proof log_ops_sound as Hl. destruct_and!.
  destruct 1; unfold DeleteOtherSessions, DeleteSessions, DeleteSession, ResolveAlert, ResolveAlertsWhere;
    try match goal with Hop : _ |- _ => apply Hop end.
  - by apply (steps_timeNow sound).
  - by apply (steps_randRead sound).
  - by apply (steps_query sound).
Qed.

(** C18. Whatever the requests do, in whatever order, and whichever statements fail: the database
    keeps satisfying the constraints of its schema, i.e. unique user names (ignoring case), unique
    session tokens, agent keys and credentials, valid roles, and no session, passkey, rule
    or metric row that refers to a deleted user or system. *)
Theorem database_integrity (m m' : mach) (Hrun : rtc dbStep m m') (Hwf : store_wf (m_db m)) :
  store_wf (m_db m').
Proof.
  induction Hrun as [m|m1 m2 m3 Hstep _ IH]; [done|]. apply IH. by apply (dbStep_sound _ _ Hstep).
Qed.

(** C31. The hub never loses its last administrator: once there is one, no sequence of
    database operations, with any interleaving and any failures, leads to a state without. *)
Theorem last_admin_stays (m m' : mach) (Hrun : rtc dbStep m m') (Hwf : store_wf (m_db m))
    (Hadmin : has_admin (m_db m)) :
  has_admin (m_db m').
Proof.
  induction Hrun as [m|m1 m2 m3 Hstep _ IH]; [done|].
  destruct (dbStep_sound _ _ Hstep Hwf) as [Hwf2 Ha2]. auto.
Qed.
End steps.

(** ** Behaviour of the guarded operations on every branch *)
Section guarded.
Context `{Lib}.

Lemma unique_head {A} (key : A → Z) l k x :
  NoDup (map key l) → x ∈ l → key x = k → head (selectWhere (λ y, key y =? k) l) = Some x.
Proof.
  intros Hn Hx <-. unfold selectWhere. induction l as [|y l IH]; [by apply not_elem_of_nil in Hx|].
  cbn in *. rewrite NoDup_cons in Hn. destruct Hn as [Hy Hn]. apply elem_of_cons in Hx as [->|Hx].
  - by rewrite Z.eqb_refl.
  - destruct (key y =? key x) eqn:E; [|by apply IH]. bool_hyps. exfalso. apply Hy. rewrite E.
    apply list_elem_of_fmap. eauto.
Qed.

Lemma sql_ok {A} (f : store → res A * store) db t ks rs :
  sql f (mkMach db (mkEnv t ks [] rs)) = let '(a, db') := f db in (a, mkMach db' (mkEnv t ks [] rs)).
Proof. unfold sql. by destruct (f db). Qed.

Definition findUser (s : store) (id : Z) : option userRow := head (selectWhere (λ r, ur_ID r =? id) (users s)).

Lemma count_guarded (g : userRow → bool) l id :
  NoDup (map ur_ID l) →
  countWhere (λ r, (ur_ID r =? id) && g r) l
  = match head (selectWhere (λ r, ur_ID r =? id) l) with
    | Some r => if g r then 1%nat else 0%nat
    | None => 0%nat
    end.
Proof.
  induction l as [|x l IH]; [done|]. cbn. rewrite NoDup_cons. intros [Hx Hl].
  rewrite countWhere_cons. unfold selectWhere in *. cbn. destruct (ur_ID x =? id) eqn:E; cbn; [|by apply IH].
  assert (countWhere (λ r, (ur_ID r =? id) && g r) l = 0%nat) as ->; [|destruct (g x); lia].
  apply countWhere_zero. intros y Hy. apply andb_false_iff. left. apply Z.eqb_neq. bool_hyps.
  intros Heq. apply Hx. apply list_elem_of_fmap. exists y. by rewrite E, Heq.
Qed.
Lemma guard_zero (g : userRow → bool) s :
  countWhere g (users s) = 0%nat → ∀ f, set_users (updateWhere g f (users s)) s = s.
Proof.
  intros Hz f. rewrite countWhere_zero in Hz. rewrite updateWhere_none by done. by destruct s.
Qed.
Lemma findUser_getUser s id :
  oneRow (map ur_user (selectWhere (λ r, ur_ID r =? id) (users s)))
  = match findUser s id with Some r => Ok (ur_user r) | None => Err ErrNotFound end.
Proof. unfold findUser. by destruct (selectWhere _ _). Qed.

(** The role change that would leave the hub without an administrator. *)
Definition demotesLastAdmin (s : store) (r : userRow) (role : string) : bool :=
  isAdmin r && negb (String.eqb role RoleAdmin) && (admins s <=? 1)%nat.

(** What [SetRole] answers when the database works: [ErrNotFound] for an unknown user,
    [ErrLastAdmin] exactly when the user is the last administrator and the new role is not
    administrator, otherwise success. An error leaves the database unchanged. *)
Theorem SetRole_result (s : store) (id : Z) (role : string) (t : Z) (ks : list Z) (rs : list string)
    (Hwf : store_wf s) (Hrole : ValidRole role = true) :
  let '(r, m') := SetRole id role (mkMach s (mkEnv t ks [] rs)) in
  r = match findUser s id with
      | None => Err ErrNotFound
      | Some u => if demotesLastAdmin s u role then Err ErrLastAdmin else Ok tt
      end
  ∧ (r ≠ Ok tt → m_db m' = s)
  ∧ (r = Ok tt → ∀ u, u ∈ users (m_db m') →
       ∃ u0, u0 ∈ users s ∧ u = (if ur_ID u0 =? id then withUser (withRole role) u0 else u0)).
Proof.
  unfold SetRole. rewrite Hrole. cbn [negb]. unfold mbind, M_bind. rewrite sql_ok. unfold updateUsers.
  set (g := roleGuard id role s).
  assert (Hc : countWhere g (users s) = match findUser s id with
     | Some r => if String.eqb role RoleAdmin || negb (isAdmin r) || (1 <? admins s)%nat then 1%nat else 0%nat
     | None => 0%nat end) by apply count_guarded, Hwf.
  assert (Hd : ∀ r, demotesLastAdmin s r role
    = negb (String.eqb role RoleAdmin || negb (isAdmin r) || (1 <? admins s)%nat)).
  { intros r. unfold demotesLastAdmin. rewrite Nat.ltb_antisym.
    destruct (isAdmin r), (role =? RoleAdmin)%string, (admins s <=? 1)%nat; done. }
  unfold lastAdminCheck, affected, getUser, query.
  destruct (countWhere g (users s) =? 0)%nat eqn:E; bool_hyps.
  - rewrite guard_zero by done. unfold mbind, M_bind. rewrite sql_ok, findUser_getUser.
    destruct (findUser s id) as [r|]; [|by cbn; intuition congruence].
    rewrite Hd. destruct (_ || _); [lia|]. cbn. intuition congruence.
  - cbn. destruct (findUser s id) as [r|] eqn:Hf; [|lia]. rewrite Hd.
    destruct (_ || _) eqn:Eg; [|lia]. cbn. split_and!; [done|done|]. intros _ u.
    assert (users (set_users (updateWhere g (withUser (withRole role)) (users s)) s)
            = updateWhere g (withUser (withRole role)) (users s)) as -> by by destruct s.
    intros (u0 & Hu0 & ->)%elem_of_updateWhere. exists u0. split; [done|].
    destruct (ur_ID u0 =? id) eqn:Eid; unfold g, roleGuard; rewrite Eid; [rewrite andb_true_l|done].
    assert (Hu : findUser s id = Some u0).
    { unfold findUser. apply (unique_head ur_ID) with (k := id); [apply Hwf|done|by apply Z.eqb_eq]. }
    rewrite Hf in Hu. simplify_eq. by rewrite Eg.
Qed.
End guarded.

(** ** Witnesses *)
Definition demoMach : mach := mkMach (freshStore 0) (mkEnv 0 [] [] []).
(** After the administrator was created. *)
Definition demoAdmin : mach := (@CreateUser demoLib "ada" "saltsecret" RoleAdmin demoMach).2.
Lemma wf_demoAdmin : store_wf (m_db demoAdmin).
Proof.
  apply (@dbStep_sound demoLib id (λ _, fzero) (λ _, fzero) demoMach); [apply (step_CreateUser _ _ _ _ "ada" "saltsecret" RoleAdmin)|].
  apply wf_freshStore.
Qed.
Lemma database_integrity_witness :
  users (m_db demoAdmin) ≠ [] ∧ store_wf (m_db demoAdmin).
Proof.
  split; [by vm_compute|].
  apply (@database_integrity demoLib id (λ _, fzero) (λ _, fzero) demoMach); [|apply wf_freshStore].
  apply rtc_once. apply (step_CreateUser _ _ _ _ "ada" "saltsecret" RoleAdmin).
Defined.
Lemma last_admin_stays_witness :
  has_admin (m_db (DeleteUser 1 demoAdmin).2).
Proof.
  apply (@last_admin_stays demoLib id (λ _, fzero) (λ _, fzero) demoAdmin); [| |by vm_compute; lia].
  - apply rtc_once. apply step_DeleteUser.
  - apply wf_demoAdmin.
Defined.
Lemma SetRole_result_witness :
  (@SetRole demoLib 1 RoleViewer (mkMach (m_db demoAdmin) (mkEnv 0 [] [] []))).1 = Err ErrLastAdmin.
Proof.
  pose proof (@SetRole_result demoLib (m_db demoAdmin) 1 RoleViewer 0 [] [] wf_demoAdmin eq_refl) as Hr.
  destruct (SetRole _ _ _) as [r m]. destruct Hr as [-> _]. by vm_compute.
Defined.
