(* ===== verification/Limiter.v ===== *)
(** * The login limiter ([internal/hub/auth.go], [loginLimiter])

    Failure records are shared objects: the table maps a client key to a record, and every
    attempt in progress keeps a pointer to the record it was counted in, which the table
    may have replaced meanwhile. The model has the heap of records and compares pointers. *)
From Stdlib Require Import ZArith Lia Ascii String.
From S2P Require Import Prelude GoStrings Library.
From stdpp Require Import base gmap strings list relations.
Local Open Scope Z_scope.

Definition loginFailures : Z := 5.
Definition loginLockout : Z := minutes 5.
Definition maxTrackedClients : nat := Z.to_nat 10000.
Lemma maxTrackedClients_pos : (0 < maxTrackedClients)%nat.
Proof. unfold maxTrackedClients. lia. Qed.
#[local] Opaque maxTrackedClients.

Record failRecord := mkFailRecord { fr_count : Z; fr_first : Z }.
Record loginLimiter := mkLimiter {
  fails : gmap string nat;        (* client key -> record *)
  recs : gmap nat failRecord;     (* the heap of records *)
  fresh : nat;                    (* the next address *)
}.
Record attempt := mkAttempt { at_key : string; at_rec : nat; at_failed : bool }.

Definition newLoginLimiter : loginLimiter := mkLimiter ∅ ∅ 0.
Definition getRec (l : loginLimiter) (p : nat) : failRecord := default (mkFailRecord 0 0) (recs l !! p).
Definition setRec (p : nat) (r : failRecord) (l : loginLimiter) : loginLimiter :=
  mkLimiter (fails l) (<[p := r]> (recs l)) (fresh l).
Definition dropKey (k : string) (l : loginLimiter) : loginLimiter :=
  mkLimiter (delete k (fails l)) (recs l) (fresh l).

Definition expired (now : Z) (r : failRecord) : bool := loginLockout <? timeSub now (fr_first r).
Definition lockedOut (r : failRecord) : bool := loginFailures <=? fr_count r.

Section limiter.
Context `{Lib}.

(** The IP address, or its /64 for IPv6. *)
Definition clientKey (ip : string) : string :=
  match ParseAddr ip with
  | None => ip
  | Some a0 =>
    let a := Unmap a0 in
    if Is6 a then prefixString (maskAddr a 64) 64 else addrString a
  end.

(** Whether [rec] replaces the eviction candidate [victim]. *)
Definition betterVictim (rec : failRecord) (victim : option failRecord) : bool :=
  match victim with
  | None => true
  | Some v =>
    let locked := lockedOut rec in
    let victimLocked := lockedOut v in
    (victimLocked && negb locked) || (Bool.eqb locked victimLocked && (fr_first rec <? fr_first v))
  end.

Fixpoint evictLoop (now : Z) (order : list (string * nat)) (victim : option (string * nat))
    (l : loginLimiter) : option (string * nat) * loginLimiter :=
  match order with
  | [] => (victim, l)
  | (k, p) :: rest =>
    if expired now (getRec l p) then evictLoop now rest victim (dropKey k l)
    else if betterVictim (getRec l p) ((λ v, getRec l v.2) <$> victim)
         then evictLoop now rest (Some (k, p)) l
         else evictLoop now rest victim l
  end.
Definition evictLocked (now : Z) (l : loginLimiter) : loginLimiter :=
  let '(victim, l') := evictLoop now (rangeOrder (fails l)) None l in
  if (maxTrackedClients <=? size (fails l'))%nat
  then dropKey (default EmptyString (fst <$> victim)) l'
  else l'.

(** The pointer to the client's record, if it has one (or gets one). *)
Definition recordLocked (key : string) (now : Z) (create : bool) (l : loginLimiter) : option nat * loginLimiter :=
  let '(rec, l1) :=
    match fails l !! key with
    | Some p => if expired now (getRec l p) then (None, dropKey key l) else (Some p, l)
    | None => (None, l)
    end in
  match rec with
  | Some p => (Some p, l1)
  | None =>
    if create then
      let l2 := if (maxTrackedClients <=? size (fails l1))%nat then evictLocked now l1 else l1 in
      let p := fresh l2 in
      (Some p, mkLimiter (<[key := p]> (fails l2)) (<[p := mkFailRecord 0 now]> (recs l2)) (S p))
    else (None, l1)
  end.

Definition begin (ip : string) (now : Z) (l : loginLimiter) : option attempt * loginLimiter :=
  let key := clientKey ip in
  let '(rec, l') := recordLocked key now true l in
  match rec with
  | None => (None, l')
  | Some p =>
    let r := getRec l' p in
    if lockedOut r then (None, l')
    else (Some (mkAttempt key p false), setRec p (mkFailRecord (fr_count r + 1) (fr_first r)) l')
  end.

Definition locked (ip : string) (now : Z) (l : loginLimiter) : bool * loginLimiter :=
  let '(rec, l') := recordLocked (clientKey ip) now false l in
  (match rec with Some p => lockedOut (getRec l' p) | None => false end, l').

Definition fail (a : attempt) : attempt := mkAttempt (at_key a) (at_rec a) true.

Definition endAttempt (a : attempt) (l : loginLimiter) : loginLimiter :=
  if at_failed a then l else
  let r := getRec l (at_rec a) in
  let r' := mkFailRecord (fr_count r - 1) (fr_first r) in
  let l' := setRec (at_rec a) r' l in
  if (fr_count r' =? 0) && bool_decide (fails l' !! at_key a = Some (at_rec a))
  then dropKey (at_key a) l'
  else l'.

(** ** Eviction *)
Lemma getRec_dropKey k l p : getRec (dropKey k l) p = getRec l p.
Proof. done. Qed.

Lemma evictLoop_heap now order v l :
  recs (evictLoop now order v l).2 = recs l ∧ fresh (evictLoop now order v l).2 = fresh l.
Proof.
  revert v l. induction order as [|[k p] rest IH]; intros v l; cbn; [done|].
  repeat case_match; rewrite ?(proj1 (IH _ _)), ?(proj2 (IH _ _)); done.
Qed.
Lemma evictLocked_heap now l : recs (evictLocked now l) = recs l ∧ fresh (evictLocked now l) = fresh l.
Proof.
  unfold evictLocked. pose proof (evictLoop_heap now (rangeOrder (fails l)) None l) as Hh.
  destruct (evictLoop _ _ _ _) as [v l']. cbn in Hh. case_match; done.
Qed.
Lemma evictLoop_fails now order v l k p :
  NoDup (order.*1) →
  fails (evictLoop now order v l).2 !! k = Some p ↔
  fails l !! k = Some p ∧ ∀ q, (k, q) ∈ order → expired now (getRec l q) = false.
Proof.
  revert v l. induction order as [|[k0 p0] rest IH]; intros v l; cbn.
  - intros _. split; [|by intros [? _]]. intros Hk. split; [done|]. by intros q ?%not_elem_of_nil.
  - rewrite NoDup_cons. intros [Hk0 Hn].
    assert (Hsplit : ∀ P : nat → Prop, (∀ q, (k, q) ∈ (k0, p0) :: rest → P q) ↔
       (k = k0 → P p0) ∧ ∀ q, (k, q) ∈ rest → P q).
    { intros P. setoid_rewrite elem_of_cons. naive_solver. }
    rewrite Hsplit. destruct (expired now (getRec l p0)) eqn:E.
    + rewrite IH by done. cbn. rewrite lookup_delete_Some.
      assert ((k0 ≠ k ∧ fails l !! k = Some p) ↔ (fails l !! k = Some p ∧ (k = k0 → true = false))) by naive_solver.
      setoid_rewrite getRec_dropKey. tauto.
    + case_match; rewrite IH by done; naive_solver.
Qed.
(** If the candidate is locked out, so is every unexpired record that was visited. *)
Lemma evictLoop_victim now order v l k p l' :
  evictLoop now order v l = (Some (k, p), l') → lockedOut (getRec l p) = true →
  (∀ k' p', (k', p') ∈ order → expired now (getRec l p') = false → lockedOut (getRec l p') = true)
  ∧ (∀ v0, v = Some v0 → lockedOut (getRec l v0.2) = true).
Proof.
  revert v l. induction order as [|[k0 p0] rest IH]; intros v l; cbn.
  - intros ? Hl; simplify_eq. split; [by intros k' p' ?%not_elem_of_nil|]. intros v0 ?; by simplify_eq.
  - destruct (expired now (getRec l p0)) eqn:E; [|destruct (betterVictim _ _) eqn:Eb];
      intros Heq Hl; apply IH in Heq as [Hrest Hv]; try exact Hl.
    + setoid_rewrite getRec_dropKey in Hrest. setoid_rewrite getRec_dropKey in Hv. split; [|done].
      intros k' p' [?|?]%elem_of_cons; [simplify_eq; congruence|eauto].
    + specialize (Hv _ eq_refl). cbn in Hv. split.
      * intros k' p' [?|?]%elem_of_cons; [by simplify_eq|eauto].
      * intros [k1 p1] ->. cbn in *. rewrite Hv in Eb. destruct (lockedOut (getRec l p1)); done.
    + split; [|done]. intros k' p' [?|?]%elem_of_cons Hx; [simplify_eq|eauto].
      destruct v as [[k1 p1]|]; [|done]. specialize (Hv _ eq_refl). cbn in *. rewrite Hv in Eb.
      destruct (lockedOut (getRec l p0)); done.
Qed.
Lemma evictLoop_some now order v l :
  (evictLoop now order v l).1 = None →
  v = None ∧ ∀ k p, (k, p) ∈ order → expired now (getRec l p) = true.
Proof.
  revert v l. induction order as [|[k0 p0] rest IH]; intros v l; cbn.
  - intros ->. split; [done|]. by intros k p ?%not_elem_of_nil.
  - destruct (expired now (getRec l p0)) eqn:E.
    + intros [-> Hr]%IH. split; [done|]. intros k p [?|?]%elem_of_cons; [by simplify_eq|eauto].
    + destruct (betterVictim _ _) eqn:Eb; intros [? Hr]%IH; [done|]. subst v. done.
Qed.

(** The candidate is one of the unexpired records that were visited. *)
Lemma evictLoop_member now order v l k p l' :
  evictLoop now order v l = (Some (k, p), l') →
  ((k, p) ∈ order ∧ expired now (getRec l p) = false) ∨ v = Some (k, p).
Proof.
  revert v l. induction order as [|[k0 p0] rest IH]; cbn; intros v l Heq; [simplify_eq; auto|].
  setoid_rewrite elem_of_cons.
  destruct (expired now (getRec l p0)) eqn:Ex; [|destruct (betterVictim _ _)];
    apply IH in Heq as [[??]|?]; simplify_eq; auto.
Qed.

Section eviction.
Context (Hrange : ∀ m : gmap string nat, rangeOrder m ≡ₚ map_to_list m).

Lemma order_keys (m : gmap string nat) : NoDup ((rangeOrder m).*1).
Proof. rewrite Hrange. apply NoDup_fst_map_to_list. Qed.
Lemma order_elem (m : gmap string nat) k p : (k, p) ∈ rangeOrder m ↔ m !! k = Some p.
Proof. rewrite Hrange. apply elem_of_map_to_list. Qed.
Lemma evictLoop_all now l k p :
  fails (evictLoop now (rangeOrder (fails l)) None l).2 !! k = Some p ↔
  fails l !! k = Some p ∧ expired now (getRec l p) = false.
Proof.
  rewrite evictLoop_fails by apply order_keys. setoid_rewrite order_elem. naive_solver.
Qed.
Lemma evictLoop_subseteq now l : fails (evictLoop now (rangeOrder (fails l)) None l).2 ⊆ fails l.
Proof. apply map_subseteq_spec. intros k p. rewrite evictLoop_all. naive_solver. Qed.

Lemma evictLocked_lookup now l k p : fails (evictLocked now l) !! k = Some p → fails l !! k = Some p.
Proof.
  unfold evictLocked. pose proof (evictLoop_all now l k p) as Ha.
  destruct (evictLoop _ _ _ _) as [v l']. cbn in Ha. case_match; cbn; [|naive_solver].
  rewrite lookup_delete_Some. naive_solver.
Qed.

(** The eviction makes room. *)
Lemma evictLocked_size now l :
  (size (fails l) ≤ maxTrackedClients)%nat → (size (fails (evictLocked now l)) < maxTrackedClients)%nat.
Proof.
  intros Hsz. unfold evictLocked. pose proof maxTrackedClients_pos.
  pose proof (evictLoop_all now l) as Ha. pose proof (evictLoop_subseteq now l) as Hsub.
  pose proof (evictLoop_some now (rangeOrder (fails l)) None l) as Hsome.
  destruct (evictLoop _ _ _ _) as [v l'] eqn:E. cbn in *. apply map_subseteq_size in Hsub.
  destruct (maxTrackedClients <=? size (fails l'))%nat eqn:Em; bool_hyps; [|done].
  destruct v as [[k p]|]; cbn.
  - assert (Hin : is_Some (fails l' !! k)).
    { assert (Hv : (k, p) ∈ rangeOrder (fails l) ∧ expired now (getRec l p) = false).
      { by apply evictLoop_member in E as [?|?]. }
      exists p. apply Ha. by rewrite <-order_elem. }
    rewrite map_size_delete. destruct Hin as [x ->]. lia.
  - destruct (Hsome eq_refl) as [_ Hexp].
    assert (fails l' = ∅) as Hempty.
    { apply map_empty. intros k. apply eq_None_not_Some. intros [p Hp].
      apply Ha in Hp as [Hp Hx]. rewrite (Hexp k p) in Hx; [done|]. by apply order_elem. }
    rewrite Hempty, map_size_empty in Em. lia.
Qed.

(** Flooding the limiter with new addresses does not set a locked-out client free: as long
    as some tracked client is neither locked out nor expired, an eviction keeps every
    locked-out client whose lockout has not expired. *)
Theorem eviction_keeps_locked_out (now : Z) (l : loginLimiter) (k k2 : string) (p p2 : nat)
    (Hk : fails l !! k = Some p) (Hx : expired now (getRec l p) = false)
    (Hl : lockedOut (getRec l p) = true)
    (Hk2 : fails l !! k2 = Some p2) (Hx2 : expired now (getRec l p2) = false)
    (Hl2 : lockedOut (getRec l p2) = false) :
  fails (evictLocked now l) !! k = Some p.
Proof.
  unfold evictLocked. pose proof (evictLoop_all now l k p) as Ha.
  pose proof (evictLoop_some now (rangeOrder (fails l)) None l) as Hsome.
  pose proof (evictLoop_victim now (rangeOrder (fails l)) None l) as Hv.
  pose proof (evictLoop_heap now (rangeOrder (fails l)) None l) as [Hh _].
  destruct (evictLoop _ _ _ _) as [v l'] eqn:E. cbn in *.
  assert (Hin : fails l' !! k = Some p) by by apply Ha.
  case_match; [|done]. cbn. apply lookup_delete_Some. split; [|done].
  destruct v as [[kv pv]|]; cbn.
  - intros ->. (* the victim would be locked out, yet k2's record is not *)
    assert (Hpv : pv = p).
    { apply evictLoop_member in E as [[E _]|?]; [|done]. apply order_elem in E. congruence. }
    subst pv. destruct (Hv _ _ _ eq_refl Hl) as [Hall _].
    rewrite (Hall k2 p2) in Hl2; [done|by apply order_elem|done].
  - destruct (Hsome eq_refl) as [_ He]. rewrite (He k p) in Hx; [done|]. by apply order_elem.
Qed.
End eviction.

(** ** Attempts in progress

    Requests begin an attempt, may mark it failed, and end it; requests of any number of
    clients interleave, and the clock moves between their steps. *)
Record limState := mkLimState {
  ls_lim : loginLimiter;
  ls_now : Z;
  ls_live : list attempt;   (* begun and not ended *)
  ls_bad : list nat;        (* the records of the attempts that ended as failures *)
  ls_log : list (nat * Z);  (* every attempt begun: its record and when, the latest first *)
}.
Inductive limStep : limState → limState → Prop :=
| lim_tick l t live bad log d : limStep (mkLimState l t live bad log) (mkLimState l (t + d) live bad log)
| lim_begin l t live bad log ip a l' :
    begin ip t l = (Some a, l') → limStep (mkLimState l t live bad log) (mkLimState l' t (a :: live) bad ((at_rec a, t) :: log))
| lim_refuse l t live bad log ip l' :
    begin ip t l = (None, l') → limStep (mkLimState l t live bad log) (mkLimState l' t live bad log)
| lim_locked l t live bad log ip :
    limStep (mkLimState l t live bad log) (mkLimState (locked ip t l).2 t live bad log)
| lim_fail l t live1 a live2 bad log :
    limStep (mkLimState l t (live1 ++ a :: live2) bad log) (mkLimState l t (live1 ++ fail a :: live2) bad log)
| lim_end l t live1 a live2 bad log :
    limStep (mkLimState l t (live1 ++ a :: live2) bad log)
      (mkLimState (endAttempt a l) t (live1 ++ live2) (if at_failed a then at_rec a :: bad else bad) log).

Definition uses (p : nat) (l : list nat) : nat := countWhere (Nat.eqb p) l.
(** The attempts counted in record [p]: in progress or failed. *)
Definition charged (s : limState) (p : nat) : nat :=
  (uses p (map at_rec (ls_live s)) + uses p (ls_bad s))%nat.

(** When the first attempt counted in record [p] was begun. *)
Fixpoint firstBegun (p : nat) (log : list (nat * Z)) : option Z :=
  match log with
  | [] => None
  | (q, t) :: rest =>
    match firstBegun p rest with
    | Some t0 => Some t0
    | None => if (p =? q)%nat then Some t else None
    end
  end.

Record limInv (s : limState) : Prop := {
  li_alloc : ∀ p, is_Some (recs (ls_lim s) !! p) → (p < fresh (ls_lim s))%nat;
  li_table : ∀ k p, fails (ls_lim s) !! k = Some p → is_Some (recs (ls_lim s) !! p);
  li_size : (size (fails (ls_lim s)) ≤ maxTrackedClients)%nat;
  li_free : ∀ p, recs (ls_lim s) !! p = None → charged s p = 0%nat;
  li_count : ∀ p r, recs (ls_lim s) !! p = Some r → fr_count r = Z.of_nat (charged s p) ∧ fr_count r ≤ loginFailures;
}.

Lemma uses_cons p q l : uses p (q :: l) = ((if (p =? q)%nat then 1 else 0) + uses p l)%nat.
Proof. unfold uses, countWhere; cbn. by destruct (p =? q)%nat. Qed.
Lemma uses_app p l1 l2 : uses p (l1 ++ l2) = (uses p l1 + uses p l2)%nat.
Proof. unfold uses, countWhere. by rewrite List.filter_app, length_app. Qed.

(** What looking up or creating a record does to the heap and the table. *)
Lemma recordLocked_spec key now create l rec l'
    (Hrange : ∀ m : gmap string nat, rangeOrder m ≡ₚ map_to_list m)
    (Hsz : (size (fails l) ≤ maxTrackedClients)%nat) :
  recordLocked key now create l = (rec, l') →
  (size (fails l') ≤ maxTrackedClients)%nat ∧
  ((recs l' = recs l ∧ fresh l' = fresh l ∧ (∀ k p, fails l' !! k = Some p → fails l !! k = Some p)
    ∧ (∀ p, rec = Some p → fails l !! key = Some p))
   ∨ (rec = Some (fresh l) ∧ recs l' = <[fresh l := mkFailRecord 0 now]> (recs l) ∧ fresh l' = S (fresh l)
      ∧ (∀ k p, fails l' !! k = Some p → p = fresh l ∨ fails l !! k = Some p))).
Proof.
  unfold recordLocked. intros Heq.
  assert (Hcase : ∃ l1, recs l1 = recs l ∧ fresh l1 = fresh l ∧ fails l1 ⊆ fails l ∧
    ((∃ p, fails l !! key = Some p ∧ rec = Some p ∧ l' = l1) ∨
     (rec = None ∧ l' = l1) ∨
     (rec = Some (fresh l1) ∧ ∃ l2, l2 = (if (maxTrackedClients <=? size (fails l1))%nat then evictLocked now l1 else l1)
       ∧ l' = mkLimiter (<[key := fresh l2]> (fails l2)) (<[fresh l2 := mkFailRecord 0 now]> (recs l2)) (S (fresh l2))))).
  { destruct (fails l !! key) as [p|] eqn:Hk; [destruct (expired now (getRec l p))|]; destruct create; injection Heq as <- <-;
      [exists (dropKey key l)|exists (dropKey key l)|exists l|exists l|exists l|exists l];
      (split_and!; [done|done|first [apply delete_subseteq|done]|]); eauto 10.
    - right. right. split; [|eauto]. case_match; [by rewrite (proj2 (evictLocked_heap _ _))|done].
    - right. right. split; [|eauto]. case_match; [by rewrite (proj2 (evictLocked_heap _ _))|done]. }
  destruct Hcase as (l1 & Hr & Hf & Hsub & Hcase). pose proof (map_subseteq_size _ _ Hsub) as Hs1.
  assert (Hlk : ∀ k p, fails l1 !! k = Some p → fails l !! k = Some p)
    by (intros k p; by apply map_subseteq_spec).
  destruct Hcase as [(p & Hk & -> & ->)|[[-> ->]|(-> & l2 & Hl2 & ->)]]; cbn.
  1,2: split; [lia|]; left; split_and!; naive_solver.
  assert (Hh : recs l2 = recs l ∧ fresh l2 = fresh l ∧ (size (fails l2) < maxTrackedClients)%nat
    ∧ ∀ k p, fails l2 !! k = Some p → fails l !! k = Some p).
  { destruct (maxTrackedClients <=? size (fails l1))%nat eqn:Em; subst l2; bool_hyps.
    - destruct (evictLocked_heap now l1) as [-> ->]. split_and!; [done|done|apply evictLocked_size; [done|lia]|].
      intros k p Hk%evictLocked_lookup; auto.
    - split_and!; auto; lia. }
  destruct Hh as (-> & -> & Hs2 & Hl). split.
  - rewrite map_size_insert. destruct (fails l2 !! key); cbn; lia.
  - right. rewrite Hf. split_and!; [done..|].
    intros k p [[_ <-]|[_ Hk]]%lookup_insert_Some; auto.
Qed.
Lemma limInv_record s key create rec l'
    (Hrange : ∀ m : gmap string nat, rangeOrder m ≡ₚ map_to_list m) :
  limInv s → recordLocked key (ls_now s) create (ls_lim s) = (rec, l') →
  limInv (mkLimState l' (ls_now s) (ls_live s) (ls_bad s) (ls_log s))
  ∧ (∀ p, rec = Some p → is_Some (recs l' !! p)).
Proof.
  destruct s as [l t live bad log]. intros [Ha Ht Hs Hf Hc] Hr. cbn in *.
  apply recordLocked_spec in Hr as [Hsz [(Er & Ef & Hk & Hp)|(-> & Er & Ef & Hk)]]; [| |done|done].
  - split; [split; cbn; rewrite ?Er, ?Ef; eauto|]. intros p ->. rewrite Er. eauto.
  - assert (Hnew : recs l !! fresh l = None).
    { apply eq_None_not_Some. intros Hx%Ha. lia. }
    split; [split; cbn; rewrite ?Er, ?Ef; [| |done| |]|].
    + intros p [r [[<- _]|[_ Hr]]%lookup_insert_Some]; [lia|]. apply Nat.lt_lt_succ_r, Ha. eauto.
    + intros k p [->|Hkp]%Hk; [rewrite lookup_insert_eq; eauto|].
      apply lookup_insert_is_Some. destruct (decide (fresh l = p)); eauto.
    + intros p [Hn Hne]%lookup_insert_None. by apply Hf.
    + intros p r [[<- <-]|[_ Hr]]%lookup_insert_Some; [|by apply Hc]. cbn.
      unfold charged in Hf |- *. cbn in *. rewrite Hf by done. unfold loginFailures. lia.
    + intros p ?; simplify_eq. rewrite Er, lookup_insert_eq. eauto.
Qed.

(** Charging one more attempt to a record, and giving one back. *)
Lemma limInv_setRec s p r n live bad log :
  limInv s → recs (ls_lim s) !! p = Some r → fr_count r + n ≤ loginFailures →
  (∀ q, Z.of_nat (charged (mkLimState (ls_lim s) (ls_now s) live bad log) q)
        = Z.of_nat (charged s q) + if (q =? p)%nat then n else 0) →
  limInv (mkLimState (setRec p (mkFailRecord (fr_count r + n) (fr_first r)) (ls_lim s)) (ls_now s) live bad log).
Proof.
  intros [Ha Ht Hs Hf Hc] Hp Hn Hch. split; cbn.
  - intros q [x [[<- _]|[_ Hr]]%lookup_insert_Some]; eauto.
  - intros k q Hk. apply lookup_insert_is_Some. destruct (decide (p = q)); eauto.
  - done.
  - intros q [Hq Hne]%lookup_insert_None. specialize (Hch q). rewrite (Hf q Hq) in Hch.
    destruct (q =? p)%nat eqn:E; bool_hyps; [congruence|]. unfold charged in *; cbn in *. lia.
  - intros q x [[<- <-]|[Hne Hq]]%lookup_insert_Some; cbn.
    + specialize (Hch p). rewrite Nat.eqb_refl in Hch. destruct (Hc p r Hp) as [Hcc _].
      unfold charged in *; cbn in *. lia.
    + specialize (Hch q). destruct (q =? p)%nat eqn:E; bool_hyps; [congruence|].
      destruct (Hc q x Hq). unfold charged in *; cbn in *. lia.
Qed.
Lemma limInv_dropKey s k :
  limInv s → limInv (mkLimState (dropKey k (ls_lim s)) (ls_now s) (ls_live s) (ls_bad s) (ls_log s)).
Proof.
  intros [Ha Ht Hs Hf Hc]. split; cbn; eauto.
  - intros k' p [_ Hk]%lookup_delete_Some; eauto.
  - rewrite map_size_delete. destruct (fails (ls_lim s) !! k); cbn; lia.
Qed.

Lemma limInv_step (Hrange : ∀ m : gmap string nat, rangeOrder m ≡ₚ map_to_list m) s s' :
  limStep s s' → limInv s → limInv s'.
Proof.
  destruct 1 as [l t live bad log d|l t live bad log ip a l' Hb|l t live bad log ip l' Hb|l t live bad log ip
                |l t live1 a live2 bad log|l t live1 a live2 bad log]; intros Hi.
  - destruct Hi; split; done.
  - unfold begin in Hb. destruct (recordLocked _ _ _ _) as [[p|] l1] eqn:Er; [|done].
    apply (limInv_record (mkLimState l t live bad log)) in Er as [Hi1 Hp]; [|done..].
    destruct (lockedOut _) eqn:El; [done|]. simplify_eq. destruct (Hp p eq_refl) as [r Hr].
    unfold getRec in *. rewrite Hr in *. cbn in *.
    eapply (limInv_setRec (mkLimState l1 t live bad log) p r 1); [done..| |].
    + unfold lockedOut in El. bool_hyps. lia.
    + intros q. unfold charged. cbn. rewrite uses_cons. destruct (q =? p)%nat; lia.
  - unfold begin in Hb. destruct (recordLocked _ _ _ _) as [rec l1] eqn:Er.
    apply (limInv_record (mkLimState l t live bad log)) in Er as [Hi1 Hp]; [|done..].
    destruct rec as [p|]; [destruct (lockedOut _)|]; simplify_eq; done.
  - unfold locked. destruct (recordLocked _ _ _ _) as [rec l1] eqn:Er.
    by apply (limInv_record (mkLimState l t live bad log)) in Er as [Hi1 Hp].
  - assert (Hch : ∀ q, charged (mkLimState l t (live1 ++ fail a :: live2) bad log) q
               = charged (mkLimState l t (live1 ++ a :: live2) bad log) q).
    { intros q. unfold charged; cbn. by rewrite !map_app. }
    destruct Hi as [Ha Ht Hs Hf Hc]; split; cbn in *; [done..| |]; intros q; rewrite Hch; eauto.
  - unfold endAttempt. destruct (at_failed a).
    + assert (Hch : ∀ q, charged (mkLimState l t (live1 ++ live2) (at_rec a :: bad) log) q
               = charged (mkLimState l t (live1 ++ a :: live2) bad log) q).
      { intros q. unfold charged; cbn. rewrite !map_app, !uses_app, map_cons, !uses_cons. lia. }
      destruct Hi as [Ha Ht Hs Hf Hc]; split; cbn in *; [done..| |]; intros q; rewrite Hch; eauto.
    + destruct (recs l !! at_rec a) as [r|] eqn:Hr.
      2: { pose proof (li_free _ Hi _ Hr) as Hz. unfold charged in Hz; cbn in Hz.
           rewrite map_app, uses_app, map_cons, uses_cons, Nat.eqb_refl in Hz. lia. }
      assert (Hi' : limInv (mkLimState (setRec (at_rec a) (mkFailRecord (fr_count r + -1) (fr_first r)) l) t
                             (live1 ++ live2) bad log)).
      { apply (limInv_setRec (mkLimState l t (live1 ++ a :: live2) bad log)); [done..| |].
        - pose proof (li_count _ Hi _ _ Hr). lia.
        - intros q. unfold charged; cbn. rewrite !map_app, !uses_app, map_cons, !uses_cons.
          destruct (q =? at_rec a)%nat; lia. }
      unfold getRec. rewrite Hr. cbn. change (fr_count r + -1) with (fr_count r - 1) in Hi'.
      destruct (_ && _); [by apply (limInv_dropKey _ (at_key a)) in Hi'|done].
Qed.
Lemma limInv_init t : limInv (mkLimState newLoginLimiter t [] [] []).
Proof.
  split; cbn; try done.
  - intros p [r Hr]. by rewrite lookup_empty in Hr.
  - rewrite map_size_empty. lia.
Qed.
Lemma limInv_reachable (Hrange : ∀ m : gmap string nat, rangeOrder m ≡ₚ map_to_list m) t s :
  rtc limStep (mkLimState newLoginLimiter t [] [] []) s → limInv s.
Proof.
  intros Hr. pose proof (limInv_init t) as Hi. induction Hr as [|s1 s2 s3 Hst _ IH]; [done|].
  apply IH. by eapply limInv_step.
Qed.

(** However the attempts of any number of clients interleave, and however the clock
    moves: the attempts counted in one failure record, in progress and failed together,
    never exceed five, and the limiter never tracks more than 10,000 clients. *)
Theorem limiter_bounds (Hrange : ∀ m : gmap string nat, rangeOrder m ≡ₚ map_to_list m)
    (t : Z) (s : limState) (Hreach : rtc limStep (mkLimState newLoginLimiter t [] [] []) s) :
  (∀ p, Z.of_nat (charged s p) ≤ loginFailures) ∧ (size (fails (ls_lim s)) ≤ maxTrackedClients)%nat.
Proof.
  apply limInv_reachable in Hreach as [_ _ Hs Hf Hc]; [|done]. split; [|done]. intros p.
  destruct (recs (ls_lim s) !! p) as [r|] eqn:Hp.
  - destruct (Hc p r Hp). lia.
  - rewrite (Hf p Hp). unfold loginFailures. lia.
Qed.

(** A record's time is the one its first attempt was begun. *)
Definition logInv (s : limState) : Prop :=
  (∀ p r, recs (ls_lim s) !! p = Some r → firstBegun p (ls_log s) = Some (fr_first r))
  ∧ (∀ p, (fresh (ls_lim s) ≤ p)%nat → firstBegun p (ls_log s) = None).
Lemma logInv_same l l' t t' live live' bad bad' log :
  recs l' = recs l → fresh l' = fresh l →
  logInv (mkLimState l t live bad log) → logInv (mkLimState l' t' live' bad' log).
Proof. unfold logInv; cbn. by intros -> ->. Qed.
Lemma logInv_setRec l t live bad log p r n live' bad' :
  recs l !! p = Some r → logInv (mkLimState l t live bad log) →
  logInv (mkLimState (setRec p (mkFailRecord n (fr_first r)) l) t live' bad' log).
Proof.
  intros Hp [Hf Hn]. split; cbn in *; [|done]. intros q x [[<- <-]|[_ Hq]]%lookup_insert_Some; [|by apply Hf].
  cbn. by apply Hf.
Qed.
Lemma firstBegun_more p q t log t0 : firstBegun p log = Some t0 → firstBegun p ((q, t) :: log) = Some t0.
Proof. cbn. by intros ->. Qed.

(** A refused attempt creates no record, and an accepted one is counted in a record that
    was begun before or is begun now. *)
Lemma logInv_begin (Hrange : ∀ m : gmap string nat, rangeOrder m ≡ₚ map_to_list m) l t live bad log ip a l' :
  limInv (mkLimState l t live bad log) → logInv (mkLimState l t live bad log) →
  begin ip t l = (a, l') →
  logInv (mkLimState l' t live bad (match a with Some a => (at_rec a, t) :: log | None => log end)).
Proof.
  intros [Ha Ht Hs _ _] [Hf Hn] Hb. unfold begin in Hb. cbn in *. destruct (recordLocked _ _ _ _) as [rec l1] eqn:Er.
  apply recordLocked_spec in Er as [_ [(Er & Ef & Hk & Hp)|(-> & Er & Ef & Hk)]]; [| |done..].
  - destruct rec as [p|]; [|simplify_eq; split; cbn; by rewrite ?Er, ?Ef].
    destruct (Ht _ _ (Hp p eq_refl)) as [r Hr]. unfold getRec in Hb. rewrite Er, Hr in Hb. cbn in Hb.
    pose proof (Hf p r Hr) as H0. assert (Hlt : (p < fresh l)%nat) by eauto.
    destruct (lockedOut r); simplify_eq; split; cbn; rewrite ?Er, ?Ef; [done..| |].
    + intros q x [[<- <-]|[_ Hq]]%lookup_insert_Some; cbn; [by rewrite H0|by rewrite (Hf q x Hq)].
    + intros q Hq. rewrite Hn by done. destruct (Nat.eqb_spec q p); [lia|done].
  - unfold getRec in Hb. rewrite Er, lookup_insert_eq in Hb. cbn in Hb. simplify_eq. split; cbn; rewrite ?Er, ?Ef.
    + intros q x [[<- <-]|[Hne [[<- _]|[_ Hq]]%lookup_insert_Some]]%lookup_insert_Some; [|done|].
      * by rewrite Hn, Nat.eqb_refl.
      * by rewrite (Hf q x Hq).
    + intros q Hq. rewrite Hn by lia. destruct (Nat.eqb_spec q (fresh l)); [lia|done].
Qed.
Lemma logInv_step (Hrange : ∀ m : gmap string nat, rangeOrder m ≡ₚ map_to_list m) s s' :
  limStep s s' → limInv s → logInv s → logInv s'.
Proof.
  destruct 1 as [l t live bad log d|l t live bad log ip a l' Hb|l t live bad log ip l' Hb|l t live bad log ip
                |l t live1 a live2 bad log|l t live1 a live2 bad log]; intros Hi Hl.
  - by eapply logInv_same.
  - by pose proof (logInv_begin Hrange _ _ _ _ _ _ _ _ Hi Hl Hb) as [? ?].
  - by pose proof (logInv_begin Hrange _ _ _ _ _ _ _ _ Hi Hl Hb) as [? ?].
  - eapply logInv_same, Hl; unfold locked, recordLocked; repeat case_match; by simplify_eq.
  - by eapply logInv_same.
  - unfold endAttempt. destruct (at_failed a); [by eapply logInv_same|].
    destruct (recs l !! at_rec a) as [r|] eqn:Hr.
    2: { pose proof (li_free _ Hi _ Hr) as Hz. unfold charged in Hz; cbn in Hz.
         rewrite map_app, uses_app, map_cons, uses_cons, Nat.eqb_refl in Hz. lia. }
    unfold getRec. rewrite Hr. cbn. eapply (logInv_setRec _ _ _ _ _ _ _ (fr_count r - 1) (live1 ++ live2) bad) in Hl; [|done].
    destruct (_ && _); [|done]. by eapply logInv_same, Hl.
Qed.
Lemma logInv_reachable (Hrange : ∀ m : gmap string nat, rangeOrder m ≡ₚ map_to_list m) t s :
  rtc limStep (mkLimState newLoginLimiter t [] [] []) s → logInv s.
Proof.
  intros Hr. pose proof (limInv_init t) as Hi.
  assert (Hl : logInv (mkLimState newLoginLimiter t [] [] [])) by (split; cbn; [intros p r; by rewrite lookup_empty|done]).
  induction Hr as [|s1 s2 s3 Hst _ IH]; [done|]. apply IH; [by eapply limInv_step|by eapply logInv_step].
Qed.

(** The client's record at [p] counts five attempts, in progress or failed, the first of
    them begun at most five minutes before [now]. *)
Definition usedUp (s : limState) (ip : string) (now : Z) : Prop :=
  ∃ p t0, fails (ls_lim s) !! clientKey ip = Some p ∧ charged s p = 5%nat
    ∧ firstBegun p (ls_log s) = Some t0 ∧ timeSub now t0 ≤ minutes 5.


(** Addresses of one /64 network share one record: an IPv6 client cannot escape its
    lockout by changing the lower half of its address. *)
Lemma clientKey_same_network (ip1 ip2 : string) (n1 n2 : Z) (z1 z2 : string) :
  ParseAddr ip1 = Some (Addr6 n1 z1) → ParseAddr ip2 = Some (Addr6 n2 z2) →
  Z.shiftr n1 64 = Z.shiftr n2 64 → Z.shiftr n1 32 ≠ 65535 → Z.shiftr n2 32 ≠ 65535 →
  clientKey ip1 = clientKey ip2.
Proof.
  intros H1 H2 Hs Hm1 Hm2. unfold clientKey. rewrite H1, H2. unfold Unmap.
  destruct (Z.eqb_spec (Z.shiftr n1 32) 65535); [done|].
  destruct (Z.eqb_spec (Z.shiftr n2 32) 65535); [done|].
  unfold Is6, maskAddr. change (128 - 64) with 64. by rewrite Hs.
Qed.
End limiter.

(** ** Witnesses *)
Definition demoLimiter : loginLimiter :=
  mkLimiter (<["10.0.0.1" := 0%nat]> (<["10.0.0.2" := 1%nat]> ∅))
    (<[0%nat := mkFailRecord 5 (seconds 10)]> (<[1%nat := mkFailRecord 1 (seconds 20)]> ∅)) 2.

Lemma eviction_keeps_locked_out_witness :
  fails (@evictLocked demoLib (seconds 60) demoLimiter) !! "10.0.0.1"%string = Some 0%nat.
Proof.
  apply (@eviction_keeps_locked_out demoLib (λ m, reflexivity _) (seconds 60) demoLimiter
           "10.0.0.1" "10.0.0.2" 0 1); vm_compute; reflexivity.
Defined.
Lemma limiter_bounds_witness :
  ∃ s a, ls_live s = [a] ∧ (∀ p, Z.of_nat (charged s p) ≤ loginFailures)
    ∧ (size (fails (ls_lim s)) ≤ maxTrackedClients)%nat.
Proof.
  destruct (@begin demoLib "10.0.0.1" 0 newLoginLimiter) as [[a|] l] eqn:E; [|by vm_compute in E].
  exists (mkLimState l 0 [a] [] [(at_rec a, 0)]), a. split; [reflexivity|].
  apply (@limiter_bounds demoLib (λ m, reflexivity _) 0). apply rtc_once. by eapply lim_begin.
Defined.
Definition demoAttempt (s : limState) : limState :=
  match @begin demoLib "10.0.0.1" (ls_now s) (ls_lim s) with
  | (Some a, l) => mkLimState l (ls_now s) (a :: ls_live s) (ls_bad s) ((at_rec a, ls_now s) :: ls_log s)
  | (None, _) => s
  end.
Definition demoAttempts (n : nat) : limState := Nat.iter n demoAttempt (mkLimState newLoginLimiter 0 [] [] []).
Lemma demoAttempts_reachable n : rtc (@limStep demoLib) (mkLimState newLoginLimiter 0 [] [] []) (demoAttempts n).
Proof.
  induction n as [|n IH]; [apply rtc_refl|]. change (demoAttempts (S n)) with (demoAttempt (demoAttempts n)).
  destruct (demoAttempts n) as [l t live bad log]. unfold demoAttempt. cbn [ls_lim ls_now ls_live ls_bad ls_log].
  destruct (@begin demoLib "10.0.0.1" t l) as [[a|] l'] eqn:E; [|done]. eapply rtc_r; [exact IH|]. by apply lim_begin with "10.0.0.1"%string.
Qed.
