(* ===== verification/TailBuffer.v ===== *)
(** * Output buffers of script runs ([internal/hub/scripts.go]: [tailBuffer], [completeUTF8])

    The ring buffer that keeps the newest output of one system, refined to its
    specification "the last [max] bytes of everything written", and the function that cuts
    a chunk before a character that is still incomplete. *)
From Stdlib Require Import ZArith Lia.
From S2P Require Import Prelude GoStrings.
From stdpp Require Import base list.

Record tailBuffer := mkTail {
  tb_max : nat;
  tb_buf : list Z;      (* grows to [tb_max], then wraps around *)
  tb_start : nat;       (* the oldest byte once the buffer is full *)
  tb_dropped : bool;    (* older output was discarded *)
}.

(** [copy(buf[start:], p)]: the number of bytes copied and the new buffer. *)
Definition copyAt (buf : list Z) (start : nat) (p : list Z) : nat * list Z :=
  let n := Nat.min (length buf - start) (length p) in
  (n, take start buf ++ take n p ++ drop (start + n) buf).

(** The loop that overwrites the oldest bytes of a full ring; each round copies at least
    one byte, so the length of the data is enough fuel. *)
Fixpoint overwrite (fuel : nat) (p : list Z) (t : tailBuffer) : tailBuffer :=
  match fuel, p with
  | S f, _ :: _ =>
    let '(n, buf') := copyAt (tb_buf t) (tb_start t) p in
    overwrite f (drop n p) (mkTail (tb_max t) buf' ((tb_start t + n) mod tb_max t) true)
  | _, _ => t
  end.
Definition Write (p : list Z) (t : tailBuffer) : tailBuffer :=
  if (tb_max t <=? length p)%nat then
    mkTail (tb_max t) (drop (length p - tb_max t) p) 0
      (tb_dropped t || (0 <? length (tb_buf t))%nat || (tb_max t <? length p)%nat)
  else
    let n := Nat.min (tb_max t - length (tb_buf t)) (length p) in
    let t' := mkTail (tb_max t) (tb_buf t ++ take n p) (tb_start t) (tb_dropped t) in
    overwrite (length p) (drop n p) t'.

(** The kept bytes, oldest first. *)
Definition ringBytes (t : tailBuffer) : list Z := drop (tb_start t) (tb_buf t) ++ take (tb_start t) (tb_buf t).
(** From the first character boundary among the first [fuel] bytes. *)
Fixpoint fromRuneStart (fuel : nat) (out : list Z) : option (list Z) :=
  match fuel, out with
  | S f, b :: rest => if RuneStart b then Some out else fromRuneStart f rest
  | _, _ => None
  end.
Definition Bytes (t : tailBuffer) : list Z :=
  let out := ringBytes t in
  if tb_dropped t then default out (fromRuneStart 4 out) else out.

Definition newTail (max : nat) : tailBuffer := mkTail max [] 0 false.

(** [completeUTF8], the search for the start of the last character; [i + 1] bytes are left
    to look at, [k] of at most four were looked at. *)
Fixpoint utf8Scan (k : nat) (i : nat) (b : list Z) : nat :=
  match k, i with
  | S k', S i' =>
    match b !! i' with
    | Some x => if RuneStart x then (if FullRune (drop i' b) then length b else i')
                else utf8Scan k' i' b
    | None => length b
    end
  | _, _ => length b
  end.
Definition completeUTF8 (b : list Z) : nat := utf8Scan 4 (length b) b.

(** ** The specification: the last [max] bytes *)
Definition lastN {A} (n : nat) (l : list A) : list A := drop (length l - n) l.
Lemma lastN_all {A} n (l : list A) : (length l ≤ n)%nat → lastN n l = l.
Proof. intros Hn. unfold lastN. by replace (length l - n)%nat with 0%nat by lia. Qed.
Lemma length_lastN {A} n (l : list A) : length (lastN n l) = Nat.min n (length l).
Proof. unfold lastN. rewrite length_drop. lia. Qed.
Lemma lastN_lastN_app {A} n (l k : list A) : lastN n (lastN n l ++ k) = lastN n (l ++ k).
Proof.
  unfold lastN. rewrite !length_app, length_drop.
  destruct (decide (length l ≤ n)) as [Hl|Hl].
  - by replace (length l - n)%nat with 0%nat by lia; cbn; rewrite Nat.sub_0_r.
  - destruct (decide (length k ≤ n)).
    + rewrite !drop_app_le by (rewrite ?length_drop; lia). rewrite drop_drop. do 2 f_equal. lia.
    + rewrite !drop_app_ge by (rewrite ?length_drop; lia). rewrite length_drop. f_equal. lia.
Qed.
Lemma lastN_app_long {A} n (l k : list A) : (n ≤ length k)%nat → lastN n (l ++ k) = lastN n k.
Proof.
  intros Hk. unfold lastN. rewrite length_app, drop_app_ge by lia. f_equal. lia.
Qed.

(** The ring [t] implements the history [h] of everything written. *)
Record ring_of (t : tailBuffer) (h : list Z) : Prop := {
  rg_max : (0 < tb_max t)%nat;
  rg_start : (tb_start t < tb_max t)%nat;
  rg_grow : (length (tb_buf t) < tb_max t)%nat → tb_start t = 0%nat;
  rg_bytes : ringBytes t = lastN (tb_max t) h;
  rg_dropped : tb_dropped t = (tb_max t <? length h)%nat;
}.

Lemma length_ringBytes t : length (ringBytes t) = length (tb_buf t).
Proof. unfold ringBytes. rewrite length_app, length_drop, length_take. lia. Qed.
Lemma ring_length t h : ring_of t h → length (tb_buf t) = Nat.min (tb_max t) (length h).
Proof. intros Hr. rewrite <-length_ringBytes, (rg_bytes _ _ Hr). apply length_lastN. Qed.
Lemma ring_newTail max : (0 < max)%nat → ring_of (newTail max) [].
Proof. intros Hm. split; cbn; auto. Qed.

(** One round of the loop: [n] bytes of [p] enter a full ring. *)
Lemma copyAt_ring buf start p n buf' max :
  length buf = max → (start < max)%nat → copyAt buf start p = (n, buf') →
  let start' := ((start + n) mod max)%nat in
  length buf' = max ∧ (n ≤ length p)%nat ∧ (p ≠ [] → (0 < n)%nat) ∧ (start' < max)%nat ∧
  drop start' buf' ++ take start' buf' = lastN max ((drop start buf ++ take start buf) ++ take n p).
Proof.
  intros Hlen Hs Hc start'. unfold copyAt in Hc. injection Hc as Hn Hb. rewrite Hn in Hb.
  assert (Hnp : (n ≤ length p)%nat) by lia.
  assert (Hns : (start + n ≤ max)%nat) by lia.
  assert (Hl3 : length (take n p) = n) by (rewrite length_take; lia).
  assert (HR : lastN max ((drop start buf ++ take start buf) ++ take n p)
               = drop (start + n) buf ++ take start buf ++ take n p).
  { unfold lastN. rewrite !length_app, length_drop, length_take, Hl3.
    replace (length buf - start + start `min` length buf + n - max)%nat with n by lia.
    rewrite <-app_assoc, drop_app_le by (rewrite length_drop; lia). by rewrite drop_drop. }
  split; [|split; [done|split; [|split]]].
  - subst buf'. rewrite !length_app, !length_take, length_drop. lia.
  - intros Hp. destruct p; [done|]. cbn in *. lia.
  - apply Nat.mod_upper_bound. lia.
  - unfold start'. rewrite HR. destruct (decide (start + n = max)%nat) as [He|He].
    + rewrite He, Nat.Div0.mod_same, drop_0, take_0, app_nil_r. subst buf'.
      by rewrite He, <-Hlen, drop_all, app_nil_r.
    + rewrite Nat.mod_small by lia. subst buf'.
      assert (Hlt : length (take start buf ++ take n p) = (start + n)%nat)
        by (rewrite length_app, length_take; lia).
      by rewrite app_assoc, drop_app_length', take_app_length' by done.
Qed.

Lemma overwrite_ring fuel p t h :
  (length p ≤ fuel)%nat → ring_of t h → length (tb_buf t) = tb_max t →
  ring_of (overwrite fuel p t) (h ++ p) ∧ tb_max (overwrite fuel p t) = tb_max t.
Proof.
  revert p t h. induction fuel as [|f IH]; intros p t h Hf Hr Hfull.
  - destruct p; [|cbn in Hf; lia]. by rewrite app_nil_r.
  - destruct p as [|x p]; [by rewrite app_nil_r|]. cbn [overwrite].
    destruct (copyAt _ _ _) as [n buf'] eqn:Hc.
    apply (copyAt_ring _ _ _ _ _ (tb_max t)) in Hc as (Hl & Hn & Hpos & Hs & Hb); [|done|apply Hr].
    specialize (Hpos ltac:(done)).
    set (t' := mkTail (tb_max t) buf' ((tb_start t + n) mod tb_max t) true).
    assert (Hr' : ring_of t' (h ++ take n (x :: p))).
    { pose proof (ring_length _ _ Hr). split; cbn.
      - apply Hr.
      - done.
      - lia.
      - unfold ringBytes; cbn. rewrite Hb. fold (ringBytes t). rewrite (rg_bytes _ _ Hr). apply lastN_lastN_app.
      - symmetry. apply Nat.ltb_lt. rewrite length_app, length_take. lia. }
    replace (h ++ x :: p) with ((h ++ take n (x :: p)) ++ drop n (x :: p))
      by by rewrite <-app_assoc, take_drop.
    apply (IH (drop n (x :: p)) t'); [|done|done]. rewrite length_drop. cbn in *. lia.
Qed.

Lemma Write_ring (t : tailBuffer) (h p : list Z) (Hr : ring_of t h) :
  ring_of (Write p t) (h ++ p) ∧ tb_max (Write p t) = tb_max t.
Proof.
  pose proof (ring_length _ _ Hr) as Hlen. pose proof (rg_max _ _ Hr) as Hm.
  unfold Write. destruct (tb_max t <=? length p)%nat eqn:E; bool_hyps.
  - split; [|done]. split; cbn [tb_max tb_buf tb_start tb_dropped].
    + done.
    + done.
    + done.
    + unfold ringBytes; cbn. by rewrite app_nil_r, lastN_app_long by done.
    + rewrite (rg_dropped _ _ Hr), length_app.
      apply eq_true_iff_eq. rewrite !orb_true_iff, !Nat.ltb_lt. lia.
  - set (n := Nat.min (tb_max t - length (tb_buf t)) (length p)).
    set (t' := mkTail (tb_max t) (tb_buf t ++ take n p) (tb_start t) (tb_dropped t)).
    assert (Hr' : ring_of t' (h ++ take n p)).
    { destruct (decide (n = 0%nat)) as [Hn|Hn].
      - assert (t' = t) as ->.
        { unfold t'. rewrite Hn, take_0, app_nil_r. by destruct t. }
        by rewrite Hn, take_0, app_nil_r.
      - assert (Hlt : (length (tb_buf t) < tb_max t)%nat) by lia. pose proof (rg_grow _ _ Hr Hlt) as Hs0.
        unfold t'. split; cbn [tb_max tb_buf tb_start tb_dropped]; [done|apply Hr|done| |].
        + unfold ringBytes; cbn. pose proof (rg_bytes _ _ Hr) as Hb. unfold ringBytes in Hb.
          rewrite Hs0, drop_0, take_0, app_nil_r in *. rewrite Hb, !lastN_all; [done|..];
            rewrite ?length_app, ?length_take; lia.
        + rewrite (rg_dropped _ _ Hr), length_app, length_take. apply eq_true_iff_eq. rewrite !Nat.ltb_lt. lia. }
    assert (Hh : h ++ p = (h ++ take n p) ++ drop n p) by by rewrite <-app_assoc, take_drop.
    destruct (decide (length p ≤ n)) as [Hle|Hgt].
    + rewrite Hh, drop_ge, app_nil_r by lia. destruct (length p); done.
    + rewrite Hh. change (tb_max t) with (tb_max t'). apply overwrite_ring; [rewrite length_drop; lia|done|].
      cbn. rewrite length_app, length_take. lia.
Qed.

(** Any sequence of writes. *)
Definition writes (ps : list (list Z)) (t : tailBuffer) : tailBuffer := fold_left (λ t p, Write p t) ps t.
Lemma writes_ring ps t h : ring_of t h →
  ring_of (writes ps t) (h ++ concat ps) ∧ tb_max (writes ps t) = tb_max t.
Proof.
  revert t h. induction ps as [|p ps IH]; intros t h Hr; cbn; [by rewrite app_nil_r|].
  destruct (Write_ring t h p Hr) as [Hr' Hm]. rewrite app_assoc, <-Hm. by apply IH.
Qed.

Lemma fromRuneStart_suffix fuel out r :
  fromRuneStart fuel out = Some r → ∃ pre, out = pre ++ r ∧ (length pre < fuel)%nat
    ∧ (∃ b, head r = Some b ∧ RuneStart b = true) ∧ Forall (λ b, RuneStart b = false) pre.
Proof.
  revert out. induction fuel as [|f IH]; intros [|b out]; cbn; [done..|].
  destruct (RuneStart b) eqn:E.
  - intros ?; simplify_eq. exists []. cbn. split_and!; [done|lia|eauto|done].
  - intros (pre & -> & Hl & Hh & Hf)%IH. exists (b :: pre). cbn. split_and!; [done|lia|done|by constructor].
Qed.

(** C32. The ring buffer refines its specification: after any sequence of chunks it holds exactly
    the last [max] bytes of the output in order, and [dropped] is set exactly when older
    output was discarded; [Bytes] returns them without at most three bytes of a character
    whose beginning was discarded. *)
Theorem tailBuffer_refines (max : nat) (ps : list (list Z)) (Hmax : (0 < max)%nat) :
  let t := writes ps (newTail max) in
  ringBytes t = lastN max (concat ps)
  ∧ tb_dropped t = (max <? length (concat ps))%nat
  ∧ ∃ pre, lastN max (concat ps) = pre ++ Bytes t ∧ (length pre ≤ 3)%nat
      ∧ Forall (λ b, RuneStart b = false) pre ∧ (tb_dropped t = false → pre = []).
Proof.
  intros t. destruct (writes_ring ps (newTail max) [] (ring_newTail max Hmax)) as [Hr Hm].
  fold t in Hr, Hm. cbn in Hm, Hr. pose proof (rg_bytes _ _ Hr) as Hb. pose proof (rg_dropped _ _ Hr) as Hd.
  rewrite Hm in Hb, Hd. split; [done|split; [done|]]. unfold Bytes. rewrite <-Hb.
  destruct (tb_dropped t); [|exists []; cbn; split_and!; auto with lia].
  destruct (fromRuneStart 4 (ringBytes t)) as [r|] eqn:E; [|exists []; cbn; split_and!; auto with lia].
  apply fromRuneStart_suffix in E as (pre & Hp & Hl & _ & Hf). exists pre. split_and!; [done|lia|done|done].
Qed.

(** ** Incomplete characters *)
Lemma utf8Scan_spec k i b :
  (i ≤ length b)%nat →
  utf8Scan k i b = length b ∨
  (∃ x, b !! utf8Scan k i b = Some x ∧ RuneStart x = true ∧ FullRune (drop (utf8Scan k i b) b) = false
    ∧ (utf8Scan k i b < i)%nat ∧ (i - k ≤ utf8Scan k i b)%nat).
Proof.
  revert i. induction k as [|k IH]; intros i Hi; [by left|]. destruct i as [|i]; [by left|]. cbn.
  destruct (b !! i) as [x|] eqn:E; [|by left].
  destruct (RuneStart x) eqn:Er.
  - destruct (FullRune (drop i b)) eqn:Ef; [by left|]. right. exists x. split_and!; auto; lia.
  - destruct (IH i) as [?|(y & ? & ? & ? & ? & ?)]; [lia|by left|]. right. exists y. split_and!; auto; lia.
Qed.
Lemma runeFirst_le b : ((runeFirst b).1.1 ≤ 4)%nat.
Proof. unfold runeFirst. repeat case_match; cbn; lia. Qed.
Lemma FullRune_four p : (4 ≤ length p)%nat → FullRune p = true.
Proof.
  intros Hl. destruct p as [|b p]; [cbn in Hl; lia|]. unfold FullRune.
  pose proof (runeFirst_le b). destruct (runeFirst b) as [[n lo] hi]. cbn [fst] in *.
  assert ((n <=? length (b :: p))%nat = true) as -> by (apply Nat.leb_le; lia). done.
Qed.
Lemma completeUTF8_le b : (completeUTF8 b ≤ length b)%nat.
Proof.
  unfold completeUTF8. destruct (utf8Scan_spec 4 (length b) b) as [->|(?&?&?&?&?&?)]; lia.
Qed.
(** [completeUTF8] cuts off at most three bytes, and only when they are the beginning of a
    character that is not complete yet. *)
Theorem completeUTF8_spec (b : list Z) :
  (completeUTF8 b ≤ length b)%nat ∧ (length b - completeUTF8 b ≤ 3)%nat ∧
  (completeUTF8 b ≠ length b →
     FullRune (drop (completeUTF8 b) b) = false ∧
     ∃ x, head (drop (completeUTF8 b) b) = Some x ∧ RuneStart x = true).
Proof.
  split; [apply completeUTF8_le|].
  unfold completeUTF8. destruct (utf8Scan_spec 4 (length b) b) as [->|(x & Hx & Hs & Hf & Hlt & Hge)];
    [done|split; [lia|done]|].
  set (n := utf8Scan 4 (length b) b) in *. split.
  - destruct (decide (length b - n ≤ 3)%nat); [done|].
    rewrite FullRune_four in Hf; [done|]. rewrite length_drop. lia.
  - intros _. split; [done|]. exists x. split; [|done]. by rewrite head_lookup, lookup_drop, Nat.add_0_r.
Qed.

(** ** Witnesses *)
Lemma tailBuffer_refines_witness :
  ringBytes (writes [[1; 2; 3]%Z; [4; 5]%Z; [6]%Z] (newTail 4)) = [3; 4; 5; 6]%Z.
Proof.
  destruct (tailBuffer_refines 4 [[1; 2; 3]%Z; [4; 5]%Z; [6]%Z]) as [Hb _]; [lia|]. exact Hb.
Defined.
Example completeUTF8_split : completeUTF8 [104; 226; 130]%Z = 1%nat ∧ completeUTF8 [104; 226; 130; 172]%Z = 4%nat.
Proof. by vm_compute. Qed.
