(* ===== verification/Update.v ===== *)
(** * Signed agent updates ([internal/update/update.go])

    Versions and their order, the signed message of a manifest, and its verification. *)
From Stdlib Require Import ZArith Lia Ascii String.
From S2P Require Import Prelude GoStrings Library Version.
From stdpp Require Import base strings pretty list relations.
Local Open Scope Z_scope.

Definition newline : ascii := "010".
Definition carriageReturn : ascii := "013".
Definition NL : string := String newline EmptyString.

(** ** Versions *)
Record semver := mkSemver { sv_core : Z * Z * Z; sv_pre : list string }.

(** One of MAJOR, MINOR and PATCH. *)
Definition parsePart (p : string) : option Z :=
  let '(n, ok) := Atoi p in
  if negb ok || (n <? 0) || ((1 <? strLen p) && HasPrefix p "0") then None else Some n.
Definition parseVersion (s0 : string) : option semver :=
  let s1 := TrimPrefix s0 "v" in
  let '(s, _, _) := Cut "+" s1 in
  let '(core, pre, hasPre) := Cut "-" s in
  match Split "." core with
  | [a; b; c] =>
    match parsePart a, parsePart b, parsePart c with
    | Some x, Some y, Some z =>
      if hasPre then
        if String.eqb pre "" then None else Some (mkSemver (x, y, z) (Split "." pre))
      else Some (mkSemver (x, y, z) [])
    | _, _, _ => None
    end
  | _ => None
  end.

(** Byte-wise comparison of strings. *)
Definition strLt (x y : string) : bool :=
  match String.compare x y with Lt => true | _ => false end.

(** The loop over the pre-release identifiers and the comparison of their number. *)
Fixpoint comparePre (a b : list string) : Z :=
  match a, b with
  | x :: a', y :: b' =>
    let '(xn, xok) := Atoi x in
    let '(yn, yok) := Atoi y in
    if xok && yok then
      if negb (xn =? yn) then (if xn <? yn then -1 else 1) else comparePre a' b'
    else if xok then -1
    else if yok then 1
    else if negb (String.eqb x y) then (if strLt x y then -1 else 1)
    else comparePre a' b'
  | [], _ :: _ => -1
  | _ :: _, [] => 1
  | [], [] => 0
  end.
Definition compareInt (x y : Z) (k : Z) : Z :=
  if negb (x =? y) then (if x <? y then -1 else 1) else k.
Definition compare (a b : semver) : Z :=
  let '(a0, a1, a2) := sv_core a in
  let '(b0, b1, b2) := sv_core b in
  compareInt a0 b0 (compareInt a1 b1 (compareInt a2 b2 (
    match sv_pre a, sv_pre b with
    | [], [] => 0
    | [], _ => 1
    | _, [] => -1
    | pa, pb => comparePre pa pb
    end))).
Definition IsRelease (v : string) : bool := match parseVersion v with Some _ => true | None => false end.
Definition Newer (candidate current : string) : bool :=
  match parseVersion candidate with
  | None => false
  | Some c =>
    match parseVersion current with
    | None => true
    | Some cur => 0 <? compare c cur
    end
  end.

(** ** Manifests *)
Record Manifest := mkManifest {
  mf_File : string;
  mf_Version : string;
  mf_Size : Z;
  mf_SHA256 : string;
  mf_Signature : string;
}.
Definition signedPrefix : string := "lotse-agent-update-v1".
Definition AgentFile (goos goarch : string) : string :=
  let name := (AgentName ++ "-" ++ goos ++ "-" ++ goarch)%string in
  if String.eqb goos "windows" then (name ++ ".exe")%string else name.

Definition badField (f : string) : bool := String.eqb f "" || ContainsAny f [newline; carriageReturn].
Definition message `{Lib} (m : Manifest) : result string string :=
  if existsb badField [mf_File m; mf_Version m; mf_SHA256 m]
  then Err "manifest has an empty or invalid field"%string
  else match parseVersion (mf_Version m) with
  | None => Err ("version " ++ Quote (mf_Version m) ++ " is not a release version")%string
  | Some _ =>
    if mf_Size m <=? 0 then Err "manifest has no size"%string else
    Ok (signedPrefix ++ NL ++ mf_File m ++ NL ++ mf_Version m ++ NL ++ itoa (mf_Size m) ++ NL ++ mf_SHA256 m ++ NL)%string
  end.

Definition TrustedKeys : list string := ["lITcC4wbtAxvFw8+vlnsF174FzVYVYm8Qgn9D+0aT64="%string].
(** A trusted key whose signature of [msg] is [sig]. *)
Definition keyAccepts `{Lib} (msg sig k : string) : bool :=
  match b64Decode k with
  | Some pub => (strLen pub =? 32) && ed25519Verify pub msg sig
  | None => false
  end.
Definition Verify `{Lib} (m : Manifest) : result string unit :=
  match message m with
  | Err e => Err e
  | Ok msg =>
    match b64Decode (mf_Signature m) with
    | Some sig =>
      if negb (strLen sig =? 64) then Err "manifest signature is malformed"%string
      else if existsb (keyAccepts msg sig) TrustedKeys then Ok tt
      else Err "the update is not signed with a trusted release key"%string
    | None => Err "manifest signature is malformed"%string
    end
  end.

(** ** The order on versions

    A pre-release identifier is compared through its key: numbers before other strings. *)
Inductive preKey := KNum (n : Z) | KStr (s : string).
Definition keyOf (x : string) : preKey := let '(n, ok) := Atoi x in if ok then KNum n else KStr x.
Definition keyCmp (x y : preKey) : comparison :=
  match x, y with
  | KNum n, KNum m => Z.compare n m
  | KNum _, KStr _ => Lt
  | KStr _, KNum _ => Gt
  | KStr s, KStr t => String.compare s t
  end.

(** Comparison functions of total orders. *)
Record is_cmp {A} (cmp : A → A → comparison) : Prop := {
  cmp_refl : ∀ a, cmp a a = Eq;
  cmp_eq : ∀ a b, cmp a b = Eq → a = b;
  cmp_anti : ∀ a b, cmp b a = CompOpp (cmp a b);
  cmp_lt_trans : ∀ a b c, cmp a b = Lt → cmp b c = Lt → cmp a c = Lt;
}.
Lemma Zcompare_cmp : is_cmp Z.compare.
Proof.
  split; intros *; [apply Z.compare_refl|apply Z.compare_eq|apply Z.compare_antisym|].
  rewrite !Z.compare_lt_iff. lia.
Qed.
Lemma ascii_compare_N a b : Ascii.compare a b = N.compare (N_of_ascii a) (N_of_ascii b).
Proof. reflexivity. Qed.
Lemma string_cmp : is_cmp String.compare.
Proof.
  split.
  - induction a as [|x a IH]; cbn; [done|]. by rewrite ascii_compare_N, N.compare_refl.
  - intros a b. apply String.compare_eq_iff.
  - intros a b. apply String.compare_antisym.
  - induction a as [|x a IH]; intros [|y b] [|z c]; cbn; try done. rewrite !ascii_compare_N.
    destruct (N.compare_spec (N_of_ascii x) (N_of_ascii y)) as [Hxy|Hxy|Hxy]; [|intros _|done].
    + rewrite Hxy. destruct (N.compare_spec (N_of_ascii y) (N_of_ascii z)); [apply IH|done|done].
    + destruct (N.compare_spec (N_of_ascii y) (N_of_ascii z)) as [Hyz|Hyz|Hyz]; [intros _|intros _|done];
        destruct (N.compare_spec (N_of_ascii x) (N_of_ascii z)); done || lia.
Qed.
Lemma keyCmp_cmp : is_cmp keyCmp.
Proof.
  pose proof Zcompare_cmp as [Z1 Z2 Z3 Z4]. pose proof string_cmp as [S1 S2 S3 S4]. split.
  - intros []; cbn; auto.
  - intros [] []; cbn; try done; intros Hc; f_equal; auto.
  - intros [] []; cbn; auto.
  - intros [] [] []; cbn; eauto; done.
Qed.

Section lex.
Context {A} (cmp : A → A → comparison) (Hc : is_cmp cmp).
Fixpoint lexCmp (a b : list A) : comparison :=
  match a, b with
  | x :: a', y :: b' => match cmp x y with Eq => lexCmp a' b' | c => c end
  | [], _ :: _ => Lt
  | _ :: _, [] => Gt
  | [], [] => Eq
  end.
Lemma lexCmp_cmp : is_cmp lexCmp.
Proof.
  destruct Hc as [C1 C2 C3 C4]. split.
  - induction a as [|x a IH]; cbn; [done|]. by rewrite C1.
  - induction a as [|x a IH]; intros [|y b]; cbn; try done.
    destruct (cmp x y) eqn:E; try done. apply C2 in E as ->. intros ->%IH. done.
  - induction a as [|x a IH]; intros [|y b]; cbn; try done. rewrite (C3 x y).
    destruct (cmp x y); cbn; auto.
  - induction a as [|x a IH]; intros [|y b] [|z c]; cbn; try done.
    destruct (cmp x y) eqn:E1; [apply C2 in E1 as ->|intros _|done].
    + destruct (cmp y z); [apply IH|done|done].
    + destruct (cmp y z) eqn:E2; [apply C2 in E2 as ->; by rewrite E1| |done].
      by rewrite (C4 _ _ _ E1 E2).
Qed.
End lex.

(** A version as a list of keys ordered lexicographically: a release sorts after its
    pre-releases, so it ends with a key above all others. *)
Inductive verKey := VNum (n : Z) | VPre (k : list preKey) | VRelease.
Definition verCmp (x y : verKey) : comparison :=
  match x, y with
  | VNum n, VNum m => Z.compare n m
  | VNum _, _ => Lt
  | _, VNum _ => Gt
  | VPre k, VPre l => lexCmp keyCmp k l
  | VPre _, VRelease => Lt
  | VRelease, VPre _ => Gt
  | VRelease, VRelease => Eq
  end.
Lemma verCmp_cmp : is_cmp verCmp.
Proof.
  pose proof Zcompare_cmp as [Z1 Z2 Z3 Z4].
  pose proof (lexCmp_cmp keyCmp keyCmp_cmp) as [S1 S2 S3 S4]. split.
  - intros []; cbn; auto.
  - intros [] []; cbn; try done; intros Hc; f_equal; auto.
  - intros [] []; cbn; auto.
  - intros [] [] []; cbn; eauto; done.
Qed.
Definition verKeys (v : semver) : list verKey :=
  let '(x, y, z) := sv_core v in
  [VNum x; VNum y; VNum z; match sv_pre v with [] => VRelease | p => VPre (map keyOf p) end].
Definition cmpZ (c : comparison) : Z := match c with Lt => -1 | Eq => 0 | Gt => 1 end.

Lemma comparePre_key a b : comparePre a b = cmpZ (lexCmp keyCmp (map keyOf a) (map keyOf b)).
Proof.
  revert b. induction a as [|x a IH]; intros [|y b]; cbn; try done. unfold keyOf.
  destruct (Atoi x) as [xn xok]. destruct (Atoi y) as [yn yok].
  destruct xok, yok; cbn; try done.
  - destruct (Z.compare_spec xn yn) as [->|Hlt|Hgt].
    + rewrite Z.eqb_refl. cbn. apply IH.
    + destruct (Z.eqb_spec xn yn); [lia|]. cbn. by destruct (Z.ltb_spec xn yn); [|lia].
    + destruct (Z.eqb_spec xn yn); [lia|]. cbn. by destruct (Z.ltb_spec xn yn); [lia|].
  - unfold strLt. destruct (String.eqb_spec x y) as [->|Hne]; cbn.
    + rewrite (cmp_refl _ string_cmp). apply IH.
    + destruct (String.compare x y) eqn:E; try done. by apply (cmp_eq _ string_cmp) in E.
Qed.
Lemma compareInt_cmp x y k c : k = cmpZ c → compareInt x y k = cmpZ (match Z.compare x y with Eq => c | d => d end).
Proof.
  intros ->. unfold compareInt. destruct (Z.compare_spec x y) as [->|Hlt|Hgt].
  - by rewrite Z.eqb_refl.
  - destruct (Z.eqb_spec x y); [lia|]. cbn. by destruct (Z.ltb_spec x y); [|lia].
  - destruct (Z.eqb_spec x y); [lia|]. cbn. by destruct (Z.ltb_spec x y); [lia|].
Qed.
Lemma compare_key a b : compare a b = cmpZ (lexCmp verCmp (verKeys a) (verKeys b)).
Proof.
  unfold compare, verKeys. destruct (sv_core a) as [[a0 a1] a2], (sv_core b) as [[b0 b1] b2].
  cbn [lexCmp verCmp]. do 3 apply compareInt_cmp.
  destruct (sv_pre a) as [|x pa], (sv_pre b) as [|y pb]; cbn [lexCmp verCmp]; try done.
  rewrite comparePre_key. by destruct (lexCmp keyCmp _ _).
Qed.
Lemma cmpZ_opp c : cmpZ (CompOpp c) = - cmpZ c.
Proof. by destruct c. Qed.
Lemma compare_anti a b : compare b a = - compare a b.
Proof.
  rewrite !compare_key, <-cmpZ_opp. f_equal. apply (cmp_anti _ (lexCmp_cmp _ verCmp_cmp)).
Qed.
Lemma compare_gt_trans a b c : 0 < compare a b → 0 < compare b c → 0 < compare a c.
Proof.
  rewrite (compare_anti b a), (compare_anti c b), (compare_anti c a), !compare_key.
  pose proof (cmp_lt_trans _ (lexCmp_cmp _ verCmp_cmp)) as Ht.
  destruct (lexCmp verCmp (verKeys b) (verKeys a)) eqn:E1; cbn; try lia.
  destruct (lexCmp verCmp (verKeys c) (verKeys b)) eqn:E2; cbn; try lia.
  intros _ _. by rewrite (Ht _ _ _ E2 E1).
Qed.
Lemma Newer_trans a b c : Newer a b = true → Newer b c = true → Newer a c = true.
Proof.
  unfold Newer. destruct (parseVersion a) as [va|]; [|done].
  destruct (parseVersion b) as [vb|]; [|done]. destruct (parseVersion c) as [vc|]; [|done].
  rewrite !Z.ltb_lt. apply compare_gt_trans.
Qed.
Lemma Newer_asym a b : Newer a b = true → Newer b a = false.
Proof.
  unfold Newer. destruct (parseVersion a) as [va|]; [|done].
  destruct (parseVersion b) as [vb|]; [|done]. rewrite (compare_anti va vb).
  rewrite Z.ltb_lt, Z.ltb_ge. lia.
Qed.

(** ** Chains of updates

    An agent or the hub accepts an update only when its version is [Newer] than the
    installed one. *)
Definition updateStep (current candidate : string) : Prop := Newer candidate current = true.

(** No downgrade: after any chain of accepted updates the installed version is newer than the
    one at the start, so no earlier version of the chain is ever installed again; and no
    version is newer than itself. Development builds may only be left, never returned to. *)
Theorem updates_never_downgrade (v w : string) (Hchain : tc updateStep v w) :
  Newer w v = true ∧ ¬ updateStep w v ∧ v ≠ w.
Proof.
  assert (Hn : Newer w v = true).
  { induction Hchain as [v w Hs|v u w Hs _ IH]; [done|]. by apply (Newer_trans w u v). }
  pose proof (Newer_asym _ _ Hn) as Ha. split; [done|]. unfold updateStep. split; [congruence|].
  intros ->. congruence.
Qed.

(** ** The signed message determines the manifest *)
Lemma containsByte_app c a b : containsByte c (a ++ b) = containsByte c a || containsByte c b.
Proof.
  induction a as [|x a IH]; [done|]. rewrite append_cons. cbn [containsByte]. by rewrite IH, orb_assoc.
Qed.
Lemma Cut_app c a b : containsByte c a = false → Cut c (a ++ String c b) = (a, b, true).
Proof.
  induction a as [|x a IH]; rewrite ?append_cons, ?append_nil; cbn [Cut containsByte].
  - intros _. by rewrite Ascii.eqb_refl.
  - intros [-> Hc]%orb_false_iff. by rewrite (IH Hc).
Qed.
Lemma field_inj a1 a2 b1 b2 :
  containsByte newline a1 = false → containsByte newline a2 = false →
  (a1 ++ NL ++ b1)%string = (a2 ++ NL ++ b2)%string → a1 = a2 ∧ b1 = b2.
Proof.
  intros H1 H2 Heq. apply (f_equal (Cut newline)) in Heq. unfold NL in Heq. rewrite !append_cons, !append_nil in Heq.
  rewrite !Cut_app in Heq by done. by simplify_eq.
Qed.
Lemma pretty_N_no_newline x s :
  containsByte newline s = false → containsByte newline (pretty_N_go x s) = false.
Proof.
  revert s. induction (N.lt_wf_0 x) as [x _ IH]. intros s Hs.
  assert (x = 0 ∨ 0 < x)%N as [->|Hx] by lia; [by rewrite pretty_N_go_0|].
  rewrite pretty_N_go_step by done. apply IH; [apply N.div_lt; lia|]. cbn. rewrite Hs.
  unfold pretty_N_char. by repeat case_match.
Qed.
Lemma itoa_no_newline n : containsByte newline (itoa n) = false.
Proof.
  destruct n as [|p|p]; [done|..].
  - apply (pretty_N_no_newline (N.pos p) EmptyString). done.
  - change (itoa (Z.neg p)) with (String "-" (pretty_N_go (N.pos p) EmptyString)). cbn [containsByte].
    by rewrite pretty_N_no_newline.
Qed.
Lemma badField_newline f : badField f = false → containsByte newline f = false.
Proof. unfold badField, ContainsAny. cbn. rewrite !orb_false_iff. tauto. Qed.

(** A signature covers exactly one file, version, size and hash: two manifests with the same
    signed message agree on all four, so no field can be moved across a separator. *)
Theorem message_injective `{Lib} (m1 m2 : Manifest) (s : string)
    (H1 : message m1 = Ok s) (H2 : message m2 = Ok s) :
  mf_File m1 = mf_File m2 ∧ mf_Version m1 = mf_Version m2 ∧ mf_Size m1 = mf_Size m2
  ∧ mf_SHA256 m1 = mf_SHA256 m2.
Proof.
  assert (Hf : ∀ m, message m = Ok s →
    containsByte newline (mf_File m) = false ∧ containsByte newline (mf_Version m) = false
    ∧ containsByte newline (mf_SHA256 m) = false
    ∧ s = (signedPrefix ++ NL ++ mf_File m ++ NL ++ mf_Version m ++ NL ++ itoa (mf_Size m) ++ NL ++ mf_SHA256 m ++ NL)%string).
  { intros m. unfold message. destruct (existsb badField _) eqn:Eb; [done|]. cbn in Eb.
    rewrite !orb_false_iff in Eb. destruct Eb as (B1 & B2 & B3 & _).
    destruct (parseVersion _); [|done]. destruct (_ <=? _); [done|]. intros ?; simplify_eq.
    split_and!; try by apply badField_newline. done. }
  destruct (Hf m1 H1) as (F1 & V1 & S1 & E1), (Hf m2 H2) as (F2 & V2 & S2 & E2). rewrite E1 in E2.
  apply field_inj in E2 as [_ E2]; [|done..]. apply field_inj in E2 as [-> E2]; [|done..].
  apply field_inj in E2 as [-> E2]; [|done..].
  apply field_inj in E2 as [En E2]; [|apply itoa_no_newline..].
  apply (field_inj _ _ EmptyString EmptyString) in E2 as [-> _]; [|done..].
  split_and!; try done. by apply (inj pretty).
Qed.

(** A manifest verifies only if a trusted key signed its message. *)
Lemma Verify_ok `{Lib} m : Verify m = Ok tt →
  ∃ msg sig k, message m = Ok msg ∧ b64Decode (mf_Signature m) = Some sig ∧ k ∈ TrustedKeys
    ∧ ∃ pub, b64Decode k = Some pub ∧ ed25519Verify pub msg sig = true.
Proof.
  unfold Verify. destruct (message m) as [msg|]; [|done]. destruct (b64Decode (mf_Signature m)) as [sig|]; [|done].
  destruct (negb _); [done|]. destruct (existsb _ _) eqn:E; [|done]. intros _.
  apply existsb_exists in E as (k & Hk & Ha). exists msg, sig, k. split_and!; [done|done|by apply list_elem_of_In|].
  unfold keyAccepts in Ha. destruct (b64Decode k) as [pub|]; [|done]. apply andb_true_iff in Ha as [_ Ha]. eauto.
Qed.

(** ** Witnesses *)
Lemma updates_never_downgrade_witness :
  Newer "2.0.0" "1.9.0-rc.1" = true ∧ ¬ updateStep "2.0.0" "1.9.0-rc.1" ∧ "1.9.0-rc.1"%string ≠ "2.0.0"%string.
Proof.
  apply updates_never_downgrade. apply (tc_l _ _ "1.9.0"%string); [by vm_compute|]. apply tc_once. by vm_compute.
Defined.
Definition demoManifest (sig : string) : Manifest := mkManifest "lotse-agent-linux-amd64" "1.2.0" 4096 "abcd" sig.
Lemma message_injective_witness :
  mf_SHA256 (demoManifest "x") = mf_SHA256 (demoManifest "y").
Proof.
  destruct (@message_injective demoLib (demoManifest "x") (demoManifest "y")
    (match @message demoLib (demoManifest "x") with Ok s => s | Err s => s end)) as (_ & _ & _ & Hs);
    [vm_compute; reflexivity..|exact Hs].
Defined.
