(* ===== verification/Proxy.v ===== *)
(** * Clients behind reverse proxies ([internal/hub/proxy.go]) *)
From Stdlib Require Import ZArith Lia Ascii String.
From S2P Require Import Prelude GoStrings Library.
From stdpp Require Import base strings list.
Local Open Scope Z_scope.

Section proxy.
Context `{Lib}.

(** HUB_TRUSTED_PROXIES: the networks, or the message for the first bad entry. *)
Fixpoint parseProxiesLoop (fs : list string) (out : list (netAddr * Z)) : result string (list (netAddr * Z)) :=
  match fs with
  | [] => Ok out
  | f0 :: rest =>
    let f := TrimSpace f0 in
    if String.eqb f "" then parseProxiesLoop rest out else
    match ParsePrefix f with
    | Some (a, bits) => parseProxiesLoop rest (out ++ [(maskAddr a bits, bits)])
    | None =>
      match ParseAddr f with
      | None => Err (Quote f ++ " is not an IP address or CIDR range")%string
      | Some a => parseProxiesLoop rest (out ++ [(Unmap a, BitLen (Unmap a))])
      end
    end
  end.
Definition parseProxies (s : string) : result string (list (netAddr * Z)) := parseProxiesLoop (Split "," s) [].

Definition trustedProxy (proxies : list (netAddr * Z)) (a : netAddr) : bool :=
  existsb (λ p, prefixContains p (Unmap a)) proxies.

(** The addresses of the X-Forwarded-For headers, in order. *)
Definition hopsOf (headers : list string) : list string := flat_map (Split ",") headers.
(** The loop from the right; [rev] is the list of hops reversed. *)
Fixpoint scanHops (proxies : list (netAddr * Z)) (rev : list string) : option netAddr :=
  match rev with
  | [] => None
  | h :: rest =>
    match ParseAddr (TrimSpace h) with
    | None => None
    | Some a => if negb (trustedProxy proxies a) then Some (Unmap a) else scanHops proxies rest
    end
  end.
Definition forwardedFor (proxies : list (netAddr * Z)) (remoteAddr : string) (headers : list string) : option netAddr :=
  match ParseAddrPort remoteAddr with
  | None => None
  | Some peer =>
    if negb (trustedProxy proxies peer) then None
    else scanHops proxies (reverse (hopsOf headers))
  end.
(** The RemoteAddr the handlers see. *)
Definition realIP (proxies : list (netAddr * Z)) (remoteAddr : string) (headers : list string) : string :=
  match proxies with
  | [] => remoteAddr
  | _ => match forwardedFor proxies remoteAddr headers with
         | Some ip => addrPortString ip 0
         | None => remoteAddr
         end
  end.

Lemma scanHops_app proxies xs ys :
  (∀ x, x ∈ xs → ∃ a, ParseAddr (TrimSpace x) = Some a ∧ trustedProxy proxies a = true) →
  scanHops proxies (xs ++ ys) = scanHops proxies ys.
Proof.
  induction xs as [|x xs IH]; intros Hx; [done|]. cbn.
  destruct (Hx x) as (a & -> & ->); [constructor|]. apply IH. intros y Hy. apply Hx. by constructor.
Qed.

(** A client cannot choose the address the hub attributes to it: when a trusted proxy
    appended the client's address [c], and only trusted proxies appended theirs after it,
    the result is [c], whatever headers the client itself sent before. *)
Theorem forwarded_not_forgeable (proxies : list (netAddr * Z)) (remote : string) (peer : netAddr)
    (forged : list string) (headers : list string) (client : string) (c : netAddr) (via : list string)
    (Hpeer : ParseAddrPort remote = Some peer) (Htrust : trustedProxy proxies peer = true)
    (Hhops : hopsOf headers = forged ++ client :: via)
    (Hclient : ParseAddr (TrimSpace client) = Some c) (Hc : trustedProxy proxies c = false)
    (Hvia : ∀ x, x ∈ via → ∃ a, ParseAddr (TrimSpace x) = Some a ∧ trustedProxy proxies a = true) :
  forwardedFor proxies remote headers = Some (Unmap c).
Proof.
  unfold forwardedFor. rewrite Hpeer, Htrust, Hhops. cbn.
  rewrite reverse_app, reverse_cons, <-app_assoc, scanHops_app.
  - cbn. by rewrite Hclient, Hc.
  - intros x Hx. apply Hvia. by apply elem_of_reverse.
Qed.

(** Without a trusted peer the headers are ignored altogether. *)
Lemma untrusted_peer_ignored proxies remote headers :
  (∀ a, ParseAddrPort remote = Some a → trustedProxy proxies a = false) →
  realIP proxies remote headers = remote.
Proof.
  intros Hp. unfold realIP, forwardedFor. destruct proxies as [|p ps]; [done|].
  destruct (ParseAddrPort remote) as [a|]; [|done]. by rewrite (Hp a).
Qed.
(** The answer is never a trusted proxy. *)
Lemma scanHops_untrusted proxies rev ip :
  scanHops proxies rev = Some ip → ∃ a, ip = Unmap a ∧ trustedProxy proxies a = false.
Proof.
  induction rev as [|h rest IH]; cbn; [done|]. destruct (ParseAddr _) as [a|]; [|done].
  destruct (trustedProxy proxies a) eqn:E; cbn; [done|]. intros ?; simplify_eq. eauto.
Qed.
End proxy.

(** Proxy 5 is trusted; client 3 claims to be 9. *)
Lemma forwarded_not_forgeable_witness :
  @forwardedFor demoLib [(Addr4 5, 32)] "@....." ["@........."; "@..., @....."]%string = Some (Addr4 3).
Proof.
  assert (Hv : ∀ x, x ∈ [" @....."%string] → ∃ a, @ParseAddr demoLib (TrimSpace x) = Some a
    ∧ trustedProxy [(Addr4 5, 32)] a = true).
  { intros x Hx. apply list_elem_of_singleton in Hx as ->. exists (Addr4 5). vm_compute. split; reflexivity. }
  refine (@forwarded_not_forgeable demoLib [(Addr4 5, 32)] "@....." (Addr4 5) ["@........."%string]
    ["@........."; "@..., @....."]%string "@..." (Addr4 3) [" @....."%string] _ _ _ _ _ Hv);
    vm_compute; reflexivity.
Defined.
