(* ===== verification/Wol.v ===== *)
(** * Wake-on-LAN ([internal/wol/wol.go]) *)
From Stdlib Require Import ZArith Lia Ascii String.
From S2P Require Import Prelude GoStrings Library.
From stdpp Require Import base strings list.
Local Open Scope Z_scope.

Section wol.
Context `{Lib}.

(** A 48-bit unicast address. *)
Definition ParseMAC (mac : string) : option (list Z) :=
  match netParseMAC mac with
  | None => None
  | Some hw =>
    if negb (length hw =? 6)%nat || (Z.land (nth 0 hw 0) 1 =? 1) || forallb (Z.eqb 0) hw
    then None else Some hw
  end.
(** Six bytes 0xff, then the address sixteen times. *)
Definition MagicPacket (mac : string) : option (list Z) :=
  match ParseMAC mac with
  | None => None
  | Some hw => Some (replicate 6 255 ++ concat (replicate 16 hw))
  end.

Fixpoint magicPackets (macs : list string) : option (list (list Z)) :=
  match macs with
  | [] => Some []
  | m :: ms => match MagicPacket m with
               | None => None
               | Some p => match magicPackets ms with Some ps => Some (p :: ps) | None => None end
               end
  end.
(** Writing to the socket: [sent] tells which writes succeed; the first failure ends it. *)
Fixpoint writeAll (pkts : list (list Z)) (sent : list bool) : list (list Z) * bool :=
  match pkts with
  | [] => ([], true)
  | p :: rest =>
    if default true (head sent)
    then let '(out, ok) := writeAll rest (tail sent) in (p :: out, ok)
    else ([], false)
  end.
(** The packets on the wire and whether [err == nil]; [dial] tells whether the socket opens. *)
Definition wolSend (macs : list string) (broadcast : string) (dial : bool) (sent : list bool) : list (list Z) * bool :=
  match ParseIP4 broadcast with
  | None => ([], false)
  | Some _ =>
    match macs with
    | [] => ([], false)
    | _ => match magicPackets macs with
           | None => ([], false)
           | Some pkts => if dial then writeAll (pkts ++ pkts ++ pkts) sent else ([], false)
           end
    end
  end.

Definition mask32 (ones : Z) : Z := Z.shiftl (Z.ones ones) (32 - ones).
(** The broadcast address of an IPv4 network: masked address | ^mask, all four bytes at once. *)
Definition broadcast4 (ip ones : Z) : Z :=
  Z.lor (Z.land ip (mask32 ones)) (Z.lxor (mask32 ones) (Z.ones 32)).
Definition Broadcast (cidr : string) : option (string * (Z * Z)) :=
  match ParseCIDR4 cidr with
  | None => None
  | Some (ip, ones) =>
    if 30 <? ones then None
    else Some (ip4String (broadcast4 ip ones), (Z.land ip (mask32 ones), ones))
  end.
(** [ifaces]: the machine's interface addresses; [None] when they cannot be read. *)
Definition IsLocalBroadcast (addr : string) (ifaces : option (list string)) : bool :=
  if String.eqb addr "255.255.255.255" then true else
  match ifaces with
  | None => false
  | Some l => existsb (λ a, match Broadcast a with Some (bc, _) => String.eqb bc addr | None => false end) l
  end.

Lemma mask32_bit ones i : 0 ≤ ones ≤ 32 → 0 ≤ i → Z.testbit (mask32 ones) i = (32 - ones <=? i) && (i <? 32).
Proof.
  intros Ho Hi. unfold mask32. rewrite Z.shiftl_spec by done.
  destruct (Z.leb_spec (32 - ones) i); cbn.
  - rewrite Z.testbit_ones_nonneg by lia. apply eq_true_iff_eq. rewrite !Z.ltb_lt. lia.
  - apply Z.testbit_neg_r. lia.
Qed.
Lemma ones_bit n i : 0 ≤ n → 0 ≤ i → Z.testbit (Z.ones n) i = (i <? n).
Proof. intros. by apply Z.testbit_ones_nonneg. Qed.

(** [Broadcast] computes the last address of the network: the network bits of the address
    with every host bit set. *)
Theorem broadcast4_spec (ip ones : Z) (Hip : 0 ≤ ip < 2 ^ 32) (Hones : 0 ≤ ones ≤ 32) :
  broadcast4 ip ones = ip / 2 ^ (32 - ones) * 2 ^ (32 - ones) + (2 ^ (32 - ones) - 1).
Proof.
  assert (Hhigh : ∀ i, 32 ≤ i → Z.testbit ip i = false).
  { intros i Hi. destruct (Z.eq_dec ip 0) as [->|Hn]; [apply Z.bits_0|].
    apply Z.bits_above_log2; [lia|]. assert (Z.log2 ip < 32) by (apply Z.log2_lt_pow2; lia). lia. }
  rewrite <-Z.shiftr_div_pow2, <-Z.shiftl_mul_pow2 by lia.
  replace (2 ^ (32 - ones) - 1) with (Z.ones (32 - ones)) by (rewrite Z.ones_equiv; lia).
  rewrite Z.add_nocarry_lxor.
  2: { apply Z.bits_inj'. intros i Hi. rewrite Z.land_spec, Z.shiftl_spec, ones_bit, Z.bits_0 by lia.
       destruct (Z.ltb_spec i (32 - ones)); [|by rewrite andb_false_r].
       rewrite Z.testbit_neg_r by lia. done. }
  apply Z.bits_inj'. intros i Hi. unfold broadcast4.
  rewrite Z.lor_spec, Z.land_spec, !Z.lxor_spec, !mask32_bit, !ones_bit, Z.shiftl_spec by lia.
  destruct (Z.ltb_spec i (32 - ones)) as [Hs|Hs].
  - rewrite (Z.testbit_neg_r _ (i - (32 - ones))) by lia.
    destruct (Z.leb_spec (32 - ones) i); [lia|]. destruct (Z.ltb_spec i 32); [|lia].
    by rewrite andb_false_r.
  - rewrite Z.shiftr_spec by lia. replace (i - (32 - ones) + (32 - ones)) with i by lia.
    destruct (Z.leb_spec (32 - ones) i); [|lia]. destruct (Z.ltb_spec i 32); cbn.
    + by rewrite andb_true_r, orb_false_r, xorb_false_r.
    + rewrite (Hhigh i) by lia. done.
Qed.

(** Every magic packet has 102 bytes: 6 of synchronization, 16 copies of a 6-byte address. *)
Lemma MagicPacket_length mac p : MagicPacket mac = Some p → length p = 102%nat.
Proof.
  unfold MagicPacket, ParseMAC. destruct (netParseMAC mac) as [hw|]; [|done].
  destruct (length hw =? 6)%nat eqn:E; cbn -[replicate concat]; [|done]. bool_hyps.
  destruct (_ || _); cbn -[replicate concat]; [done|]. intros ?; simplify_eq.
  rewrite length_app, length_replicate. cbn. rewrite !length_app, E. done.
Qed.
Lemma writeAll_ok pkts sent : (writeAll pkts sent).2 = true → (writeAll pkts sent).1 = pkts.
Proof.
  revert sent. induction pkts as [|p ps IH]; intros sent; cbn; [done|].
  destruct (default true (head sent)); [|done]. destruct (writeAll ps (tail sent)) as [o ok] eqn:E.
  cbn. intros ->. specialize (IH (tail sent)). rewrite E in IH. cbn in IH. by rewrite IH.
Qed.
End wol.

Lemma broadcast4_spec_witness : broadcast4 3232235796 24 = 3232236031.
Proof. rewrite (broadcast4_spec 3232235796 24); [reflexivity|lia|lia]. Defined.
