(* ===== verification/Webauthn.v ===== *)
(** * A minimal WebAuthn relying party ([internal/hub/webauthn.go])

    Challenges, authenticator data, public keys and signatures. Byte slices are lists of
    bytes; a slice expression or index out of range, which panics in Go, is [None]. *)
From Stdlib Require Import ZArith Lia Ascii String.
From S2P Require Import Prelude GoStrings Library.
From stdpp Require Import base gmap strings list relations.
Local Open Scope Z_scope.

Definition algES256 : Z := -7.
Definition algEdDSA : Z := -8.
Definition algRS256 : Z := -257.
Definition flagUserPresent : Z := 1.
Definition flagUserVerified : Z := 4.
Definition flagAttested : Z := 64.
Definition passkeyTimeout : Z := minutes 5.
Definition maxChallenges : nat := 1000.

(** ** Challenges *)
Record challenge := mkChallenge { ch_purpose : string; ch_session : string; ch_expires : Z }.
Abbreviation challenges := (gmap string challenge).

Section webauthn.
Context `{Lib}.

(** The keys of a map in the order [range] visits them. *)
Definition rangeKeys (c : challenges) : list string := (rangeOrder ((λ _, 0%nat) <$> c)).*1.
(** First loop: drop expired challenges. *)
Definition dropExpired (now : Z) (c : challenges) : challenges :=
  fold_left (λ m k, match m !! k with
                    | Some ch => if ch_expires ch <? now then delete k m else m
                    | None => m
                    end) (rangeKeys c) c.
(** Second loop: drop arbitrary ones until there is room. *)
Fixpoint dropSome (ks : list string) (c : challenges) : challenges :=
  match ks with
  | [] => c
  | k :: rest => if (size c <? maxChallenges)%nat then c else dropSome rest (delete k c)
  end.
(** [add] with the time and the 32 random bytes it reads. *)
Definition addChallenge (purpose session : string) (now : Z) (b : string) (c : challenges) : string * challenges :=
  let c1 := if (maxChallenges <=? size c)%nat
            then let c' := dropExpired now c in dropSome (rangeKeys c') c'
            else c in
  let key := b64urlEncode b in
  (key, <[key := mkChallenge purpose session (now + passkeyTimeout)]> c1).
Definition takeChallenge (key purpose session : string) (now : Z) (c : challenges) : bool * challenges :=
  match c !! key with
  | None => (false, c)
  | Some ch =>
    (String.eqb (ch_purpose ch) purpose && String.eqb (ch_session ch) session && (now <? ch_expires ch),
     delete key c)
  end.

(** ** Relying party *)
Definition relyingParty (origin host : string) : result string (string * string) :=
  match urlParse origin with
  | Some u => if String.eqb origin "" || negb (String.eqb (url_Host u) host)
              then Err "passkeys only work from the hub's own page"%string
              else Ok (origin, url_Hostname u)
  | None => Err "passkeys only work from the hub's own page"%string
  end.

Record clientData := mkClientData {
  cd_Type : string;
  cd_Challenge : string;
  cd_Origin : string;
  cd_CrossOrigin : bool;
}.
(** [checkClientData]; [cd] is [None] when the JSON is invalid. *)
Definition checkClientData (cd : option clientData) (typ origin purpose session : string) (now : Z)
    (c : challenges) : result string unit * challenges :=
  match cd with
  | None => (Err "invalid passkey response"%string, c)
  | Some d =>
    let '(ok, c') := takeChallenge (cd_Challenge d) purpose session now c in
    (if negb ok then Err "the passkey request expired, try again"%string
     else if negb (String.eqb (cd_Type d) typ) || cd_CrossOrigin d then Err "invalid passkey response"%string
     else if negb (String.eqb (cd_Origin d) origin) then Err "the passkey response is for another site"%string
     else Ok tt, c')
  end.

(** ** Authenticator data *)
Record authData := mkAuthData { ad_flags : Z; ad_signCount : Z; ad_credentialID : list Z }.

Definition slice (b : list Z) (i j : nat) : option (list Z) :=
  if (i <=? j)%nat && (j <=? length b)%nat then Some (take (j - i) (drop i b)) else None.
Definition bigEndian (l : list Z) : Z := fold_left (λ acc x, acc * 256 + x) l 0.

(** [None] is a panic. *)
Definition parseAuthData (b : list Z) (rpID : string) : option (result string authData) :=
  if (length b <? 37)%nat then Some (Err "invalid authenticator data"%string) else
  h ← slice b 0 32;
  if negb (bool_decide (h = bytesOf (sha256 rpID)))
  then Some (Err "the passkey belongs to another site"%string) else
  flags ← b !! 32%nat;
  cnt ← slice b 33 37;
  if (Z.land flags flagUserPresent =? 0) || (Z.land flags flagUserVerified =? 0)
  then Some (Err "the authenticator did not verify you (PIN or biometrics)"%string) else
  if negb (Z.land flags flagAttested =? 0) then
    if (length b <? 55)%nat then Some (Err "invalid authenticator data"%string) else
    nb ← slice b 53 55;
    let n := Z.to_nat (bigEndian nb) in
    if (n =? 0)%nat || (length b <? 55 + n)%nat then Some (Err "invalid authenticator data"%string) else
    cred ← slice b 55 (55 + n);
    Some (Ok (mkAuthData flags (bigEndian cnt) cred))
  else Some (Ok (mkAuthData flags (bigEndian cnt) [])).

(** ** Keys and signatures *)
Definition parsePublicKey (spki : string) (alg : Z) : result string unit :=
  match ParsePKIXPublicKey spki with
  | None => Err "invalid passkey public key"%string
  | Some k =>
    if match k with
       | EcdsaKey _ p256 => (alg =? algES256) && p256
       | Ed25519Key _ => alg =? algEdDSA
       | RsaKey _ bits => (alg =? algRS256) && (2048 <=? bits)
       | OtherKey => false
       end
    then Ok tt
    else Err "this passkey uses an unsupported algorithm"%string
  end.
Definition verifySignature (spki : string) (alg : Z) (authenticatorData clientDataJSON sig : string) : bool :=
  match ParsePKIXPublicKey spki with
  | None => false
  | Some k =>
    let signed := (authenticatorData ++ sha256 clientDataJSON)%string in
    let digest := sha256 signed in
    match k with
    | EcdsaKey key _ => (alg =? algES256) && ecdsaVerifyASN1 key digest sig
    | Ed25519Key key => (alg =? algEdDSA) && ed25519Verify key signed sig
    | RsaKey key _ => (alg =? algRS256) && rsaVerifyPKCS1v15 key digest sig
    | OtherKey => false
    end
  end.
Fixpoint decodeFields (fields : list string) : result string (list string) :=
  match fields with
  | [] => Ok []
  | f :: rest =>
    match b64urlDecode f with
    | None => Err "invalid passkey response"%string
    | Some b => match decodeFields rest with Ok out => Ok (b :: out) | Err e => Err e end
    end
  end.

(** ** Challenges are used at most once *)
Lemma takeChallenge_gone key purpose session now c :
  (takeChallenge key purpose session now c).2 = delete key c.
Proof.
  unfold takeChallenge. destruct (c !! key) eqn:E; [done|]. cbn [snd]. by rewrite delete_id.
Qed.
Lemma dropExpired_sub now c : dropExpired now c ⊆ c.
Proof.
  unfold dropExpired. generalize (rangeKeys c). intros ks.
  assert (G : ∀ m, m ⊆ c → fold_left (λ m k, match m !! k with
     | Some ch => if ch_expires ch <? now then delete k m else m | None => m end) ks m ⊆ c); [|by apply G].
  induction ks as [|k ks IH]; intros m Hm; cbn; [done|]. apply IH.
  repeat case_match; [|done|done]. etrans; [apply delete_subseteq|done].
Qed.
Lemma dropSome_sub ks c : dropSome ks c ⊆ c.
Proof.
  revert c. induction ks as [|k ks IH]; intros c; cbn; [done|]. case_match; [done|].
  etrans; [apply IH|apply delete_subseteq].
Qed.
(** Enough distinct keys make room. *)
Lemma dropSome_room ks c :
  NoDup ks → (∀ k, k ∈ ks ↔ is_Some (c !! k)) → (size (dropSome ks c) < maxChallenges)%nat.
Proof.
  revert c. induction ks as [|k ks IH]; intros c Hn Hk; cbn -[Nat.ltb].
  - assert (c = ∅) as ->; [|rewrite map_size_empty; unfold maxChallenges; lia].
    apply map_empty. intros k. apply eq_None_not_Some. rewrite <-Hk. apply not_elem_of_nil.
  - apply NoDup_cons in Hn as [Hk0 Hn]. destruct (size c <? maxChallenges)%nat eqn:E; bool_hyps; [done|].
    apply IH; [done|]. intros k'. rewrite lookup_delete_is_Some, <-Hk, elem_of_cons. set_solver.
Qed.

(** Requests to the challenge store, and the log of what it issued and accepted. *)
Record chState := mkChState { cs_map : challenges; cs_issued : list string; cs_accepted : list string }.
Inductive chStep : chState → chState → Prop :=
| ch_add m i a purpose session now b :
    chStep (mkChState m i a)
      (mkChState (addChallenge purpose session now b m).2 ((addChallenge purpose session now b m).1 :: i) a)
| ch_take m i a key purpose session now :
    chStep (mkChState m i a)
      (mkChState (takeChallenge key purpose session now m).2 i
         (if (takeChallenge key purpose session now m).1 then key :: a else a)).
Definition countStr (k : string) (l : list string) : nat := countWhere (String.eqb k) l.
Definition chInv (s : chState) : Prop :=
  (size (cs_map s) ≤ maxChallenges)%nat ∧
  ∀ k, (countStr k (cs_accepted s) + (if decide (is_Some (cs_map s !! k)) then 1 else 0) ≤ countStr k (cs_issued s))%nat.

Lemma countStr_cons k x l : countStr k (x :: l) = ((if String.eqb k x then 1 else 0) + countStr k l)%nat.
Proof. unfold countStr, countWhere; cbn. by destruct (String.eqb k x). Qed.

Section room.
Context (Hrange : ∀ m : gmap string nat, rangeOrder m ≡ₚ map_to_list m).
Lemma rangeKeys_spec c : NoDup (rangeKeys c) ∧ ∀ k, k ∈ rangeKeys c ↔ is_Some (c !! k).
Proof.
  unfold rangeKeys. split.
  - rewrite Hrange. apply NoDup_fst_map_to_list.
  - intros k. rewrite Hrange. rewrite list_elem_of_fmap. split.
    + intros ([k' n] & -> & Hin). apply elem_of_map_to_list in Hin. rewrite lookup_fmap in Hin. cbn.
      destruct (c !! k'); [eauto|done].
    + intros [ch Hch]. exists (k, 0%nat). split; [done|]. apply elem_of_map_to_list.
      by rewrite lookup_fmap, Hch.
Qed.
Lemma addChallenge_spec purpose session now b c :
  (size c ≤ maxChallenges)%nat →
  let '(key, c') := addChallenge purpose session now b c in
  (size c' ≤ maxChallenges)%nat ∧ c' !! key = Some (mkChallenge purpose session (now + passkeyTimeout))
  ∧ ∀ k ch, c' !! k = Some ch → k = key ∨ c !! k = Some ch.
Proof.
  intros Hsz. unfold addChallenge.
  assert (Hc1 : ∃ c1, c1 = (if (maxChallenges <=? size c)%nat then dropSome (rangeKeys (dropExpired now c)) (dropExpired now c) else c)
    ∧ (size c1 < maxChallenges)%nat ∧ c1 ⊆ c).
  { eexists. split; [done|]. destruct (maxChallenges <=? size c)%nat eqn:E; bool_hyps; [|done].
    destruct (rangeKeys_spec (dropExpired now c)). split; [by apply dropSome_room|].
    etrans; [apply dropSome_sub|apply dropExpired_sub]. }
  cbv zeta. destruct Hc1 as (c1 & <- & Hs & Hsub). split_and!.
  - rewrite map_size_insert. destruct (c1 !! _); cbn; lia.
  - apply lookup_insert_eq.
  - intros k ch [[-> _]|[_ Hk]]%lookup_insert_Some; [by left|]. right. by eapply lookup_weaken.
Qed.
Lemma chInv_step s s' : chStep s s' → chInv s → chInv s'.
Proof.
  destruct 1 as [m i a purpose session now b|m i a key purpose session now]; intros [Hsz Hc].
  - pose proof (addChallenge_spec purpose session now b m Hsz) as Ha.
    destruct (addChallenge _ _ _ _ _) as [key c']. destruct Ha as (Hs & Hk & Hold).
    split; [done|]. cbn in *. intros k. specialize (Hc k). rewrite countStr_cons.
    destruct (decide (is_Some (c' !! k))) as [[ch E]|]; [|destruct (k =? key)%string; lia].
    destruct (Hold _ _ E) as [->|Hm]; [rewrite String.eqb_refl; lia|].
    rewrite decide_True in Hc by eauto. destruct (k =? key)%string; lia.
  - split; cbn in *.
    + rewrite takeChallenge_gone, map_size_delete. destruct (m !! key); cbn; lia.
    + intros k. specialize (Hc k). rewrite takeChallenge_gone. unfold takeChallenge.
      destruct (decide (k = key)) as [->|Hne].
      * rewrite lookup_delete_eq, decide_False by apply is_Some_None.
        destruct (m !! key); cbn [fst]; [rewrite decide_True in Hc by eauto|lia].
        case_match; [rewrite countStr_cons, String.eqb_refl|]; lia.
      * rewrite lookup_delete_ne by done. destruct (m !! key); cbn [fst]; [|done].
        destruct (_ && _); [|done]. rewrite countStr_cons. apply String.eqb_neq in Hne as ->. done.
Qed.

(** Passkey challenges are single-use: in every sequence of requests, from the empty
    store, a challenge is accepted at most as often as it was issued (once, for random
    challenges), and at most 1000 are pending. *)
Theorem challenges_single_use (s : chState) (Hrun : rtc chStep (mkChState ∅ [] []) s) :
  (∀ k, (countStr k (cs_accepted s) ≤ countStr k (cs_issued s))%nat)
  ∧ (size (cs_map s) ≤ maxChallenges)%nat.
Proof.
  assert (Hi : chInv s).
  { assert (H0 : chInv (mkChState ∅ [] [])).
    { split; cbn; [rewrite map_size_empty; unfold maxChallenges; lia|]. intros k. by rewrite lookup_empty. }
    induction Hrun as [|s1 s2 s3 Hst _ IH]; [done|]. apply IH. by eapply chInv_step. }
  destruct Hi as [Hs Hc]. split; [|done]. intros k. specialize (Hc k). lia.
Qed.
End room.

(** A response passes [checkClientData] only with a pending, unexpired challenge that was
    issued for the same purpose and browser session, from the hub's own origin, and of the
    right ceremony type; the challenge is used up whatever the outcome. *)
Lemma checkClientData_ok (d : clientData) (typ origin purpose session : string) (now : Z) (c c' : challenges)
    (Hok : checkClientData (Some d) typ origin purpose session now c = (Ok tt, c')) :
  (∃ e, c !! cd_Challenge d = Some (mkChallenge purpose session e) ∧ now < e)
  ∧ cd_Type d = typ ∧ cd_Origin d = origin ∧ cd_CrossOrigin d = false ∧ c' = delete (cd_Challenge d) c.
Proof.
  unfold checkClientData in Hok. pose proof (takeChallenge_gone (cd_Challenge d) purpose session now c) as Hg.
  destruct (takeChallenge _ _ _ _ _) as [ok c2] eqn:Et. cbn in Hg. subst c2. injection Hok as Hok <-.
  destruct ok; [|done]. cbn in Hok.
  assert (He : ∃ e, c !! cd_Challenge d = Some (mkChallenge purpose session e) ∧ now < e).
  { unfold takeChallenge in Et. destruct (c !! cd_Challenge d) as [[p s e]|]; [|done].
    injection Et as Et. cbn in Et. bool_hyps. subst. eauto. }
  destruct (negb (String.eqb (cd_Type d) typ) || cd_CrossOrigin d) eqn:Ety; [done|].
  destruct (negb (String.eqb (cd_Origin d) origin)) eqn:Eo; [done|]. by bool_hyps.
Qed.

(** ** Parsing authenticator data *)
Lemma slice_some b i j : (i ≤ j)%nat → (j ≤ length b)%nat → slice b i j = Some (take (j - i) (drop i b)).
Proof.
  intros Hij Hj. unfold slice.
  assert ((i <=? j)%nat = true) as -> by by apply Nat.leb_le.
  by assert ((j <=? length b)%nat = true) as -> by by apply Nat.leb_le.
Qed.
Ltac red_ad := cbn -[take drop bigEndian Nat.ltb Nat.leb Nat.eqb Nat.add slice Z.land].
(** [parseAuthData] never reads out of range, whatever bytes a browser sends, and accepts only
    data for this relying party from an authenticator that verified the user. *)
Theorem parseAuthData_safe (b : list Z) (rpID : string) :
  ∃ r, parseAuthData b rpID = Some r ∧
  match r with
  | Err _ => True
  | Ok ad => take 32 b = bytesOf (sha256 rpID)
             ∧ Z.land (ad_flags ad) flagUserPresent ≠ 0 ∧ Z.land (ad_flags ad) flagUserVerified ≠ 0
             ∧ ad_credentialID ad `sublist_of` b
  end.
Proof.
  unfold parseAuthData. destruct (length b <? 37)%nat eqn:El; [by eexists; split|]. bool_hyps.
  rewrite (slice_some b 0 32) by lia. red_ad. rewrite drop_0.
  destruct (bool_decide_reflect (take 32 b = bytesOf (sha256 rpID))) as [Hh|]; red_ad; [|by eexists; split].
  destruct (lookup_lt_is_Some_2 b 32) as [flags Hf]; [lia|]. rewrite Hf. red_ad.
  rewrite (slice_some b 33 37) by lia. red_ad.
  destruct ((Z.land flags flagUserPresent =? 0) || (Z.land flags flagUserVerified =? 0)) eqn:Eu; [by eexists; split|].
  bool_hyps. destruct (Z.land flags flagAttested =? 0); red_ad.
  - eexists. split; [done|]. red_ad. split_and!; try done. apply sublist_nil_l.
  - destruct (length b <? 55)%nat eqn:E55; [by eexists; split|]. bool_hyps. rewrite (slice_some b 53 55) by lia.
    red_ad.
    set (n := Z.to_nat (bigEndian _)). destruct ((n =? 0)%nat || (length b <? 55 + n)%nat) eqn:En; [by eexists; split|].
    bool_hyps. rewrite slice_some by lia. red_ad. eexists. split; [done|].
    red_ad. split_and!; try done. etrans; [apply sublist_take|apply sublist_drop].
Qed.

(** The bytes an authenticator sends (WebAuthn section 6.1). *)
Definition encodeAuthData (rpHash : list Z) (flags : Z) (count : list Z) (aaguid cred rest : list Z) : list Z :=
  rpHash ++ [flags] ++ count
  ++ (if Z.land flags flagAttested =? 0 then []
      else aaguid ++ [Z.of_nat (length cred) / 256; Z.of_nat (length cred) mod 256] ++ cred ++ rest).

Lemma bigEndian2 n : 0 ≤ n → bigEndian [n / 256; n mod 256] = n.
Proof. intros. cbn. pose proof (Z_div_mod_eq_full n 256). lia. Qed.
Lemma slice_prefix (pre mid post : list Z) :
  slice (pre ++ mid ++ post) (length pre) (length pre + length mid) = Some mid.
Proof.
  rewrite slice_some by (rewrite ?length_app; lia). f_equal.
  rewrite drop_app_length. replace (length pre + length mid - length pre)%nat with (length mid) by lia.
  by rewrite take_app_length.
Qed.

(** Registration data round trip: what an authenticator encodes for this relying party with
    the user verified, [parseAuthData] decodes: flags, counter and credential ID. *)
Theorem parseAuthData_roundtrip (rpID : string) (flags : Z) (count aaguid cred rest : list Z)
    (Hsha : length (bytesOf (sha256 rpID)) = 32%nat) (Hcount : length count = 4%nat)
    (Hguid : length aaguid = 16%nat) (Hcred : (0 < length cred)%nat)
    (Hup : Z.land flags flagUserPresent ≠ 0) (Huv : Z.land flags flagUserVerified ≠ 0)
    (Hat : Z.land flags flagAttested ≠ 0) :
  parseAuthData (encodeAuthData (bytesOf (sha256 rpID)) flags count aaguid cred rest) rpID
  = Some (Ok (mkAuthData flags (bigEndian count) cred)).
Proof.
  set (h := bytesOf (sha256 rpID)) in *. set (lenb := [Z.of_nat (length cred) / 256; Z.of_nat (length cred) mod 256]).
  set (b := encodeAuthData h flags count aaguid cred rest).
  apply Z.eqb_neq in Hat as Hat'. apply Z.eqb_neq in Hup as Hup'. apply Z.eqb_neq in Huv as Huv'.
  assert (Hb : b = h ++ [flags] ++ count ++ aaguid ++ lenb ++ cred ++ rest).
  { unfold b, encodeAuthData. by rewrite Hat', !app_assoc. }
  assert (Hlen : (55 + length cred ≤ length b)%nat).
  { rewrite Hb, !length_app, Hsha, Hcount, Hguid. cbn. lia. }
  assert (S1 : slice b 0 32 = Some h).
  { pose proof (slice_prefix [] h ([flags] ++ count ++ aaguid ++ lenb ++ cred ++ rest)) as E.
    cbn [length Nat.add] in E. by rewrite Hsha, app_nil_l, <-Hb in E. }
  assert (S2 : b !! 32%nat = Some flags).
  { rewrite Hb, <-Hsha. apply list_lookup_middle. done. }
  assert (S3 : slice b 33 37 = Some count).
  { pose proof (slice_prefix (h ++ [flags]) count (aaguid ++ lenb ++ cred ++ rest)) as E.
    rewrite length_app, Hsha, Hcount, <-app_assoc, <-Hb in E. exact E. }
  assert (S4 : slice b 53 55 = Some lenb).
  { pose proof (slice_prefix (h ++ [flags] ++ count ++ aaguid) lenb (cred ++ rest)) as E.
    rewrite !length_app, Hsha, Hcount, Hguid, <-!app_assoc, <-Hb in E. exact E. }
  assert (S5 : slice b 55 (55 + length cred) = Some cred).
  { pose proof (slice_prefix (h ++ [flags] ++ count ++ aaguid ++ lenb) cred rest) as E.
    rewrite !length_app, Hsha, Hcount, Hguid, <-!app_assoc, <-Hb in E. exact E. }
  unfold parseAuthData. assert ((length b <? 37)%nat = false) as -> by (apply Nat.ltb_ge; lia).
  rewrite S1. red_ad. rewrite bool_decide_eq_true_2 by done. red_ad.
  rewrite S2. red_ad. rewrite S3. red_ad. rewrite Hup', Huv', Hat'. red_ad.
  assert ((length b <? 55)%nat = false) as -> by (apply Nat.ltb_ge; lia).
  rewrite S4. red_ad. unfold lenb. rewrite bigEndian2, Nat2Z.id by lia.
  assert ((length cred =? 0)%nat = false) as -> by (apply Nat.eqb_neq; lia).
  assert ((length b <? 55 + length cred)%nat = false) as -> by (apply Nat.ltb_ge; lia).
  red_ad. by rewrite S5.
Qed.
End webauthn.

(** ** Witnesses *)
Lemma challenges_single_use_witness :
  ∃ s, cs_accepted s = ["k"%string] ∧ (∀ k, (countStr k (cs_accepted s) ≤ countStr k (cs_issued s))%nat)
    ∧ (size (cs_map s) ≤ maxChallenges)%nat.
Proof.
  eexists. split; [|apply (@challenges_single_use demoLib (λ m, reflexivity _))].
  2: { eapply rtc_l; [apply (ch_add _ _ _ "login" "" 0 "k")|].
       eapply rtc_l; [apply (ch_take _ _ _ "k" "login" "" 5)|]. apply rtc_refl. }
  vm_compute. reflexivity.
Defined.
Lemma parseAuthData_roundtrip_witness :
  @parseAuthData demoLib (encodeAuthData (bytesOf "0123456789abcdef0123456789abcdef") 69 [0; 0; 1; 2]
    (replicate 16 0) [7; 8; 9] []) "0123456789abcdef0123456789abcdef"
  = Some (Ok (mkAuthData 69 258 [7; 8; 9])).
Proof.
  apply (@parseAuthData_roundtrip demoLib "0123456789abcdef0123456789abcdef" 69 [0; 0; 1; 2] (replicate 16 0) [7; 8; 9] []);
    vm_compute; first [reflexivity | discriminate | lia].
Defined.
