(* ===== verification/Protocol.v ===== *)
(** * Messages between hub and agents, and JSON ([internal/protocol])

    Values the hub encodes are [json] terms. Encoding and decoding text are parameters:
    [marshal] is [json.Marshal], and [unmarshal] gives the variable after [json.Unmarshal]
    and whether [err == nil]. *)
From Stdlib Require Import ZArith Ascii String.
From S2P Require Import Prelude GoStrings Float64.
From stdpp Require Import base strings list.
Local Open Scope string_scope.
Local Open Scope list_scope.
Local Open Scope Z_scope.

#[warnings="-register-all"]
Inductive json : Type :=
| JNull
| JBool (b : bool)
| JInt (n : Z)
| JFloat (f : f64)
| JStr (s : string)
| JArr (l : list json)
| JObj (fields : list (string * json)).

Class Marshal := marshal : json → string.
Class Unmarshal (A : Type) := unmarshal : string → A * bool.
Definition JOptInt (o : option Z) : json := match o with Some n => JInt n | None => JNull end.

Definition ProtocolVersion : Z := 1.
Definition ReqHello : string := "hello".
Definition ReqMetrics : string := "metrics".
Definition ReqInterval : string := "interval".
Definition ReqWake : string := "wake".
Definition ReqProcesses : string := "processes".
Definition ReqSignal : string := "signal".
Definition ReqPower : string := "power".
Definition ReqServices : string := "services".
Definition ReqService : string := "service".
Definition ReqScript : string := "script@lotse".
Definition FeatureShell : string := "shell".
Definition FeatureWake : string := "wake".
Definition FeatureUpdate : string := "update".

Record NetInterface := mkNetInterface { ni_Name : string; ni_MAC : string; ni_Addrs : list string }.
Record SystemInfo := mkSystemInfo {
  si_Hostname : string;
  si_OS : string;
  si_Platform : string;
  si_PlatformVersion : string;
  si_Kernel : string;
  si_Arch : string;
  si_CPUModel : string;
  si_Cores : Z;
  si_MemTotal : Z;
  si_Interfaces : list NetInterface;
}.
Record Hello := mkHello {
  he_Protocol : Z;
  he_AgentVersion : string;
  he_Token : string;
  he_Info : SystemInfo;
  he_Features : list string;
}.
Record Filesystem := mkFilesystem {
  fs_Mount : string;
  fs_Device : string;
  fs_Type : string;
  fs_Used : Z;
  fs_Total : Z;
}.
Record Container := mkContainer {
  ct_ID : string;
  ct_Name : string;
  ct_Image : string;
  ct_State : string;
  ct_Status : string;
  ct_CPU : f64;
  ct_Mem : Z;
  ct_MemLimit : Z;
  ct_NetRx : f64;
  ct_NetTx : f64;
}.
Record Battery := mkBattery { bt_Percent : f64; bt_State : string }.
Record Metrics := mkMetrics {
  me_Time : Z;
  me_CPU : f64;
  me_MemUsed : Z;
  me_MemTotal : Z;
  me_SwapUsed : Z;
  me_SwapTotal : Z;
  me_DiskUsed : Z;
  me_DiskTotal : Z;
  me_DiskRead : f64;
  me_DiskWrite : f64;
  me_NetRx : f64;
  me_NetTx : f64;
  me_Load1 : f64;
  me_Load5 : f64;
  me_Load15 : f64;
  me_Uptime : Z;
  me_Battery : option Battery;
  me_Filesystems : list Filesystem;
  me_Containers : list Container;
}.

(** ** Encodings; fields with [omitempty] disappear when empty *)
Definition ifaceJSON (i : NetInterface) : json :=
  JObj [("name", JStr (ni_Name i)); ("mac", JStr (ni_MAC i)); ("addrs", JArr (map JStr (ni_Addrs i)))].
Definition infoJSON (i : SystemInfo) : json :=
  JObj ([("hostname", JStr (si_Hostname i)); ("os", JStr (si_OS i)); ("platform", JStr (si_Platform i));
        ("platform_version", JStr (si_PlatformVersion i)); ("kernel", JStr (si_Kernel i));
        ("arch", JStr (si_Arch i)); ("cpu_model", JStr (si_CPUModel i)); ("cores", JInt (si_Cores i));
        ("mem_total", JInt (si_MemTotal i))]
        ++ match si_Interfaces i with [] => [] | l => [("interfaces", JArr (map ifaceJSON l))] end).
Definition fsJSON (f : Filesystem) : json :=
  JObj [("mount", JStr (fs_Mount f)); ("device", JStr (fs_Device f)); ("type", JStr (fs_Type f));
        ("used", JInt (fs_Used f)); ("total", JInt (fs_Total f))].
Definition containerJSON (c : Container) : json :=
  JObj [("id", JStr (ct_ID c)); ("name", JStr (ct_Name c)); ("image", JStr (ct_Image c));
        ("state", JStr (ct_State c)); ("status", JStr (ct_Status c)); ("cpu", JFloat (ct_CPU c));
        ("mem", JInt (ct_Mem c)); ("mem_limit", JInt (ct_MemLimit c)); ("net_rx", JFloat (ct_NetRx c));
        ("net_tx", JFloat (ct_NetTx c))].
Definition metricsJSON (m : Metrics) : json :=
  JObj ([("t", JInt (me_Time m)); ("cpu", JFloat (me_CPU m)); ("mem_used", JInt (me_MemUsed m));
         ("mem_total", JInt (me_MemTotal m)); ("swap_used", JInt (me_SwapUsed m));
         ("swap_total", JInt (me_SwapTotal m)); ("disk_used", JInt (me_DiskUsed m));
         ("disk_total", JInt (me_DiskTotal m)); ("disk_read", JFloat (me_DiskRead m));
         ("disk_write", JFloat (me_DiskWrite m)); ("net_rx", JFloat (me_NetRx m));
         ("net_tx", JFloat (me_NetTx m)); ("load1", JFloat (me_Load1 m)); ("load5", JFloat (me_Load5 m));
         ("load15", JFloat (me_Load15 m)); ("uptime", JInt (me_Uptime m))]
        ++ match me_Battery m with
           | None => []
           | Some b => [("battery", JObj [("percent", JFloat (bt_Percent b)); ("state", JStr (bt_State b))])]
           end
        ++ match me_Filesystems m with [] => [] | l => [("fs", JArr (map fsJSON l))] end
        ++ match me_Containers m with [] => [] | l => [("containers", JArr (map containerJSON l))] end).
