(* ===== verification/JSON.v ===== *)
(** * JSON text: what [encoding/json] writes and reads

    The program exchanges and stores JSON through [json.Marshal], [json.MarshalIndent] and
    [json.Unmarshal]. Here they work on bytes: [encode] writes a [json] term with the escapes of
    the library (HTML characters, U+2028 and U+2029, invalid UTF-8) in the compact and in the
    indented layout, [parse] reads any text by the grammar of the scanner and gives a [jval], and
    the decoders store a [jval] in a variable as the library does: fields by name or by a name equal
    under case folding, [null] changes nothing, a value of another type is an error that
    does not stop the others. The text of a [float64] is a parameter. *)
From Stdlib Require Import ZArith Lia Ascii String.
From S2P Require Import Prelude GoStrings Float64 Protocol.
From stdpp Require Import base strings pretty list.
Local Open Scope string_scope.
Local Open Scope list_scope.
Local Open Scope Z_scope.

(** ** Characters of a byte sequence

    A character is the bytes [utf8.DecodeRune] takes at once; a byte that is not part of a valid
    encoding is a character of its own. *)
Fixpoint charsOf (fuel : nat) (p : list Z) : list (list Z) :=
  match fuel, p with
  | S f, _ :: _ => take (runeWidth p) p :: charsOf f (drop (runeWidth p) p)
  | _, _ => []
  end.
Definition chars (p : list Z) : list (list Z) := charsOf (length p) p.
(** The encoding of U+FFFD, which stands for a byte that is not valid UTF-8. *)
Definition replacement : list Z := [239; 191; 189].
Definition validChar (c : list Z) : list Z :=
  match c with [b] => if b <? 128 then [b] else replacement | _ => c end.
(** [strings.ToValidUTF8] byte by byte: what is left of a text after it went through JSON. *)
Definition toValid (p : list Z) : list Z := flat_map validChar (chars p).
(** [utf8.Valid]. *)
Definition validUTF8 (p : list Z) : bool := forallb (λ c, match c with [b] => b <? 128 | _ => true end) (chars p).

(** ** Writing *)
Definition hexByte (n : Z) : Z := if n <? 10 then n + 48 else n + 87.
Definition unicodeEscape (n : Z) : list Z :=
  [92; 117; hexByte (n / 4096 mod 16); hexByte (n / 256 mod 16); hexByte (n / 16 mod 16); hexByte (n mod 16)].
(** Characters below U+0080 that need an escape: controls, quotes, backslashes, and <, > and &. *)
Definition escapeByte (b : Z) : list Z :=
  if (b =? 34) || (b =? 92) then [92; b]
  else if b =? 8 then [92; 98]
  else if b =? 12 then [92; 102]
  else if b =? 10 then [92; 110]
  else if b =? 13 then [92; 114]
  else if b =? 9 then [92; 116]
  else if (b <? 32) || (b =? 60) || (b =? 62) || (b =? 38) then unicodeEscape b
  else [b].
Definition encodeChar (c : list Z) : list Z :=
  match c with
  | [b] => if b <? 128 then escapeByte b else unicodeEscape 65533
  | _ => if bool_decide (c = [226; 128; 168]) then unicodeEscape 8232
         else if bool_decide (c = [226; 128; 169]) then unicodeEscape 8233
         else c
  end.
Definition encodeString (p : list Z) : list Z := 34 :: flat_map encodeChar (chars p) ++ [34].

(** The layout: what starts a line at a depth, and what follows a colon. *)
Record layout := mkLayout { lay_line : nat → list Z; lay_colon : list Z }.
(** [json.Marshal], and [json.MarshalIndent] with two spaces. *)
Definition compactLayout : layout := mkLayout (λ _, []) [].
Definition indentLayout : layout := mkLayout (λ lvl, 10 :: replicate (2 * lvl) 32) [32].

Class FloatText := floatText : f64 → string.
Definition intText (n : Z) : list Z := bytesOf (itoa n).
Definition nullText : list Z := [110; 117; 108; 108].
Definition trueText : list Z := [116; 114; 117; 101].
Definition falseText : list Z := [102; 97; 108; 115; 101].

Section writing.
Context `{FloatText} (y : layout).
Fixpoint encode (lvl : nat) (j : json) : list Z :=
  match j with
  | JNull => nullText
  | JBool b => if b then trueText else falseText
  | JInt n => intText n
  | JFloat f => bytesOf (floatText f)
  | JStr s => encodeString (bytesOf s)
  | JArr [] => [91; 93]
  | JArr (x :: l) =>
    91 :: lay_line y (S lvl) ++ encode (S lvl) x
    ++ flat_map (λ x, 44 :: lay_line y (S lvl) ++ encode (S lvl) x) l ++ lay_line y lvl ++ [93]
  | JObj [] => [123; 125]
  | JObj ((k, x) :: l) =>
    123 :: lay_line y (S lvl) ++ encodeString (bytesOf k) ++ 58 :: lay_colon y ++ encode (S lvl) x
    ++ flat_map (λ kx, 44 :: lay_line y (S lvl) ++ encodeString (bytesOf (fst kx)) ++ 58 :: lay_colon y ++ encode (S lvl) (snd kx)) l
    ++ lay_line y lvl ++ [125]
  end.
End writing.
(** The texts of a value, as the classes of [Protocol] have them. *)
Definition jsonMarshal `{FloatText} : Marshal := λ j, stringOf (encode compactLayout 0 j).
Definition jsonMarshalIndent `{FloatText} : Marshal := λ j, stringOf (encode indentLayout 0 j).

(** ** Reading: the values of a text; numbers stay literals *)
#[warnings="-register-all"]
Inductive jval : Type :=
| VNull
| VBool (b : bool)
| VNum (lit : list Z)
| VStr (s : list Z)
| VArr (l : list jval)
| VObj (members : list (list Z * jval)).

Definition isWs (b : Z) : bool := (b =? 32) || (b =? 9) || (b =? 10) || (b =? 13).
Fixpoint skipWs (l : list Z) : list Z :=
  match l with b :: r => if isWs b then skipWs r else l | [] => [] end.

(** The text after a given byte. *)
Definition eat (c : Z) (l : list Z) : option (list Z) :=
  match l with b :: r => if b =? c then Some r else None | [] => None end.

Definition hexVal (b : Z) : option Z :=
  if (48 <=? b) && (b <=? 57) then Some (b - 48)
  else if (97 <=? b) && (b <=? 102) then Some (b - 87)
  else if (65 <=? b) && (b <=? 70) then Some (b - 55)
  else None.
(** Four hexadecimal digits. *)
Definition hex4 (l : list Z) : option (Z * list Z) :=
  match l with
  | a :: b :: c :: d :: r =>
    match hexVal a, hexVal b, hexVal c, hexVal d with
    | Some a, Some b, Some c, Some d => Some (4096 * a + 256 * b + 16 * c + d, r)
    | _, _, _, _ => None
    end
  | _ => None
  end.
(** [utf8.AppendRune] of a code point that is not a surrogate. *)
Definition encodeRune (n : Z) : list Z :=
  if n <? 128 then [n]
  else if n <? 2048 then [192 + n / 64; 128 + n mod 64]
  else if n <? 65536 then [224 + n / 4096; 128 + n / 64 mod 64; 128 + n mod 64]
  else [240 + n / 262144; 128 + n / 4096 mod 64; 128 + n / 64 mod 64; 128 + n mod 64].
(** The character of an escape [\uXXXX]: two halves of a surrogate pair make one character, a half
    alone is U+FFFD. [r] is what follows the four digits. *)
Definition escapedRune (n : Z) (r : list Z) : list Z * list Z :=
  if (n <? 55296) || (57344 <=? n) then (encodeRune n, r)
  else match stripPrefix [92; 117] r ≫= hex4 with
       | Some (m, r2) =>
         if (n <? 56320) && (56320 <=? m) && (m <? 57344)
         then (encodeRune ((n - 55296) * 1024 + (m - 56320) + 65536), r2) else (replacement, r)
       | None => (replacement, r)
       end.
Definition simpleEscape (c : Z) : option Z :=
  if (c =? 34) || (c =? 92) || (c =? 47) then Some c
  else if c =? 98 then Some 8
  else if c =? 102 then Some 12
  else if c =? 110 then Some 10
  else if c =? 114 then Some 13
  else if c =? 116 then Some 9
  else None.
(** The next character of a string literal, as bytes; [None] is a syntax error. *)
Definition unquoteChar (l : list Z) : option (list Z * list Z) :=
  match l with
  | [] => None
  | b :: r =>
    if b =? 92 then
      match r with
      | [] => None
      | c :: r' =>
        if c =? 117 then match hex4 r' with Some (n, r2) => Some (escapedRune n r2) | None => None end
        else match simpleEscape c with Some x => Some ([x], r') | None => None end
      end
    else if b <? 32 then None
    else Some (validChar (take (runeWidth l) l), drop (runeWidth l) l)
  end.
(** The rest of a string literal after its opening quote. *)
Fixpoint unquote (fuel : nat) (l : list Z) : option (list Z * list Z) :=
  match fuel, l with
  | S f, b :: r =>
    if b =? 34 then Some ([], r)
    else match unquoteChar l with
         | Some (c, l') =>
           match unquote f l' with Some (s, r') => Some (c ++ s, r') | None => None end
         | None => None
         end
  | _, _ => None
  end.

Definition isDigit (b : Z) : bool := (48 <=? b) && (b <=? 57).
Fixpoint spanDigits (l : list Z) : list Z * list Z :=
  match l with
  | b :: r => if isDigit b then let '(d, r') := spanDigits r in (b :: d, r') else ([], l)
  | [] => ([], [])
  end.
(** One digit or more. *)
Definition digits1 (l : list Z) : option (list Z * list Z) :=
  match spanDigits l with ([], _) => None | dr => Some dr end.
Definition intPart (l : list Z) : option (list Z * list Z) :=
  match eat 48 l with Some r => Some ([48], r) | None => digits1 l end.
Definition fracPart (l : list Z) : option (list Z * list Z) :=
  match eat 46 l with
  | Some r => match digits1 r with Some (d, r') => Some (46 :: d, r') | None => None end
  | None => Some ([], l)
  end.
Definition expPart (l : list Z) : option (list Z * list Z) :=
  match l with
  | e :: r =>
    if (e =? 101) || (e =? 69) then
      let '(sign, r1) := match r with
                         | s :: r1 => if (s =? 43) || (s =? 45) then ([s], r1) else ([], r)
                         | [] => ([], [])
                         end in
      match digits1 r1 with Some (d, r2) => Some (e :: sign ++ d, r2) | None => None end
    else Some ([], l)
  | [] => Some ([], [])
  end.
Definition number (l : list Z) : option (list Z * list Z) :=
  let '(sign, r) := match eat 45 l with Some r => ([45], r) | None => ([], l) end in
  match intPart r with
  | None => None
  | Some (i, r1) =>
    match fracPart r1 with
    | None => None
    | Some (f, r2) =>
      match expPart r2 with None => None | Some (e, r3) => Some (sign ++ i ++ f ++ e, r3) end
    end
  end.
Definition scalar (l : list Z) : option (jval * list Z) :=
  match stripPrefix nullText l, stripPrefix trueText l, stripPrefix falseText l with
  | Some r, _, _ => Some (VNull, r)
  | _, Some r, _ => Some (VBool true, r)
  | _, _, Some r => Some (VBool false, r)
  | _, _, _ => match number l with Some (n, r) => Some (VNum n, r) | None => None end
  end.
Definition stringLit (l : list Z) : option (list Z * list Z) :=
  match eat 34 l with Some r => unquote (length r) r | None => None end.

(** Arrays and objects may be nested 10000 deep. *)
Definition maxNestingDepth : Z := 10000.
Fixpoint value (fuel : nat) (depth : Z) (l : list Z) : option (jval * list Z) :=
  match fuel with
  | O => None
  | S f =>
    match skipWs l with
    | [] => None
    | b :: r =>
      if b =? 34 then match unquote (length r) r with Some (s, r') => Some (VStr s, r') | None => None end
      else if b =? 91 then
        if maxNestingDepth <=? depth then None else
        match eat 93 (skipWs r) with
        | Some r' => Some (VArr [], r')
        | None => match elements f (depth + 1) r with Some (xs, r') => Some (VArr xs, r') | None => None end
        end
      else if b =? 123 then
        if maxNestingDepth <=? depth then None else
        match eat 125 (skipWs r) with
        | Some r' => Some (VObj [], r')
        | None => match members f (depth + 1) r with Some (xs, r') => Some (VObj xs, r') | None => None end
        end
      else scalar (b :: r)
    end
  end
with elements (fuel : nat) (depth : Z) (l : list Z) : option (list jval * list Z) :=
  match fuel with
  | O => None
  | S f =>
    match value f depth l with
    | None => None
    | Some (x, r) =>
      match skipWs r with
      | [] => None
      | b :: r' =>
        if b =? 44 then match elements f depth r' with Some (xs, r'') => Some (x :: xs, r'') | None => None end
        else if b =? 93 then Some ([x], r') else None
      end
    end
  end
with members (fuel : nat) (depth : Z) (l : list Z) : option (list (list Z * jval) * list Z) :=
  match fuel with
  | O => None
  | S f =>
    match stringLit (skipWs l) with
    | None => None
    | Some (k, r) =>
      match eat 58 (skipWs r) with
      | None => None
      | Some r1 =>
        match value f depth r1 with
        | None => None
        | Some (x, r2) =>
          match skipWs r2 with
          | [] => None
          | b :: r' =>
            if b =? 44 then match members f depth r' with Some (xs, r'') => Some ((k, x) :: xs, r'') | None => None end
            else if b =? 125 then Some ([(k, x)], r') else None
          end
        end
      end
    end
  end.
(** A text with exactly one value. Every call consumes a byte or goes from an array or object to
    its first element, so twice the length is enough fuel ([value_fuel]). *)
Definition parse (l : list Z) : option jval :=
  match value (2 * length l + 1) 0 l with
  | Some (v, r) => match skipWs r with [] => Some v | _ => None end
  | None => None
  end.

(** ** Storing values in variables

    A decoder takes the value and the variable, and gives the variable and whether there was no error. *)
Definition decoder (A : Type) : Type := jval → A → A * bool.
Definition decodeString : decoder string := λ v s,
  match v with VNull => (s, true) | VStr p => (stringOf p, true) | _ => (s, false) end.
Definition decodeBool : decoder bool := λ v x,
  match v with VNull => (x, true) | VBool b => (b, true) | _ => (x, false) end.
(** A signed integer of [bits] bits: a literal with a fraction or an exponent, or out of range, is an error. *)
Definition decodeInt (bits : Z) : decoder Z := λ v x,
  match v with
  | VNull => (x, true)
  | VNum lit => let '(n, ok) := ParseInt bits (stringOf lit) in if (ok : bool) then (n, true) else (x, false)
  | _ => (x, false)
  end.
(** An unsigned one: a sign is an error. *)
Definition decodeUint (bits : Z) : decoder Z := λ v x,
  match v with
  | VNull => (x, true)
  | VNum lit => match parseDigits (stringOf lit) with
                | Some n => if n <? 2 ^ bits then (n, true) else (x, false)
                | None => (x, false)
                end
  | _ => (x, false)
  end.
(** The elements of an array go to the elements of the slice that are there, then to zero values. *)
Fixpoint decodeElems {A} (zero : A) (dec : decoder A) (vs : list jval) (old : list A) : list A * bool :=
  match vs with
  | [] => ([], true)
  | v :: vs =>
    let '(x, ok) := dec v (default zero (head old)) in
    let '(xs, oks) := decodeElems zero dec vs (tail old) in
    (x :: xs, ok && oks)
  end.
Definition decodeSlice {A} (zero : A) (dec : decoder A) : decoder (list A) := λ v l,
  match v with VNull => ([], true) | VArr vs => decodeElems zero dec vs l | _ => (l, false) end.

(** The fields of a struct: the JSON name and how a value is stored. *)
Definition fieldSpec (A : Type) : Type := string * decoder A.
Definition field {A B} (name : string) (get : A → B) (set : B → A → A) (dec : decoder B) : fieldSpec A :=
  (name, λ v a, let '(x, ok) := dec v (get a) in (set x a, ok)).
(** The position of a key's field: the one of that name, or else the first one whose name is equal under folding. *)
Fixpoint indexOf {A} (p : A → bool) (l : list A) : option nat :=
  match l with
  | [] => None
  | x :: l => if p x then Some 0%nat else match indexOf p l with Some i => Some (S i) | None => None end
  end.
Definition fieldIndex (names : list string) (k : list Z) : option nat :=
  match indexOf (λ n, bool_decide (bytesOf n = k)) names with
  | Some i => Some i
  | None => indexOf (λ n, bool_decide (foldBytes k = foldBytes (bytesOf n))) names
  end.
Definition findField {A} (fields : list (fieldSpec A)) (k : list Z) : option (decoder A) :=
  match fieldIndex (map fst fields) k with
  | Some i => match nth_error fields i with Some f => Some (snd f) | None => None end
  | None => None
  end.
Fixpoint decodeMembers {A} (fields : list (fieldSpec A)) (ms : list (list Z * jval)) (a : A) : A * bool :=
  match ms with
  | [] => (a, true)
  | (k, v) :: ms =>
    let '(a1, ok) := match findField fields k with Some dec => dec v a | None => (a, true) end in
    let '(a2, oks) := decodeMembers fields ms a1 in
    (a2, ok && oks)
  end.
Definition decodeStruct {A} (fields : list (fieldSpec A)) : decoder A := λ v a,
  match v with VNull => (a, true) | VObj ms => decodeMembers fields ms a | _ => (a, false) end.

Lemma decodeMembers_step {A} (fields : list (fieldSpec A)) i f k v ms a :
  fieldIndex (map fst fields) k = Some i → nth_error fields i = Some f →
  decodeMembers fields ((k, v) :: ms) a =
    let '(a1, ok) := snd f v a in let '(a2, oks) := decodeMembers fields ms a1 in (a2, ok && oks).
Proof. intros Ei Ef. cbn [decodeMembers]. unfold findField. by rewrite Ei, Ef. Qed.

(** [json.Unmarshal] into a variable that holds [a]: a text that is not JSON leaves it alone. *)
Definition unmarshalInto {A} (dec : decoder A) (a : A) (s : string) : A * bool :=
  match parse (bytesOf s) with Some v => dec v a | None => (a, false) end.

(** ** Bytes and characters *)
Lemma byte_of_ascii_of b : isByte b → byte_of (ascii_of b) = b.
Proof. unfold isByte, byte_of, ascii_of. intros Hb. rewrite N_ascii_embedding by lia. lia. Qed.
Lemma bytesOf_cons a s : bytesOf (String a s) = byte_of a :: bytesOf s.
Proof. done. Qed.
Lemma bytesOf_app s t : bytesOf (s ++ t) = bytesOf s ++ bytesOf t.
Proof. induction s as [|a s IH]; [done|]. by rewrite append_cons, !bytesOf_cons, IH. Qed.

(** A character: one byte, or a sequence [utf8.DecodeRune] takes whatever follows. *)
Definition multiByte (c : list Z) : Prop :=
  (∃ b r, c = b :: r ∧ 194 ≤ b) ∧ (1 < length c)%nat ∧ ∀ r, runeWidth (c ++ r) = length c.
Definition isChar (c : list Z) : Prop := Forall isByte c ∧ ((∃ b, c = [b]) ∨ multiByte c).
Lemma runeFirst_cases b : ∃ n lo hi, runeFirst b = (n, lo, hi) ∧ (n = 1 ∨ n = 2 ∨ n = 3 ∨ n = 4)%nat ∧ (n ≠ 1%nat → 194 ≤ b).
Proof. unfold runeFirst. repeat case_match; (eexists _, _, _; split_and!; [done|tauto|lia]). Qed.
Lemma firstChar p : p ≠ [] → (∃ b, take (runeWidth p) p = [b]) ∨ multiByte (take (runeWidth p) p).
Proof.
  destruct p as [|b p]; [done|]. intros _. destruct (runeFirst_cases b) as (n & lo & hi & E & Hn & Hb).
  assert (H1 : runeWidth (b :: p) = 1%nat → ∃ x, take (runeWidth (b :: p)) (b :: p) = [x]) by (intros ->; by exists b).
  destruct (decide (runeWidth (b :: p) = 1%nat)) as [|Hw]; [by left; auto|clear H1; right].
  assert (Hm : ∃ q s, b :: p = q ++ s ∧ length q = runeWidth (b :: p) ∧ ∀ r, runeWidth (q ++ r) = length q).
  { destruct Hn as [-> | [-> | [-> | ->]]]; unfold runeWidth in Hw |- *; rewrite E in Hw |- *; [done|..].
    - destruct p as [|b1 p]; [done|]. case_match eqn:Ek; [|done]. exists [b; b1], p. split_and!; [done..|].
      intros r. cbn [app]. by rewrite E, Ek.
    - destruct p as [|b1 [|b2 p]]; [done..|]. case_match eqn:Ek; [|done]. exists [b; b1; b2], p. split_and!; [done..|].
      intros r. cbn [app]. by rewrite E, Ek.
    - destruct p as [|b1 [|b2 [|b3 p]]]; [done..|]. case_match eqn:Ek; [|done]. exists [b; b1; b2; b3], p. split_and!; [done..|].
      intros r. cbn [app]. by rewrite E, Ek. }
  destruct Hm as (q & s & Hq & Hl & Hr). rewrite <-Hl, Hq, take_app_length.
  pose proof (runeWidth_pos b p) as Hpos. split_and!; [|lia|done].
  destruct q as [|b' q]; [cbn [length] in Hl; lia|]. exists b', q. split; [done|]. cbn in Hq. simplify_eq. apply Hb. intros ->.
  apply Hw. unfold runeWidth. by rewrite E.
Qed.
Lemma charsOf_spec f p : (length p ≤ f)%nat → Forall isByte p → concat (charsOf f p) = p ∧ Forall isChar (charsOf f p).
Proof.
  revert p. induction f as [|f IH]; intros [|b p] Hf Hp; cbn [charsOf length] in *; [by split|lia|by split|].
  pose proof (runeWidth_pos b p) as Hpos.
  destruct (IH (drop (runeWidth (b :: p)) (b :: p))) as [Hc Hall]; [rewrite length_drop; cbn [length]; lia|by apply Forall_drop|].
  split; [cbn [concat]; by rewrite Hc, take_drop|]. constructor; [|done]. split; [by apply Forall_take|by apply firstChar].
Qed.
Lemma chars_isChar s : Forall isChar (chars (bytesOf s)).
Proof. apply charsOf_spec; [done|apply bytesOf_isByte]. Qed.
(** Text that is valid UTF-8 is not changed. *)
Lemma toValid_valid p : Forall isByte p → validUTF8 p = true → toValid p = p.
Proof.
  intros Hp. destruct (charsOf_spec (length p) p (le_n _) Hp) as [Hc Hall]. fold (chars p) in Hc, Hall.
  unfold validUTF8, toValid. intros Hv. rewrite <-Hc at 2. clear Hc Hall Hp.
  induction (chars p) as [|c cs IH]; [done|]. cbn [forallb] in Hv. apply andb_true_iff in Hv as [Hc Hv]. cbn [flat_map concat]. rewrite IH by done. f_equal.
  unfold validChar. destruct c as [|b [|b1 c]]; [done| |done]. by destruct (b <? 128).
Qed.

(** ** Strings are read back *)
Lemma hexVal_hexDigit d : 0 ≤ d < 16 → hexVal (hexByte d) = Some d.
Proof. unfold hexVal, hexByte. intros Hd. repeat case_match; f_equal; bool_hyps; lia. Qed.
Lemma hex4_unicodeEscape n r : 0 ≤ n < 65536 →
  hex4 (hexByte (n / 4096 mod 16) :: hexByte (n / 256 mod 16) :: hexByte (n / 16 mod 16) :: hexByte (n mod 16) :: r) = Some (n, r).
Proof.
  intros Hn. unfold hex4. rewrite !hexVal_hexDigit by (apply Z.mod_pos_bound; lia). do 2 f_equal.
  Z.to_euclidean_division_equations. lia.
Qed.
Lemma unquoteChar_unicode n r : 0 ≤ n < 55296 ∨ 57344 ≤ n < 65536 → unquoteChar (unicodeEscape n ++ r) = Some (encodeRune n, r).
Proof.
  intros Hn. unfold unicodeEscape. cbn [app]. unfold unquoteChar. cbn [Z.eqb Pos.eqb]. rewrite hex4_unicodeEscape by lia.
  unfold escapedRune. by replace ((n <? 55296) || (57344 <=? n)) with true by (destruct (Z.ltb_spec n 55296), (Z.leb_spec 57344 n); [done..|lia]).
Qed.
Lemma runeWidth_ascii b r : b < 194 → runeWidth (b :: r) = 1%nat.
Proof. intros Hb. unfold runeWidth, runeFirst. by rewrite (proj2 (Z.ltb_lt _ _) Hb). Qed.
Lemma unquoteChar_escape b r : 0 ≤ b < 128 → unquoteChar (escapeByte b ++ r) = Some ([b], r).
Proof.
  intros Hb. unfold escapeByte. repeat case_match; bool_hyps; subst; try done.
  - destruct (decide (b = 34)) as [->|]; [done|]. destruct (decide (b = 92)) as [->|]; [done|]. lia.
  - rewrite unquoteChar_unicode by lia. unfold encodeRune. by rewrite (proj2 (Z.ltb_lt _ _)) by lia.
  - cbn [app]. unfold unquoteChar. rewrite runeWidth_ascii by lia. cbn [take drop validChar].
    rewrite (proj2 (Z.eqb_neq b 92)), (proj2 (Z.ltb_ge b 32)), (proj2 (Z.ltb_lt b 128)) by lia. done.
Qed.
Lemma unquoteChar_encode c r : isChar c → unquoteChar (encodeChar c ++ r) = Some (validChar c, r).
Proof.
  intros [Hb [[b ->] | ((b & c' & -> & Hb') & Hl & Hw)]].
  - apply Forall_cons_1 in Hb as [Hb _]. cbn [encodeChar validChar]. destruct (Z.ltb_spec b 128).
    + apply unquoteChar_escape. destruct Hb. by split.
    + by rewrite unquoteChar_unicode by lia.
  - destruct c' as [|b1 c']; [cbn in Hl; lia|]. unfold encodeChar. repeat case_bool_decide; simplify_eq; [by rewrite unquoteChar_unicode by lia..|].
    specialize (Hw r). unfold unquoteChar. cbn [app] in Hw |- *. rewrite Hw. rewrite (proj2 (Z.eqb_neq b 92)), (proj2 (Z.ltb_ge b 32)) by lia.
    rewrite (take_app_length (b :: b1 :: c') r : take _ (b :: b1 :: c' ++ r) = _), (drop_app_length (b :: b1 :: c') r : drop _ (b :: b1 :: c' ++ r) = _). done.
Qed.
Lemma encodeChar_head c : isChar c → ∃ b l, encodeChar c = b :: l ∧ b ≠ 34.
Proof.
  intros [Hb [[b ->] | ((b & c' & -> & Hb') & Hl & Hw)]].
  - cbn [encodeChar]. destruct (b <? 128); [|by eexists _, _].
    unfold escapeByte. repeat case_match; bool_hyps; (eexists _, _; split; [done|lia]).
  - unfold encodeChar. destruct c' as [|b1 c']; [cbn in Hl; lia|]. repeat case_bool_decide; (eexists _, _; split; [done|lia]).
Qed.
Lemma unquote_encode cs f r : Forall isChar cs → (length (flat_map encodeChar cs) < f)%nat →
  unquote f (flat_map encodeChar cs ++ 34 :: r) = Some (flat_map validChar cs, r).
Proof.
  intros Hcs. revert f. induction Hcs as [|c cs Hc _ IH]; intros f Hf; (destruct f as [|f]; [cbn in Hf; lia|]); [done|].
  cbn [flat_map] in *. rewrite <-app_assoc. destruct (encodeChar_head c Hc) as (b & l & E & Hb).
  assert (Hq := unquoteChar_encode c (flat_map encodeChar cs ++ 34 :: r) Hc). rewrite E in Hq, Hf |- *. cbn [app length unquote] in *.
  rewrite (proj2 (Z.eqb_neq b 34)), Hq by done. rewrite length_app in Hf. by rewrite IH by lia.
Qed.

(** ** Numbers are read back *)
(** What follows a number in a text: nothing that could belong to it. *)
Definition stops (r : list Z) : bool :=
  match r with b :: _ => negb (isDigit b || (b =? 46) || (b =? 101) || (b =? 69)) | [] => true end.
Definition numeric (lit : list Z) : Prop := ∀ r, stops r = true → number (lit ++ r) = Some (lit, r).
Lemma spanDigits_app ds r : forallb isDigit ds = true → stops r = true → spanDigits (ds ++ r) = (ds, r).
Proof.
  intros Hds Hr. induction ds as [|d ds IH]; cbn [app spanDigits forallb] in *.
  - destruct r as [|b r]; [done|]. cbn in Hr |- *. by destruct (isDigit b).
  - apply andb_true_iff in Hds as [-> Hds]. by rewrite IH.
Qed.
Lemma fracPart_stops r : stops r = true → fracPart r = Some ([], r).
Proof. unfold fracPart, eat. destruct r as [|b r]; [done|]. cbn [stops]. by destruct (b =? 46); rewrite ?orb_true_r. Qed.
Lemma expPart_stops r : stops r = true → expPart r = Some ([], r).
Proof. unfold expPart. destruct r as [|b r]; [done|]. cbn [stops]. by destruct (b =? 101), (b =? 69); rewrite ?orb_true_r. Qed.
(** Digits of a natural number: no leading zero. *)
Definition plainDigits (ds : list Z) : Prop :=
  forallb isDigit ds = true ∧ (ds = [48] ∨ ∃ d r, ds = d :: r ∧ d ≠ 48).
Lemma intPart_digits ds r : plainDigits ds → stops r = true → intPart (ds ++ r) = Some (ds, r).
Proof.
  intros [Hd [->|(d & ds' & -> & Hn)]] Hr; unfold intPart, eat; cbn [app]; [done|].
  rewrite (proj2 (Z.eqb_neq d 48)) by done. unfold digits1. change (d :: ds' ++ r) with ((d :: ds') ++ r). by rewrite spanDigits_app.
Qed.
Lemma plainDigits_number (neg : bool) ds : plainDigits ds → numeric ((if neg then [45] else []) ++ ds).
Proof.
  intros Hds r Hr. unfold number. assert (Hi := intPart_digits ds r Hds Hr).
  assert (He : eat 45 (ds ++ r) = None).
  { destruct Hds as [Hd [->|(d & ds' & -> & _)]]; [done|]. cbn in Hd |- *. apply andb_true_iff in Hd as [Hd _].
    unfold isDigit in Hd. bool_hyps. by rewrite (proj2 (Z.eqb_neq d 45)) by lia. }
  destruct neg; cbn [app]; [cbn [eat Z.eqb Pos.eqb]|rewrite He]; by rewrite Hi, fracPart_stops, expPart_stops, !app_nil_r.
Qed.

Lemma pretty_char_byte d : (d < 10)%N → byte_of (pretty_N_char d) = 48 + Z.of_N d.
Proof.
  intros Hd. assert (d = 0 ∨ d = 1 ∨ d = 2 ∨ d = 3 ∨ d = 4 ∨ d = 5 ∨ d = 6 ∨ d = 7 ∨ d = 8 ∨ d = 9)%N as Hc by lia.
  by repeat destruct Hc as [-> | Hc]; [..|subst].
Qed.
(** The digits of a positive number, in front of [s]; reading them gives the number back. *)
Lemma pretty_N_go_digits x s : (0 < x)%N → ∃ d ds, bytesOf (pretty_N_go x s) = d :: ds ++ bytesOf s
  ∧ forallb isDigit (d :: ds) = true ∧ d ≠ 48
  ∧ ∀ acc, digitsVal acc (pretty_N_go x s) = digitsVal (acc * 10 ^ Z.of_nat (S (length ds)) + Z.of_N x) s.
Proof.
  revert s. induction (N.lt_wf_0 x) as [x _ IH]. intros s Hx. rewrite pretty_N_go_step by done.
  assert (Hm : (x `mod` 10 < 10)%N) by (by apply N.mod_lt).
  assert (Hdm := N.div_mod x 10 ltac:(done)). set (m := (x `mod` 10)%N) in *. clearbody m.
  assert (Hc := pretty_char_byte _ Hm).
  assert (Hval : digitVal (pretty_N_char m) = Some (Z.of_N m)).
  { unfold digitVal. rewrite Hc. destruct (Z.leb_spec 48 (48 + Z.of_N m)), (Z.leb_spec (48 + Z.of_N m) 57); [|lia..].
    cbn [andb]. f_equal. lia. }
  assert (Hdig : isDigit (byte_of (pretty_N_char m)) = true).
  { unfold isDigit. rewrite Hc. apply andb_true_iff. split; apply Z.leb_le; lia. }
  destruct (decide (x `div` 10 = 0)%N) as [E|E].
  - exists (byte_of (pretty_N_char m)), []. rewrite E, pretty_N_go_0. split_and!; [done| |lia|].
    + cbn [forallb]. by rewrite Hdig.
    + intros acc. cbn [digitsVal]. rewrite Hval. f_equal. cbn. lia.
  - destruct (IH (x `div` 10)%N ltac:(apply N.div_lt; lia) (String (pretty_N_char m) s) ltac:(lia)) as (d & ds & Hb & Hd & Hn & Hv).
    exists d, (ds ++ [byte_of (pretty_N_char m)]). split_and!; [by rewrite Hb, bytesOf_cons, <-app_assoc| |done|].
    + cbn [forallb] in *. apply andb_true_iff in Hd as [-> Hd]. rewrite forallb_app, Hd. cbn [forallb]. by rewrite Hdig.
    + intros acc. rewrite Hv. cbn [digitsVal]. rewrite Hval. f_equal. rewrite length_app. cbn [length].
      replace (Z.of_nat (S (length ds + 1))) with (Z.of_nat (S (length ds)) + 1) by lia. rewrite Z.pow_add_r by lia. lia.
Qed.
Lemma itoa_digits n : ∃ (neg : bool) ds, intText n = (if neg then [45] else []) ++ ds ∧ plainDigits ds.
Proof.
  destruct n as [|p|p].
  - exists false, [48]. split; [done|]. split; [done|by left].
  - destruct (pretty_N_go_digits (N.pos p) "" ltac:(done)) as (d & ds & Hb & Hd & Hn & _). exists false, (d :: ds).
    split; [exact (eq_trans Hb (f_equal (cons d) (app_nil_r ds)))|]. split; [done|right; eauto].
  - destruct (pretty_N_go_digits (N.pos p) "" ltac:(done)) as (d & ds & Hb & Hd & Hn & _). exists true, (d :: ds).
    split; [exact (f_equal (cons 45) (eq_trans Hb (f_equal (cons d) (app_nil_r ds))))|]. split; [done|right; eauto].
Qed.
Lemma intText_numeric n : numeric (intText n).
Proof. destruct (itoa_digits n) as (neg & ds & -> & Hd). by apply plainDigits_number. Qed.
(** A number that fits is read back from its decimal text. *)
Lemma parseDigits_pos p : parseDigits (pretty_N_go (N.pos p) "") = Some (Z.pos p).
Proof.
  destruct (pretty_N_go_digits (N.pos p) "" ltac:(done)) as (d & ds & Hb & _ & _ & Hv). unfold parseDigits.
  destruct (pretty_N_go (N.pos p) "") eqn:E; [done|]. by rewrite (Hv 0).
Qed.
Lemma ParseInt_itoa bits n : 1 ≤ bits → - 2 ^ (bits - 1) ≤ n < 2 ^ (bits - 1) → ParseInt bits (itoa n) = (n, true).
Proof.
  intros Hbits Hn. assert (1 ≤ 2 ^ (bits - 1)) by (apply (Z.pow_le_mono_r 2 0); lia). destruct n as [|p|p].
  - assert (E : parseDigits "0" = Some 0) by done. change (itoa 0) with "0". unfold ParseInt. rewrite E. by rewrite (proj2 (Z.leb_gt _ _)) by lia.
  - assert (Hp := parseDigits_pos p). change (itoa (Z.pos p)) with (pretty_N_go (N.pos p) "").
    destruct (pretty_N_go_digits (N.pos p) "" ltac:(done)) as (d & ds & Hb & Hd & _ & _). unfold ParseInt.
    destruct (pretty_N_go (N.pos p) "") as [|a s] eqn:E; [done|]. rewrite bytesOf_cons in Hb. injection Hb as Hbd _.
    cbn [forallb] in Hd. apply andb_true_iff in Hd as [Hd _]. unfold isDigit in Hd. bool_hyps.
    assert (Hsign : (match String a s with String "+" r => (false, r) | String "-" r => (true, r) | _ => (false, String a s) end)%char = (false, String a s)).
    { destruct (decide (a = "+")%char) as [->|]; [vm_compute in Hbd; lia|]. destruct (decide (a = "-")%char) as [->|]; [vm_compute in Hbd; lia|].
      destruct a as [[][][][][][][][]]; try done. }
    rewrite Hsign, Hp. by rewrite (proj2 (Z.leb_gt _ _)) by lia.
  - change (itoa (Z.neg p)) with (String "-" (pretty_N_go (N.pos p) "")). unfold ParseInt. rewrite parseDigits_pos.
    by rewrite (proj2 (Z.ltb_ge _ _)) by lia.
Qed.
Lemma number_head l x : number l = Some x → ∃ b r, l = b :: r ∧ (b = 45 ∨ isDigit b = true).
Proof.
  unfold number. destruct l as [|b r]; [done|]. intros Hn. exists b, r. split; [done|]. cbn [eat] in Hn.
  destruct (Z.eqb_spec b 45) as [->|Hb]; [by left|right]. unfold intPart, digits1 in Hn. cbn [eat spanDigits] in Hn.
  destruct (Z.eqb_spec b 48) as [->|]; [done|]. by destruct (isDigit b).
Qed.

(** ** Texts are read back *)
(** The value a term stands for; a text that is not valid UTF-8 comes back with replacements. *)
Fixpoint valOf `{FloatText} (j : json) : jval :=
  match j with
  | JNull => VNull
  | JBool b => VBool b
  | JInt n => VNum (intText n)
  | JFloat f => VNum (bytesOf (floatText f))
  | JStr s => VStr (toValid (bytesOf s))
  | JArr l => VArr (map valOf l)
  | JObj l => VObj (map (λ kx, (toValid (bytesOf (fst kx)), valOf (snd kx))) l)
  end.
Fixpoint depthOf (j : json) : Z :=
  match j with
  | JArr l => 1 + fold_right (λ x m, Z.max (depthOf x) m) 0 l
  | JObj l => 1 + fold_right (λ kx m, Z.max (depthOf (snd kx)) m) 0 l
  | _ => 0
  end.
(** [json.Marshal] refuses numbers that are not finite. *)
Definition finite (f : f64) : bool := match f with SpecFloat.S754_nan | SpecFloat.S754_infinity _ => false | _ => true end.
Fixpoint finiteIn (j : json) : bool :=
  match j with
  | JFloat f => finite f
  | JArr l => forallb finiteIn l
  | JObj l => forallb (λ kx, finiteIn (snd kx)) l
  | _ => true
  end.
(** The text of a finite number is a JSON number. *)
Class FloatTextLaws `{FloatText} := floatText_numeric f : finite f = true → numeric (bytesOf (floatText f)).

Lemma json_induct (P : json → Prop) : P JNull → (∀ b, P (JBool b)) → (∀ n, P (JInt n)) → (∀ f, P (JFloat f)) → (∀ s, P (JStr s)) →
  (∀ l, Forall P l → P (JArr l)) → (∀ l, Forall (λ kx, P (snd kx)) l → P (JObj l)) → ∀ j, P j.
Proof.
  intros Hnull Hbool Hint Hfloat Hstr Harr Hobj. fix IH 1. intros [|b|n|f|s|l|l]; [done|done|done|done|done|apply Harr|apply Hobj].
  - induction l as [|x l IHl]; constructor; [apply IH|done].
  - induction l as [|x l IHl]; constructor; [apply IH|done].
Qed.

Definition blank (w : list Z) : Prop := forallb isWs w = true.
Definition spaced (y : layout) : Prop := (∀ n, blank (lay_line y n)) ∧ blank (lay_colon y).
Lemma compact_spaced : spaced compactLayout.
Proof. done. Qed.
Lemma indent_spaced : spaced indentLayout.
Proof. split; [|done]. intros n. unfold blank. cbn [lay_line indentLayout forallb]. induction (2 * n)%nat as [|k IH]; [done|]. apply IH. Qed.
Lemma skipWs_blank w l : blank w → skipWs (w ++ l) = skipWs l.
Proof. unfold blank. induction w as [|b w IH]; [done|]. cbn. intros [-> Hw]%andb_true_iff. auto. Qed.
Lemma skipWs_stop b l : isWs b = false → skipWs (b :: l) = b :: l.
Proof. intros E. cbn. by rewrite E. Qed.
Lemma stops_blank w b r : blank w → stops (b :: r) = true → stops (w ++ b :: r) = true.
Proof.
  destruct w as [|c w]; [done|]. unfold blank. cbn [app forallb stops]. intros [Hc _]%andb_true_iff _. unfold isWs in Hc.
  unfold isDigit. destruct (Z.eqb_spec c 32) as [->|]; [done|]. destruct (Z.eqb_spec c 9) as [->|]; [done|].
  destruct (Z.eqb_spec c 10) as [->|]; [done|]. by destruct (Z.eqb_spec c 13) as [->|].
Qed.

(** Lengths of concatenations, in the goal and in a hypothesis. *)
Ltac len_simpl H := repeat first [rewrite length_app in H | rewrite length_app | progress cbn [length] in H | progress cbn [length]].
Section reading_back.
Context `{FloatText} `{!FloatTextLaws} (y : layout) (Hy : spaced y).
Implicit Types (r w : list Z) (j : json).

(** A value starts with neither a blank nor a closing bracket. *)
Definition opens (b : Z) : Prop := isWs b = false ∧ b ≠ 93 ∧ b ≠ 125.
Lemma numeric_opens lit : numeric lit → ∃ b l, lit = b :: l ∧ opens b ∧ 45 ≤ b ≤ 57.
Proof.
  intros Hn. specialize (Hn [] eq_refl). destruct (number_head _ _ Hn) as (b & l & E & Hb). rewrite app_nil_r in E.
  exists b, l. split; [done|]. assert (45 ≤ b ≤ 57) as Hr by (destruct Hb as [->|Hb]; [lia|unfold isDigit in Hb; bool_hyps; lia]).
  split; [|done]. split_and!; [|lia..]. unfold isWs.
  rewrite !orb_false_iff. split_and!; apply Z.eqb_neq; lia.
Qed.
Lemma encode_opens lvl j : finiteIn j = true → ∃ b l, encode y lvl j = b :: l ∧ opens b.
Proof.
  destruct j as [|b|n|f|s|l|l]; intros Hf.
  - by eexists _, _.
  - destruct b; by eexists _, _.
  - destruct (numeric_opens _ (intText_numeric n)) as (b & l & E & Hb & _). eauto.
  - destruct (numeric_opens _ (floatText_numeric f Hf)) as (b & l & E & Hb & _). eauto.
  - by eexists _, _.
  - destruct l; by eexists _, _.
  - destruct l as [|[k x] l]; by eexists _, _.
Qed.
Lemma skip_encode lvl j w r : blank w → finiteIn j = true → skipWs (w ++ encode y lvl j ++ r) = encode y lvl j ++ r.
Proof.
  intros Hw Hf. rewrite skipWs_blank by done. destruct (encode_opens lvl j Hf) as (b & l & -> & Hb & _). by apply skipWs_stop.
Qed.
Lemma unquote_encodeString s r : unquote (length (flat_map encodeChar (chars (bytesOf s)) ++ 34 :: r)) (flat_map encodeChar (chars (bytesOf s)) ++ 34 :: r)
  = Some (toValid (bytesOf s), r).
Proof. apply unquote_encode; [apply chars_isChar|rewrite length_app; cbn; lia]. Qed.
Lemma stringLit_encode s r : stringLit (encodeString (bytesOf s) ++ r) = Some (toValid (bytesOf s), r).
Proof.
  unfold encodeString, stringLit. cbn [app]. rewrite <-app_assoc. cbn [app eat Z.eqb Pos.eqb]. apply unquote_encodeString.
Qed.
Lemma scalar_numeric lit r : numeric lit → stops r = true → scalar (lit ++ r) = Some (VNum lit, r).
Proof.
  intros Hn Hr. unfold scalar. rewrite (Hn r Hr). destruct (numeric_opens _ Hn) as (b & l & -> & _ & Hb). cbn [app].
  cbn [stripPrefix nullText trueText falseText]. by rewrite !(proj2 (Z.eqb_neq _ b)) by lia.
Qed.

Definition readBack j : Prop := ∀ lvl fuel depth w r,
  blank w → depth + depthOf j ≤ maxNestingDepth → finiteIn j = true → stops r = true → (length (encode y lvl j) ≤ fuel)%nat →
  value fuel depth (w ++ encode y lvl j ++ r) = Some (valOf j, r).
(** A scalar: neither a string nor an array nor an object. *)
Lemma readBack_scalar j : (∀ lvl r, finiteIn j = true → stops r = true → scalar (encode y lvl j ++ r) = Some (valOf j, r)) →
  (∀ lvl, finiteIn j = true → ∃ b l, encode y lvl j = b :: l ∧ b ≠ 34 ∧ b ≠ 91 ∧ b ≠ 123) → readBack j.
Proof.
  intros Hs Hh lvl fuel depth w r Hw _ Hf Hr Hl. specialize (Hs lvl r Hf Hr). pose proof (skip_encode lvl j w r Hw Hf) as Hk.
  destruct (Hh lvl Hf) as (b & l & E & H34 & H91 & H123). rewrite E in Hs, Hk, Hl |- *. cbn [app] in *.
  destruct fuel as [|fuel]; [cbn in Hl; lia|]. cbn [value]. rewrite Hk, !(proj2 (Z.eqb_neq b _)) by done. done.
Qed.
Lemma readBack_number lit j : numeric lit → (∀ lvl, encode y lvl j = lit) → valOf j = VNum lit → readBack j.
Proof.
  intros Hn He Hv. apply readBack_scalar.
  - intros lvl r _ Hr. rewrite He, Hv. by apply scalar_numeric.
  - intros lvl _. rewrite He. destruct (numeric_opens _ Hn) as (b & l & -> & _ & Hb). exists b, l. split_and!; [done|lia..].
Qed.

Lemma skip_string p r : skipWs (encodeString p ++ r) = encodeString p ++ r.
Proof. done. Qed.
Lemma depths_nonneg {A} (f : A → Z) l : 0 ≤ fold_right (λ x m, Z.max (f x) m) 0 l.
Proof. induction l as [|x l IH]; cbn [fold_right]; lia. Qed.
(** The text of the elements from the first on, up to the closing bracket. *)
Lemma elements_encode l : Forall readBack l → ∀ x lvl fuel depth w r, readBack x →
  depth + fold_right (λ x m, Z.max (depthOf x) m) 0 (x :: l) ≤ maxNestingDepth → forallb finiteIn (x :: l) = true → blank w →
  (length (encode y lvl x) + length (flat_map (λ x, 44%Z :: lay_line y lvl ++ encode y lvl x) l) < fuel)%nat →
  elements fuel depth (lay_line y lvl ++ encode y lvl x ++ flat_map (λ x, 44%Z :: lay_line y lvl ++ encode y lvl x) l ++ w ++ 93 :: r)
  = Some (map valOf (x :: l), r).
Proof.
  destruct Hy as [Hline _]. induction 1 as [|z l Hz _ IH]; intros x lvl fuel depth w r Hx Hd Hf Hw Hl;
    (destruct fuel as [|fuel]; [lia|]); cbn [fold_right forallb flat_map map length app] in *; cbn [elements].
  - apply andb_true_iff in Hf as [Hf _]. rewrite Hx; [|done|lia|done|by apply stops_blank|lia]. by rewrite skipWs_blank.
  - apply andb_true_iff in Hf as [Hf Hfl]. rewrite length_app in Hl. rewrite Hx; [|done|lia|done|done|lia]. cbn [skipWs isWs Z.eqb Pos.eqb orb].
    rewrite <-!app_assoc. rewrite length_app in Hl. rewrite IH; [done|done|lia|done|done|lia].
Qed.
Lemma readBack_array l : Forall readBack l → readBack (JArr l).
Proof.
  intros Hall lvl fuel depth w r Hw Hd Hf Hr Hl. cbn [depthOf finiteIn] in Hd, Hf. assert (Hk := skip_encode lvl (JArr l) w r Hw Hf).
  destruct fuel as [|fuel]; [destruct l; cbn in Hl; lia|]. cbn [value]. rewrite Hk. destruct Hall as [|x l Hx Hall].
  { cbn. by rewrite (proj2 (Z.leb_gt _ _)) by (cbn in Hd; lia). }
  cbn [encode app length Z.eqb Pos.eqb] in Hl |- *.
  pose proof (depths_nonneg depthOf (x :: l)) as Hdx.
  rewrite (proj2 (Z.leb_gt _ _)) by lia. rewrite <-!app_assoc. cbn [app].
  assert (Hfx := Hf). cbn [forallb] in Hfx. apply andb_true_iff in Hfx as [Hfx _].
  rewrite skip_encode by (try apply Hy; done). destruct (encode_opens (S lvl) x Hfx) as (b & t & Eb & _ & H93 & _).
  rewrite Eb at 1. cbn [app eat]. rewrite (proj2 (Z.eqb_neq b 93)) by done.
  rewrite elements_encode; [done|done|done|lia|done|apply Hy|len_simpl Hl; lia].
Qed.
(** The same for the members of an object. *)
Lemma members_encode l : Forall (λ kx, readBack (snd kx)) l → ∀ k x lvl fuel depth w r, readBack x →
  depth + fold_right (λ kx m, Z.max (depthOf (snd kx)) m) 0 ((k, x) :: l) ≤ maxNestingDepth →
  forallb (λ kx, finiteIn (snd kx)) ((k, x) :: l) = true → blank w →
  (length (encodeString (bytesOf k) ++ 58%Z :: lay_colon y ++ encode y lvl x)
   + length (flat_map (λ kx, 44%Z :: lay_line y lvl ++ encodeString (bytesOf (fst kx)) ++ 58%Z :: lay_colon y ++ encode y lvl (snd kx)) l) < fuel)%nat →
  members fuel depth (lay_line y lvl ++ encodeString (bytesOf k) ++ 58%Z :: lay_colon y ++ encode y lvl x
    ++ flat_map (λ kx, 44%Z :: lay_line y lvl ++ encodeString (bytesOf (fst kx)) ++ 58%Z :: lay_colon y ++ encode y lvl (snd kx)) l ++ w ++ 125 :: r)
  = Some (map (λ kx, (toValid (bytesOf (fst kx)), valOf (snd kx))) ((k, x) :: l), r).
Proof.
  destruct Hy as [Hline Hcolon]. induction 1 as [|[k' z] l Hz _ IH]; intros k x lvl fuel depth w r Hx Hd Hf Hw Hl;
    (destruct fuel as [|fuel]; [lia|]); cbn [fold_right forallb flat_map map length app fst snd] in *; cbn [members];
    (rewrite skipWs_blank, skip_string, stringLit_encode by done); cbn [skipWs isWs Z.eqb Pos.eqb orb eat];
    apply andb_true_iff in Hf as [Hf Hfl].
  - rewrite Hx; [|done|lia|done|by apply stops_blank|len_simpl Hl; lia]. by rewrite skipWs_blank.
  - rewrite Hx; [|done|lia|done|done|len_simpl Hl; lia]. cbn [skipWs isWs Z.eqb Pos.eqb orb].
    repeat (rewrite <-!app_assoc; cbn [app]). rewrite IH; [done|done|lia|done|done|len_simpl Hl; lia].
Qed.
Lemma readBack_object l : Forall (λ kx, readBack (snd kx)) l → readBack (JObj l).
Proof.
  intros Hall lvl fuel depth w r Hw Hd Hf Hr Hl. cbn [depthOf finiteIn] in Hd, Hf. assert (Hk := skip_encode lvl (JObj l) w r Hw Hf).
  destruct fuel as [|fuel]; [destruct l as [|[]]; cbn in Hl; lia|]. cbn [value]. rewrite Hk. destruct Hall as [|[k x] l Hx Hall].
  { cbn. by rewrite (proj2 (Z.leb_gt _ _)) by (cbn in Hd; lia). }
  cbn [encode app length Z.eqb Pos.eqb] in Hl |- *.
  pose proof (depths_nonneg (λ kx : string * json, depthOf (snd kx)) ((k, x) :: l)) as Hdx.
  rewrite (proj2 (Z.leb_gt _ _)) by lia. repeat (rewrite <-!app_assoc; cbn [app]).
  rewrite skipWs_blank, skip_string by apply Hy.
  change (eat 125 (encodeString (bytesOf k) ++ ?t)) with (@None (list Z)). cbn iota.
  rewrite members_encode; [done|done|done|lia|done|apply Hy|len_simpl Hl; lia].
Qed.
Lemma readBack_all j : readBack j.
Proof.
  induction j as [|b|n|f|s|l IH|l IH] using json_induct.
  - by apply readBack_scalar; [|by eexists _, _].
  - by apply readBack_scalar; destruct b; [| |by eexists _, _..].
  - by apply (readBack_number (intText n)); [apply intText_numeric|..].
  - intros lvl fuel depth w r Hw Hd Hf. by apply (readBack_number (bytesOf (floatText f))); [apply floatText_numeric|..].
  - intros lvl fuel depth w r Hw _ Hf _ Hl. destruct fuel as [|fuel]; [cbn in Hl; lia|]. cbn [value].
    rewrite (skip_encode lvl (JStr s)) by done. cbn [encode encodeString app]. rewrite <-app_assoc. cbn [app Z.eqb Pos.eqb].
    by rewrite unquote_encodeString.
  - by apply readBack_array.
  - by apply readBack_object.
Qed.

(** Reading undoes writing: whatever layout, the text of a term, with blanks around it, is a
    JSON text whose value is the one of the term. *)
Theorem parse_encode j w w' : depthOf j ≤ maxNestingDepth → finiteIn j = true → blank w → blank w' →
  parse (w ++ encode y 0 j ++ w') = Some (valOf j).
Proof.
  intros Hd Hf Hw Hw'. unfold parse. assert (Hs : stops w' = true).
  { destruct w' as [|b w']; [done|]. change (b :: w') with ([b] ++ w'). unfold blank in Hw'. cbn [forallb] in Hw'.
    apply andb_true_iff in Hw' as [Hb _]. assert (Hbb : blank [b]) by (unfold blank; cbn; by rewrite Hb).
    pose proof (stops_blank [b] 44 [] Hbb eq_refl). done. }
  rewrite readBack_all; [|done|lia|done|done|rewrite !length_app; lia].
  replace (skipWs w') with (@nil Z); [done|]. rewrite <-(app_nil_r w'), skipWs_blank by done. done.
Qed.
End reading_back.

(** ** The fuel of the reader is enough *)
Lemma skipWs_length l : (length (skipWs l) ≤ length l)%nat.
Proof. induction l as [|b l IH]; cbn; [done|]. destruct (isWs b); cbn; lia. Qed.
Lemma eat_length c l r : eat c l = Some r → (S (length r) = length l)%nat.
Proof. destruct l as [|b l]; [done|]. cbn. destruct (b =? c); [|done]. by intros [= ->]. Qed.
Lemma stripPrefix_length p l r : stripPrefix p l = Some r → (length l = length p + length r)%nat.
Proof.
  revert l. induction p as [|x p IH]; intros l; [by intros [= ->]|]. destruct l as [|z l]; [done|]. cbn.
  destruct (x =? z); [|done]. intros E. by rewrite (IH _ E).
Qed.
Lemma hex4_length l n r : hex4 l = Some (n, r) → (length r < length l)%nat.
Proof. unfold hex4. intros E. repeat case_match; simplify_eq. cbn. lia. Qed.
Lemma unquoteChar_length l c r : unquoteChar l = Some (c, r) → (length r < length l)%nat.
Proof.
  unfold unquoteChar. destruct l as [|b l]; [done|]. destruct (b =? 92).
  - destruct l as [|e l]; [done|]. destruct (e =? 117).
    + destruct (hex4 l) as [[n r2]|] eqn:E; [|done]. apply hex4_length in E. unfold escapedRune. intros Hr. cbn [length].
      assert (length r ≤ length r2)%nat; [|lia]. destruct (_ || _); [by simplify_eq|].
      destruct (stripPrefix [92; 117] r2) as [r3|] eqn:E3; cbn [mbind option_bind] in Hr; [|by simplify_eq].
      apply stripPrefix_length in E3. destruct (hex4 r3) as [[m r4]|] eqn:E4; [|by simplify_eq]. apply hex4_length in E4. cbn in E3.
      destruct (_ && _); simplify_eq; lia.
    + destruct (simpleEscape e); [|done]. intros [= _ <-]. cbn. lia.
  - destruct (b <? 32); [done|]. intros Hr. simplify_eq. rewrite length_drop. pose proof (runeWidth_pos b l). cbn [length]. lia.
Qed.
Lemma unquote_length f l s r : unquote f l = Some (s, r) → (length r < length l)%nat.
Proof.
  revert l s r. induction f as [|f IH]; intros [|b l] s r; cbn [unquote]; [done..|].
  destruct (b =? 34); [intros [= _ <-]; cbn; lia|]. destruct (unquoteChar (b :: l)) as [[c l']|] eqn:E; [|done].
  apply unquoteChar_length in E. destruct (unquote f l') as [[s' r']|] eqn:E'; [|done]. intros [= _ <-]. apply IH in E'. lia.
Qed.
Lemma spanDigits_length l : (length (spanDigits l).1 + length (spanDigits l).2 = length l)%nat.
Proof. induction l as [|b l IH]; [done|]. cbn. destruct (isDigit b); [|done]. destruct (spanDigits l). cbn in *. lia. Qed.
Lemma digits1_length l d r : digits1 l = Some (d, r) → (length r < length l)%nat.
Proof.
  unfold digits1. pose proof (spanDigits_length l) as Hs. destruct (spanDigits l) as [[|x ds] r']; [done|]. intros [= _ <-]. cbn in Hs. lia.
Qed.
Lemma number_length l n r : number l = Some (n, r) → (length r < length l)%nat.
Proof.
  unfold number. destruct (match eat 45 l with Some r => ([45], r) | None => ([], l) end) as [sign r0] eqn:Es.
  assert (length r0 ≤ length l)%nat by (destruct (eat 45 l) eqn:E; [apply eat_length in E|]; simplify_eq; lia). clear Es.
  destruct (intPart r0) as [[i r1]|] eqn:Ei; [|done].
  assert (length r1 < length r0)%nat.
  { unfold intPart in Ei. destruct (eat 48 r0) eqn:E; [apply eat_length in E; simplify_eq; lia|by apply digits1_length in Ei]. }
  destruct (fracPart r1) as [[f r2]|] eqn:Ef; [|done].
  assert (length r2 ≤ length r1)%nat.
  { unfold fracPart in Ef. destruct (eat 46 r1) eqn:E; [|by simplify_eq]. apply eat_length in E.
    destruct (digits1 _) as [[d r3]|] eqn:E3; [|done]. apply digits1_length in E3. simplify_eq. lia. }
  destruct (expPart r2) as [[e r3]|] eqn:Ee; [|done]. intros [= _ <-].
  assert (length r3 ≤ length r2)%nat; [|lia].
  unfold expPart in Ee. destruct r2 as [|b r2]; [by simplify_eq|]. destruct (_ || _); [|by simplify_eq].
  destruct (match r2 with [] => _ | _ => _ end) as [s r4] eqn:Es.
  assert (length r4 ≤ length r2)%nat by (destruct r2 as [|s0 r2]; [by simplify_eq|destruct (_ || _); simplify_eq; cbn; lia]).
  destruct (digits1 r4) as [[d r5]|] eqn:Ed; [|done]. apply digits1_length in Ed. simplify_eq. cbn. lia.
Qed.
Lemma scalar_length l v r : scalar l = Some (v, r) → (length r < length l)%nat.
Proof.
  unfold scalar. intros Hs. destruct (stripPrefix nullText l) eqn:E1; [apply stripPrefix_length in E1; cbn in E1; simplify_eq; lia|].
  destruct (stripPrefix trueText l) eqn:E2; [apply stripPrefix_length in E2; cbn in E2; simplify_eq; lia|].
  destruct (stripPrefix falseText l) eqn:E3; [apply stripPrefix_length in E3; cbn in E3; simplify_eq; lia|].
  destruct (number l) as [[n r']|] eqn:E; [|done]. apply number_length in E. by simplify_eq.
Qed.
Lemma stringLit_length l k r : stringLit l = Some (k, r) → (length r < length l)%nat.
Proof. unfold stringLit. destruct (eat 34 l) eqn:E; [|done]. apply eat_length in E. intros Ek%unquote_length. lia. Qed.
Lemma reading_consumes f :
  (∀ d l v r, value f d l = Some (v, r) → (length r < length l)%nat)
  ∧ (∀ d l xs r, elements f d l = Some (xs, r) → (length r < length l)%nat)
  ∧ (∀ d l xs r, members f d l = Some (xs, r) → (length r < length l)%nat).
Proof.
  induction f as [|f (IHv & IHe & IHm)]; [by split_and!|]. split_and!; intros d l v r; cbn [value elements members]; pose proof (skipWs_length l) as Hs.
  - destruct (skipWs l) as [|b l1]; [done|]. cbn [length] in Hs. destruct (b =? 34).
    { destruct (unquote _ _) as [[s r']|] eqn:E; [|done]. apply unquote_length in E. intros ?; simplify_eq. lia. }
    destruct (b =? 91); [|destruct (b =? 123); [|intros E%scalar_length; cbn in E; lia]]; (destruct (_ <=? _); [done|]); pose proof (skipWs_length l1).
    + destruct (eat 93 _) eqn:E; [apply eat_length in E; intros ?; simplify_eq; lia|].
      destruct (elements f _ _) as [[xs r']|] eqn:E'; [|done]. apply IHe in E'. intros ?; simplify_eq. lia.
    + destruct (eat 125 _) eqn:E; [apply eat_length in E; intros ?; simplify_eq; lia|].
      destruct (members f _ _) as [[xs r']|] eqn:E'; [|done]. apply IHm in E'. intros ?; simplify_eq. lia.
  - destruct (value f d l) as [[x r1]|] eqn:E; [|done]. apply IHv in E. pose proof (skipWs_length r1).
    destruct (skipWs r1) as [|b r2]; [done|]. cbn [length] in *. destruct (b =? 44).
    + destruct (elements f _ _) as [[xs r3]|] eqn:E'; [|done]. apply IHe in E'. intros ?; simplify_eq. lia.
    + destruct (b =? 93); [|done]. intros ?; simplify_eq. lia.
  - destruct (stringLit (skipWs l)) as [[k r1]|] eqn:Ek; [|done]. apply stringLit_length in Ek.
    destruct (eat 58 _) as [r2|] eqn:E2; [|done]. apply eat_length in E2. pose proof (skipWs_length r1).
    destruct (value f d r2) as [[x r3]|] eqn:E; [|done]. apply IHv in E. pose proof (skipWs_length r3).
    destruct (skipWs r3) as [|b r4]; [done|]. cbn [length] in *. destruct (b =? 44).
    + destruct (members f _ _) as [[xs r5]|] eqn:E'; [|done]. apply IHm in E'. intros ?; simplify_eq. lia.
    + destruct (b =? 125); [|done]. intros ?; simplify_eq. lia.
Qed.
(** More fuel than twice the length changes nothing: [parse] refuses a text only for what it contains. *)
Lemma reading_fuel f : ∀ f',
  (∀ d l, (2 * length l < f)%nat → (2 * length l < f')%nat → value f d l = value f' d l)
  ∧ (∀ d l, (2 * length l + 1 < f)%nat → (2 * length l + 1 < f')%nat → elements f d l = elements f' d l)
  ∧ (∀ d l, (2 * length l + 1 < f)%nat → (2 * length l + 1 < f')%nat → members f d l = members f' d l).
Proof.
  induction f as [|f IH]; intros f'; [split_and!; lia|]. destruct f' as [|f']; [split_and!; lia|]. destruct (IH f') as (IHv & IHe & IHm). clear IH.
  split_and!; intros d l H1 H2; cbn [value elements members]; pose proof (skipWs_length l) as Hs.
  - destruct (skipWs l) as [|b r]; [done|]. cbn [length] in Hs.
    by rewrite IHe, IHm by lia.
  - rewrite (IHv d l) by lia. destruct (value f' d l) as [[x r]|] eqn:E; [|done]. apply (reading_consumes f') in E.
    pose proof (skipWs_length r). destruct (skipWs r) as [|b r']; [done|]. cbn [length] in *. by rewrite IHe by lia.
  - destruct (stringLit (skipWs l)) as [[k r1]|] eqn:Ek; [|done]. apply stringLit_length in Ek.
    destruct (eat 58 _) as [r2|] eqn:E2; [|done]. apply eat_length in E2. pose proof (skipWs_length r1).
    rewrite (IHv d r2) by lia. destruct (value f' d r2) as [[x r]|] eqn:E; [|done]. apply (reading_consumes f') in E.
    pose proof (skipWs_length r). destruct (skipWs r) as [|b r']; [done|]. cbn [length] in *. by rewrite IHm by lia.
Qed.
Lemma value_fuel f d l : (2 * length l < f)%nat → value f d l = value (2 * length l + 1) d l.
Proof. intros Hf. apply reading_fuel; lia. Qed.

(** ** The texts as strings *)
Lemma hexDigit_isByte d : 0 ≤ d < 16 → isByte (hexByte d).
Proof. unfold isByte, hexByte. intros Hd. destruct (d <? 10); lia. Qed.
Lemma unicodeEscape_isByte n : Forall isByte (unicodeEscape n).
Proof.
  unfold unicodeEscape. do 2 (constructor; [unfold isByte; lia|]).
  repeat (constructor; [apply hexDigit_isByte, Z.mod_pos_bound; lia|]). done.
Qed.
Lemma encodeChar_isByte c : isChar c → Forall isByte (encodeChar c).
Proof.
  intros [Hb _]. unfold encodeChar. destruct c as [|b [|b1 c]]; [done| |].
  - destruct (b <? 128); [|apply unicodeEscape_isByte]. apply Forall_cons_1 in Hb as [Hb _].
    unfold escapeByte. repeat case_match; try apply unicodeEscape_isByte; repeat constructor; unfold isByte in *; lia.
  - repeat case_bool_decide; [apply unicodeEscape_isByte..|done].
Qed.
Lemma encodeString_isByte s : Forall isByte (encodeString (bytesOf s)).
Proof.
  unfold encodeString. constructor; [unfold isByte; lia|]. apply Forall_app. split; [|constructor; [unfold isByte; lia|done]].
  pose proof (chars_isChar s) as Hc. induction Hc as [|c cs Hc _ IH]; [done|]. cbn [flat_map]. apply Forall_app. split; [by apply encodeChar_isByte|done].
Qed.
Lemma Forall_flat_map {A B} (P : B → Prop) (f : A → list B) l : Forall (λ x, Forall P (f x)) l → Forall P (flat_map f l).
Proof. induction 1; [done|]. cbn [flat_map]. by apply Forall_app. Qed.
Lemma blank_isByte w : blank w → Forall isByte w.
Proof.
  unfold blank. induction w as [|b w IH]; [done|]. cbn [forallb]. intros [Hb Hw]%andb_true_iff. constructor; [|auto].
  unfold isWs in Hb. unfold isByte. destruct (Z.eqb_spec b 32); [lia|]. destruct (Z.eqb_spec b 9); [lia|].
  destruct (Z.eqb_spec b 10); [lia|]. destruct (Z.eqb_spec b 13); [lia|done].
Qed.
Create HintDb bytes discriminated.
#[export] Hint Resolve encodeString_isByte blank_isByte bytesOf_isByte : bytes.
Ltac go_bytes :=
  repeat first [ solve [eauto 2 with bytes] | apply Forall_app; split | apply Forall_cons; split; [unfold isByte; lia|] | by apply Forall_nil ].
Section texts.
Context `{FloatText} `{!FloatTextLaws}.
Lemma encode_isByte (y : layout) : spaced y → ∀ j lvl, Forall isByte (encode y lvl j).
Proof.
  intros [Hl Hc]. assert (Hlb : ∀ n, Forall isByte (lay_line y n)) by eauto with bytes. assert (Hcb : Forall isByte (lay_colon y)) by eauto with bytes.
  induction j as [|b|n|f|s|l IH|l IH] using json_induct; intros lvl; cbn [encode]; unfold intText, nullText, trueText, falseText.
  - go_bytes.
  - destruct b; go_bytes.
  - go_bytes.
  - go_bytes.
  - go_bytes.
  - destruct IH as [|x l Hx IH]; [go_bytes|]. go_bytes. apply Forall_flat_map. eapply Forall_impl; [exact IH|]. intros z Hz. go_bytes.
  - destruct IH as [|[k x] l Hx IH]; [go_bytes|]. cbn [snd] in Hx. go_bytes. apply Forall_flat_map. eapply Forall_impl; [exact IH|].
    intros z Hz. go_bytes.
Qed.
(** The text of a term, as a string and followed by blanks, has the value of the term. *)
Lemma parse_text (y : layout) j w : spaced y → depthOf j ≤ maxNestingDepth → finiteIn j = true → blank (bytesOf w) →
  parse (bytesOf (stringOf (encode y 0 j) +:+ w)) = Some (valOf j).
Proof.
  intros Hy Hd Hf Hw. rewrite bytesOf_app, bytesOf_stringOf by (by apply encode_isByte).
  by apply (parse_encode y Hy j [] (bytesOf w)).
Qed.
Lemma unmarshal_text {A} (dec : decoder A) a (y : layout) j w : spaced y → depthOf j ≤ maxNestingDepth → finiteIn j = true → blank (bytesOf w) →
  unmarshalInto dec a (stringOf (encode y 0 j) +:+ w) = dec (valOf j) a.
Proof. intros. unfold unmarshalInto. by rewrite parse_text. Qed.
End texts.
