(* ===== verification/Hub.v ===== *)
(** * The hub: its state, requests and responses ([internal/hub/hub.go], [api.go], [conns.go],
    [broker.go], [audit.go])

    The hub is the machine of [Store] (database, clock, randomness) with the in-memory state
    of its components. What it does to the outside (closing connections, starting
    goroutines, answering agents) is appended to a trace. A request handler is a function
    from the hub to a response and the new hub; requests of the agents' answers come from a
    list of replies that is part of the state. *)
From Stdlib Require Import ZArith Lia Ascii String.
From S2P Require Import Prelude GoStrings Float64 Library Store StoreTables StoreInv Limiter TailBuffer Update Webauthn Protocol.
From stdpp Require Import base gmap strings list.
Local Open Scope string_scope.
Local Open Scope list_scope.
Local Open Scope Z_scope.

Definition liveInterval : Z := 2.
Definition idleInterval : Z := 60.
Definition idleDelay : Z := seconds 15.
Definition agentTimeout : Z := seconds 150.
Definition liveRingSize : nat := 180.
Definition enrollTTL : Z := hours 1.
Definition sessionTTL : Z := hours (30 * 24).
Definition elevationTTL : Z := minutes 10.
Definition maxNameLen : Z := 64.

(** ** Component states *)
Record Config := mkConfig { cfg_PublicURL : string; cfg_proxies : list (netAddr * Z) }.

Record agentConn := mkAgentConn {
  ac_conn : nat;            (* the SSH connection *)
  ac_id : Z;
  ac_name : string;
  ac_remote : string;
  ac_info : SystemInfo;
  ac_features : list string;
}.
Definition has (ac : agentConn) (feature : string) : bool := existsb (String.eqb feature) (ac_features ac).

Record sessionConn := mkSessionConn {
  c_key : nat;              (* the object itself *)
  c_session : string;
  c_userID : Z;
  c_role : string;
}.

Record alertState := mkAlertState {
  as_since : Z;             (* zeroTime: the condition does not hold *)
  as_clearSince : Z;
  as_alert : option Alert;
}.
Record alertEngine := mkEngine {
  en_rules : list AlertRule;
  en_states : gmap (Z * Z) alertState;
  en_offline : gmap Z Z;
  en_started : Z;
}.

Record livePoint := mkLivePoint { lp_T : Z; lp_M : Metrics }.
Record sysState := mkSysState {
  st_latest : option Metrics;
  st_latestAt : Z;
  st_ring : list livePoint;
  st_bucketTS : Z;
  st_sum : list f64;
  st_n : Z;
}.

Record runTarget := mkRunTarget {
  rt_SystemID : Z;
  rt_SystemName : string;
  rt_Status : string;
  rt_ExitCode : option Z;
  rt_Error : string;
  rt_Output : string;
  rt_Truncated : bool;
  rt_StartedAt : Z;
  rt_FinishedAt : Z;
}.
Record runEvent := mkRunEvent { re_name : string; re_data : json }.
Record activeRun := mkActiveRun {
  ar_rec : ScriptRun;
  ar_canceled : bool;                      (* its context was cancelled *)
  ar_targets : list runTarget;
  ar_output : list tailBuffer;
  ar_partial : list (list Z);
  ar_subs : option (gmap nat (list runEvent));   (* None once it is done *)
  ar_done : bool;
}.

Record notification := mkNotification {
  no_Title : string;
  no_Message : string;
  no_Firing : bool;
  no_URL : string;
  no_Time : Z;
  no_System : string;
  no_Metric : string;
  no_Value : f64;
  no_Threshold : f64;
}.

(** ** What the hub does to the outside *)
Inductive effect : Type :=
| EStop (conn : nat)                        (* c.stop() of a tracked connection *)
| ECloseLink (conn : nat)                   (* ac.conn.Close() *)
| ESend (conn : nat) (name : string) (msg : json)   (* protocol.Send *)
| EDeliver (notifier : Z) (n : notification)        (* go h.deliver *)
| EEvaluateOffline (now : Z)                (* go h.evaluateOffline *)
| EExecute (run : Z) (remote : string)      (* go h.execute *)
| EIdleTimer.                               (* time.AfterFunc(idleDelay) *)

Record hub := mkHub {
  h_m : mach;
  h_cfg : Config;
  h_limiter : loginLimiter;
  h_totpUsed : gmap Z Z;
  h_challenges : challenges;
  h_conns : list sessionConn;
  h_alerts : alertEngine;
  h_agents : gmap Z agentConn;
  h_states : gmap Z sysState;
  h_runs : gmap Z activeRun;
  h_subs : gmap nat (list string);          (* the broker's subscribers and their queues *)
  h_live : bool;
  h_idleTimer : bool;
  h_updates : gmap string Manifest;
  h_replies : list (bool * string * bool);  (* ok, payload, err == nil of the next requests to agents *)
  h_trace : list effect;
}.
Definition with_m (x : mach) (h : hub) : hub :=
  mkHub x (h_cfg h) (h_limiter h) (h_totpUsed h) (h_challenges h) (h_conns h) (h_alerts h) (h_agents h) (h_states h) (h_runs h) (h_subs h) (h_live h) (h_idleTimer h) (h_updates h) (h_replies h) (h_trace h).
Definition with_limiter (x : loginLimiter) (h : hub) : hub :=
  mkHub (h_m h) (h_cfg h) x (h_totpUsed h) (h_challenges h) (h_conns h) (h_alerts h) (h_agents h) (h_states h) (h_runs h) (h_subs h) (h_live h) (h_idleTimer h) (h_updates h) (h_replies h) (h_trace h).
Definition with_totpUsed (x : gmap Z Z) (h : hub) : hub :=
  mkHub (h_m h) (h_cfg h) (h_limiter h) x (h_challenges h) (h_conns h) (h_alerts h) (h_agents h) (h_states h) (h_runs h) (h_subs h) (h_live h) (h_idleTimer h) (h_updates h) (h_replies h) (h_trace h).
Definition with_challenges (x : challenges) (h : hub) : hub :=
  mkHub (h_m h) (h_cfg h) (h_limiter h) (h_totpUsed h) x (h_conns h) (h_alerts h) (h_agents h) (h_states h) (h_runs h) (h_subs h) (h_live h) (h_idleTimer h) (h_updates h) (h_replies h) (h_trace h).
Definition with_conns (x : list sessionConn) (h : hub) : hub :=
  mkHub (h_m h) (h_cfg h) (h_limiter h) (h_totpUsed h) (h_challenges h) x (h_alerts h) (h_agents h) (h_states h) (h_runs h) (h_subs h) (h_live h) (h_idleTimer h) (h_updates h) (h_replies h) (h_trace h).
Definition with_alerts (x : alertEngine) (h : hub) : hub :=
  mkHub (h_m h) (h_cfg h) (h_limiter h) (h_totpUsed h) (h_challenges h) (h_conns h) x (h_agents h) (h_states h) (h_runs h) (h_subs h) (h_live h) (h_idleTimer h) (h_updates h) (h_replies h) (h_trace h).
Definition with_agents (x : gmap Z agentConn) (h : hub) : hub :=
  mkHub (h_m h) (h_cfg h) (h_limiter h) (h_totpUsed h) (h_challenges h) (h_conns h) (h_alerts h) x (h_states h) (h_runs h) (h_subs h) (h_live h) (h_idleTimer h) (h_updates h) (h_replies h) (h_trace h).
Definition with_states (x : gmap Z sysState) (h : hub) : hub :=
  mkHub (h_m h) (h_cfg h) (h_limiter h) (h_totpUsed h) (h_challenges h) (h_conns h) (h_alerts h) (h_agents h) x (h_runs h) (h_subs h) (h_live h) (h_idleTimer h) (h_updates h) (h_replies h) (h_trace h).
Definition with_runs (x : gmap Z activeRun) (h : hub) : hub :=
  mkHub (h_m h) (h_cfg h) (h_limiter h) (h_totpUsed h) (h_challenges h) (h_conns h) (h_alerts h) (h_agents h) (h_states h) x (h_subs h) (h_live h) (h_idleTimer h) (h_updates h) (h_replies h) (h_trace h).
Definition with_subs (x : gmap nat (list string)) (h : hub) : hub :=
  mkHub (h_m h) (h_cfg h) (h_limiter h) (h_totpUsed h) (h_challenges h) (h_conns h) (h_alerts h) (h_agents h) (h_states h) (h_runs h) x (h_live h) (h_idleTimer h) (h_updates h) (h_replies h) (h_trace h).
Definition with_live (x : bool) (h : hub) : hub :=
  mkHub (h_m h) (h_cfg h) (h_limiter h) (h_totpUsed h) (h_challenges h) (h_conns h) (h_alerts h) (h_agents h) (h_states h) (h_runs h) (h_subs h) x (h_idleTimer h) (h_updates h) (h_replies h) (h_trace h).
Definition with_idleTimer (x : bool) (h : hub) : hub :=
  mkHub (h_m h) (h_cfg h) (h_limiter h) (h_totpUsed h) (h_challenges h) (h_conns h) (h_alerts h) (h_agents h) (h_states h) (h_runs h) (h_subs h) (h_live h) x (h_updates h) (h_replies h) (h_trace h).
Definition with_replies (x : list (bool * string * bool)) (h : hub) : hub :=
  mkHub (h_m h) (h_cfg h) (h_limiter h) (h_totpUsed h) (h_challenges h) (h_conns h) (h_alerts h) (h_agents h) (h_states h) (h_runs h) (h_subs h) (h_live h) (h_idleTimer h) (h_updates h) x (h_trace h).
Definition with_trace (x : list effect) (h : hub) : hub :=
  mkHub (h_m h) (h_cfg h) (h_limiter h) (h_totpUsed h) (h_challenges h) (h_conns h) (h_alerts h) (h_agents h) (h_states h) (h_runs h) (h_subs h) (h_live h) (h_idleTimer h) (h_updates h) (h_replies h) x.

(** [New], before the stored alerts and interrupted runs are loaded. *)
Definition newHub (cfg : Config) (updates : gmap string Manifest) (m : mach) : hub :=
  mkHub m cfg newLoginLimiter ∅ ∅ [] (mkEngine [] ∅ ∅ (e_now (m_env m))) ∅ ∅ ∅ ∅ false false updates [] [].

(** ** Requests and responses *)
Record request := mkRequest {
  rq_method : string;
  rq_RemoteAddr : string;
  rq_Host : string;
  rq_Origin : string;
  rq_cookie : option string;               (* the session cookie *)
  rq_TLS : bool;
  rq_ForwardedProto : string;
  rq_ForwardedHost : string;
  rq_ForwardedFor : list string;
  rq_PathValue : string → string;
  rq_Query : string → string;
  rq_done : bool;                          (* the client went away *)
}.
Record cookie := mkCookie { ck_Value : string; ck_Expires : Z; ck_MaxAge : Z; ck_Secure : bool }.
Record response := mkResponse { rs_status : Z; rs_cookies : list cookie; rs_body : option json }.

Definition writeJSON (status : Z) (v : json) : response := mkResponse status [] (Some v).
Definition writeError (status : Z) (msg : string) : response := writeJSON status (JObj [("error", JStr msg)]).
Definition internalError : response := writeError 500 "internal error".
Definition noContent : response := mkResponse 204 [] None.

(** A request body is [None] when it is not the JSON the handler expects. *)
Definition readJSON {B} (body : option B) : response + B :=
  match body with None => inl (writeError 400 "invalid JSON body") | Some b => inr b end.
(** Every error of the database that a handler does not name is an internal error. *)
Definition orInternal {A} (r : res A) : response + A :=
  match r with Ok a => inr a | Err _ => inl internalError end.
Definition ensure (ok : bool) (r : response) : response + unit := if ok then inr tt else inl r.

(** ** The handler monad *)
Definition H (A : Type) : Type := M hub A.
(** A database operation (or the clock, or the random source). *)
Definition db {A} (m : M mach A) : M hub A := λ h, let '(a, m') := m (h_m h) in (a, with_m m' h).
Definition emit (e : effect) : M hub unit := mmodify (λ h, with_trace (h_trace h ++ [e]) h).
(** Early return: [x ⇐ m; k] answers with the response [m] gives, if any. *)
Notation "x ⇐ m ; k" := (mbind (λ r, match r with inl resp => mret resp | inr x => k end) m)
  (at level 20, m at level 100, k at level 200, only parsing) : lotse_scope.
Notation "' x ⇐ m ; k" := (mbind (λ r, match r with inl resp => mret resp | inr x => k end) m)
  (at level 20, x pattern, m at level 100, k at level 200, only parsing) : lotse_scope.

Section hub.
Context `{Lib} `{Marshal}.

(** The host part of RemoteAddr. *)
Definition clientIP (r : request) : string := default (rq_RemoteAddr r) (SplitHostPort (rq_RemoteAddr r)).
Definition isHTTPS (r : request) : bool := rq_TLS r || EqualFold (rq_ForwardedProto r) "https".

(** ** Events *)
Definition subCapacity : nat := 64.
(** A subscriber that falls behind misses the event. *)
Definition offer {A} (cap : nat) (msg : A) (q : list A) : list A :=
  if (length q <? cap)%nat then q ++ [msg] else q.
Definition newlineStr : string := String (ascii_of 10) EmptyString.
(** The values published always have a JSON text, so [json.Marshal] does not fail. *)
Definition publish (event : string) (data : json) : M hub unit := mmodify (λ h,
  if decide (h_subs h = ∅) then h else
  let msg := "event: " +:+ event +:+ newlineStr +:+ "data: " +:+ marshal data +:+ newlineStr +:+ newlineStr in
  with_subs (offer subCapacity msg <$> h_subs h) h).

Definition intervalLocked (h : hub) : Z := if h_live h then liveInterval else idleInterval.
(** The agents in some order, with the message each gets. *)
Definition broadcastIntervalLocked : M hub unit := mmodify (λ h,
  with_trace (h_trace h ++ map (λ kv, ESend (ac_conn kv.2) ReqInterval (JObj [("seconds", JInt (intervalLocked h))]))
                             (map_to_list (h_agents h))) h).
Definition viewersChanged : M hub unit :=
  h ← mget;
  if (0 <? size (h_subs h))%nat then
    mmodify (with_idleTimer false);;
    (if negb (h_live h) then mmodify (with_live true);; broadcastIntervalLocked else mret tt)
  else if h_live h && negb (h_idleTimer h) then
    mmodify (with_idleTimer true);; emit EIdleTimer
  else mret tt.
(** What the idle timer runs when it fires. *)
Definition idleExpired : M hub unit :=
  mmodify (with_idleTimer false);;
  h ← mget;
  if h_live h && (size (h_subs h) =? 0)%nat then mmodify (with_live false);; broadcastIntervalLocked else mret tt.
Definition subscribe (ch : nat) : M hub unit :=
  mmodify (λ h, with_subs (<[ch := []]> (h_subs h)) h);; viewersChanged.
Definition unsubscribe (ch : nat) : M hub unit :=
  mmodify (λ h, with_subs (delete ch (h_subs h)) h);; viewersChanged.

(** ** The activity log *)
Fixpoint truncAt (l : list Z) (n : nat) : nat :=
  match n with
  | O => O
  | S n' => match l !! n with
            | Some b => if RuneStart b then n else truncAt l n'
            | None => n
            end
  end.
Definition truncate (s : string) (n : Z) : string :=
  if strLen s <=? n then s
  else stringOf (take (truncAt (bytesOf s) (Z.to_nat n)) (bytesOf s)).
Definition audit (r : option request) (username action : string) (sys : option System) (detail : string) : M hub unit :=
  let e := mkAuditEntry 0 0 (truncate username maxNameLen) action (sy_ID <$> sys)
             (default "" (sy_Name <$> sys)) (default "" (clientIP <$> r)) detail in
  _ ← db (AddAudit e); mret tt.

(** ** Long-lived connections *)
Definition nextConn (l : list sessionConn) : nat := S (foldr Nat.max 0%nat (map c_key l)).
Definition track (s : Session) (role : string) : M hub nat := λ h,
  let k := nextConn (h_conns h) in
  (k, with_conns (mkSessionConn k (s_TokenHash s) (u_ID (s_User s)) role :: h_conns h) h).
Definition untrack (k : nat) : M hub unit :=
  mmodify (λ h, with_conns (deleteWhere (λ c, c_key c =? k)%nat (h_conns h)) h).
Definition closeConns (p : sessionConn → bool) : M hub unit := mmodify (λ h,
  with_trace (h_trace h ++ map (λ c, EStop (c_key c)) (selectWhere p (h_conns h))) h).
Definition closeSessionConns (hash : string) : M hub unit := closeConns (λ c, String.eqb (c_session c) hash).
Definition closeConnsBeyondRole (userID : Z) (role : string) : M hub unit :=
  closeConns (λ c, (c_userID c =? userID) && negb (RoleIncludes role (c_role c))).
(** [keep]: the session making the change; empty for none. *)
Definition signOutUser (userID : Z) (keep : option string) : M hub (res unit) :=
  r ← match keep with
      | Some k => db (DeleteOtherSessions userID k)
      | None => db (DeleteSessions userID)
      end;
  closeConns (λ c, (c_userID c =? userID) && negb (String.eqb (c_session c) (default "" keep)));;
  mret r.
End hub.

(** ** Reasoning about handlers *)
Section reasoning.
Context `{Lib} `{Marshal}.

(** A step that changes the database, clock and random source only. *)
Definition onlyMach (h h' : hub) : Prop := h' = with_m (h_m h') h.
#[export] Instance onlyMach_preorder : PreOrder onlyMach.
Proof.
  split; unfold onlyMach.
  - intros h. by destruct h.
  - intros h1 h2 h3 H12 H23. rewrite H23, H12. by destruct h1.
Qed.
(** A step whose database part is an [R]-step. *)
Definition onHub (R : store → store → Prop) (h h' : hub) : Prop := R (m_db (h_m h)) (m_db (h_m h')).
#[export] Instance onHub_preorder R `{!PreOrder R} : PreOrder (onHub R).
Proof.
  split; unfold onHub; [intros h; reflexivity|intros h1 h2 h3; apply transitivity].
Qed.

Lemma steps_db_onlyMach {A} (m : M mach A) : steps onlyMach (db m).
Proof. intros h. unfold onlyMach, db. destruct (m (h_m h)); cbn. by destruct h. Qed.
Lemma steps_db {A} (R : store → store → Prop) (m : M mach A) : steps (onDB R) m → steps (onHub R) (db m).
Proof.
  intros Hm h. unfold onHub, db. pose proof (Hm (h_m h)) as E. destruct (m (h_m h)); cbn. by destruct h.
Qed.
Lemma steps_audit_onlyMach r u a s d : steps onlyMach (audit r u a s d).
Proof. unfold audit. repeat step1. apply steps_db_onlyMach. Qed.

Lemma wp_db {A} (m : M mach A) Q h : wp m (λ a m', Q a (with_m m' h)) (h_m h) → wp (db m) Q h.
Proof. unfold wp, db. by destruct (m (h_m h)). Qed.
(** The wall clock. *)
Definition clock (m : mach) : Z := e_now (m_env m).
(** A query answers from the current tables, or fails. *)
Lemma wp_query {A} (f : store → res A) (Q : res A → mach → Prop) m :
  (∀ m', m_db m' = m_db m → clock m' = clock m → Q (f (m_db m)) m' ∧ Q (Err (ErrSQL SqlFault)) m') →
  wp (query f) Q m.
Proof.
  intros HQ. unfold wp, query, sql. destruct m as [d [t ks fs rs]]. cbn.
  destruct fs as [|[] fs]; cbn; apply HQ; done.
Qed.
Lemma wp_timeNow (Q : Z → mach → Prop) m :
  (∀ m', m_db m' = m_db m → Q (clock m') m') → wp timeNow Q m.
Proof.
  intros HQ. unfold wp, timeNow. destruct m as [d [t [|k ks] fs rs]]; cbn.
  - by apply (HQ (mkMach d (mkEnv t [] fs rs))).
  - by apply (HQ (mkMach d (mkEnv (t + k) ks fs rs))).
Qed.
Lemma wp_randRead (Q : string → mach → Prop) m :
  (∀ x m', m_db m' = m_db m → Q x m') → wp randRead Q m.
Proof. intros HQ. unfold wp, randRead. destruct m as [d [t ks fs [|r rs]]]; apply HQ; done. Qed.
(** A statement takes effect, or fails and changes nothing. *)
Lemma wp_sql {A} (f : store → res A * store) (Q : res A → mach → Prop) m :
  (∀ m', m_db m' = (f (m_db m)).2 → Q (f (m_db m)).1 m') →
  (∀ m', m_db m' = m_db m → Q (Err (ErrSQL SqlFault)) m') → wp (sql f) Q m.
Proof.
  intros Hok Hbad. unfold wp, sql. destruct m as [d [t ks fs rs]]. cbn in *.
  destruct fs as [|[] fs]; cbn; [|by apply Hbad|]; destruct (f d); by apply Hok.
Qed.
(** ** A working database: no statement fails any more *)
Definition noFaults (m : mach) : Prop := e_faults (m_env m) = [].
Lemma steps_timeNow_nf : steps (keeps noFaults) timeNow.
Proof. intros [d [t [|k ks] fs rs]] Hn; exact Hn. Qed.
Lemma steps_randRead_nf : steps (keeps noFaults) randRead.
Proof. intros [d [t ks fs [|r rs]]] Hn; exact Hn. Qed.
Lemma steps_sql_nf {A} (f : store → res A * store) : steps (keeps noFaults) (sql f).
Proof.
  intros [d [t ks fs rs]] Hn. unfold noFaults in *. cbn in Hn. subst fs. cbn. by destruct (f d).
Qed.
Lemma steps_query_nf {A} (f : store → res A) : steps (keeps noFaults) (query f).
Proof. apply steps_sql_nf. Qed.
Lemma wp_sql_nf {A} (f : store → res A * store) (Q : res A → mach → Prop) m :
  noFaults m → (∀ m', noFaults m' → m_db m' = (f (m_db m)).2 → Q (f (m_db m)).1 m') → wp (sql f) Q m.
Proof.
  intros Hn HQ. unfold wp, sql. destruct m as [d [t ks fs rs]]. unfold noFaults in *. cbn in *. subst fs.
  destruct (f d) as [x d'] eqn:E. cbn in *. by apply (HQ (mkMach d' (mkEnv t ks [] rs))).
Qed.

Lemma wp_sql_cases {A} (f : store → res A * store) (Q : res A → mach → Prop) m :
  (∀ m', m_db m' = (f (m_db m)).2 → (noFaults m → noFaults m') → Q (f (m_db m)).1 m') →
  (∀ m', m_db m' = m_db m → ¬ noFaults m → Q (Err (ErrSQL SqlFault)) m') → wp (sql f) Q m.
Proof.
  intros Hok Hbad. unfold wp, sql, noFaults in *. destruct m as [d [t ks fs rs]]. cbn in *.
  destruct fs as [|[] fs]; cbn; [|by apply Hbad|]; destruct (f d); by apply Hok.
Qed.
Lemma wp_query_cases {A} (f : store → res A) (Q : res A → mach → Prop) m :
  (∀ m', m_db m' = m_db m → (noFaults m → noFaults m') → Q (f (m_db m)) m') →
  (∀ m', m_db m' = m_db m → ¬ noFaults m → Q (Err (ErrSQL SqlFault)) m') → wp (query f) Q m.
Proof. intros Hok Hbad. by apply wp_sql_cases. Qed.

Lemma wp_timeNow_nf (Q : Z → mach → Prop) m :
  (∀ m', m_db m' = m_db m → (noFaults m → noFaults m') → Q (clock m') m') → wp timeNow Q m.
Proof.
  intros HQ. unfold wp, timeNow. destruct m as [d [t [|k ks] fs rs]]; cbn.
  - by apply (HQ (mkMach d (mkEnv t [] fs rs))).
  - by apply (HQ (mkMach d (mkEnv (t + k) ks fs rs))).
Qed.
Lemma wp_query_clock {A} (f : store → res A) (Q : res A → mach → Prop) m :
  (∀ m', m_db m' = m_db m → (timeNow m').1 = (timeNow m).1 → (noFaults m → noFaults m') → Q (f (m_db m)) m') →
  (∀ m', m_db m' = m_db m → (timeNow m').1 = (timeNow m).1 → ¬ noFaults m → Q (Err (ErrSQL SqlFault)) m') → wp (query f) Q m.
Proof.
  intros Hok Hbad. unfold wp, query, sql, noFaults in *. destruct m as [d [t ks fs rs]]. cbn in *.
  destruct fs as [|[] fs]; cbn; [apply Hok|apply Hbad|apply Hok]; try done; by destruct ks.
Qed.
Lemma wp_timeNow_full (Q : Z → mach → Prop) m :
  (∀ m', m_db m' = m_db m → (noFaults m → noFaults m') → Q (timeNow m).1 m') → wp timeNow Q m.
Proof. intros HQ. unfold wp. apply HQ; [by destruct m as [d [t [|k ks] fs rs]]|apply steps_timeNow_nf]. Qed.

(** A step that leaves the connections and the trace alone. *)
Definition calm (h h' : hub) : Prop :=
  h_conns h' = h_conns h ∧ h_trace h' = h_trace h ∧ (noFaults (h_m h) → noFaults (h_m h')).
#[export] Instance calm_preorder : PreOrder calm.
Proof.
  split; unfold calm; [naive_solver|].
  intros h1 h2 h3 (? & ? & ?) (? & ? & ?). split_and!; [congruence|congruence|auto].
Qed.
Lemma steps_db_calm {A} (m : M mach A) : steps (keeps noFaults) m → steps calm (db m).
Proof.
  intros Hm h. unfold calm, db. pose proof (Hm (h_m h)) as E. unfold keeps in E.
  destruct (m (h_m h)); cbn. by split_and!.
Qed.
End reasoning.
#[export] Hint Resolve steps_db_onlyMach steps_audit_onlyMach steps_timeNow_nf steps_randRead_nf
  steps_sql_nf steps_query_nf : steps.

(** One symbolic step of a [wp] goal. *)
Ltac wp1 :=
  lazymatch goal with
  | |- wp (mbind _ _) _ _ => apply wp_bind
  | |- wp (mret _) _ _ => apply wp_ret
  | |- wp (mmodify _) _ _ => apply wp_modify
  | |- wp mget _ _ => apply wp_get
  | |- wp (mgets _) _ _ => apply wp_gets
  | |- wp (db (query _)) _ _ => apply wp_db, wp_query
  | |- wp (db timeNow) _ _ => apply wp_db, wp_timeNow
  | |- wp (db randRead) _ _ => apply wp_db, wp_randRead
  | |- wp (db (mbind _ _)) _ _ => apply wp_db, wp_bind
  | |- wp timeNow _ _ => apply wp_timeNow
  | |- wp randRead _ _ => apply wp_randRead
  | |- wp (query _) _ _ => apply wp_query
  end.
