(* ===== verification/Auth.v ===== *)
(** * Signing in ([internal/hub/auth.go], the verification part of [passkeys.go])

    Sessions, roles, password and two-factor checks, passkey assertions, and the handlers
    for setup, login, logout, re-authentication, password and two-factor changes. *)
From Stdlib Require Import ZArith Lia Ascii String.
From S2P Require Import Prelude GoStrings Float64 Library Store StoreTables StoreInv Limiter TailBuffer Update Webauthn Protocol Hub.
From stdpp Require Import base gmap strings list.
Local Open Scope string_scope.
Local Open Scope list_scope.
Local Open Scope Z_scope.
Local Open Scope lotse_scope.

Record assertion := mkAssertion {
  an_ID : string;
  an_ClientData : string;
  an_AuthenticatorData : string;
  an_Signature : string;
  an_UserHandle : string;
}.
Record credentials := mkCredentials {
  cr_Username : string;
  cr_Password : string;
  cr_Code : string;
  cr_Passkey : option assertion;
}.
Definition sessionHandler := request → Session → M hub response.

Section auth.
Context `{Lib} `{Marshal} `{!Unmarshal clientData}.
(** The salt of the hash that stands in for unknown users. *)
Context (dummySalt : string).

Definition randomToken : M mach string := b ← randRead; mret (b64urlEncode b).
Definition hashToken (token : string) : string := sha256 token.
Definition dummyHash : string := default "" (bcryptGenerate dummySalt "not-a-real-password").
(** [bcrypt.GenerateFromPassword] with a fresh salt. *)
Definition generateHash (pw : string) : M mach (option string) := salt ← randRead; mret (bcryptGenerate salt pw).

(** ** Sessions and roles *)
Definition notLoggedIn : response := writeError 401 "not logged in".
Definition requireUser (next : sessionHandler) (r : request) : M hub response :=
  match rq_cookie r with
  | None => mret notLoggedIn
  | Some c =>
    if String.eqb c "" then mret notLoggedIn else
    s ← db (getSession (hashToken c));
    match s with
    | Err _ => mret notLoggedIn
    | Ok s => next r s
    end
  end.
Definition requireRole (role : string) (next : sessionHandler) : request → M hub response :=
  requireUser (λ r s,
    if negb (Can (s_User s) role)
    then mret (writeError 403 ("your role (" +:+ u_Role (s_User s) +:+ ") does not allow this"))
    else next r s).
Definition requireElevated (s : Session) : M hub (response + unit) :=
  t ← db timeNow;
  mret (ensure (unix t <=? s_ElevatedUntil s)
          (writeJSON 403 (JObj [("error", JStr "confirm your password first"); ("reauth_required", JBool true)]))).

Definition validatePassword (pw : string) : string :=
  if strLen pw <? 8 then "password must be at least 8 characters"
  else if 72 <? strLen pw then "password must be at most 72 bytes"
  else "".
(** The trimmed credentials and the message for invalid ones. *)
Definition validate (c : credentials) : credentials * string :=
  let c' := mkCredentials (TrimSpace (cr_Username c)) (cr_Password c) (cr_Code c) (cr_Passkey c) in
  (c', if String.eqb (cr_Username c') "" || (maxNameLen <? RuneCountInString (cr_Username c'))
       then "username must be 1-64 characters"
       else validatePassword (cr_Password c')).

Definition me (u : User) (elevatedUntil : Z) : M hub json :=
  keys ← db (Passkeys (u_ID u));
  mret (JObj [("id", JInt (u_ID u)); ("username", JStr (u_Username u)); ("role", JStr (u_Role u));
              ("totp", JBool (negb (String.eqb (u_TOTPSecret u) "")));
              ("passkeys", JInt (match keys with Ok l => Z.of_nat (length l) | Err _ => 0 end));
              ("elevated_until", JInt elevatedUntil)]).

Definition startSession (r : request) (u : User) : M hub response :=
  token ← db randomToken;
  t ← db timeNow;
  let expires := t + sessionTTL in
  _ ⇐ (e ← db (CreateSession (hashToken token) (u_ID u) expires); mret (orInternal e));
  now ← db timeNow;
  _ ← db (SetLastLogin (u_ID u) now);
  dto ← me u 0;
  mret (mkResponse 200 [mkCookie token expires 0 (isHTTPS r)] (Some dto)).

(** ** Setup *)
Definition getSetup (r : request) : M hub response :=
  n ⇐ (e ← db CountUsers; mret (orInternal e));
  mret (writeJSON 200 (JObj [("needed", JBool (n =? 0))])).
Definition postSetup (r : request) (body : option credentials) : M hub response :=
  c0 ⇐ mret (readJSON body);
  let '(c, msg) := validate c0 in
  _ ⇐ mret (ensure (String.eqb msg "") (writeError 400 msg));
  n ⇐ (e ← db CountUsers; mret (orInternal e));
  _ ⇐ mret (ensure (n <=? 0) (writeError 409 "setup is already complete"));
  hash ← db (generateHash (cr_Password c));
  match hash with
  | None => mret internalError
  | Some hash =>
    u ⇐ (e ← db (CreateUser (cr_Username c) hash RoleAdmin); mret (orInternal e));
    audit (Some r) (u_Username u) "setup" None "created the admin account";;
    startSession r u
  end.

(** ** Attempts *)
Definition writeTooManyAttempts : response := writeError 429 "too many failed attempts, try again in a few minutes".
Definition beginAttempt (ip : string) : M hub (option attempt) :=
  t ← db timeNow;
  mstate (λ h, let '(a, l) := begin ip t (h_limiter h) in (a, with_limiter l h)).
(** [defer a.end()]: the body answers and returns the attempt, failed or not. *)
Definition withAttempt {A} (r : request) (refused : A) (body : attempt → M hub (attempt * A)) : M hub A :=
  a ← beginAttempt (clientIP r);
  match a with
  | None => mret refused
  | Some a =>
    x ← body a;
    mmodify (λ h, with_limiter (endAttempt x.1 (h_limiter h)) h);;
    mret x.2
  end.

(** Waiting for one of the slots for hashing ends with a slot or with the request, whichever comes first. *)
Definition passwordMatches (r : request) (hash password : string) : bool :=
  if rq_done r then false else bcryptCompare hash password.

(** ** Two-factor codes *)
Definition totpSkews : list Z := [0; -1; 1].
(** The time steps in the order they are tried, with the first whose code matches. *)
Fixpoint matchTOTP (secret code : string) (now : Z) (skews : list Z) : option Z :=
  match skews with
  | [] => None
  | k :: rest =>
    let t := now + k * seconds 30 in
    if match totpCode secret (unix t) with Some want => String.eqb want code | None => false end
    then Some (unix t /! 30)
    else matchTOTP secret code now rest
  end.
Definition checkTOTP (userID : Z) (secret code0 : string) : M hub bool :=
  let code := removeSpaces (TrimSpace code0) in
  if String.eqb secret "" || negb (strLen code =? 6) then mret false else
  now ← db timeNow;
  match matchTOTP secret code now totpSkews with
  | None => mret false
  | Some step => mstate (λ h,
      if step <=? default 0 (h_totpUsed h !! userID) then (false, h)
      else (true, with_totpUsed (<[userID := step]> (h_totpUsed h)) h))
  end.

(** ** Passkey assertions *)
Definition checkClient (raw : string) (typ origin purpose session : string) : M hub (result string unit) :=
  let '(cd, ok) := unmarshal raw in
  t ← (if ok then db timeNow else mret 0);
  mstate (λ h,
    let '(r, c) := checkClientData (if ok then Some cd else None) typ origin purpose session t (h_challenges h) in
    (r, with_challenges c h)).
(** The passkey an assertion came from, or the message for the user. *)
Definition verifyAssertion (r : request) (a : assertion) (purpose session : string) : M hub (result string Passkey) :=
  match relyingParty (rq_Origin r) (rq_Host r) with
  | Err e => mret (Err e)
  | Ok (origin, rpID) =>
    match decodeFields [an_ID a; an_ClientData a; an_AuthenticatorData a; an_Signature a; an_UserHandle a] with
    | Ok [credID; cdJSON; adBytes; sig; userHandle] =>
      c ← checkClient cdJSON "webauthn.get" origin purpose session;
      match c with
      | Err e => mret (Err e)
      | Ok _ =>
        match parseAuthData (bytesOf adBytes) rpID with
        | None => mret (Err "panic")
        | Some (Err e) => mret (Err e)
        | Some (Ok ad) =>
          k ← db (PasskeyByCredential credID);
          match k with
          | Err ErrNotFound => mret (Err "this passkey is not registered with the hub")
          | Err e => mret (Err (errorText e))
          | Ok key =>
            if negb (String.eqb (pk_RPID key) rpID)
               || negb (verifySignature (pk_PublicKey key) (pk_Algorithm key) adBytes cdJSON sig)
            then mret (Err "the passkey signature is invalid") else
            foreign ← (if 0 <? strLen userHandle then
                         hd ← db (PasskeyHandle (pk_UserID key));
                         mret (match hd with Ok x => negb (String.eqb x userHandle) | Err _ => true end)
                       else mret false);
            if (foreign : bool) then mret (Err "the passkey belongs to another account") else
            if (negb (ad_signCount ad =? 0) || negb (pk_SignCount key =? 0)) && (ad_signCount ad <=? pk_SignCount key)
            then mret (Err "this passkey's signature counter went backwards; it may have been copied") else
            _ ← db (UsePasskey (pk_ID key) (ad_signCount ad));
            mret (Ok key)
          end
        end
      end
    | Ok _ => mret (Err "invalid passkey response")
    | Err e => mret (Err e)
    end
  end.

Definition loginWithPasskey (r : request) (at_ : attempt) (a : assertion) : M hub (attempt * response) :=
  k ← verifyAssertion r a "login" "";
  match k with
  | Err e =>
    audit (Some r) "" "login_failed" None ("passkey: " +:+ e);;
    mret (fail at_, writeError 401 e)
  | Ok key =>
    u ← db (getUser (pk_UserID key));
    match u with
    | Err _ => mret (at_, internalError)
    | Ok u =>
      audit (Some r) (u_Username u) "login" None ("with passkey " +:+ Quote (pk_Name key));;
      resp ← startSession r u; mret (at_, resp)
    end
  end.
(** The passkey's name, or the response. *)
Definition reauthenticateWithPasskey (r : request) (s : Session) (a : assertion) : M hub (response + string) :=
  withAttempt r (inl writeTooManyAttempts) (λ at_,
    k ← verifyAssertion r a "elevate" (s_TokenHash s);
    let k' := match k with
              | Ok key => if negb (pk_UserID key =? u_ID (s_User s))
                          then Err "that passkey belongs to another account" else Ok key
              | Err e => Err e
              end in
    match k' with
    | Err e =>
      audit (Some r) (u_Username (s_User s)) "reauth_failed" None ("passkey: " +:+ e);;
      mret (fail at_, inl (writeError 403 e))
    | Ok key => mret (at_, if String.eqb (pk_Name key) "" then inl (mkResponse 200 [] None) else inr (pk_Name key))
    end).

(** ** Login and logout *)
Definition loginWithPassword (r : request) (a : attempt) (c : credentials) : M hub (attempt * response) :=
  u ← db (UserByName (TrimSpace (cr_Username c)));
  match u with
  | Err ErrNotFound | Ok _ =>
    let hash := match u with Ok u => u_PasswordHash u | Err _ => dummyHash end in
    match passwordMatches r hash (cr_Password c), u with
    | true, Ok u =>
      if negb (String.eqb (u_TOTPSecret u) "") then
        if String.eqb (TrimSpace (cr_Code c)) "" then
          mret (a, writeJSON 401 (JObj [("error", JStr "enter the code from your authenticator app");
                                        ("totp_required", JBool true)]))
        else
          ok ← checkTOTP (u_ID u) (u_TOTPSecret u) (cr_Code c);
          if negb ok then
            audit (Some r) (u_Username u) "login_failed" None "wrong two-factor code";;
            mret (fail a, writeJSON 401 (JObj [("error", JStr "invalid code"); ("totp_required", JBool true)]))
          else
            audit (Some r) (u_Username u) "login" None "";;
            resp ← startSession r u; mret (a, resp)
      else
        audit (Some r) (u_Username u) "login" None "";;
        resp ← startSession r u; mret (a, resp)
    | _, _ =>
      audit (Some r) (cr_Username c) "login_failed" None "wrong username or password";;
      mret (fail a, writeError 401 "invalid username or password")
    end
  | Err _ => mret (a, internalError)
  end.
Definition postLogin (r : request) (body : option credentials) : M hub response :=
  withAttempt r writeTooManyAttempts (λ a,
    match readJSON body with
    | inl resp => mret (a, resp)
    | inr c =>
      match cr_Passkey c with
      | Some pk => loginWithPasskey r a pk
      | None => loginWithPassword r a c
      end
    end).

Definition postLogout (r : request) : M hub response :=
  (match rq_cookie r with
   | None => mret tt
   | Some c =>
     if String.eqb c "" then mret tt else
     let hash := hashToken c in
     s ← db (getSession hash);
     (match s with Ok s => audit (Some r) (u_Username (s_User s)) "logout" None "" | Err _ => mret tt end);;
     closeSessionConns hash;;
     _ ← db (DeleteSession hash); mret tt
   end);;
  mret (mkResponse 204 [mkCookie "" zeroTime (-1) (isHTTPS r)] None).

Definition getMe (r : request) (s : Session) : M hub response :=
  d ← me (s_User s) (s_ElevatedUntil s); mret (writeJSON 200 d).

(** ** Re-authentication *)
Definition reauthenticate (r : request) (s : Session) (password code : string) (withCode : bool) (action : string)
    : M hub (response + unit) :=
  let u := s_User s in
  withAttempt r (inl writeTooManyAttempts) (λ a,
    if negb (passwordMatches r (u_PasswordHash u) password) then
      audit (Some r) (u_Username u) (action +:+ "_failed") None "wrong password";;
      mret (fail a, inl (writeError 403 "wrong password"))
    else
      ok ← (if withCode && negb (String.eqb (u_TOTPSecret u) "") then checkTOTP (u_ID u) (u_TOTPSecret u) code
            else mret true);
      if negb ok then
        audit (Some r) (u_Username u) (action +:+ "_failed") None "wrong two-factor code";;
        mret (fail a, inl (writeError 403 "invalid two-factor code"))
      else mret (a, inr tt)).

Definition postElevate (r : request) (s : Session) (body : option credentials) : M hub response :=
  c ⇐ mret (readJSON body);
  detail ⇐ match cr_Passkey c with
           | Some pk => x ← reauthenticateWithPasskey r s pk;
                        mret (match x with inl resp => inl resp | inr name => inr ("with passkey " +:+ Quote name) end)
           | None => x ← reauthenticate r s (cr_Password c) (cr_Code c) true "reauth";
                     mret (match x with inl resp => inl resp | inr _ => inr "" end)
           end;
  t ← db timeNow;
  let until := t + elevationTTL in
  _ ⇐ (e ← db (ElevateSession (s_TokenHash s) until); mret (orInternal e));
  audit (Some r) (u_Username (s_User s)) "reauth" None detail;;
  mret (writeJSON 200 (JObj [("elevated_until", JInt (unix until))])).

Record passwordChange := mkPasswordChange { pc_Current : string; pc_New : string }.
Definition postPassword (r : request) (s : Session) (body : option passwordChange) : M hub response :=
  b ⇐ mret (readJSON body);
  let msg := validatePassword (pc_New b) in
  _ ⇐ mret (ensure (String.eqb msg "") (writeError 400 msg));
  _ ⇐ reauthenticate r s (pc_Current b) "" false "password_change";
  hash ← db (generateHash (pc_New b));
  match hash with
  | None => mret internalError
  | Some hash =>
    _ ⇐ (e ← db (SetPassword (u_ID (s_User s)) hash); mret (orInternal e));
    _ ← signOutUser (u_ID (s_User s)) (Some (s_TokenHash s));
    audit (Some r) (u_Username (s_User s)) "password_changed" None "other sessions were logged out";;
    mret noContent
  end.

(** ** Two-factor login *)
Record totpEnable := mkTotpEnable { te_Secret : string; te_Code : string; te_Password : string }.
(** The address of a key and its picture, as a data URI, are the library's; nothing is stored. *)
Definition postTOTPSetup (keyURL : string → string → string) (keyImage : string → string → option string) (s : Session) : M hub response :=
  seed ← db randRead;
  let name := u_Username (s_User s) in
  match totpGenerate seed name with
  | None => mret internalError
  | Some secret =>
    match keyImage secret name with
    | None => mret internalError
    | Some qr => mret (writeJSON 200 (JObj [("secret", JStr secret); ("uri", JStr (keyURL secret name)); ("qr", JStr qr)]))
    end
  end.
Definition postTOTPEnable (r : request) (s : Session) (body : option totpEnable) : M hub response :=
  b ⇐ mret (readJSON body);
  _ ⇐ mret (ensure (String.eqb (u_TOTPSecret (s_User s)) "") (writeError 409 "two-factor login is already on"));
  _ ⇐ reauthenticate r s (te_Password b) "" false "totp_enable";
  ok ← checkTOTP (u_ID (s_User s)) (te_Secret b) (te_Code b);
  if negb ok then mret (writeError 400 "that code does not match; check the time on your phone and try the next code") else
  _ ⇐ (e ← db (SetTOTPSecret (u_ID (s_User s)) (te_Secret b)); mret (orInternal e));
  audit (Some r) (u_Username (s_User s)) "totp_enabled" None "";;
  mret noContent.
Definition postTOTPDisable (r : request) (s : Session) (body : option credentials) : M hub response :=
  b ⇐ mret (readJSON body);
  if String.eqb (u_TOTPSecret (s_User s)) "" then mret noContent else
  _ ⇐ reauthenticate r s (cr_Password b) (cr_Code b) true "totp_disable";
  _ ⇐ (e ← db (SetTOTPSecret (u_ID (s_User s)) ""); mret (orInternal e));
  audit (Some r) (u_Username (s_User s)) "totp_disabled" None "";;
  mret noContent.
End auth.
