(* ===== verification/AuthProps.v ===== *)
(** * Properties of signing in *)
From Stdlib Require Import ZArith Lia Ascii String.
From S2P Require Import Prelude GoStrings Float64 Library Store StoreTables StoreInv StoreSteps Limiter TailBuffer Update Webauthn Protocol Hub Auth.
From stdpp Require Import base gmap strings list relations sorting.
Local Open Scope string_scope.
Local Open Scope list_scope.
Local Open Scope Z_scope.
Local Open Scope lotse_scope.

Section props.
Context `{Lib} `{Marshal} `{!Unmarshal clientData} (dummySalt : string).
Implicit Types (h : hub).
Abbreviation tables h := (m_db (h_m h)).

Lemma onlyMach_frames {B} (f : hub → B) (Hf : ∀ h m, f (with_m m h) = f h) h h' : onlyMach h h' → f h' = f h.
Proof. intros ->. apply Hf. Qed.

(** ** Sessions *)
(** The browser session behind a cookie value, at time [t] in seconds. *)
Definition validSession (d : store) (token : string) (t : Z) (s : Session) : Prop :=
  ∃ x row, x ∈ sessions d ∧ sr_token_hash x = hashToken token ∧ t < sr_expires_at x
    ∧ row ∈ users d ∧ ur_ID row = sr_user_id x
    ∧ s = mkSession (ur_user row) (hashToken token) (sr_elevated_until x).

Lemma joinSessions_valid token t d s : s ∈ joinSessions (hashToken token) t d → validSession d token t s.
Proof.
  unfold joinSessions. rewrite list_elem_of_In, in_flat_map. intros (x & Hx & Hs).
  apply list_elem_of_In, elem_of_selectWhere in Hx as [Hx Hp].
  apply in_map_iff in Hs as (row & <- & Hrow). apply list_elem_of_In, elem_of_selectWhere in Hrow as [Hrow Hid].
  bool_hyps. exists x, row. split_and!; auto.
Qed.
Lemma oneRow_ok {A} (l : list A) a : oneRow l = Ok a → a ∈ l.
Proof. destruct l; cbn; [done|]. intros ?; simplify_eq. constructor. Qed.

Lemma wp_getSession token Q h :
  (∀ h', onlyMach h h' → tables h' = tables h →
     (∀ s, validSession (tables h) token (unix (clock (h_m h'))) s → Q (Ok s) h') ∧ (∀ e, Q (Err e) h')) →
  wp (db (getSession (hashToken token))) Q h.
Proof.
  intros HQ. unfold getSession. apply wp_db, wp_bind, wp_timeNow. intros m1 Hm1. apply wp_query.
  intros m2 Hm2 Hc2. assert (Ho : onlyMach h (with_m m2 h)) by done.
  destruct (HQ (with_m m2 h) Ho) as [Hok Herr]; [cbn; congruence|]. split; [|apply Herr].
  rewrite Hm1. destruct (oneRow _) as [s|e] eqn:E; [|apply Herr]. apply Hok.
  cbn. rewrite Hc2. by apply joinSessions_valid, oneRow_ok.
Qed.

(** The guards: the request is refused with the database as it was, or the handler runs with a
    valid session. *)
Definition refusal (resp : response) : Prop := (rs_status resp = 401 ∨ rs_status resp = 403) ∧ rs_cookies resp = [].
Lemma wp_requireUser (next : sessionHandler) (r : request) (Q : response → hub → Prop) h :
  (∀ resp h1, refusal resp → onlyMach h h1 → tables h1 = tables h → Q resp h1) →
  (∀ token s h1, rq_cookie r = Some token → onlyMach h h1 → tables h1 = tables h →
     validSession (tables h) token (unix (clock (h_m h1))) s → wp (next r s) Q h1) →
  wp (requireUser next r) Q h.
Proof.
  intros Hno Hyes. assert (Hr : refusal notLoggedIn) by (split; auto).
  unfold requireUser. destruct (rq_cookie r) as [token|] eqn:Ec; [|by apply wp_ret, Hno].
  destruct (String.eqb token ""); [by apply wp_ret, Hno|].
  apply wp_bind, wp_getSession. intros h1 Ho Ht. split; [intros s Hs|intros e].
  - by eapply Hyes.
  - by apply wp_ret, Hno.
Qed.
Lemma wp_requireRole role (next : sessionHandler) (r : request) (Q : response → hub → Prop) h :
  (∀ resp h1, refusal resp → onlyMach h h1 → tables h1 = tables h → Q resp h1) →
  (∀ token s h1, rq_cookie r = Some token → onlyMach h h1 → tables h1 = tables h →
     validSession (tables h) token (unix (clock (h_m h1))) s → RoleIncludes (u_Role (s_User s)) role = true →
     wp (next r s) Q h1) →
  wp (requireRole role next r) Q h.
Proof.
  intros Hno Hyes. apply wp_requireUser; [done|]. intros token s h1 Hc Ho Ht Hs.
  destruct (Can (s_User s) role) eqn:Ecan; cbn [negb]; [by eapply Hyes|].
  apply wp_ret, Hno; [split; auto|done|done].
Qed.

(** Access control: a handler behind [requireRole] runs only for a cookie whose session exists
    and has not expired, and whose user has a role that includes the required one; any other
    request is answered with 401 or 403, without a change to the database. *)
Theorem requireRole_sound (role : string) (next : sessionHandler) (r : request) (h : hub) :
  let '(resp, h') := requireRole role next r h in
  ((rs_status resp = 401 ∨ rs_status resp = 403) ∧ rs_cookies resp = [] ∧ onlyMach h h' ∧ tables h' = tables h)
  ∨ (∃ token s h1, rq_cookie r = Some token ∧ onlyMach h h1 ∧ tables h1 = tables h
       ∧ validSession (tables h) token (unix (clock (h_m h1))) s
       ∧ RoleIncludes (u_Role (s_User s)) role = true
       ∧ (resp, h') = next r s h1).
Proof.
  apply wp_let, wp_requireRole.
  - intros resp h1 [??] ??. left. by split_and!.
  - intros token s h1 ?????. unfold wp. destruct (next r s h1) eqn:E. right. exists token, s, h1. by split_and!.
Qed.

(** ** Two-factor codes *)
(** [code] is the code of [secret] for time step [step], at most one step off [now]. *)
Definition totpMatch (secret code : string) (now step : Z) : Prop :=
  ∃ k, k ∈ totpSkews ∧ totpCode secret (unix (now + k * seconds 30)) = Some (removeSpaces (TrimSpace code))
    ∧ step = unix (now + k * seconds 30) /! 30.
Lemma matchTOTP_spec secret code now skews step :
  matchTOTP secret code now skews = Some step →
  ∃ k, k ∈ skews ∧ totpCode secret (unix (now + k * seconds 30)) = Some code ∧ step = unix (now + k * seconds 30) /! 30.
Proof.
  induction skews as [|k rest IH]; cbn [matchTOTP]; [done|].
  destruct (totpCode secret _) as [want|] eqn:E; [destruct (String.eqb_spec want code) as [->|]|].
  - intros ?; simplify_eq. exists k. split_and!; [constructor|done|done].
  - intros (k' & ? & ?)%IH. exists k'. split; [by constructor|done].
  - intros (k' & ? & ?)%IH. exists k'. split; [by constructor|done].
Qed.
Lemma wp_checkTOTP id secret code Q h :
  (∀ h', onlyMach h h' → tables h' = tables h → Q false h') →
  (∀ h1 step, onlyMach h h1 → tables h1 = tables h → default 0 (h_totpUsed h !! id) < step →
     totpMatch secret code (clock (h_m h1)) step →
     Q true (with_totpUsed (<[id := step]> (h_totpUsed h)) h1)) →
  wp (checkTOTP id secret code) Q h.
Proof.
  intros Hno Hyes. unfold checkTOTP. destruct (String.eqb secret "" || _); [apply wp_ret, Hno; reflexivity|].
  apply wp_bind, wp_db, wp_timeNow. intros m1 Hm1.
  assert (Ho : onlyMach h (with_m m1 h)) by done.
  destruct (matchTOTP _ _ _ _) as [step|] eqn:E; [|apply wp_ret, Hno; done].
  apply matchTOTP_spec in E. unfold wp, mstate. cbn -[Z.leb].
  destruct (step <=? default 0 (h_totpUsed h !! id)) eqn:El; bool_hyps; cbn -[Z.leb]; [by apply Hno|].
  by apply (Hyes (with_m m1 h) step).
Qed.

(** A sequence of code checks, with any other operations in between; [l] lists the user and
    time step of each accepted code. *)
Inductive totpRun : list (Z * Z) → hub → hub → Prop :=
| totp_nil h : totpRun [] h h
| totp_accept id secret code step l h h1 h2 :
    checkTOTP id secret code h = (true, h1) → h_totpUsed h1 !! id = Some step →
    totpRun l h1 h2 → totpRun ((id, step) :: l) h h2
| totp_reject id secret code l h h1 h2 :
    checkTOTP id secret code h = (false, h1) → totpRun l h1 h2 → totpRun l h h2
| totp_other l h h1 h2 : h_totpUsed h1 = h_totpUsed h → totpRun l h1 h2 → totpRun l h h2.

Lemma checkTOTP_used id secret code h b h1 :
  checkTOTP id secret code h = (b, h1) →
  if b then ∃ step, default 0 (h_totpUsed h !! id) < step ∧ h_totpUsed h1 = <[id := step]> (h_totpUsed h)
  else h_totpUsed h1 = h_totpUsed h.
Proof.
  apply (wp_run _ (λ (b : bool) (h1 : hub), if b then ∃ step, default 0 (h_totpUsed h !! id) < step
      ∧ h_totpUsed h1 = <[id := step]> (h_totpUsed h) else h_totpUsed h1 = h_totpUsed h)).
  apply wp_checkTOTP.
  - intros h' -> _. done.
  - intros h2 step Ho Ht Hlt _. exists step. split; [done|]. by rewrite Ho.
Qed.
(** Every accepted step lies beyond what was used before. *)
Lemma totpRun_above l h h' : totpRun l h h' →
  ∀ id step, (id, step) ∈ l → default 0 (h_totpUsed h !! id) < step.
Proof.
  induction 1 as [h|id0 sec code step0 l h h1 h2 Hc Hl _ IH|id0 sec code l h h1 h2 Hc _ IH|l h h1 h2 Heq _ IH];
    intros id step Hin.
  - by apply not_elem_of_nil in Hin.
  - apply checkTOTP_used in Hc as (st & Hlt & Hu). rewrite Hu, lookup_insert_eq in Hl. simplify_eq.
    apply elem_of_cons in Hin as [?|Hin]; [by simplify_eq|]. specialize (IH _ _ Hin). rewrite Hu in IH.
    destruct (decide (id = id0)) as [->|Hne]; [rewrite lookup_insert_eq in IH; cbn in IH; lia|].
    by rewrite lookup_insert_ne in IH.
  - apply checkTOTP_used in Hc. rewrite <-Hc. by apply IH.
  - rewrite <-Heq. by apply IH.
Qed.

(** C30. A two-factor code cannot be replayed: over any sequence of checks, the time steps accepted
    for one user strictly increase, so each is accepted at most once. *)
Theorem totp_no_replay (l : list (Z * Z)) (h h' : hub) (Hrun : totpRun l h h') :
  ∀ id, StronglySorted Z.lt (map snd (selectWhere (λ x, x.1 =? id) l)).
Proof.
  induction Hrun as [h|id0 sec code step0 l h h1 h2 Hc Hl Hrun IH|id0 sec code l h h1 h2 Hc _ IH|l h h1 h2 Heq _ IH];
    intros id; [constructor| |apply IH|apply IH].
  unfold selectWhere in *. cbn. destruct (id0 =? id) eqn:E; [|apply IH]. bool_hyps. subst id0. cbn.
  constructor; [apply IH|]. apply Forall_forall. intros x Hx.
  apply list_elem_of_fmap in Hx as ([id1 st] & -> & Hx).
  apply list_elem_of_In, filter_In in Hx as [Hx Hid]. cbn in *. bool_hyps. subst id1.
  apply list_elem_of_In in Hx. pose proof (totpRun_above _ _ _ Hrun _ _ Hx) as Hab.
  by rewrite Hl in Hab.
Qed.

(** ** Sign-in *)
Lemma steps_startSession r u : steps onlyMach (startSession r u).
Proof. unfold startSession, me. go_steps. Qed.
Lemma steps_generateHash pw : steps (onDB (frames id)) (generateHash pw).
Proof.
  unfold generateHash. apply steps_bind; [apply _|apply steps_randRead; apply _|].
  intros x. apply steps_ret. apply _.
Qed.

Lemma wp_withAttempt {A} r (refused : A) body (Q : A → hub → Prop) h :
  (∀ m l, m_db m = tables h → Q refused (with_limiter l (with_m m h))) →
  (∀ a m l, m_db m = tables h →
     wp (body a) (λ x h2, Q x.2 (with_limiter (endAttempt x.1 (h_limiter h2)) h2)) (with_limiter l (with_m m h))) →
  wp (withAttempt r refused body) Q h.
Proof.
  intros Hno Hyes. unfold withAttempt, beginAttempt. apply wp_bind, wp_bind, wp_db, wp_timeNow. intros m Hm.
  unfold wp at 1, mstate. cbn -[begin]. destruct (begin _ _ _) as [[a|] l]; cbn -[begin]; [|by apply wp_ret, Hno].
  apply wp_bind. eapply wp_mono; [by apply Hyes|]. intros x h2 HQ. apply wp_bind, wp_modify, wp_ret. exact HQ.
Qed.

(** The user proved the password and, with two-factor login on, a code not used before. *)
Definition authenticated (h h' : hub) (c : credentials) (u : User) : Prop :=
  bcryptCompare (u_PasswordHash u) (cr_Password c) = true
  ∧ (u_TOTPSecret u = "" ∨
     ∃ now step, totpMatch (u_TOTPSecret u) (cr_Code c) now step
       ∧ default 0 (h_totpUsed h !! u_ID u) < step ∧ h_totpUsed h' !! u_ID u = Some step).

(** C4. Nobody is signed in without proof: when [postLogin] sets a session cookie for a password
    sign-in, there is an account of that name, the password matches its hash, and if the
    account has two-factor login, the code is valid and newer than every code used before. *)
Theorem postLogin_sound (r : request) (c : credentials) (h : hub) (Hpw : cr_Passkey c = None) :
  let '(resp, h') := postLogin dummySalt r (Some c) h in
  rs_cookies resp ≠ [] →
  ∃ row, row ∈ users (tables h) ∧ nocaseEq (u_Username (ur_user row)) (TrimSpace (cr_Username c)) = true
    ∧ authenticated h h' c (ur_user row).
Proof.
  apply wp_let. unfold postLogin. apply wp_withAttempt; [done|].
  intros a m l Hm. cbn [readJSON]. rewrite Hpw. unfold loginWithPassword. apply wp_bind.
  unfold UserByName. apply wp_db, wp_query. cbn. intros m1 Hm1 _. rewrite Hm.
  split; [|by apply wp_ret].
  assert (Hfail : ∀ h1, wp (audit (Some r) (cr_Username c) "login_failed" None "wrong username or password";;
    mret (fail a, writeError 401 "invalid username or password")) (λ x h2, rs_cookies x.2 ≠ [] → ∃ row, row ∈ users (tables h)
      ∧ nocaseEq (u_Username (ur_user row)) (TrimSpace (cr_Username c)) = true
      ∧ authenticated h (with_limiter (endAttempt x.1 (h_limiter h2)) h2) c (ur_user row)) h1).
  { intros h1. apply wp_bind. eapply wp_steps; [apply steps_audit_onlyMach|]. intros ? h2 _. by apply wp_ret. }
  destruct (oneRow _) as [u|e] eqn:Eu; [|destruct e; try (by apply wp_ret); case_match; apply Hfail].
  apply oneRow_ok, list_elem_of_fmap in Eu as (row & -> & Hrow). apply elem_of_selectWhere in Hrow as [Hrow Hname].
  destruct (passwordMatches r _ _) eqn:Ep; [|apply Hfail].
  assert (Hb : bcryptCompare (u_PasswordHash (ur_user row)) (cr_Password c) = true).
  { unfold passwordMatches in Ep. by destruct (rq_done r). }
  assert (Hstart : ∀ h1, (∀ h2, onlyMach h1 h2 → ∀ l', authenticated h (with_limiter l' h2) c (ur_user row)) →
    wp (audit (Some r) (u_Username (ur_user row)) "login" None "";; resp ← startSession r (ur_user row); mret (a, resp))
    (λ x h2, rs_cookies x.2 ≠ [] → ∃ row, row ∈ users (tables h)
      ∧ nocaseEq (u_Username (ur_user row)) (TrimSpace (cr_Username c)) = true
      ∧ authenticated h (with_limiter (endAttempt x.1 (h_limiter h2)) h2) c (ur_user row)) h1).
  { intros h1 Hauth. apply wp_bind. eapply wp_steps; [apply steps_audit_onlyMach|]. intros ? h2 Ho2.
    apply wp_bind. eapply wp_steps; [apply steps_startSession|]. intros resp h3 Ho3. apply wp_ret.
    intros _. exists row. split_and!; [done|done|]. apply Hauth. by etrans. }
  destruct (String.eqb_spec (u_TOTPSecret (ur_user row)) "") as [Hno|Hsec]; cbn [negb].
  - apply Hstart. intros h2 _ l'. split; [done|by left].
  - destruct (String.eqb (TrimSpace (cr_Code c)) ""); [by apply wp_ret|]. apply wp_bind, wp_checkTOTP.
    + intros h' _ _. cbn [negb]. apply wp_bind. eapply wp_steps; [apply steps_audit_onlyMach|].
      intros ? h2 _. by apply wp_ret.
    + intros h1 step Ho Ht Hlt Hmatch. cbn [negb]. apply Hstart. intros h2 Ho2 l'. split; [done|]. right.
      exists (clock (h_m h1)), step. split_and!; [done|done|]. rewrite Ho2. cbn. by rewrite lookup_insert_eq.
Qed.

(** ** Setup *)
(** The database of a fresh hub: one account, an administrator. *)
Definition oneAdmin (d : store) : Prop := ∃ row, users d = [row] ∧ isAdmin row = true.
Lemma steps_audit_users (P : list userRow → Prop) r u a s d :
  steps (onHub (keeps (λ d, P (users d)))) (audit r u a s d).
Proof.
  unfold audit, AddAudit. go_steps. apply steps_db. go_steps.
  apply steps_sql; [apply _|]. intros [] ?. done.
Qed.
Lemma steps_startSession_oneAdmin r u : steps (onHub (keeps oneAdmin)) (startSession r u).
Proof.
  unfold startSession, me, randomToken, CreateSession, SetLastLogin, Passkeys. go_steps; apply steps_db; go_steps.
  - apply steps_sql; [apply _|]. intros d Hd. unfold insertSession. repeat case_match; by destruct d.
  - apply steps_sql; [apply _|]. intros d (row & Hu & Ha). unfold updateUsers, oneAdmin. cbn.
    assert (∀ l, users (set_users l d) = l) as -> by by destruct d. rewrite Hu. unfold updateWhere. cbn.
    eexists. split; [done|]. by case_match.
Qed.

(** Setup works once: with an account present [postSetup] changes nothing and signs nobody in,
    and when it signs someone in, the hub had no account before and has exactly one
    afterwards, an administrator. *)
Theorem postSetup_once (r : request) (body : option credentials) (h : hub) :
  let '(resp, h') := postSetup r body h in
  (users (tables h) ≠ [] → tables h' = tables h ∧ rs_cookies resp = [])
  ∧ (rs_cookies resp ≠ [] → users (tables h) = [] ∧ oneAdmin (tables h')).
Proof.
  apply wp_let. unfold postSetup. apply wp_bind, wp_ret. destruct body as [c0|]; [|by apply wp_ret].
  cbn [readJSON]. destruct (validate c0) as [c msg]. apply wp_bind, wp_ret.
  destruct (String.eqb msg ""); [|by apply wp_ret]. cbn [ensure].
  apply wp_bind, wp_bind. unfold CountUsers. apply wp_db, wp_query. intros m1 Hm1 _.
  split; [|by apply wp_ret, wp_ret]. apply wp_ret. cbn [orInternal]. apply wp_bind, wp_ret.
  destruct (users (tables h)) as [|row0 rest] eqn:Eu.
  2: { cbn [length]. destruct (Z.leb_spec (Z.of_nat (S (length rest))) 0); [lia|]. by apply wp_ret. }
  cbn [length ensure Z.of_nat Z.leb Z.compare]. apply wp_bind. unfold generateHash. do 2 wp1.
  intros x m2 Hm2. apply wp_ret. destruct (bcryptGenerate _ _) as [hash|]; [|by apply wp_ret].
  apply wp_bind, wp_bind. unfold CreateUser. replace (ValidRole RoleAdmin) with true by done. cbn [negb].
  do 2 wp1. intros m3 Hm3. apply wp_bind.
  assert (Hd : users (m_db m3) = []) by (rewrite Hm3; cbn; rewrite Hm2; cbn; by rewrite Hm1).
  apply wp_sql; [|intros m4 _; by apply wp_ret, wp_ret]. unfold insertUser. rewrite Hd. cbn [existsWhere existsb fst snd map].
  intros m4 Hm4. apply wp_ret, wp_ret. cbn [orInternal].
  assert (H4 : oneAdmin (m_db m4)).
  { rewrite Hm4. unfold existsWhere. cbn. destruct (m_db m3). cbn. eexists. split; [done|done]. }
  apply wp_bind. eapply wp_steps; [apply (steps_audit_users (λ l, ∃ row, l = [row] ∧ isAdmin row = true))|].
  intros ? h5 H5. specialize (H5 H4).
  eapply wp_steps; [apply steps_startSession_oneAdmin|]. intros resp h6 H6. split; [done|]. intros _.
  split; [done|]. by apply H6.
Qed.

(** ** Password change *)
Lemma steps_audit_calm r u a s d : steps calm (audit r u a s d).
Proof. unfold audit, AddAudit. go_steps. apply steps_db_calm. go_steps. Qed.
Hint Resolve steps_audit_calm : steps.
Lemma steps_timeNow_calm : steps calm (db timeNow).
Proof. apply steps_db_calm. go_steps. Qed.
Hint Resolve steps_timeNow_calm : steps.
Lemma steps_checkTOTP_calm id secret code : steps calm (checkTOTP id secret code).
Proof.
  unfold checkTOTP. go_steps. apply steps_state. intros h. case_match; by split_and!.
Qed.
Hint Resolve steps_checkTOTP_calm : steps.
Lemma steps_withAttempt_calm {A} r (refused : A) body :
  (∀ a, steps calm (body a)) → steps calm (withAttempt r refused body).
Proof.
  intros Hb. unfold withAttempt, beginAttempt. go_steps.
  - apply steps_state. intros h. destruct (begin _ _ _). by split_and!.
  - apply steps_modify. intros h. by split_and!.
Qed.
Lemma reauthenticate_spec r s password code withCode action h :
  wp (reauthenticate r s password code withCode action)
    (λ x h', calm h h' ∧ match x with
                         | inl resp => rs_status resp = 429 ∨ rs_status resp = 403
                         | inr _ => bcryptCompare (u_PasswordHash (s_User s)) password = true
                         end) h.
Proof.
  apply wp_and.
  - eapply wp_steps; [|by intros ???]. apply steps_withAttempt_calm. intros a. go_steps.
  - apply wp_withAttempt; [by left|]. intros a m l Hm.
    assert (Hfail : ∀ x y msg h1, wp (audit (Some r) x y None msg;; mret (fail a, inl (writeError 403 msg)) : M hub (attempt * (response + unit)))
      (λ x _, match x.2 with
              | inl resp => rs_status resp = 429 ∨ rs_status resp = 403
              | inr _ => bcryptCompare (u_PasswordHash (s_User s)) password = true
              end) h1).
    { intros. apply wp_bind. eapply wp_steps; [apply steps_audit_onlyMach|]. intros ? h2 _. apply wp_ret. by right. }
    destruct (passwordMatches _ _ _) eqn:Ep; cbn [negb]; [|apply Hfail].
    assert (bcryptCompare (u_PasswordHash (s_User s)) password = true)
      by (unfold passwordMatches in Ep; by destruct (rq_done r)).
    apply wp_bind. eapply (wp_mono _ (λ _ _, True)); [done|]. intros [] h1 _; cbn [negb].
    + by apply wp_ret.
    + apply wp_bind. eapply wp_steps; [apply steps_audit_onlyMach|]. intros ? h2 _. apply wp_ret. by right.
Qed.

Lemma users_set d l : sessions (set_users l d) = sessions d.
Proof. by destruct d. Qed.
Lemma sessions_set d l : sessions (set_sessions l d) = l.
Proof. by destruct d. Qed.
Lemma steps_audit_sessions (P : list sessionRow → Prop) r u a s d :
  steps (onHub (keeps (λ d, P (sessions d)))) (audit r u a s d).
Proof.
  unfold audit, AddAudit. go_steps. apply steps_db. go_steps. apply steps_sql; [apply _|]. intros [] ?. done.
Qed.
Lemma steps_generateHash_calm pw : steps calm (db (generateHash pw)).
Proof. apply steps_db_calm. unfold generateHash. go_steps. Qed.
Lemma steps_SetPassword_calm id hash : steps calm (db (SetPassword id hash)).
Proof. apply steps_db_calm. unfold SetPassword. go_steps. Qed.
(** Signing a user out with a working database: what is left of the sessions, and which
    connections were stopped. *)
Lemma signOutUser_spec id keep h :
  noFaults (h_m h) →
  wp (signOutUser id keep) (λ r h', r = Ok tt
    ∧ (∀ x, x ∈ sessions (tables h') → sr_user_id x = id → Some (sr_token_hash x) = keep)
    ∧ (∀ c, c ∈ h_conns h → c_userID c = id → c_session c ≠ default "" keep → EStop (c_key c) ∈ h_trace h')
    ∧ noFaults (h_m h')) h.
Proof.
  intros Hn. unfold signOutUser, DeleteOtherSessions, DeleteSessions, deleteSessionsWhere.
  assert (Hgen : ∀ p, (∀ x, p x = false → sr_user_id x = id → Some (sr_token_hash x) = keep) →
    wp (r ← db (sql (λ s, (Ok tt, set_sessions (deleteWhere p (sessions s)) s)));
        closeConns (λ c, (c_userID c =? id) && negb (String.eqb (c_session c) (default "" keep)));; mret r)
    (λ r h', r = Ok tt
    ∧ (∀ x, x ∈ sessions (tables h') → sr_user_id x = id → Some (sr_token_hash x) = keep)
    ∧ (∀ c, c ∈ h_conns h → c_userID c = id → c_session c ≠ default "" keep → EStop (c_key c) ∈ h_trace h')
    ∧ noFaults (h_m h')) h).
  { intros p Hp. apply wp_bind, wp_db, wp_sql_nf; [done|]. intros m' Hn' Hm'. cbn [fst snd] in *.
    apply wp_bind, wp_modify, wp_ret. cbn. split_and!; [done| |  |done].
    - intros x Hx. rewrite Hm', sessions_set in Hx. apply elem_of_deleteWhere in Hx as [_ Hx]. by apply Hp.
    - intros c Hc Hid Hne. apply elem_of_app. right. apply list_elem_of_fmap. exists c. split; [done|].
      apply elem_of_selectWhere. split; [done|]. apply andb_true_iff. split; [by apply Z.eqb_eq|].
      by apply negb_true_iff, String.eqb_neq. }
  destruct keep as [k|]; apply Hgen; intros x Hx Hid; rewrite Hid, Z.eqb_refl in Hx; cbn in Hx; bool_hyps; [|done].
  by subst.
Qed.

(** Every session of user [id] is the one with token hash [keep]. *)
Definition onlySession (d : store) (id : Z) (keep : string) : Prop :=
  ∀ x, x ∈ sessions d → sr_user_id x = id → sr_token_hash x = keep.

(** A password change locks others out: when [postPassword] succeeds (with a working
    database), the old password was right, the session that made the change is the only one
    of the user that is left, and every terminal, transfer or event stream of the user's
    other sessions was stopped. *)
Theorem postPassword_signs_out (r : request) (s : Session) (b : passwordChange) (h : hub)
    (Hn : noFaults (h_m h)) :
  let '(resp, h') := postPassword r s (Some b) h in
  rs_status resp = 204 →
  bcryptCompare (u_PasswordHash (s_User s)) (pc_Current b) = true
  ∧ onlySession (tables h') (u_ID (s_User s)) (s_TokenHash s)
  ∧ (∀ c, c ∈ h_conns h → c_userID c = u_ID (s_User s) → c_session c ≠ s_TokenHash s →
       EStop (c_key c) ∈ h_trace h').
Proof.
  apply wp_let. unfold postPassword. apply wp_bind, wp_ret. cbn [readJSON]. apply wp_bind, wp_ret.
  destruct (String.eqb _ ""); cbn [ensure]; [|by apply wp_ret].
  apply wp_bind. eapply wp_mono; [apply reauthenticate_spec|]. intros x h1 [(Hc1 & _ & Hn1) Hok].
  destruct x as [resp|[]]; [apply wp_ret; destruct Hok; congruence|].
  apply wp_bind. eapply wp_steps; [apply steps_generateHash_calm|]. intros hash h2 (Hc2 & _ & Hn2).
  destruct hash as [hash|]; [|by apply wp_ret].
  apply wp_bind, wp_bind. eapply wp_steps; [apply steps_SetPassword_calm|]. intros e h3 (Hc3 & _ & Hn3). apply wp_ret.
  destruct e as [[]|e]; cbn [orInternal]; [|by apply wp_ret].
  apply wp_bind. eapply wp_mono; [apply signOutUser_spec; auto|]. intros res h4 (_ & Hs & Hst & _).
  apply wp_bind. eapply wp_steps; [apply steps_and; [apply steps_audit_calm|apply (steps_audit_sessions
    (λ l, ∀ x, x ∈ l → sr_user_id x = u_ID (s_User s) → Some (sr_token_hash x) = Some (s_TokenHash s)))]|].
  intros ? h5 [(_ & Ht5 & _) H5]. specialize (H5 Hs). apply wp_ret. intros _. split_and!; [done| |].
  - intros x Hx Hid. by apply H5 in Hx; simplify_eq.
  - intros c Hc. rewrite Ht5. apply Hst. congruence.
Qed.
End props.

(** ** Witnesses *)
Definition demoHub : hub := newHub (mkConfig "" []) ∅ demoAdmin.
Definition demoClientData : Unmarshal clientData := λ s, (mkClientData "webauthn.get" s "https://hub" false, true).
Definition demoRequest : request :=
  mkRequest "POST" "10.0.0.1" "hub" "" None false "" "" [] (λ _, "") (λ _, "") false.

Lemma totp_no_replay_witness :
  StronglySorted Z.lt (map snd (selectWhere (λ x, x.1 =? 1) [(1, 3334)])).
Proof.
  set (h := with_m (mkMach (m_db demoAdmin) (mkEnv (seconds 100020) [] [] [])) demoHub).
  apply (@totp_no_replay demoLib [(1, 3334)] h (@checkTOTP demoLib 1 "secret" "100020" h).2).
  apply (totp_accept 1 "secret" "100020" _ _ _ (@checkTOTP demoLib 1 "secret" "100020" h).2);
    [vm_compute; reflexivity..|apply totp_nil].
Defined.
Lemma postLogin_sound_witness :
  let c := mkCredentials "Ada" "secret" "" None in
  let '(resp, h') := @postLogin demoLib demoClientData "" demoRequest (Some c) demoHub in
  ∃ row, row ∈ users (m_db (h_m demoHub))
    ∧ nocaseEq (u_Username (ur_user row)) (TrimSpace (cr_Username c)) = true
    ∧ @authenticated demoLib demoHub h' c (ur_user row).
Proof.
  pose proof (@postLogin_sound demoLib demoClientData "" demoRequest
           (mkCredentials "Ada" "secret" "" None) demoHub eq_refl) as Hp.
  assert (Hs : rs_cookies (@postLogin demoLib demoClientData "" demoRequest
    (Some (mkCredentials "Ada" "secret" "" None)) demoHub).1 ≠ []) by (vm_compute; discriminate).
  cbv zeta. destruct (postLogin _ _ _ _) as [resp h']. exact (Hp Hs).
Defined.
Definition demoSession : Session := mkSession (mkUser 1 "ada" "saltsecret" "" RoleAdmin 0 0) "token" 0.
Lemma postPassword_signs_out_witness :
  let '(resp, h') := @postPassword demoLib demoRequest demoSession (Some (mkPasswordChange "secret" "new-password")) demoHub in
  rs_status resp = 204 ∧ bcryptCompare (Lib := demoLib) (u_PasswordHash (s_User demoSession)) "secret" = true.
Proof.
  pose proof (@postPassword_signs_out demoLib demoRequest demoSession (mkPasswordChange "secret" "new-password")
                demoHub eq_refl) as Hp.
  assert (Hs : rs_status (@postPassword demoLib demoRequest demoSession
    (Some (mkPasswordChange "secret" "new-password")) demoHub).1 = 204) by (vm_compute; reflexivity).
  destruct (postPassword _ _ _ _) as [resp h']. cbn in Hs. destruct (Hp Hs) as [Hb _]. split; [exact Hs|exact Hb].
Defined.
