(* ===== verification/Passkeys.v ===== *)
(** * Passkeys ([internal/hub/passkeys.go])

    Registration, options for the browser, management; the check of an assertion is in [Auth],
    its properties are here. *)
From Stdlib Require Import ZArith Lia Ascii String.
From S2P Require Import Prelude GoStrings Float64 Library Store StoreTables StoreInv StoreSteps Limiter TailBuffer Update Webauthn Protocol Hub Auth AuthProps.
From stdpp Require Import base gmap strings list relations.
Local Open Scope string_scope.
Local Open Scope list_scope.
Local Open Scope Z_scope.
Local Open Scope lotse_scope.

Record attestation := mkAttestation {
  at_ID : string;
  at_ClientData : string;
  at_AuthenticatorData : string;
  at_PublicKey : string;
  at_Algorithm : Z;
}.
Definition passkeyJSON (k : Passkey) : json :=
  JObj [("id", JInt (pk_ID k)); ("name", JStr (pk_Name k)); ("rp_id", JStr (pk_RPID k));
        ("created_at", JInt (pk_CreatedAt k)); ("last_used", JInt (pk_LastUsed k))].
Definition passkeyName (name0 : string) : string * bool :=
  let name1 := TrimSpace name0 in
  let name := if String.eqb name1 "" then "Passkey" else name1 in
  (name, RuneCountInString name <=? maxNameLen).

Section passkeys.
Context `{Lib} `{Marshal} `{!Unmarshal clientData}.

Definition descriptor (k : Passkey) : json :=
  JObj [("type", JStr "public-key"); ("id", JStr (b64urlEncode (pk_CredentialID k)))].
Definition descriptors (userID : Z) (rpID : string) : M hub (res (list json)) :=
  keys ← db (Passkeys userID);
  mret (match keys with
        | Err e => Err e
        | Ok l => Ok (map descriptor (selectWhere (λ k, String.eqb (pk_RPID k) rpID) l))
        end).
Definition requestOptions (challenge rpID : string) (allow : option (list json)) : json :=
  JObj ([("challenge", JStr challenge); ("rpId", JStr rpID); ("timeout", JInt (passkeyTimeout /! 1000000));
         ("userVerification", JStr "required")]
        ++ match allow with Some l => [("allowCredentials", JArr l)] | None => [] end).
(** [challenges.add]. *)
Definition newChallenge (purpose session : string) : M hub string :=
  t ← db timeNow;
  b ← db randRead;
  mstate (λ h, let '(key, c) := addChallenge purpose session t b (h_challenges h) in (key, with_challenges c h)).

Definition postLoginPasskeyOptions (r : request) : M hub response :=
  t ← db timeNow;
  isLocked ← mstate (λ h, let '(b, l) := locked (clientIP r) t (h_limiter h) in (b, with_limiter l h));
  if (isLocked : bool) then mret writeTooManyAttempts else
  match relyingParty (rq_Origin r) (rq_Host r) with
  | Err e => mret (writeError 400 e)
  | Ok (_, rpID) =>
    ch ← newChallenge "login" "";
    mret (writeJSON 200 (requestOptions ch rpID None))
  end.
Definition postPasskeyOptions (r : request) (s : Session) (body : option string) : M hub response :=
  purpose ⇐ mret (readJSON body);
  match relyingParty (rq_Origin r) (rq_Host r) with
  | Err e => mret (writeError 400 e)
  | Ok (_, rpID) =>
    existing ⇐ (e ← descriptors (u_ID (s_User s)) rpID; mret (orInternal e));
    if String.eqb purpose "elevate" then
      match existing with
      | [] => mret (writeError 409 "you have no passkey for this address")
      | _ =>
        ch ← newChallenge "elevate" (s_TokenHash s);
        mret (writeJSON 200 (requestOptions ch rpID (Some existing)))
      end
    else if String.eqb purpose "register" then
      _ ⇐ requireElevated s;
      handle ⇐ (e ← db (PasskeyHandle (u_ID (s_User s))); mret (orInternal e));
      ch ← newChallenge "register" (s_TokenHash s);
      mret (writeJSON 200 (JObj [
        ("challenge", JStr ch); ("rp", JObj [("id", JStr rpID); ("name", JStr "Lotse")]);
        ("user", JObj [("id", JStr (b64urlEncode handle)); ("name", JStr (u_Username (s_User s)));
                       ("displayName", JStr (u_Username (s_User s)))]);
        ("pubKeyCredParams", JArr (map (λ alg, JObj [("type", JStr "public-key"); ("alg", JInt alg)]) [algEdDSA; algES256; algRS256]));
        ("timeout", JInt (passkeyTimeout /! 1000000)); ("excludeCredentials", JArr existing);
        ("authenticatorSelection", JObj [("residentKey", JStr "required"); ("requireResidentKey", JBool true);
                                         ("userVerification", JStr "required")]);
        ("attestation", JStr "none")]))
    else mret (writeError 400 "purpose must be register or elevate")
  end.

Definition getPasskeys (r : request) (s : Session) : M hub response :=
  keys ⇐ (e ← db (Passkeys (u_ID (s_User s))); mret (orInternal e));
  mret (writeJSON 200 (JArr (map passkeyJSON keys))).

Definition verifyAttestation (r : request) (a : attestation) (s : Session) : M hub (result string Passkey) :=
  match relyingParty (rq_Origin r) (rq_Host r) with
  | Err e => mret (Err e)
  | Ok (origin, rpID) =>
    match decodeFields [at_ID a; at_ClientData a; at_AuthenticatorData a; at_PublicKey a] with
    | Ok [credID; cdJSON; adBytes; spki] =>
      c ← checkClient cdJSON "webauthn.create" origin "register" (s_TokenHash s);
      match c with
      | Err e => mret (Err e)
      | Ok _ =>
        mret (match parseAuthData (bytesOf adBytes) rpID with
        | None => Err "panic"
        | Some (Err e) => Err e
        | Some (Ok ad) =>
          if (strLen credID =? 0) || (1023 <? strLen credID) || negb (bool_decide (ad_credentialID ad = bytesOf credID))
          then Err "invalid passkey response"
          else if strLen spki =? 0
          then Err "this browser did not share the passkey's public key; try a current browser"
          else match parsePublicKey spki (at_Algorithm a) with
               | Err e => Err e
               | Ok _ => Ok (mkPasskey 0 (u_ID (s_User s)) "" rpID credID spki (at_Algorithm a) (ad_signCount ad) 0 0)
               end
        end)
      end
    | Ok _ => mret (Err "invalid passkey response")
    | Err e => mret (Err e)
    end
  end.
Definition postPasskey (r : request) (s : Session) (body : option (string * attestation)) : M hub response :=
  '(name0, cred) ⇐ mret (readJSON body);
  _ ⇐ requireElevated s;
  let '(name, ok) := passkeyName name0 in
  _ ⇐ mret (ensure ok (writeError 400 "name must be at most 64 characters"));
  k ← verifyAttestation r cred s;
  match k with
  | Err e =>
    audit (Some r) (u_Username (s_User s)) "passkey_add_failed" None e;;
    mret (writeError 400 e)
  | Ok key =>
    c ← db (CreatePasskey (withPkName name key));
    match c with
    | Err ErrPasskeyExists => mret (writeError 409 (errorText ErrPasskeyExists))
    | Err _ => mret internalError
    | Ok key' =>
      audit (Some r) (u_Username (s_User s)) "passkey_added" None (Quote (pk_Name key') +:+ " for " +:+ pk_RPID key');;
      mret (writeJSON 200 (passkeyJSON key'))
    end
  end.
Definition patchPasskey (r : request) (s : Session) (body : option string) : M hub response :=
  let id := (ParseInt 64 (rq_PathValue r "id")).1 in
  name0 ⇐ mret (readJSON body);
  let '(name, ok) := passkeyName name0 in
  _ ⇐ mret (ensure ok (writeError 400 "name must be at most 64 characters"));
  e ← db (RenamePasskey id (u_ID (s_User s)) name);
  mret (match e with
        | Ok _ => noContent
        | Err ErrNotFound => writeError 404 "passkey not found"
        | Err _ => internalError
        end).
Definition deletePasskey (r : request) (s : Session) : M hub response :=
  let id := (ParseInt 64 (rq_PathValue r "id")).1 in
  _ ⇐ requireElevated s;
  k ← db (DeletePasskey id (u_ID (s_User s)));
  match k with
  | Err ErrNotFound => mret (writeError 404 "passkey not found")
  | Err _ => mret internalError
  | Ok key =>
    audit (Some r) (u_Username (s_User s)) "passkey_removed" None (Quote (pk_Name key));;
    mret noContent
  end.
End passkeys.

(** ** Properties *)
Section props.
Context `{Lib} `{Marshal} `{!Unmarshal clientData}.
Implicit Types (h : hub).
Abbreviation tables h := (m_db (h_m h)).

(** The browser answered a challenge of the hub for this purpose and session, from [origin];
    it cannot be answered again. *)
Definition answered (cdJSON typ origin purpose session : string) h h' : Prop :=
  ∃ d e, unmarshal cdJSON = (d, true) ∧ h_challenges h !! cd_Challenge d = Some (mkChallenge purpose session e)
    ∧ cd_Type d = typ ∧ cd_Origin d = origin ∧ h_challenges h' !! cd_Challenge d = None.
Lemma wp_checkClient raw typ origin purpose session h (Q : result string unit → hub → Prop) :
  (∀ e h', Q (Err e) h') →
  (∀ m c, m_db m = tables h → (noFaults (h_m h) → noFaults m) →
     answered raw typ origin purpose session h (with_challenges c (with_m m h)) → Q (Ok tt) (with_challenges c (with_m m h))) →
  wp (checkClient raw typ origin purpose session) Q h.
Proof.
  intros Herr Hok. unfold checkClient. destruct (unmarshal raw) as [d ok] eqn:E. apply wp_bind.
  destruct ok; [|apply wp_ret; unfold wp, mstate; cbn; apply Herr].
  apply wp_db, wp_timeNow_full. intros m Hm Hn. unfold wp, mstate. cbn [h_challenges with_m].
  destruct (checkClientData _ _ _ _ _ _ _) as [x c] eqn:Ec. cbn [fst snd]. destruct x as [[]|e]; [|apply Herr].
  apply checkClientData_ok in Ec as ((e & He & _) & Ht & Ho & _ & ->).
  apply Hok; [done|done|]. exists d, e. split_and!; [done..|]. cbn. by rewrite lookup_delete_eq.
Qed.
Lemma steps_handle_passkeys id : steps (both (frames (λ m, passkeys (m_db m))) (keeps noFaults)) (PasskeyHandle id).
Proof.
  unfold PasskeyHandle. apply steps_and.
  - go_steps; intros [[] [t ks fs rs]]; unfold frames, query, sql, randRead, setHandle, handleOf; cbn; destruct fs as [|[] fs]; try done;
      try (destruct rs; done); try (destruct (_ && _); done).
  - go_steps.
Qed.
Lemma wp_foreign (userHandle : string) key h (Q : bool → hub → Prop) :
  (∀ b m, passkeys (m_db m) = passkeys (tables h) → (noFaults (h_m h) → noFaults m) → Q b (with_m m h)) →
  wp (if 0 <? strLen userHandle then
        hd ← db (PasskeyHandle (pk_UserID key));
        mret (match hd with Ok x => negb (String.eqb x userHandle) | Err _ => true end)
      else mret false) Q h.
Proof.
  intros HQ. destruct (0 <? _); [|apply wp_ret; pose proof (HQ false (h_m h) eq_refl (λ x, x)) as Hq; by destruct h].
  apply wp_bind, wp_db. eapply wp_steps; [apply steps_handle_passkeys|]. intros x m [Hp Hn]. by apply wp_ret, HQ.
Qed.
(** The counter a key has after its use: the new one, or, when the statement fails, the old
    table. *)
Lemma UsePasskey_count id count h (Q : res unit → hub → Prop) :
  (∀ x h', h_challenges h' = h_challenges h →
     (∀ k, k ∈ passkeys (tables h') → pk_ID k = id → pk_SignCount k = count)
     ∨ (¬ noFaults (h_m h) ∧ passkeys (tables h') = passkeys (tables h)) → Q x h') →
  wp (db (UsePasskey id count)) Q h.
Proof.
  intros HQ. unfold UsePasskey. apply wp_db, wp_bind, wp_timeNow_nf. intros m1 Hm1 Hn1.
  apply wp_bind, wp_sql_cases; intros m2 Hm2 Hn2; apply wp_ret, HQ; try done; cbn [h_m with_m].
  - left. rewrite Hm2. unfold updatePasskeys. cbn [snd].
    assert (∀ l d, passkeys (set_passkeys l d) = l) as -> by by intros ? [].
    intros k (k0 & Hk0 & ->)%elem_of_updateWhere. by destruct (Z.eqb_spec (pk_ID k0) id).
  - right. rewrite Hm2, Hm1. split; [|done]. intros Hn. auto.
Qed.

(** C9. A passkey proves who signs in: an accepted assertion carries the signature of the public key
    registered for that credential and site, over authenticator data for this site and an
    answer to a challenge the hub had issued for this purpose and session, from the hub's own
    page, which cannot be answered again. The authenticator's counter is above the stored one (or
    both are 0, for authenticators without one). It becomes the stored one, so that a copied key
    that falls behind is refused from then on, unless a statement of the database failed: a
    failed update is only logged and the assertion accepted, and then the stored keys and
    counters are the ones they were. *)
Theorem verifyAssertion_sound (r : request) (a : assertion) (purpose session : string) (key : Passkey) (h h' : hub)
    (Hok : verifyAssertion r a purpose session h = (Ok key, h')) :
  ∃ origin rpID credID cdJSON adBytes sig userHandle ad,
    relyingParty (rq_Origin r) (rq_Host r) = Ok (origin, rpID)
    ∧ decodeFields [an_ID a; an_ClientData a; an_AuthenticatorData a; an_Signature a; an_UserHandle a]
      = Ok [credID; cdJSON; adBytes; sig; userHandle]
    ∧ answered cdJSON "webauthn.get" origin purpose session h h'
    ∧ key ∈ passkeys (tables h) ∧ pk_CredentialID key = credID ∧ pk_RPID key = rpID
    ∧ verifySignature (pk_PublicKey key) (pk_Algorithm key) adBytes cdJSON sig = true
    ∧ parseAuthData (bytesOf adBytes) rpID = Some (Ok ad)
    ∧ (pk_SignCount key < ad_signCount ad ∨ (ad_signCount ad = 0 ∧ pk_SignCount key = 0))
    ∧ ((∀ k, k ∈ passkeys (tables h') → pk_ID k = pk_ID key → pk_SignCount k = ad_signCount ad)
       ∨ (¬ noFaults (h_m h) ∧ passkeys (tables h') = passkeys (tables h))).
Proof.
  match goal with |- ?P => refine (wp_run _ (λ x h', x = Ok key → _) _ _ _ _ Hok eq_refl) end. clear Hok h'. unfold verifyAssertion.
  destruct (relyingParty _ _) as [[origin rpID]|] eqn:Erp; [|by apply wp_ret].
  destruct (decodeFields _) as [l|] eqn:Ed; [|by apply wp_ret].
  destruct l as [|credID [|cdJSON [|adBytes [|sig [|userHandle [|]]]]]]; try by apply wp_ret.
  apply wp_bind, wp_checkClient; [intros; by apply wp_ret|]. intros m1 c Hm1 Hn1 Hans.
  destruct (parseAuthData _ _) as [[ad|]|] eqn:Ead; try by apply wp_ret.
  apply wp_bind. unfold PasskeyByCredential. apply wp_db, wp_query_cases; intros m2 Hm2 Hn2; [|by apply wp_ret].
  destruct (oneRow _) as [k|[]] eqn:Ek; try by apply wp_ret.
  apply oneRow_ok, elem_of_selectWhere in Ek as [Hin Hcred]. cbn [h_m with_m with_challenges] in *. rewrite Hm1 in *.
  destruct (_ || _) eqn:Esig; [by apply wp_ret|]. bool_hyps.
  apply wp_bind, wp_foreign. intros foreign m3 Hp3 Hn3. destruct foreign; [by apply wp_ret|].
  destruct (_ && _) eqn:Ecnt; [by apply wp_ret|]. apply wp_bind, UsePasskey_count. intros x h4 Hch Hcount.
  apply wp_ret. intros [= ->]. exists origin, rpID, credID, cdJSON, adBytes, sig, userHandle, ad.
  cbn [h_m with_m with_challenges] in *. split_and!; try done.
  - destruct Hans as (d & e & ? & ? & ? & ? & Hgone). exists d, e. split_and!; try done. by rewrite Hch.
  - apply andb_false_iff in Ecnt as [Ecnt|Ecnt]; bool_hyps; [right; by bool_hyps|left; lia].
  - destruct Hcount as [Hcount|[Hf Hsame]]; [by left|right]. split; [intros Hn; apply Hf; auto|]. by rewrite Hsame, Hp3, Hm2.
Qed.
End props.

(** ** Witness: a login with a passkey whose counter is 1 *)
Definition demoSite : string := "https://hub.aaaaaaaaaaaaaaaaaaaa".
Definition demoAnswer : Unmarshal clientData := λ s, (mkClientData "webauthn.get" s demoSite false, true).
Definition demoAuthData : string := demoSite +:+ stringOf [5; 0; 0; 0; 1].
Definition demoKey : Passkey := mkPasskey 1 1 "Phone" demoSite "cred" "K" algEdDSA 0 0 0.
Definition demoPasskeyHub : hub :=
  with_challenges {["challenge" := mkChallenge "login" "" (seconds 60)]}
    (with_m (mkMach (set_passkeys [demoKey] (m_db demoAdmin)) (mkEnv 0 [] [] [])) demoHub).
Definition demoAssertion : assertion :=
  mkAssertion "cred" "challenge" demoAuthData ("K" +:+ demoAuthData +:+ "challenge") "".
Definition demoSiteRequest : request := mkRequest "POST" "@" demoSite demoSite None true "" "" [] (λ _, "") (λ _, "") false.
Lemma verifyAssertion_sound_witness :
  let h' := (@verifyAssertion demoLib demoAnswer demoSiteRequest demoAssertion "login" "" demoPasskeyHub).2 in
  passkeys (m_db (h_m h')) ≠ [] ∧ Forall (λ k, pk_ID k = 1 → pk_SignCount k = 1) (passkeys (m_db (h_m h'))).
Proof.
  intros h'. split; [by vm_compute|].
  destruct (@verifyAssertion_sound demoLib demoAnswer demoSiteRequest demoAssertion "login" "" demoKey demoPasskeyHub h')
    as (origin & rpID & credID & cdJSON & adBytes & sig & uh & ad & Erp & Ed & _ & _ & _ & _ & _ & Ead & _ & Hc).
  - vm_compute. reflexivity.
  - vm_compute in Erp, Ed. injection Erp as <- <-. injection Ed as <- <- <- <- <-.
    vm_compute in Ead. injection Ead as <-. apply Forall_forall. intros k Hk Hid. destruct Hc as [Hc|[Hf _]]; [exact (Hc k Hk Hid)|by destruct Hf].
Defined.
