(* ===== verification/Users.v ===== *)
(** * Managing accounts ([internal/hub/users.go]) *)
From Stdlib Require Import ZArith Lia Ascii String.
From S2P Require Import Prelude GoStrings Float64 Library Store StoreTables StoreInv StoreSteps Limiter TailBuffer Update Webauthn Protocol Hub Auth AuthProps.
From stdpp Require Import base gmap strings list.
Local Open Scope string_scope.
Local Open Scope list_scope.
Local Open Scope Z_scope.
Local Open Scope lotse_scope.

Record newUser := mkNewUser { nu_cred : credentials; nu_Role : string }.
Record userPatch := mkUserPatch {
  up_Role : string;
  up_Password : string;
  up_ResetTOTP : bool;
  up_ResetPasskeys : bool;
}.

Section users.
Context `{Lib}.

Definition userJSON (u : User) (passkeys : Z) : json :=
  JObj [("id", JInt (u_ID u)); ("username", JStr (u_Username u)); ("role", JStr (u_Role u));
        ("totp", JBool (negb (String.eqb (u_TOTPSecret u) ""))); ("passkeys", JInt passkeys);
        ("created_at", JInt (u_CreatedAt u)); ("last_login", JInt (u_LastLogin u))].
Definition getUsers (r : request) (s : Session) : M hub response :=
  us ⇐ (e ← db Users; mret (orInternal e));
  counts ⇐ (e ← db PasskeyCounts; mret (orInternal e));
  mret (writeJSON 200 (JArr (map (λ u, userJSON u (Z.of_nat (counts (u_ID u)))) us))).

Definition userError (e : error) : response :=
  match e with
  | ErrLastAdmin => writeError 409 (errorText e +:+ "; make someone else an administrator first")
  | ErrNotFound => writeError 404 "user not found"
  | _ => internalError
  end.
Definition lookupUser (r : request) : M hub (response + User) :=
  u ← db (getUser (ParseInt 64 (rq_PathValue r "id")).1);
  mret (match u with
        | Ok u => inr u
        | Err ErrNotFound => inl (writeError 404 "user not found")
        | Err _ => inl internalError
        end).

Definition postUser (r : request) (s : Session) (body : option newUser) : M hub response :=
  b ⇐ mret (readJSON body);
  _ ⇐ requireElevated s;
  let '(c, msg) := validate (nu_cred b) in
  _ ⇐ mret (ensure (String.eqb msg "") (writeError 400 msg));
  _ ⇐ mret (ensure (ValidRole (nu_Role b)) (writeError 400 "role must be viewer, operator or admin"));
  hash ← db (generateHash (cr_Password c));
  match hash with
  | None => mret internalError
  | Some hash =>
    u ⇐ (e ← db (CreateUser (cr_Username c) hash (nu_Role b));
         mret (match e with
               | Ok u => inr u
               | Err ErrUsernameTaken => inl (writeError 409 (errorText ErrUsernameTaken))
               | Err _ => inl internalError
               end));
    audit (Some r) (u_Username (s_User s)) "user_created" None (u_Username u +:+ " (" +:+ u_Role u +:+ ")");;
    mret (writeJSON 200 (userJSON (mkUser (u_ID u) (u_Username u) "" "" (u_Role u) (u_CreatedAt u) 0) 0))
  end.

(** The four parts of [patchUser]; each adds to the list of changes. *)
Definition patchRole (u : User) (role : string) : M hub (response + list string) :=
  if negb (String.eqb role "") && negb (String.eqb role (u_Role u)) then
    e ← db (SetRole (u_ID u) role);
    match e with
    | Err e => mret (inl (userError e))
    | Ok _ =>
      closeConnsBeyondRole (u_ID u) role;;
      mret (inr ["role " +:+ u_Role u +:+ " → " +:+ role])
    end
  else mret (inr []).
Definition patchPassword (u : User) (pw : string) : M hub (response + list string) :=
  if negb (String.eqb pw "") then
    hash ← db (generateHash pw);
    match hash with
    | None => mret (inl internalError)
    | Some hash =>
      e ← db (SetPassword (u_ID u) hash);
      mret (match e with Ok _ => inr ["new password"] | Err _ => inl internalError end)
    end
  else mret (inr []).
Definition patchTOTP (u : User) (reset : bool) : M hub (response + list string) :=
  if reset && negb (String.eqb (u_TOTPSecret u) "") then
    e ← db (SetTOTPSecret (u_ID u) "");
    mret (match e with Ok _ => inr ["two-factor login turned off"] | Err _ => inl internalError end)
  else mret (inr []).
Definition patchPasskeys (u : User) (reset : bool) : M hub (response + list string) :=
  if reset then
    e ← db (DeletePasskeysOf (u_ID u));
    mret (match e with
          | Err _ => inl internalError
          | Ok n => inr (if 0 <? n then [itoa n +:+ " passkey(s) removed"] else [])
          end)
  else mret (inr []).
Definition patchUser (r : request) (s : Session) (body : option userPatch) : M hub response :=
  u ⇐ lookupUser r;
  b ⇐ mret (readJSON body);
  _ ⇐ requireElevated s;
  _ ⇐ mret (ensure (String.eqb (up_Role b) "" || ValidRole (up_Role b)) (writeError 400 "role must be viewer, operator or admin"));
  let msg := if String.eqb (up_Password b) "" then "" else validatePassword (up_Password b) in
  _ ⇐ mret (ensure (String.eqb msg "") (writeError 400 msg));
  let keep := if u_ID u =? u_ID (s_User s) then Some (s_TokenHash s) else None in
  c1 ⇐ patchRole u (up_Role b);
  c2 ⇐ patchPassword u (up_Password b);
  c3 ⇐ patchTOTP u (up_ResetTOTP b);
  c4 ⇐ patchPasskeys u (up_ResetPasskeys b);
  (match c2 ++ c4 with
   | [] => mret tt
   | _ => _ ← signOutUser (u_ID u) keep; mret tt
   end);;
  let changes := c1 ++ c2 ++ c3 ++ c4 in
  (match changes with
   | [] => mret tt
   | _ => audit (Some r) (u_Username (s_User s)) "user_changed" None (u_Username u +:+ ": " +:+ GoStrings.Join ", " changes)
   end);;
  mret noContent.

Definition deleteUser (r : request) (s : Session) : M hub response :=
  u ⇐ lookupUser r;
  _ ⇐ requireElevated s;
  _ ⇐ mret (ensure (negb (u_ID u =? u_ID (s_User s))) (writeError 400 "you cannot delete your own account"));
  e ← db (DeleteUser (u_ID u));
  match e with
  | Err e => mret (userError e)
  | Ok _ =>
    closeConns (λ c, c_userID c =? u_ID u);;
    audit (Some r) (u_Username (s_User s)) "user_deleted" None (u_Username u);;
    mret noContent
  end.

(** ** Properties *)
Abbreviation tables h := (m_db (h_m h)).
Implicit Types (h : hub).

Lemma findUser_some d id row : findUser d id = Some row → row ∈ users d ∧ ur_ID row = id.
Proof.
  unfold findUser. destruct (selectWhere _ _) as [|x l] eqn:E; [done|]. cbn. intros ?; simplify_eq.
  assert (Hx : row ∈ selectWhere (λ r, ur_ID r =? id) (users d)) by (rewrite E; constructor).
  apply elem_of_selectWhere in Hx as [? ?]. by bool_hyps.
Qed.
Lemma wp_lookupUser r Q h :
  (∀ resp h', calm h h' → tables h' = tables h → rs_status resp ≠ 204 → Q (inl resp) h') →
  (∀ row h', calm h h' → tables h' = tables h →
     findUser (tables h) (ParseInt 64 (rq_PathValue r "id")).1 = Some row → Q (inr (ur_user row)) h') →
  wp (lookupUser r) Q h.
Proof.
  intros Hbad Hok. unfold lookupUser. apply wp_bind. unfold getUser. set (id := (ParseInt _ _).1) in *.
  assert (Hc : steps calm (db (query (λ s, oneRow (map ur_user (selectWhere (λ r0, ur_ID r0 =? id) (users s)))))))
    by (apply steps_db_calm; go_steps).
  eapply (wp_mono _ (λ x h', calm h h' ∧ (tables h' = tables h ∧ ∀ u, x = Ok u → ∃ row, u = ur_user row
    ∧ findUser (tables h) id = Some row))).
  { apply wp_and; [by apply (wp_steps calm _ (λ _ h', calm h h'))|].
    apply wp_db, wp_query. intros m' Hm' _. split; [|by split]. split; [done|]. rewrite findUser_getUser.
    destruct (findUser _ _) as [row|]; [|done]. intros u ?; simplify_eq. eauto. }
  intros x h' (Hcalm & Ht & Hx). apply wp_ret. destruct x as [u|e].
  - destruct (Hx u eq_refl) as (row & -> & ?). by apply Hok.
  - destruct e; by apply Hbad.
Qed.
Lemma wp_requireElevated s Q h :
  (∀ resp h', calm h h' → tables h' = tables h → rs_status resp = 403 → Q (inl resp) h') →
  (∀ h', calm h h' → tables h' = tables h → unix (clock (h_m h')) ≤ s_ElevatedUntil s → Q (inr tt) h') →
  wp (requireElevated s) Q h.
Proof.
  intros Hbad Hok. unfold requireElevated. apply wp_bind.
  eapply wp_mono; [apply wp_and; [apply (wp_steps calm _ (λ _ h', calm h h')); [apply steps_timeNow_calm|done]|]|].
  { apply wp_db, wp_timeNow. intros m' Hm'.
    by instantiate (1 := λ t h', t = clock (h_m h') ∧ tables h' = tables h). }
  intros t h' (Hc & -> & Ht). apply wp_ret. unfold ensure.
  destruct (Z.leb_spec (unix (clock (h_m h'))) (s_ElevatedUntil s)); [by apply Hok|by apply Hbad].
Qed.

Lemma lastAdminCheck_ok r id m : (lastAdminCheck r id m).1 = Ok tt → ∃ n, r = Ok n ∧ (0 < n)%nat.
Proof.
  unfold lastAdminCheck, affected. destruct r as [n|e]; [|done]. destruct (Nat.eqb_spec n 0); cbn.
  - unfold mbind, M_bind. destruct (getUser id m) as [[u|err] m']; done.
  - intros _. exists n. split; [done|lia].
Qed.

Lemma steps_onDB_frames {A} (m : M mach A) s : steps (onDB (frames id)) m → m_db (m s).2 = m_db s.
Proof. intros Hm. apply (Hm s). Qed.
Lemma users_of_deleteUsers p d : users (deleteUsers p d).2 = deleteWhere p (users d).
Proof. by destruct d. Qed.
Lemma sessions_of_deleteUsers p d :
  sessions (deleteUsers p d).2 = deleteWhere (λ x, existsWhere (λ r, p r && (ur_ID r =? sr_user_id x)) (users d)) (sessions d).
Proof. by destruct d. Qed.
Lemma passkeys_of_deleteUsers p d :
  passkeys (deleteUsers p d).2 = deleteWhere (λ x, existsWhere (λ r, p r && (ur_ID r =? pk_UserID x)) (users d)) (passkeys d).
Proof. by destruct d. Qed.

(** Nothing of account [id] is left. *)
Definition userGone (d : store) (id : Z) : Prop :=
  (∀ row, row ∈ users d → ur_ID row ≠ id) ∧ (∀ x, x ∈ sessions d → sr_user_id x ≠ id)
  ∧ (∀ p, p ∈ passkeys d → pk_UserID p ≠ id).
Lemma deleteUsers_gone d id :
  NoDup (map ur_ID (users d)) → (0 < countWhere (deleteGuard id d) (users d))%nat →
  userGone (deleteUsers (deleteGuard id d) d).2 id.
Proof.
  intros Hn Hc. apply countWhere_pos in Hc as (row & Hrow & Hg).
  assert (Hid : ur_ID row = id) by (unfold deleteGuard in Hg; bool_hyps; done).
  assert (Hsame : ∀ row', row' ∈ users d → ur_ID row' = id → row' = row).
  { intros row' Hr' Hi. eapply (key_unique ur_ID); eauto. congruence. }
  assert (Hex : existsWhere (λ r, deleteGuard id d r && (ur_ID r =? id)) (users d) = true).
  { apply existsWhere_true. exists row. split; [done|]. by rewrite Hg, Hid, Z.eqb_refl. }
  split_and!.
  - intros row'. rewrite users_of_deleteUsers, elem_of_deleteWhere. intros [Hr' Hd] Hi.
    rewrite (Hsame row') in Hd by done. congruence.
  - intros x. rewrite sessions_of_deleteUsers, elem_of_deleteWhere. intros [_ Hx] Heq. rewrite Heq in Hx. congruence.
  - intros x. rewrite passkeys_of_deleteUsers, elem_of_deleteWhere. intros [_ Hx] Heq. rewrite Heq in Hx. congruence.
Qed.
Lemma steps_audit_gone id r u a s d :
  steps (onHub (keeps (λ d, userGone d id))) (audit r u a s d).
Proof.
  unfold audit, AddAudit. go_steps. apply steps_db. go_steps. apply steps_sql; [apply _|]. intros [] ?. done.
Qed.

(** Deleting an account takes effect at once: when [deleteUser] succeeds, it was not the
    administrator's own account, no account, session or passkey of it is left, and every
    connection that acted with its rights was stopped. *)
Theorem deleteUser_complete (r : request) (s : Session) (h : hub)
    (Hwf : store_wf (tables h)) :
  let '(resp, h') := deleteUser r s h in
  let id := (ParseInt 64 (rq_PathValue r "id")).1 in
  rs_status resp = 204 →
  id ≠ u_ID (s_User s) ∧ userGone (tables h') id
  ∧ (∀ c, c ∈ h_conns h → c_userID c = id → EStop (c_key c) ∈ h_trace h').
Proof.
  apply wp_let. unfold deleteUser. apply wp_bind, wp_lookupUser; [intros resp h' _ _ Hs; by apply wp_ret|].
  intros row h1 (Hc1 & _ & _) Ht1 Hf. destruct (findUser_some _ _ _ Hf) as [Hrow Hid]. set (id := (ParseInt 64 (rq_PathValue r "id")).1) in *.
  apply wp_bind, wp_requireElevated; [intros resp h' _ _ Hs; apply wp_ret; congruence|].
  intros h2 (Hc2 & _ & _) Ht2 _. apply wp_bind, wp_ret.
  change (u_ID (ur_user row)) with (ur_ID row). rewrite Hid.
  destruct (Z.eqb_spec id (u_ID (s_User s))) as [Heq|Hne]; cbn [negb ensure]; [by apply wp_ret|].
  apply wp_bind. unfold DeleteUser. apply wp_db, wp_bind, wp_sql.
  2: { intros m _. apply wp_ret. by apply wp_ret. }
  intros m Hm. rewrite Ht2, Ht1 in Hm.
  assert (Hd : wp (lastAdminCheck (deleteUsers (deleteGuard id (m_db (h_m h2))) (m_db (h_m h2))).1 id)
    (λ e m', m_db m' = m_db m ∧ (e = Ok tt → (0 < countWhere (deleteGuard id (tables h)) (users (tables h)))%nat)) m).
  { rewrite Ht2, Ht1. unfold wp. split; [|intros (k & Hk & Hpos)%lastAdminCheck_ok; cbn in Hk; by simplify_eq].
    apply (steps_onDB_frames (A := res unit)). unfold lastAdminCheck, getUser. go_steps. }
  eapply wp_mono; [exact Hd|]. intros e m' [Hm' Hpos].
  destruct e as [[]|e]; [|apply wp_ret; destruct e; done]. specialize (Hpos eq_refl).
  apply wp_bind, wp_modify, wp_bind.
  eapply wp_steps; [apply steps_and; [apply steps_audit_onlyMach|apply (steps_audit_gone id)]|].
  intros ? h4 [Ho Hg]. apply wp_ret. intros _. split_and!; [done| |].
  - apply Hg. cbn. rewrite Hm', Hm. apply deleteUsers_gone; [apply Hwf|done].
  - intros c Hc Hcid. rewrite Ho. cbn. apply elem_of_app. right. apply list_elem_of_fmap. exists c. split; [done|].
    apply elem_of_selectWhere. split; [by rewrite Hc2, Hc1|]. by apply Z.eqb_eq.
Qed.

(** A step after which every stop so far is still in the trace. *)
Definition grows (h h' : hub) : Prop :=
  h_conns h' = h_conns h ∧ (∃ l, h_trace h' = h_trace h ++ l) ∧ (noFaults (h_m h) → noFaults (h_m h')).
#[export] Instance grows_preorder : PreOrder grows.
Proof.
  split; unfold grows.
  - intros h. split_and!; [done|exists []; by rewrite app_nil_r|done].
  - intros h1 h2 h3 (? & [l2 E2] & ?) (? & [l3 E3] & ?). split_and!; [congruence| |auto].
    exists (l2 ++ l3). by rewrite E3, E2, app_assoc.
Qed.
Lemma calm_grows h h' : calm h h' → grows h h'.
Proof. intros (? & ? & ?). split_and!; [done|exists []; by rewrite app_nil_r|done]. Qed.
Lemma steps_calm_grows {A} (m : M hub A) : steps calm m → steps grows m.
Proof. intros Hm h. apply calm_grows, Hm. Qed.
Lemma steps_closeConns_grows p : steps grows (closeConns p).
Proof. apply steps_modify. intros h. split_and!; [done|eauto|done]. Qed.
Lemma steps_SetRole_calm id role : steps calm (db (SetRole id role)).
Proof. apply steps_db_calm. unfold SetRole, lastAdminCheck, getUser. go_steps. Qed.

Lemma patch_calm u :
  (∀ pw, steps calm (patchPassword u pw)) ∧ (∀ b, steps calm (patchTOTP u b)) ∧ (∀ b, steps calm (patchPasskeys u b)).
Proof.
  split_and!; intros x.
  - unfold patchPassword. go_steps; [apply steps_generateHash_calm|apply steps_SetPassword_calm].
  - unfold patchTOTP, SetTOTPSecret. go_steps. apply steps_db_calm. go_steps.
  - unfold patchPasskeys, DeletePasskeysOf. go_steps. apply steps_db_calm. go_steps.
Qed.
Lemma patchPassword_some u pw h :
  wp (patchPassword u pw) (λ x _, match x with inl resp => rs_status resp ≠ 204 | inr c => pw ≠ "" → c ≠ [] end) h.
Proof.
  unfold patchPassword. destruct (String.eqb_spec pw ""); cbn [negb]; [by apply wp_ret|].
  apply wp_bind. eapply (wp_mono _ (λ _ _, True)); [done|]. intros [hash|] h1 _; [|by apply wp_ret].
  apply wp_bind. eapply (wp_mono _ (λ _ _, True)); [done|]. intros [?|?] h2 _; by apply wp_ret.
Qed.
Lemma patchTOTP_err u b h :
  wp (patchTOTP u b) (λ x _, match x with inl resp => rs_status resp ≠ 204 | inr _ => True end) h.
Proof.
  unfold patchTOTP. destruct (_ && _); [|by apply wp_ret].
  apply wp_bind. eapply (wp_mono _ (λ _ _, True)); [done|]. intros [?|?] h2 _; by apply wp_ret.
Qed.
Lemma patchPasskeys_err u b h :
  wp (patchPasskeys u b) (λ x _, match x with inl resp => rs_status resp ≠ 204 | inr _ => True end) h.
Proof.
  unfold patchPasskeys. destruct b; [|by apply wp_ret].
  apply wp_bind. eapply (wp_mono _ (λ _ _, True)); [done|]. intros [?|?] h2 _; by apply wp_ret.
Qed.
Lemma patchRole_spec u role h :
  wp (patchRole u role) (λ x h', grows h h' ∧
    match x with
    | inl resp => rs_status resp ≠ 204
    | inr _ => role ≠ "" → role ≠ u_Role u →
        ∀ c, c ∈ h_conns h → c_userID c = u_ID u → RoleIncludes role (c_role c) = false → EStop (c_key c) ∈ h_trace h'
    end) h.
Proof.
  apply wp_and.
  - eapply wp_steps; [|by intros ???]. unfold patchRole. go_steps.
    + apply steps_calm_grows, steps_SetRole_calm.
    + apply steps_closeConns_grows.
  - unfold patchRole. destruct (String.eqb_spec role "") as [|Hne]; cbn [negb andb]; [by apply wp_ret|].
    destruct (String.eqb_spec role (u_Role u)) as [|Hne2]; cbn [negb]; [by apply wp_ret|].
    apply wp_bind. eapply wp_steps; [apply steps_SetRole_calm|]. intros e h1 (Hc1 & _ & _).
    destruct e as [[]|e]; [|apply wp_ret; destruct e; done].
    apply wp_bind, wp_modify, wp_ret. intros _ _ c Hc Hid Hrole. cbn. apply elem_of_app. right.
    apply list_elem_of_fmap. exists c. split; [done|]. apply elem_of_selectWhere. split; [by rewrite Hc1|].
    by rewrite Hid, Z.eqb_refl, Hrole.
Qed.
(** After a sign-out only the session [keep] of the user may be left. *)
Definition onlyKeep (id : Z) (keep : option string) (l : list sessionRow) : Prop :=
  ∀ x, x ∈ l → sr_user_id x = id → Some (sr_token_hash x) = keep.

Lemma signOut_part id keep (cs : list string) h :
  noFaults (h_m h) →
  wp (match cs with [] => mret tt | _ => _ ← signOutUser id keep; mret tt end)
    (λ _ h', grows h h' ∧ (cs ≠ [] → onlyKeep id keep (sessions (tables h')))) h.
Proof.
  intros Hn. destruct cs as [|c cs]; [apply wp_ret; split; [reflexivity|done]|]. apply wp_and.
  - eapply wp_steps; [|by intros ???]. unfold signOutUser, DeleteOtherSessions, DeleteSessions, deleteSessionsWhere.
    go_steps; try apply steps_closeConns_grows; apply steps_calm_grows, steps_db_calm; go_steps.
  - apply wp_bind. eapply wp_mono; [by apply signOutUser_spec|]. intros ? h' (_ & Hs & _). by apply wp_ret.
Qed.

(** C33. A changed account loses what it no longer may do, at once: when [patchUser] succeeds (with a
    working database) a new password leaves no session of that user except the one that made
    the change, and a changed role stops every connection that needs a role the new one does
    not include. *)
Theorem patchUser_revokes (r : request) (s : Session) (b : userPatch) (h : hub) (Hn : noFaults (h_m h)) :
  let '(resp, h') := patchUser r s (Some b) h in
  let id := (ParseInt 64 (rq_PathValue r "id")).1 in
  rs_status resp = 204 →
  (up_Password b ≠ "" →
     onlyKeep id (if id =? u_ID (s_User s) then Some (s_TokenHash s) else None) (sessions (tables h')))
  ∧ (∀ row, findUser (tables h) id = Some row → up_Role b ≠ "" → up_Role b ≠ u_Role (ur_user row) →
       ∀ c, c ∈ h_conns h → c_userID c = id → RoleIncludes (up_Role b) (c_role c) = false →
       EStop (c_key c) ∈ h_trace h').
Proof.
  apply wp_let. unfold patchUser. apply wp_bind, wp_lookupUser; [intros resp h' _ _ Hs; by apply wp_ret|].
  intros row h1 (Hc1 & _ & Hn1) Ht1 Hf. destruct (findUser_some _ _ _ Hf) as [Hrow Hid]. set (id := (ParseInt 64 (rq_PathValue r "id")).1) in *.
  apply wp_bind, wp_ret. cbn [readJSON].
  apply wp_bind, wp_requireElevated; [intros resp h' _ _ Hs; apply wp_ret; congruence|].
  intros h2 (Hc2 & _ & Hn2) Ht2 _. apply wp_bind, wp_ret.
  destruct (_ || _); cbn [ensure]; [|by apply wp_ret]. apply wp_bind, wp_ret.
  destruct (String.eqb _ ""); cbn [ensure]; [|by apply wp_ret].
  change (u_ID (ur_user row)) with (ur_ID row). rewrite Hid.
  apply wp_bind. eapply wp_mono; [apply patchRole_spec|]. intros c1 h3 [(Hc3 & _ & Hn3) Hrole].
  destruct c1 as [resp|c1]; [by apply wp_ret|].
  destruct (patch_calm (ur_user row)) as (Hp2 & Hp3 & Hp4).
  apply wp_bind. eapply wp_mono; [apply wp_and; [apply (wp_steps calm _ (λ _ h', calm h3 h')); [apply Hp2|done]|apply patchPassword_some]|].
  intros c2 h4 [(Hc4 & Ht4 & Hn4) H2]. destruct c2 as [resp|c2]; [by apply wp_ret|].
  apply wp_bind. eapply wp_mono; [apply wp_and; [apply (wp_steps calm _ (λ _ h', calm h4 h')); [apply Hp3|done]|apply patchTOTP_err]|].
  intros c3 h5 [(Hc5 & Ht5 & Hn5) H3]. destruct c3 as [resp|c3]; [by apply wp_ret|].
  apply wp_bind. eapply wp_mono; [apply wp_and; [apply (wp_steps calm _ (λ _ h', calm h5 h')); [apply Hp4|done]|apply patchPasskeys_err]|].
  intros c4 h6 [(Hc6 & Ht6 & Hn6) H4]. destruct c4 as [resp|c4]; [by apply wp_ret|].
  apply wp_bind. eapply wp_mono; [apply signOut_part; auto 10|]. intros ? h7 [(_ & [l7 Ht7] & _) Hso].
  apply wp_bind. eapply (wp_mono _ (λ _ h8, h_trace h8 = h_trace h7 ∧
     (c2 ≠ [] → onlyKeep id (if id =? u_ID (s_User s) then Some (s_TokenHash s) else None) (sessions (tables h8))))).
  { assert (Hso' : c2 ≠ [] → onlyKeep id (if id =? u_ID (s_User s) then Some (s_TokenHash s) else None) (sessions (tables h7)))
      by (intros Hne; apply Hso; by destruct c2).
    destruct (c1 ++ c2 ++ c3 ++ c4); [by apply wp_ret|].
    eapply wp_steps; [apply steps_and; [apply steps_audit_calm|apply (steps_audit_sessions (λ l,
       c2 ≠ [] → onlyKeep id (if id =? u_ID (s_User s) then Some (s_TokenHash s) else None) l))]|].
    intros ? h8 [(_ & Ht8 & _) H8]. split; [done|]. by apply H8. }
  intros ? h8 [Ht8 H8]. apply wp_ret. intros _. split.
  - intros Hpw. apply H8, H2, Hpw.
  - intros row' Hf'. rewrite Hf in Hf'. simplify_eq. intros Hr1 Hr2 c Hc Hcid Hinc.
    rewrite Ht8, Ht7, Ht6, Ht5, Ht4. apply elem_of_app. left.
    apply Hrole; [done..|by rewrite Hc2, Hc1| |done]. change (u_ID (ur_user row')) with (ur_ID row'). congruence.
Qed.
End users.

(** ** Witnesses *)
Definition demoTwo : mach := (@CreateUser demoLib "bob" "saltbob" RoleOperator demoAdmin).2.
Lemma wf_demoTwo : store_wf (m_db demoTwo).
Proof.
  apply (@dbStep_sound demoLib id (λ _, fzero) (λ _, fzero) demoAdmin); [|apply wf_demoAdmin].
  apply (step_CreateUser _ _ _ _ "bob" "saltbob" RoleOperator).
Qed.
Definition demoHub2 : hub :=
  with_conns [mkSessionConn 7 "bobs" 2 RoleOperator] (newHub (mkConfig "" []) ∅ demoTwo).
Definition demoElevated : Session := mkSession (s_User demoSession) "token" 100.
Definition demoRequest2 : request :=
  mkRequest "DELETE" "10.0.0.1" "hub" "" None false "" "" [] (λ _, "2") (λ _, "") false.
Lemma deleteUser_complete_witness :
  let '(resp, h') := @deleteUser demoLib demoRequest2 demoElevated demoHub2 in
  rs_status resp = 204 ∧ userGone (m_db (h_m h')) 2 ∧ EStop 7 ∈ h_trace h'.
Proof.
  pose proof (@deleteUser_complete demoLib demoRequest2 demoElevated demoHub2 wf_demoTwo) as Hp.
  assert (Hs : rs_status (@deleteUser demoLib demoRequest2 demoElevated demoHub2).1 = 204) by (vm_compute; reflexivity).
  destruct (deleteUser _ _ _) as [resp h']. destruct (Hp Hs) as (_ & Hg & Hc). split; [exact Hs|split; [exact Hg|]].
  apply (Hc (mkSessionConn 7 "bobs" 2 RoleOperator)); [constructor|reflexivity].
Defined.
Lemma patchUser_revokes_witness :
  let b := mkUserPatch RoleViewer "" false false in
  let '(resp, h') := @patchUser demoLib demoRequest2 demoElevated (Some b) demoHub2 in
  rs_status resp = 204 ∧ EStop 7 ∈ h_trace h'.
Proof.
  pose proof (@patchUser_revokes demoLib demoRequest2 demoElevated (mkUserPatch RoleViewer "" false false) demoHub2 eq_refl) as Hp.
  assert (Hs : rs_status (@patchUser demoLib demoRequest2 demoElevated (Some (mkUserPatch RoleViewer "" false false)) demoHub2).1 = 204)
    by (vm_compute; reflexivity).
  cbv zeta. destruct (patchUser _ _ _ _) as [resp h']. destruct (Hp Hs) as [_ Hc]. split; [exact Hs|].
  apply (Hc (mkUserRow (mkUser 2 "bob" "saltbob" "" RoleOperator 0 0) None) eq_refl) with (c := mkSessionConn 7 "bobs" 2 RoleOperator);
    try reflexivity; try discriminate. constructor.
Defined.
