(* ===== verification/Alerts.v ===== *)
(** * Alerts ([internal/hub/alerts.go], settings of [notify.go])

    The alert engine (one small state machine per rule and system), what it tells the
    notification channels, and the handlers for rules and channels. *)
From Stdlib Require Import ZArith Lia Ascii String.
From S2P Require Import Prelude GoStrings Float64 Library Store StoreTables StoreInv Limiter TailBuffer Update Webauthn Protocol Hub Auth.
From stdpp Require Import base gmap strings list.
Local Open Scope string_scope.
Local Open Scope list_scope.
Local Open Scope Z_scope.
Local Open Scope lotse_scope.

(** [alertMetrics]: label and whether the value is a percentage. *)
Definition alertMetrics (m : string) : option (string * bool) :=
  if String.eqb m "offline" then Some ("Offline", false)
  else if String.eqb m "cpu" then Some ("CPU", true)
  else if String.eqb m "memory" then Some ("Memory", true)
  else if String.eqb m "disk" then Some ("Disk", true)
  else if String.eqb m "load" then Some ("Load", false)
  else None.
Definition alertClearDelay : Z := seconds 60.
Definition alertHistory : nat := 50.

Record alertEvent := mkAlertEvent { ev_rule : AlertRule; ev_alert : Alert; ev_firing : bool; ev_value : f64 }.

Definition appliesTo (r : AlertRule) (systemID : Z) : bool :=
  match r_SystemID r with None => true | Some id => id =? systemID end.
Definition pct (used total : Z) : option f64 :=
  if total =? 0 then None else Some (fmul (fdiv (ofInt used) (ofInt total)) (ofInt 100)).
Definition metricValue (metric : string) (m : Metrics) : option f64 :=
  if String.eqb metric "cpu" then Some (me_CPU m)
  else if String.eqb metric "memory" then pct (me_MemUsed m) (me_MemTotal m)
  else if String.eqb metric "disk" then pct (me_DiskUsed m) (me_DiskTotal m)
  else if String.eqb metric "load" then Some (me_Load1 m)
  else None.

Definition with_rules (l : list AlertRule) (e : alertEngine) : alertEngine :=
  mkEngine l (en_states e) (en_offline e) (en_started e).
Definition with_states_of (m : gmap (Z * Z) alertState) (e : alertEngine) : alertEngine :=
  mkEngine (en_rules e) m (en_offline e) (en_started e).
Definition with_offline (m : gmap Z Z) (e : alertEngine) : alertEngine :=
  mkEngine (en_rules e) (en_states e) m (en_started e).
Definition onEngine (f : alertEngine → alertEngine) : M hub unit := mmodify (λ h, with_alerts (f (h_alerts h)) h).
Definition setState (key : Z * Z) (st : alertState) : M hub unit :=
  onEngine (λ e, with_states_of (<[key := st]> (en_states e)) e).
Definition dropState (key : Z * Z) : M hub unit := onEngine (λ e, with_states_of (delete key (en_states e)) e).

Definition newState : alertState := mkAlertState zeroTime zeroTime None.
Definition ruleDuration (r : AlertRule) : Z := wrap64 (r_Duration r * nsec).

(** One rule and system: a step with the condition holding or not. *)
Definition step (r : AlertRule) (systemID : Z) (holds : bool) (value : f64) (since now clearDelay : Z)
    : M hub (option alertEvent) :=
  e ← mgets h_alerts;
  let key := (r_ID r, systemID) in
  let st := default newState (en_states e !! key) in
  if holds then
    let st1 := mkAlertState (if isZeroTime (as_since st) then since else as_since st) zeroTime (as_alert st) in
    setState key st1;;
    if bool_decide (is_Some (as_alert st)) || (timeSub now (as_since st1) <? ruleDuration r) then mret None else
    sys ← db (getSystem systemID);
    let name := match sys with Ok s => sy_Name s | Err _ => "" end in
    let a := mkAlert 0 (r_ID r) (r_Name r) systemID name (r_Metric r) (r_Threshold r) value (unix (as_since st1)) None in
    c ← db (CreateAlert a);
    match c with
    | Err _ => mret None
    | Ok a' =>
      setState key (mkAlertState (as_since st1) zeroTime (Some a'));;
      mret (Some (mkAlertEvent r a' true value))
    end
  else
    match as_alert st with
    | None => dropState key;; mret None
    | Some a =>
      let clearSince := if isZeroTime (as_clearSince st) then now else as_clearSince st in
      setState key (mkAlertState zeroTime clearSince (Some a));;
      if timeSub now clearSince <? clearDelay then mret None else
      dropState key;;
      _ ← db (ResolveAlert (a_ID a) (unix now));
      mret (Some (mkAlertEvent r a false value))
    end.

Section alerts.
Context `{Lib} `{Marshal}.
(** Formatting of [fmt] and [strconv]: [%.0f%%], [FormatFloat(Round(v*100)/100)], [%g] and
    [time.Duration]'s [%s]. *)
Context (formatPct formatNum formatG : f64 → string) (durationString : Z → string).

Definition enabledRules (l : list AlertRule) : list AlertRule := deleteWhere (λ r, negb (r_Enabled r)) l.
(** [loadAlerts]: rules and firing alerts, on start. *)
Definition loadAlerts : M hub (res unit) :=
  rules ← db AlertRules;
  match rules with
  | Err e => mret (Err e)
  | Ok rules =>
    active ← db ActiveAlerts;
    match active with
    | Err e => mret (Err e)
    | Ok active =>
      onEngine (λ e, with_states_of
        (fold_left (λ m a, <[(a_RuleID a, a_SystemID a) := mkAlertState (fromUnix (a_StartedAt a)) zeroTime (Some a)]> m)
           active (en_states e)) (with_rules (enabledRules rules) e));;
      mret (Ok tt)
    end
  end.
Definition reloadRulesLocked : M hub unit :=
  rules ← db AlertRules;
  match rules with
  | Err _ => mret tt
  | Ok rules => onEngine (with_rules (enabledRules rules))
  end.

(** ** Texts *)
Definition systemURL (cfg : Config) (id : Z) : string :=
  if String.eqb (cfg_PublicURL cfg) "" then "" else cfg_PublicURL cfg +:+ "/systems/" +:+ itoa id.
Definition roundMinute (d : Z) : Z := durationRound d (minutes 1).
Definition humanDuration (d0 : Z) : string :=
  let d := roundMinute d0 in
  if d <? minutes 1 then "less than a minute"
  else if d <? hours 1 then itoa (d /! minutes 1) +:+ " min"
  else if d <? hours 48 then itoa (d /! hours 1) +:+ "h " +:+ itoa (Z.rem (d /! minutes 1) 60) +:+ "min"
  else itoa (d /! hours 24) +:+ " days".
Definition alertText (ev : alertEvent) (now : Z) : string * string :=
  let a := ev_alert ev in
  let lasted := humanDuration (timeSub now (fromUnix (a_StartedAt a))) in
  if String.eqb (a_Metric a) "offline" then
    if ev_firing ev
    then (a_SystemName a +:+ " is offline", "No contact with " +:+ a_SystemName a +:+ " for " +:+ lasted +:+ ".")
    else (a_SystemName a +:+ " is back online", a_SystemName a +:+ " was offline for " +:+ lasted +:+ ".")
  else
    let '(label, percent) := default ("", false) (alertMetrics (a_Metric a)) in
    let format v := if (percent : bool) then formatPct v else formatNum v in
    if ev_firing ev
    then (a_SystemName a +:+ ": " +:+ label +:+ " at " +:+ format (ev_value ev),
          label +:+ " has been above " +:+ format (a_Threshold a) +:+ " for " +:+ lasted
            +:+ " (rule " +:+ Quote (a_RuleName a) +:+ ").")
    else (a_SystemName a +:+ ": " +:+ label +:+ " back to normal",
          label +:+ " is at " +:+ format (ev_value ev) +:+ " again after " +:+ lasted +:+ " above "
            +:+ format (a_Threshold a) +:+ ".").

Definition notificationOf (cfg : Config) (ev : alertEvent) (now : Z) : notification :=
  let '(title, msg) := alertText ev now in
  let a := ev_alert ev in
  mkNotification title msg (ev_firing ev) (systemURL cfg (a_SystemID a)) now (a_SystemName a) (a_Metric a)
    (ev_value ev) (a_Threshold a).
Definition dispatch (events : list alertEvent) (now : Z) : M hub unit :=
  match events with
  | [] => mret tt
  | _ =>
    publish "alerts" JNull;;
    mmodify (λ h, with_trace (h_trace h ++ flat_map (λ ev,
      map (λ id, EDeliver id (notificationOf (h_cfg h) ev now)) (r_Notifiers (ev_rule ev))) events) h)
  end.

(** ** Evaluation *)
Fixpoint evaluateRules (rules : list AlertRule) (systemID : Z) (m : Metrics) (now : Z) : M hub (list alertEvent) :=
  match rules with
  | [] => mret []
  | r :: rest =>
    ev ← (if String.eqb (r_Metric r) "offline" || negb (appliesTo r systemID) then mret None
          else match metricValue (r_Metric r) m with
               | None => mret None
               | Some v => step r systemID (fgt v (r_Threshold r)) v now now alertClearDelay
               end);
    evs ← evaluateRules rest systemID m now;
    mret (option_list ev ++ evs)
  end.
Definition evaluateMetrics (systemID : Z) (m : Metrics) (now : Z) : M hub unit :=
  rules ← mgets (λ h, en_rules (h_alerts h));
  events ← evaluateRules rules systemID m now;
  dispatch events now.

Fixpoint offlineSystems (r : AlertRule) (systems : list System) (online : gmap Z agentConn) (now : Z)
    : M hub (list alertEvent) :=
  match systems with
  | [] => mret []
  | sys :: rest =>
    ev ← (if negb (appliesTo r (sy_ID sys)) then mret None
          else e ← mgets h_alerts;
               let since := default (en_started e) (en_offline e !! sy_ID sys) in
               step r (sy_ID sys) (negb (bool_decide (is_Some (online !! sy_ID sys)))) fzero since now 0);
    evs ← offlineSystems r rest online now;
    mret (option_list ev ++ evs)
  end.
Fixpoint offlineRules (rules : list AlertRule) (systems : list System) (online : gmap Z agentConn) (now : Z)
    : M hub (list alertEvent) :=
  match rules with
  | [] => mret []
  | r :: rest =>
    evs1 ← (if String.eqb (r_Metric r) "offline" then offlineSystems r systems online now else mret []);
    evs2 ← offlineRules rest systems online now;
    mret (evs1 ++ evs2)
  end.
Definition evaluateOffline (now : Z) : M hub unit :=
  systems ← db Systems;
  match systems with
  | Err _ => mret tt
  | Ok systems =>
    h ← mget;
    events ← offlineRules (en_rules (h_alerts h)) systems (h_agents h) now;
    dispatch events now
  end.
Definition agentOnline (id : Z) : M hub unit :=
  onEngine (λ e, with_offline (delete id (en_offline e)) e);;
  t ← db timeNow; emit (EEvaluateOffline t).
Definition agentOffline (id : Z) : M hub unit :=
  t ← db timeNow; onEngine (λ e, with_offline (<[id := t]> (en_offline e)) e).

Definition resetAlerts (ruleID systemID : Z) : M hub unit :=
  t ← db timeNow;
  _ ← db (ResolveAlertsWhere ruleID systemID (unix t));
  onEngine (λ e, with_states_of (filter (λ kv, kv.1.1 ≠ ruleID ∧ kv.1.2 ≠ systemID) (en_states e)) e);;
  (if negb (systemID =? 0) then onEngine (λ e, with_offline (delete systemID (en_offline e)) e) else mret tt);;
  (if negb (ruleID =? 0) then reloadRulesLocked else mret tt);;
  publish "alerts" JNull.

(** [deliver] with the outcomes of its (at most three) attempts: the error message of each,
    or [None] for success. *)
Fixpoint sendAttempts (n : nat) (outcomes : list (option string)) : string :=
  match n, outcomes with
  | S n', Some msg :: rest => match n' with O => msg | _ => sendAttempts n' rest end
  | _, _ => ""
  end.
Definition deliver (notifierID : Z) (outcomes : list (option string)) : M hub unit :=
  nf ← db (getNotifier notifierID);
  match nf with
  | Err _ => mret tt
  | Ok nf =>
    if negb (n_Enabled nf) then mret tt else
    t ← db timeNow;
    _ ← db (NotifierResult notifierID (unix t) (sendAttempts 3 outcomes));
    publish "alerts" JNull
  end.
End alerts.
