(* ===== verification/AlertProps.v ===== *)
(** * Properties of the alert engine *)
From Stdlib Require Import ZArith Lia Ascii String.
From S2P Require Import Prelude GoStrings Float64 Library Store StoreTables StoreInv StoreSteps Limiter TailBuffer Update Webauthn Protocol Hub Auth AuthProps Alerts.
From stdpp Require Import base gmap strings list relations sorting.
Local Open Scope string_scope.
Local Open Scope list_scope.
Local Open Scope Z_scope.
Local Open Scope lotse_scope.

Section engine.
Implicit Types (h : hub).
Abbreviation tables h := (m_db (h_m h)).
Abbreviation states h := (en_states (h_alerts h)).

(** ** One step of the state machine

    What [step] does to the state of its key, as a pure function: the next state when no
    alert is opened, and what is to be done. *)
Inductive action := Quiet | Fire | Resolve (a : Alert).
Definition advance (st : alertState) (holds : bool) (since now clearDelay duration : Z) : option alertState * action :=
  if holds then
    let s := if isZeroTime (as_since st) then since else as_since st in
    (Some (mkAlertState s zeroTime (as_alert st)),
     if bool_decide (is_Some (as_alert st)) || (timeSub now s <? duration) then Quiet else Fire)
  else
    match as_alert st with
    | None => (None, Quiet)
    | Some a =>
      let c := if isZeroTime (as_clearSince st) then now else as_clearSince st in
      if timeSub now c <? clearDelay then (Some (mkAlertState zeroTime c (Some a)), Quiet) else (None, Resolve a)
    end.
Definition stateOf h (key : Z * Z) : alertState := default newState (states h !! key).

(** The row [CreateAlert] adds for a firing rule. *)
Definition isNewAlert (d d' : store) (r : AlertRule) (systemID : Z) (a : Alert) : Prop :=
  alerts d' = alerts d ++ [a] ∧ a_ID a = nextID (map a_ID (alerts d)) ∧ a_RuleID a = r_ID r
  ∧ a_SystemID a = systemID ∧ a_ResolvedAt a = None.
(** Only the alerts table differs. *)
Definition onlyAlerts (d d' : store) : Prop := d' = set_alerts (alerts d') d.

(** How a step changes the hub, for each action. A failing database makes an alert not
    fire (it is tried again with the next sample). *)
Definition stepPost (r : AlertRule) (systemID now : Z) (st' : option alertState) (act : action)
    (h : hub) (ev : option alertEvent) (h' : hub) : Prop :=
  let key := (r_ID r, systemID) in
  match act with
  | Quiet => ev = None ∧ tables h' = tables h ∧ states h' = (match st' with Some s => <[key := s]> | None => delete key end) (states h)
  | Fire =>
    (ev = None ∧ ¬ noFaults (h_m h) ∧ tables h' = tables h ∧ ∃ s, st' = Some s ∧ states h' = <[key := s]> (states h))
    ∨ (∃ a s v, ev = Some (mkAlertEvent r a true v) ∧ isNewAlert (tables h) (tables h') r systemID a
         ∧ onlyAlerts (tables h) (tables h')
         ∧ st' = Some s ∧ states h' = <[key := mkAlertState (as_since s) zeroTime (Some a)]> (states h))
  | Resolve a =>
    (∃ v, ev = Some (mkAlertEvent r a false v)) ∧ states h' = delete key (states h)
    ∧ (tables h' = set_alerts (updateWhere (λ x, isActive x && (a_ID x =? a_ID a)) (withResolved (unix now)) (alerts (tables h))) (tables h)
       ∨ (¬ noFaults (h_m h) ∧ tables h' = tables h))
  end.

Lemma step_refines r systemID holds value since now clearDelay h :
  wp (step r systemID holds value since now clearDelay)
    (λ ev h', let '(st', act) := advance (stateOf h (r_ID r, systemID)) holds since now clearDelay (ruleDuration r) in
              stepPost r systemID now st' act h ev h' ∧ (noFaults (h_m h) → noFaults (h_m h'))
              ∧ en_rules (h_alerts h') = en_rules (h_alerts h)) h.
Proof.
  unfold step. apply wp_bind, wp_gets. set (key := (r_ID r, systemID)).
  fold (stateOf h key). set (st := stateOf h key). unfold advance. destruct holds.
  - set (s := if isZeroTime (as_since st) then since else as_since st). cbn [as_since].
    apply wp_bind, wp_modify. destruct (_ || _); [by apply wp_ret|].
    set (h1 := with_alerts _ h). assert (Hst1 : states h1 = <[key := mkAlertState s zeroTime (as_alert st)]> (states h)) by done.
    apply wp_bind. eapply (wp_mono _ (λ _ h2, ∃ m2, h2 = with_m m2 h1 ∧ m_db m2 = tables h ∧ (noFaults (h_m h) → noFaults m2))).
    { apply wp_db, wp_query_cases; [intros m' Hm' Hn'|intros m' Hm' Hn']; exists m'; split_and!; try done. }
    intros x h2 (m2 & -> & Hm2 & Hn2). apply wp_bind. unfold CreateAlert. apply wp_db, wp_sql_cases.
    + intros m3 Hm3 Hn3. cbn [fst snd] in *. apply wp_bind, wp_modify, wp_ret. split_and!; [|cbn; auto|done].
      right. eexists _, _, _. split_and!; [done| | |done|].
      * unfold isNewAlert. cbn. rewrite Hm3. cbn. rewrite Hm2. destruct (m_db (h_m h)). by split_and!.
      * unfold onlyAlerts. cbn. rewrite Hm3. cbn. rewrite Hm2. by destruct (m_db (h_m h)).
      * cbn. by rewrite insert_insert_eq.
    + intros m3 Hm3 Hn3. cbn in Hn3, Hm3. apply wp_ret. split_and!; [|cbn|done].
      * left. split_and!; [done|by intros ?%Hn2|cbn; by rewrite Hm3|eauto].
      * by intros ?%Hn2.
  - destruct (as_alert st) as [a|] eqn:Ea; [|by apply wp_bind, wp_modify, wp_ret].
    set (c := if isZeroTime (as_clearSince st) then now else as_clearSince st).
    apply wp_bind, wp_modify. destruct (timeSub now c <? clearDelay); [by apply wp_ret|].
    apply wp_bind, wp_modify, wp_bind. unfold ResolveAlert, resolveWhere. apply wp_db, wp_sql_cases.
    + intros m2 Hm2 Hn2. apply wp_ret. split_and!; [|done|done]. split_and!; [eauto| |by left].
      cbn. by rewrite delete_insert_eq.
    + intros m2 Hm2 Hn2. apply wp_ret. split_and!; [|by intros ?%Hn2|done]. split_and!; [eauto| |by right].
      cbn. by rewrite delete_insert_eq.
Qed.

(** ** Firing and resolving alternate *)
Definition hasAlert h (key : Z * Z) : bool := bool_decide (is_Some (as_alert (stateOf h key))).

Lemma step_spec r systemID holds value since now clearDelay h ev h' :
  step r systemID holds value since now clearDelay h = (ev, h') →
  let '(st', act) := advance (stateOf h (r_ID r, systemID)) holds since now clearDelay (ruleDuration r) in
  stepPost r systemID now st' act h ev h'.
Proof.
  intros E. pose proof (step_refines r systemID holds value since now clearDelay h) as W.
  apply (wp_run _ _ _ _ _ W) in E. destruct (advance _ _ _ _ _ _). apply E.
Qed.
Lemma stateOf_insert h h' key st k :
  states h' = <[key := st]> (states h) → stateOf h' k = if decide (key = k) then st else stateOf h k.
Proof.
  unfold stateOf. intros ->. case_decide as Hk; [subst; by rewrite lookup_insert_eq|by rewrite lookup_insert_ne].
Qed.
Lemma stateOf_delete h h' key k :
  states h' = delete key (states h) → stateOf h' k = if decide (key = k) then newState else stateOf h k.
Proof.
  unfold stateOf. intros ->. case_decide as Hk; [subst; by rewrite lookup_delete_eq|by rewrite lookup_delete_ne].
Qed.
(** The state of every key after a step. *)
Lemma step_state r systemID holds value since now clearDelay h ev h' :
  step r systemID holds value since now clearDelay h = (ev, h') →
  let key := (r_ID r, systemID) in
  let '(st', act) := advance (stateOf h key) holds since now clearDelay (ruleDuration r) in
  (∀ k, k ≠ key → stateOf h' k = stateOf h k)
  ∧ match ev with
    | None => stateOf h' key = default newState st' ∧ (act = Quiet ∨ (act = Fire ∧ ¬ noFaults (h_m h)))
    | Some e => if ev_firing e
                then act = Fire ∧ ∃ s, st' = Some s ∧ stateOf h' key = mkAlertState (as_since s) zeroTime (Some (ev_alert e))
                else act = Resolve (ev_alert e) ∧ stateOf h' key = newState
    end.
Proof.
  intros E key. pose proof (step_spec _ _ _ _ _ _ _ _ _ _ E) as P. fold key in P.
  destruct (advance _ _ _ _ _ _) as [st' act]. unfold stepPost in P. fold key in P.
  pose proof (λ s k, stateOf_insert h h' key s k) as Hins. pose proof (λ k, stateOf_delete h h' key k) as Hdel.
  destruct act as [| |a].
  - destruct P as (-> & _ & Hs). destruct st' as [s|].
    + split; [intros k Hk; rewrite (Hins s) by done; by rewrite decide_False by congruence|].
      split; [rewrite (Hins s) by done; by rewrite decide_True|by left].
    + split; [intros k Hk; rewrite Hdel by done; by rewrite decide_False by congruence|].
      split; [rewrite Hdel by done; by rewrite decide_True|by left].
  - destruct P as [(-> & Hn & _ & s & -> & Hs)|(a & s & v & -> & _ & _ & -> & Hs)]; cbn.
    + split; [intros k Hk; rewrite (Hins s) by done; by rewrite decide_False by congruence|].
      split; [rewrite (Hins s) by done; by rewrite decide_True|by right].
    + split; [intros k Hk; erewrite Hins by done; by rewrite decide_False by congruence|].
      split; [done|]. exists s. split; [done|]. erewrite Hins by done. by rewrite decide_True.
  - destruct P as ([v ->] & Hs & _); cbn.
    split; [intros k Hk; rewrite Hdel by done; by rewrite decide_False by congruence|].
    split; [done|]. rewrite Hdel by done. by rewrite decide_True.
Qed.

Lemma advance_alert st holds since now clearDelay duration :
  let '(st', act) := advance st holds since now clearDelay duration in
  match act with
  | Quiet => is_Some (as_alert (default newState st')) ↔ is_Some (as_alert st)
  | Fire => as_alert st = None ∧ as_alert (default newState st') = None
  | Resolve a => as_alert st = Some a
  end.
Proof.
  unfold advance. destruct holds; cbn.
  - destruct (bool_decide_reflect (is_Some (as_alert st))) as [Hs|Hs]; cbn; [done|].
    destruct (_ <? _); cbn; [done|]. by destruct (as_alert st); [destruct Hs; eauto|].
  - destruct (as_alert st) as [a|] eqn:Ea; cbn; [|split; by intros [??]].
    destruct (_ <? _); cbn; [|done]. split; eauto.
Qed.
(** An event says whether an alert was open before, and whether one is after. *)
Lemma step_hasAlert r systemID holds value since now clearDelay h ev h' k :
  step r systemID holds value since now clearDelay h = (ev, h') →
  match ev with
  | None => hasAlert h' k = hasAlert h k
  | Some e => if decide (k = (r_ID r, systemID)) then hasAlert h k = negb (ev_firing e) ∧ hasAlert h' k = ev_firing e
              else hasAlert h' k = hasAlert h k
  end.
Proof.
  intros E. apply step_state in E. cbv zeta in E. set (key := (r_ID r, systemID)) in *.
  pose proof (advance_alert (stateOf h key) holds since now clearDelay (ruleDuration r)) as A.
  destruct (advance _ _ _ _ _ _) as [st' act]. destruct E as [Hoth Hev]. unfold hasAlert.
  destruct (decide (k = key)) as [->|Hne].
  - destruct ev as [e|].
    + destruct (ev_firing e); [destruct Hev as (-> & s & -> & ->)|destruct Hev as [-> ->]]; cbn in *.
      * destruct A as [-> _]. done.
      * rewrite A. done.
    + destruct Hev as [-> [->|[-> _]]]; [by apply bool_decide_ext|]. destruct A as [-> ->]. done.
  - rewrite Hoth by done. by destruct ev.
Qed.

(** Steps of any rules on any systems; the list has the key and kind of each event. *)
Inductive engineRun : list (Z * Z * bool) → hub → hub → Prop :=
| engine_nil h : engineRun [] h h
| engine_step r systemID holds value since now clearDelay ev l h h1 h2 :
    step r systemID holds value since now clearDelay h = (ev, h1) → engineRun l h1 h2 →
    engineRun (match ev with Some e => [(r_ID r, systemID, ev_firing e)] | None => [] end ++ l) h h2.
Fixpoint alternates (b : bool) (l : list bool) : Prop :=
  match l with [] => True | x :: rest => x = b ∧ alternates (negb b) rest end.
Definition eventsOf (key : Z * Z) (l : list (Z * Z * bool)) : list bool :=
  map snd (selectWhere (λ x, bool_decide (x.1 = key)) l).

(** C21. No alert is notified twice: whatever samples arrive and however rules and systems
    interleave, and even if statements fail, the notifications for one rule and system
    alternate between firing and resolved, starting with firing unless an alert is open. *)
Theorem alerts_alternate (l : list (Z * Z * bool)) (h h' : hub) (Hrun : engineRun l h h') (key : Z * Z) :
  alternates (negb (hasAlert h key)) (eventsOf key l).
Proof.
  induction Hrun as [h|r sys holds value since now cd ev l h h1 h2 Hs _ IH]; [done|].
  apply (step_hasAlert _ _ _ _ _ _ _ _ _ _ key) in Hs. unfold eventsOf, selectWhere in *.
  destruct ev as [e|]; cbn [app].
  - cbn [List.filter fst]. destruct (decide (key = (r_ID r, sys))) as [->|Hne].
    + rewrite bool_decide_eq_true_2 by done. destruct Hs as [Hb Ha]. cbn. rewrite Hb. split; [by rewrite negb_involutive|].
      rewrite negb_involutive. by rewrite Ha in IH.
    + rewrite bool_decide_eq_false_2 by congruence. by rewrite <-Hs.
  - by rewrite <-Hs.
Qed.

(** ** Alerts fire and resolve after the right time

    [samples] are (time, does the condition hold), newest first. *)
Fixpoint streakStart (b : bool) (samples : list (Z * bool)) : option Z :=
  match samples with
  | [] => None
  | (t, x) :: older => if Bool.eqb x b then Some (default t (streakStart b older)) else None
  end.
(** The samples of one rule and system as [evaluateMetrics] feeds them to [step]. *)
Inductive sampleRun (r : AlertRule) (systemID clearDelay : Z) : list (Z * bool) → hub → hub → Prop :=
| sample_nil h : sampleRun r systemID clearDelay [] h h
| sample_cons t x value ev l h h1 h2 :
    sampleRun r systemID clearDelay l h h1 → step r systemID x value t t clearDelay h1 = (ev, h2) →
    sampleRun r systemID clearDelay ((t, x) :: l) h h2.

Definition timed (l : list (Z * bool)) (st : alertState) : Prop :=
  as_since st = default zeroTime (streakStart true l)
  ∧ as_clearSince st = (if decide (is_Some (as_alert st)) then default zeroTime (streakStart false l) else zeroTime).

Lemma streakStart_nz b l t : Forall (λ x, x.1 ≠ zeroTime) l → streakStart b l = Some t → t ≠ zeroTime.
Proof.
  revert t. induction l as [|[t0 x] l IH]; cbn; [done|]. intros t [Ht Hl]%Forall_cons.
  destruct (Bool.eqb x b); [|done]. intros ?; simplify_eq. cbn in Ht.
  destruct (streakStart b l); cbn; [by apply IH|done].
Qed.
Lemma streakStart_false_true l x b : streakStart b l = Some x → streakStart (negb b) l = None.
Proof. destruct l as [|[t y] l]; cbn; [done|]. by destruct y, b. Qed.
Lemma isZero_streak b l t : Forall (λ x, x.1 ≠ zeroTime) l →
  (if isZeroTime (default zeroTime (streakStart b l)) then t else default zeroTime (streakStart b l))
  = default t (streakStart b l).
Proof.
  intros Hl. unfold isZeroTime. destruct (streakStart b l) as [s|] eqn:E; cbn; [|done].
  apply streakStart_nz in E; [|done]. by destruct (Z.eqb_spec s zeroTime).
Qed.

Lemma sampleRun_timed r systemID clearDelay l h h' :
  sampleRun r systemID clearDelay l h h' → states h !! (r_ID r, systemID) = None →
  Forall (λ x, x.1 ≠ zeroTime) l → timed l (stateOf h' (r_ID r, systemID)).
Proof.
  intros Hrun Hnone. induction Hrun as [h|t x value ev l h h1 h2 Hrun IH Hs]; intros Hl.
  - unfold stateOf. rewrite Hnone. by split.
  - apply Forall_cons in Hl as [Ht Hl]. cbn in Ht. destruct (IH Hnone Hl) as [Hsi Hcl]. clear IH.
    apply step_state in Hs. cbv zeta in Hs. set (key := (r_ID r, systemID)) in *.
    unfold advance in Hs. rewrite Hsi, Hcl in Hs. unfold timed. cbn [streakStart].
    destruct x; cbn [Bool.eqb] in *.
    + rewrite isZero_streak in Hs by done. destruct Hs as [_ Hev].
      assert (E : stateOf h2 key = mkAlertState (default t (streakStart true l)) zeroTime (as_alert (stateOf h2 key))).
      { destruct ev as [e|]; [destruct (ev_firing e)|].
        - destruct Hev as (_ & s & ? & ->). by simplify_eq/=.
        - destruct Hev as [Hact _]. by destruct (_ || _) in Hact.
        - by destruct Hev as [-> _]. }
      rewrite E. cbn [as_since as_clearSince as_alert default]. split; [done|]. destruct (decide (is_Some (as_alert (stateOf h2 key)))); reflexivity.
    + destruct (as_alert (stateOf h1 key)) as [a|] eqn:Ea.
      * rewrite decide_True in Hs by eauto. rewrite isZero_streak in Hs by done.
        destruct (_ <? _); destruct Hs as [_ Hev].
        -- destruct ev as [e|]; [destruct (ev_firing e); by destruct Hev|]. destruct Hev as [-> _]. cbn.
           split; [done|]. by rewrite decide_True by eauto.
        -- destruct ev as [e|]; [destruct (ev_firing e); [by destruct Hev|]|destruct Hev as [_ [?|[??]]]; done].
           destruct Hev as [_ ->]. by split.
      * destruct Hs as [_ Hev]. destruct ev as [e|]; [destruct (ev_firing e); by destruct Hev|].
        destruct Hev as [-> _]. by split.
Qed.

(** C23. With a working database, alerts fire and resolve exactly when they should: a rule without
    an open alert fires with the first sample for which the condition has held, without
    interruption, for the rule's duration; an open alert resolves with the first sample for
    which it has not held, without interruption, for the clear delay; no other sample
    produces an event. *)
Theorem alert_timing (r : AlertRule) (systemID clearDelay : Z) (l : list (Z * bool)) (h h1 h2 : hub)
    (t : Z) (x : bool) (value : f64) (ev : option alertEvent)
    (Hfresh : states h !! (r_ID r, systemID) = None)
    (Hrun : sampleRun r systemID clearDelay l h h1)
    (Htimes : Forall (λ s, s.1 ≠ zeroTime) l)
    (Hstep : step r systemID x value t t clearDelay h1 = (ev, h2)) (Hdb : noFaults (h_m h1)) :
  ev_firing <$> ev =
  (if x then
     if negb (hasAlert h1 (r_ID r, systemID)) && (ruleDuration r <=? timeSub t (default t (streakStart true l)))
     then Some true else None
   else
     if hasAlert h1 (r_ID r, systemID) && (clearDelay <=? timeSub t (default t (streakStart false l)))
     then Some false else None).
Proof.
  destruct (sampleRun_timed _ _ _ _ _ _ Hrun Hfresh Htimes) as [Hsi Hcl].
  apply step_state in Hstep. cbv zeta in Hstep. set (key := (r_ID r, systemID)) in *.
  unfold advance in Hstep. rewrite Hsi, Hcl in Hstep. unfold hasAlert. rewrite !Z.leb_antisym.
  destruct x.
  - rewrite isZero_streak in Hstep by done. destruct Hstep as [_ Hev].
    destruct (bool_decide (is_Some (as_alert (stateOf h1 key)))); cbn in Hev |- *.
    + destruct ev as [e|]; [by destruct (ev_firing e), Hev|done].
    + destruct (timeSub _ _ <? ruleDuration r); cbn.
      * destruct ev as [e|]; [by destruct (ev_firing e), Hev|done].
      * destruct ev as [e|]; cbn; [destruct (ev_firing e); [done|by destruct Hev]|].
        destruct Hev as [_ [?|[_ ?]]]; done.
  - destruct (as_alert (stateOf h1 key)) as [a|] eqn:Ea.
    + rewrite decide_True in Hstep by eauto. rewrite isZero_streak in Hstep by done.
      rewrite bool_decide_eq_true_2 by eauto. cbn.
      destruct (timeSub _ _ <? clearDelay); destruct Hstep as [_ Hev]; cbn.
      * destruct ev as [e|]; [by destruct (ev_firing e), Hev|done].
      * destruct ev as [e|]; cbn; [destruct (ev_firing e); [by destruct Hev|done]|].
        destruct Hev as [_ [?|[_ ?]]]; done.
    + destruct Hstep as [_ Hev]. destruct ev as [e|]; [by destruct (ev_firing e), Hev|done].
Qed.

(** ** The engine and the database agree on the open alerts *)
Record engineInv h : Prop := {
  ei_faults : noFaults (h_m h);
  ei_ids : NoDup (map a_ID (alerts (tables h)));
  ei_keys : ∀ key st, states h !! key = Some st →
              0 < key.1 ∧ 0 < key.2 ∧ ∀ a, as_alert st = Some a → key = (a_RuleID a, a_SystemID a);
  ei_open : ∀ a, (a ∈ alerts (tables h) ∧ a_ResolvedAt a = None) ↔ as_alert (stateOf h (a_RuleID a, a_SystemID a)) = Some a;
}.

Lemma alerts_set d l : alerts (set_alerts l d) = l.
Proof. by destruct d. Qed.
Lemma advance_same st holds since now clearDelay duration st' :
  advance st holds since now clearDelay duration = (st', Quiet) → as_alert (default newState st') = as_alert st.
Proof.
  unfold advance. destruct holds.
  - intros ?; by simplify_eq/=.
  - destruct (as_alert st) as [a|] eqn:Ea; [|intros ?; by simplify_eq/=].
    destruct (_ <? _); intros ?; by simplify_eq/=.
Qed.
(** Closing alerts: the rows that satisfy [p] are closed in the table, and exactly the states
    that hold one of them are dropped. *)
Lemma close_open (l l' : list Alert) (f f' : Alert → option Alert) (p : Alert → bool) at_ :
  l' = updateWhere (λ x, isActive x && p x) (withResolved at_) l →
  (∀ a, (a ∈ l ∧ a_ResolvedAt a = None) ↔ f a = Some a) →
  (∀ a, f' a = Some a ↔ f a = Some a ∧ p a = false) →
  ∀ a, (a ∈ l' ∧ a_ResolvedAt a = None) ↔ f' a = Some a.
Proof.
  intros -> Hopen Hf a. rewrite Hf, <-Hopen, elem_of_updateWhere. unfold isActive. split.
  - intros [(y & Hy & ->) Hr]. destruct (bool_decide_reflect (a_ResolvedAt y = None)) as [Hn|Hn]; cbn in *; [|done].
    destruct (p y) eqn:Ep; [done|]. done.
  - intros [[Ha Hr] Hp]. split; [|done]. exists a. split; [done|].
    by rewrite Hr, Hp, andb_false_r.
Qed.
Lemma map_ID_resolved p at_ l : map a_ID (updateWhere p (withResolved at_) l) = map a_ID l.
Proof. by apply map_updateWhere. Qed.

(** A step without an event keeps the open alert of its key. *)
Lemma engineInv_quiet key st' h h' :
  0 < key.1 → 0 < key.2 → engineInv h → noFaults (h_m h') → tables h' = tables h →
  as_alert (default newState st') = as_alert (stateOf h key) →
  states h' = (match st' with Some s => <[key := s]> | None => delete key end) (states h) → engineInv h'.
Proof.
  intros Hr Hsys [_ Hids Hkeys Hopen] Hn Ht Hsame Hs.
  assert (Hlook : ∀ k, as_alert (stateOf h' k) = as_alert (stateOf h k)).
  { intros k. destruct st'; [rewrite (stateOf_insert h h' key a)|rewrite (stateOf_delete h h' key)];
      try done; case_decide; by subst. }
  split; [done|by rewrite Ht| |intros a; by rewrite Ht, Hopen, Hlook].
  intros k st Hk. rewrite Hs in Hk. destruct st' as [s|]; [|apply lookup_delete_Some in Hk as [_ Hk]; by apply Hkeys].
  apply lookup_insert_Some in Hk as [[<- <-]|[_ Hk]]; [|by apply Hkeys]. split_and!; [done|done|].
  intros a Ha. cbn in Hsame. rewrite Ha in Hsame. unfold stateOf in Hsame.
  destruct (states h !! key) as [st|] eqn:Ek; [|done]. by apply (Hkeys _ _ Ek).
Qed.
(** A new alert opens under its key. *)
Lemma engineInv_fire r systemID since h h' a :
  0 < r_ID r → 0 < systemID → engineInv h → noFaults (h_m h') →
  as_alert (stateOf h (r_ID r, systemID)) = None → isNewAlert (tables h) (tables h') r systemID a →
  states h' = <[(r_ID r, systemID) := mkAlertState since zeroTime (Some a)]> (states h) → engineInv h'.
Proof.
  intros Hr Hsys [_ Hids Hkeys Hopen] Hn Hnone (Hal & Hid & Hrid & Hsid & Hres) Hs.
  split; [done| | |].
  - rewrite Hal. apply NoDup_snoc; [rewrite Hid; apply nextID_fresh|done].
  - intros k st Hk. rewrite Hs in Hk. apply lookup_insert_Some in Hk as [[<- <-]|[_ Hk]]; [|by apply Hkeys].
    split_and!; [done|done|]. cbn [as_alert]. intros a' [= <-]. by rewrite Hrid, Hsid.
  - intros b. rewrite Hal, elem_of_app, list_elem_of_singleton. erewrite stateOf_insert by done. case_decide as Hk.
    + cbn. split; [|intros ?; simplify_eq; auto].
      intros [[Hb| ->] Hb0]; [|done]. assert (as_alert (stateOf h (a_RuleID b, a_SystemID b)) = Some b) by by apply Hopen.
      congruence.
    + rewrite <-Hopen. split; [|naive_solver]. intros [[Hb| ->] Hb0]; [done|]. destruct Hk. by rewrite Hrid, Hsid.
Qed.
(** The open alert of a key is closed in the table and in the engine. *)
Lemma engineInv_resolve key at_ h h' a :
  engineInv h → noFaults (h_m h') → as_alert (stateOf h key) = Some a →
  alerts (tables h') = updateWhere (λ x, isActive x && (a_ID x =? a_ID a)) (withResolved at_) (alerts (tables h)) →
  states h' = delete key (states h) → engineInv h'.
Proof.
  intros [_ Hids Hkeys Hopen] Hn Ha Ht Hs.
  assert (Hkey : key = (a_RuleID a, a_SystemID a)).
  { unfold stateOf in Ha. destruct (states h !! key) as [st|] eqn:Ek; [|done]. by apply (Hkeys _ _ Ek). }
  assert (Hin : a ∈ alerts (tables h)) by (apply Hopen; by rewrite <-Hkey).
  split; [done|by rewrite Ht, map_ID_resolved| |].
  - intros k st Hk. rewrite Hs in Hk. apply lookup_delete_Some in Hk as [_ Hk]. by apply Hkeys.
  - eapply (close_open _ _ (λ a, as_alert (stateOf h (a_RuleID a, a_SystemID a)))
      (λ a, as_alert (stateOf h' (a_RuleID a, a_SystemID a))) (λ x, a_ID x =? a_ID a)); [exact Ht|exact Hopen|].
    intros b. erewrite stateOf_delete by done. case_decide as Hk.
    + rewrite <-Hk, Ha. split; [done|]. intros [Hab Hne]. simplify_eq. by rewrite Z.eqb_refl in Hne.
    + split; [|naive_solver]. intros Hb. split; [done|]. apply Hopen in Hb as [Hb _]. apply Z.eqb_neq. intros Heq.
      apply Hk. by rewrite (key_unique a_ID _ b a Hids Hb Hin Heq).
Qed.
Lemma engineInv_step r systemID holds value since now clearDelay h ev h' :
  step r systemID holds value since now clearDelay h = (ev, h') →
  0 < r_ID r → 0 < systemID → engineInv h → engineInv h'.
Proof.
  intros E Hr Hsys Hinv. pose proof (ei_faults _ Hinv) as Hn.
  pose proof (wp_run _ _ _ _ _ (step_refines r systemID holds value since now clearDelay h) E) as P.
  pose proof (advance_alert (stateOf h (r_ID r, systemID)) holds since now clearDelay (ruleDuration r)) as A.
  destruct (advance _ _ _ _ _ _) as [st' act] eqn:Eadv. destruct P as (P & Hnf & _). unfold stepPost in P.
  destruct act as [| |a].
  - destruct P as (_ & Ht & Hs). apply advance_same in Eadv. by eapply (engineInv_quiet (r_ID r, systemID)); eauto.
  - destruct P as [(_ & ? & _)|(a & s & v & _ & Hnew & _ & -> & Hs)]; [done|]. destruct A as [Hnone _].
    eapply engineInv_fire; eauto.
  - destruct P as (_ & Hs & [Ht|[? _]]); [|done]. eapply (engineInv_resolve (r_ID r, systemID)); eauto.
    by rewrite Ht, alerts_set.
Qed.

Section ops.
Context `{Lib} `{Marshal}.

(** A step that leaves the database and the alert states alone. *)
Definition aside (h h' : hub) : Prop :=
  tables h' = tables h ∧ states h' = states h ∧ (noFaults (h_m h) → noFaults (h_m h')).
#[export] Instance aside_preorder : PreOrder aside.
Proof.
  split; unfold aside; [naive_solver|].
  intros h1 h2 h3 (? & ? & ?) (? & ? & ?). split_and!; [congruence|congruence|auto].
Qed.
Lemma aside_inv h h' : aside h h' → engineInv h → engineInv h'.
Proof.
  intros (Ht & Hs & Hnf) [Hn Hids Hkeys Hopen]. unfold stateOf in *.
  split; unfold stateOf; rewrite ?Ht, ?Hs; auto.
Qed.
Lemma steps_publish_aside e d : steps aside (publish e d).
Proof. apply steps_modify. intros h. case_decide; by split_and!. Qed.
Lemma steps_query_aside {A} (f : store → res A) : steps aside (db (query f)).
Proof.
  intros h. apply (wp_db (query f) (λ _ h', aside h h')), wp_query_cases; intros m Hm Hn; by split_and!.
Qed.
Lemma steps_timeNow_aside : steps aside (db timeNow).
Proof.
  intros h. split_and!.
  - apply (steps_db (frames id) _ (steps_timeNow (frames id)) h).
  - apply (onlyMach_frames (λ h, states h)); [done|apply steps_db_onlyMach].
  - apply steps_timeNow_calm.
Qed.
Lemma steps_reload_aside : steps aside reloadRulesLocked.
Proof.
  unfold reloadRulesLocked. go_steps; [apply steps_query_aside|]. apply steps_modify. intros h. by split_and!.
Qed.

Lemma filter_states (m : gmap (Z * Z) alertState) (P : (Z * Z) * alertState → Prop) `{!∀ kv, Decision (P kv)} k :
  ((∀ st, P (k, st)) → default newState (filter P m !! k) = default newState (m !! k))
  ∧ ((∀ st, ¬ P (k, st)) → default newState (filter P m !! k) = newState).
Proof.
  rewrite map_lookup_filter. destruct (m !! k) as [st|]; cbn; [|done].
  split; intros Hp; [by rewrite option_guard_True|by rewrite option_guard_False].
Qed.

Lemma engineInv_reset ruleID systemID h :
  0 ≤ ruleID → 0 ≤ systemID → engineInv h → engineInv (resetAlerts ruleID systemID h).2.
Proof.
  intros Hr Hy Hinv. apply (wp_bind (db timeNow) _ (λ _ h', engineInv h')).
  eapply wp_steps; [apply steps_timeNow_aside|]. intros t h1 Ha. apply (aside_inv _ _ Ha) in Hinv. clear Ha h.
  destruct Hinv as [Hn Hids Hkeys Hopen]. apply wp_bind. unfold ResolveAlertsWhere, resolveWhere.
  apply wp_db, wp_sql_nf; [done|]. intros m Hnm Hm. cbn [fst snd] in *.
  apply wp_bind, wp_modify.
  set (p := λ x : Alert, (negb (ruleID =? 0) && (a_RuleID x =? ruleID)) || (negb (systemID =? 0) && (a_SystemID x =? systemID))) in *.
  match goal with |- wp _ _ ?h2 => assert (Hinv2 : engineInv h2) end.
  { assert (Hal : alerts (m_db m) = updateWhere (λ x, isActive x && p x) (withResolved (unix t)) (alerts (tables h1)))
      by by rewrite Hm, alerts_set.
    split; cbn.
    - done.
    - by rewrite Hal, map_ID_resolved.
    - intros k st [Hk _]%map_lookup_filter_Some. by apply Hkeys.
    - eapply (close_open _ _ (λ a, as_alert (stateOf h1 (a_RuleID a, a_SystemID a))) _ p (unix t)); [exact Hal|exact Hopen|].
      intros a. unfold stateOf at 1. cbn.
      destruct (filter_states (en_states (h_alerts h1)) (λ kv, kv.1.1 ≠ ruleID ∧ kv.1.2 ≠ systemID)
        (a_RuleID a, a_SystemID a)) as [Hin Hout]. cbn in Hin, Hout.
      destruct (decide (a_RuleID a ≠ ruleID ∧ a_SystemID a ≠ systemID)) as [Hd|Hd].
      + rewrite Hin by done. split; [|tauto]. intros Ha. split; [done|]. unfold p. apply orb_false_iff.
        rewrite !andb_false_iff, !Z.eqb_neq. naive_solver.
      + rewrite Hout by done. split; [done|]. intros [Ha Hp]. exfalso. apply Hd.
        assert (Hpos : 0 < a_RuleID a ∧ 0 < a_SystemID a).
        { unfold stateOf in Ha. destruct (en_states (h_alerts h1) !! _) as [st|] eqn:Ek; [|done].
          destruct (Hkeys _ _ Ek) as (? & ? & _). done. }
        unfold p in Hp. apply orb_false_iff in Hp as [Hp1 Hp2]. rewrite andb_false_iff, negb_false_iff in Hp1, Hp2.
        rewrite Z.eqb_neq, Z.eqb_eq in Hp1, Hp2. lia. }
  revert Hinv2. match goal with |- engineInv ?h → wp ?m ?Q ?h => intros Hinv2; apply (wp_steps aside) end.
  - go_steps; try apply steps_reload_aside; try apply steps_publish_aside. apply steps_modify. intros h. by split_and!.
  - intros ? h' Ha. by apply (aside_inv _ _ Ha).
Qed.

Lemma find_app {A} (f : A → bool) l1 l2 :
  List.find f (l1 ++ l2) = match List.find f l1 with Some x => Some x | None => List.find f l2 end.
Proof. induction l1 as [|x l1 IH]; cbn; [done|]. by destruct (f x). Qed.
(** A restart loads the open alerts into an empty engine. *)
Lemma load_states (l : list Alert) k :
  NoDup (map (λ a, (a_RuleID a, a_SystemID a)) l) →
  fold_left (λ m a, <[(a_RuleID a, a_SystemID a) := mkAlertState (fromUnix (a_StartedAt a)) zeroTime (Some a)]> m) l
    (∅ : gmap (Z * Z) alertState) !! k
  = (λ a, mkAlertState (fromUnix (a_StartedAt a)) zeroTime (Some a)) <$> List.find (λ a, bool_decide ((a_RuleID a, a_SystemID a) = k)) l.
Proof.
  induction l as [|a l IH] using rev_ind; [done|]. rewrite map_app, NoDup_app. intros (Hn & Hd & _).
  rewrite fold_left_app. cbn. rewrite find_app.
  destruct (decide ((a_RuleID a, a_SystemID a) = k)) as [Hk|Hk].
  - rewrite Hk, lookup_insert_eq. destruct (List.find _ l) as [b|] eqn:Ef.
    + apply find_some in Ef as [Hb Hbk]. bool_hyps. exfalso. apply (Hd k); [|rewrite <-Hk; constructor].
      rewrite <-Hbk. apply list_elem_of_fmap. exists b. split; [done|]. by apply list_elem_of_In.
    + cbn. by rewrite bool_decide_eq_true_2.
  - rewrite lookup_insert_ne by done. rewrite IH by done. destruct (List.find _ l); [done|]. cbn.
    by rewrite bool_decide_eq_false_2.
Qed.

Lemma engineInv_restart t h h' :
  engineInv h → loadAlerts (with_alerts (mkEngine [] ∅ ∅ t) h) = (Ok tt, h') → engineInv h'.
Proof.
  intros [Hn Hids Hkeys Hopen] Hload. refine (wp_run _ (λ r h', r = Ok tt → engineInv h') _ _ _ _ Hload eq_refl).
  unfold loadAlerts. apply wp_bind. eapply wp_steps; [apply steps_query_aside|]. intros rules h1 (Ht1 & Hs1 & Hn1).
  destruct rules as [rules|]; [|by apply wp_ret].
  apply wp_bind. unfold ActiveAlerts. apply wp_db, wp_query_cases; [|intros ? _ Hbad; exfalso; apply Hbad; auto].
  intros m Hm Hnm. apply wp_bind, wp_modify, wp_ret. intros _.
  set (act := sortBy _ _).
  assert (Hact : ∀ a, a ∈ act ↔ a ∈ alerts (tables h) ∧ a_ResolvedAt a = None).
  { intros a. unfold act. rewrite sortBy_perm, elem_of_selectWhere, Ht1. unfold isActive. by rewrite bool_decide_eq_true. }
  assert (Hnd : NoDup (map (λ a, (a_RuleID a, a_SystemID a)) act)).
  { apply NoDup_fmap_2_strong.
    - intros a b Ha Hb Hk. apply Hact, Hopen in Ha, Hb. congruence.
    - unfold act. rewrite sortBy_perm. apply NoDup_ListNoDup, List.NoDup_filter, NoDup_ListNoDup.
      rewrite Ht1. apply (NoDup_fmap_1 a_ID). exact Hids. }
  assert (Hfind : ∀ k a, List.find (λ a, bool_decide ((a_RuleID a, a_SystemID a) = k)) act = Some a →
    a ∈ act ∧ (a_RuleID a, a_SystemID a) = k).
  { intros k a [Ha Hk]%find_some. bool_hyps. split; [by apply list_elem_of_In|done]. }
  split; unfold stateOf; cbn; rewrite ?Hs1, ?Hm, ?Ht1.
  - apply Hnm, Hn1. exact Hn.
  - exact Hids.
  - intros k st Hk. rewrite load_states in Hk by done. apply fmap_Some in Hk as (a & Hf & ->).
    apply Hfind in Hf as [Ha Hk]. apply Hact, Hopen in Ha. unfold stateOf in Ha. rewrite Hk in Ha.
    destruct (states h !! k) as [st|] eqn:Ek; [|done]. destruct (Hkeys _ _ Ek) as (? & ? & _). split_and!; [done|done|].
    cbn. intros b [= <-]. done.
  - intros a. rewrite load_states by done. rewrite <-Hact. split.
    + intros Ha. destruct (List.find _ act) as [b|] eqn:Ef; cbn.
      * apply Hfind in Ef as [Hb Hk]. apply Hact, Hopen in Ha, Hb. rewrite Hk in Hb. congruence.
      * apply list_elem_of_In in Ha. apply (find_none _ _ Ef) in Ha. by bool_hyps.
    + destruct (List.find _ act) as [b|] eqn:Ef; cbn; [|done]. intros [= ->]. by apply Hfind in Ef as [? _].
Qed.

(** What can happen to the alerts: a sample, a changed or deleted rule, a deleted system, a
    restart of the hub. *)
Inductive alertOp : hub → hub → Prop :=
| op_step r systemID holds value since now clearDelay ev h h' :
    0 < r_ID r → 0 < systemID → step r systemID holds value since now clearDelay h = (ev, h') → alertOp h h'
| op_reset ruleID systemID h : 0 ≤ ruleID → 0 ≤ systemID → alertOp h (resetAlerts ruleID systemID h).2
| op_restart t h h' : loadAlerts (with_alerts (mkEngine [] ∅ ∅ t) h) = (Ok tt, h') → alertOp h h'.

(** C22. The engine never forgets or invents an open alert: through samples, rule changes, deleted
    systems and restarts of the hub, the alerts that are open in the database are exactly
    those the engine holds, each under its own rule and system (with a working database). *)
Theorem engine_matches_database (h h' : hub) (Hrun : rtc alertOp h h') (Hinv : engineInv h) :
  ∀ a, (a ∈ alerts (tables h') ∧ a_ResolvedAt a = None)
       ↔ as_alert (stateOf h' (a_RuleID a, a_SystemID a)) = Some a.
Proof.
  assert (engineInv h') as Hinv'; [|apply Hinv'].
  induction Hrun as [h|h1 h2 h3 Hop _ IH]; [done|]. apply IH.
  destruct Hop as [r sys holds value since now cd ev h1 h2 Hr Hy Hs|ruleID systemID h1 Hr Hy|t h1 h2 Hl].
  - by eapply engineInv_step.
  - by apply engineInv_reset.
  - by eapply engineInv_restart.
Qed.
End ops.
End engine.

(** ** Witnesses *)
Definition demoRule : AlertRule := mkAlertRule 1 "CPU" None "cpu" (ofInt 90) 60 [] true 0.
Definition hot (t : Z) : M hub (option alertEvent) := step demoRule 5 true (ofInt 95) (seconds t) (seconds t) alertClearDelay.
Lemma alerts_alternate_witness :
  ∃ l h', engineRun l demoHub h' ∧ eventsOf (1, 5) l = [true] ∧ alternates (negb (hasAlert demoHub (1, 5))) (eventsOf (1, 5) l).
Proof.
  destruct (hot 0 demoHub) as [e0 h0] eqn:E0. destruct (hot 60 h0) as [e1 h1] eqn:E1.
  assert (Hr : engineRun (match e0 with Some e => [(1, 5, ev_firing e)] | None => [] end
     ++ (match e1 with Some e => [(1, 5, ev_firing e)] | None => [] end ++ [])) demoHub h1).
  { eapply (engine_step demoRule 5 true (ofInt 95) (seconds 0) (seconds 0) alertClearDelay); [exact E0|].
    eapply (engine_step demoRule 5 true (ofInt 95) (seconds 60) (seconds 60) alertClearDelay); [exact E1|]. apply engine_nil. }
  eexists _, h1. split; [exact Hr|]. split; [|exact (alerts_alternate _ _ _ Hr (1, 5))].
  vm_compute in E0. injection E0 as <- <-. vm_compute in E1. injection E1 as <- <-. reflexivity.
Defined.
Lemma alert_timing_witness :
  ev_firing <$> (hot 60 (hot 0 demoHub).2).1 = Some true.
Proof.
  destruct (hot 0 demoHub) as [e0 h0] eqn:E0. destruct (hot 60 h0) as [e1 h1] eqn:E1.
  cbn [snd]. rewrite E1. cbn [fst].
  rewrite (alert_timing demoRule 5 alertClearDelay [(seconds 0, true)] demoHub h0 h1 (seconds 60) true (ofInt 95) e1).
  - vm_compute in E0. injection E0 as <- <-. vm_compute. reflexivity.
  - reflexivity.
  - apply (sample_cons _ _ _ (seconds 0) true (ofInt 95) e0 [] demoHub demoHub h0); [apply sample_nil|exact E0].
  - repeat constructor. discriminate.
  - exact E1.
  - vm_compute in E0. injection E0 as <- <-. reflexivity.
Defined.
Lemma engine_matches_database_witness :
  let h' := (hot 60 (hot 0 demoHub).2).2 in
  as_alert (stateOf h' (1, 5)) = head (alerts (m_db (h_m h'))) ∧ alerts (m_db (h_m h')) ≠ [].
Proof.
  intros h'. split; [|by vm_compute].
  assert (rtc (@alertOp (λ _, "")) demoHub h') as Hrun.
  { eapply rtc_l; [apply (op_step demoRule 5 true (ofInt 95) (seconds 0) (seconds 0) alertClearDelay (hot 0 demoHub).1); [reflexivity..|apply surjective_pairing]|].
    eapply rtc_l; [|apply rtc_refl].
    apply (op_step demoRule 5 true (ofInt 95) (seconds 60) (seconds 60) alertClearDelay (hot 60 (hot 0 demoHub).2).1); [reflexivity..|apply surjective_pairing]. }
  assert (engineInv demoHub) as Hinv.
  { split; [reflexivity|apply NoDup_nil_2| |].
    - intros key st Hk. vm_compute in Hk. discriminate.
    - intros a. split; [intros [Hin _]; vm_compute in Hin; inversion Hin|intros Hx; vm_compute in Hx; discriminate]. }
  destruct (head (alerts (m_db (h_m h')))) as [a|] eqn:Ea; [|by vm_compute in Ea].
  assert (a ∈ alerts (m_db (h_m h')) ∧ a_ResolvedAt a = None) as Hopen.
  { vm_compute in Ea. injection Ea as <-. split; [vm_compute; left|reflexivity]. }
  apply (@engine_matches_database (λ _, "") demoHub h' Hrun Hinv a) in Hopen.
  vm_compute in Ea. injection Ea as <-. exact Hopen.
Defined.
