(* ===== verification/AlertApi.v ===== *)
(** * Rules and notification channels ([internal/hub/alerts.go] API part, [notify.go] settings) *)
From Stdlib Require Import ZArith Lia Ascii String.
From S2P Require Import Prelude GoStrings Float64 Library Store StoreTables StoreInv StoreSteps Limiter TailBuffer Update Webauthn Protocol Hub Auth AuthProps Alerts AlertProps.
From stdpp Require Import base gmap strings list relations.
Local Open Scope string_scope.
Local Open Scope list_scope.
Local Open Scope Z_scope.
Local Open Scope lotse_scope.

Record notifierConfig := mkNotifierConfig {
  nc_URL : string;
  nc_Token : string;
  nc_ChatID : string;
  nc_Host : string;
  nc_Port : Z;
  nc_Username : string;
  nc_Password : string;
  nc_From : string;
  nc_To : string;
  nc_TLS : string;
}.
Record notifierInput := mkNotifierInput {
  in_ID : Z;
  in_Name : string;
  in_Type : string;
  in_Enabled : bool;
  in_Config : notifierConfig;
}.
Definition notifierTypes (t : string) : bool :=
  existsb (String.eqb t) ["ntfy"; "discord"; "slack"; "telegram"; "webhook"; "email"].

Definition withTLS (tls : string) (c : notifierConfig) : notifierConfig :=
  mkNotifierConfig (nc_URL c) (nc_Token c) (nc_ChatID c) (nc_Host c) (nc_Port c) (nc_Username c) (nc_Password c)
    (nc_From c) (nc_To c) tls.
(** Secrets the browser left empty come from the stored settings. *)
Definition keepSecrets (stored c : notifierConfig) : notifierConfig :=
  mkNotifierConfig (nc_URL c) (if String.eqb (nc_Token c) "" then nc_Token stored else nc_Token c) (nc_ChatID c)
    (nc_Host c) (nc_Port c) (nc_Username c)
    (if String.eqb (nc_Password c) "" then nc_Password stored else nc_Password c) (nc_From c) (nc_To c) (nc_TLS c).
(** String fields with [omitempty]. *)
Definition strField (k v : string) : list (string * json) := if String.eqb v "" then [] else [(k, JStr v)].
Definition configFields (c : notifierConfig) : list (string * json) :=
  strField "url" (nc_URL c) ++ strField "token" (nc_Token c) ++ strField "chat_id" (nc_ChatID c)
  ++ strField "host" (nc_Host c) ++ (if nc_Port c =? 0 then [] else [("port", JInt (nc_Port c))])
  ++ strField "username" (nc_Username c) ++ strField "password" (nc_Password c)
  ++ strField "from" (nc_From c) ++ strField "to" (nc_To c) ++ strField "tls" (nc_TLS c).
(** What the browser gets: a flag in place of each secret. *)
Definition masked (c : notifierConfig) : list (string * json) :=
  let fields := configFields c in
  let set k := existsb (λ f, String.eqb f.1 k) fields in
  deleteWhere (λ f, String.eqb f.1 "token" || String.eqb f.1 "password") fields
  ++ [("token_set", JBool (set "token")); ("password_set", JBool (set "password"))].

(** The body of a rule: the fields the browser may set. *)
Section api.
Context `{Lib} `{Marshal} `{!Unmarshal notifierConfig}.
Context (formatG : f64 → string) (durationString : Z → string).

(** [notifierConfig.validate]: the settings with defaults, or the message. *)
Definition validateConfig (typ : string) (c : notifierConfig) : notifierConfig + string :=
  if existsb (String.eqb typ) ["ntfy"; "discord"; "slack"; "webhook"] then
    match urlParse (nc_URL c) with
    | Some u => if (negb (String.eqb (url_Scheme u) "http") && negb (String.eqb (url_Scheme u) "https"))
                   || String.eqb (url_Host u) ""
                then inr "enter a valid http(s) URL" else inl c
    | None => inr "enter a valid http(s) URL"
    end
  else if String.eqb typ "telegram" then
    if String.eqb (nc_Token c) "" || String.eqb (nc_ChatID c) ""
    then inr "Telegram needs a bot token and a chat ID" else inl c
  else if String.eqb typ "email" then
    if String.eqb (nc_Host c) "" || String.eqb (nc_From c) "" || String.eqb (nc_To c) ""
    then inr "email needs a server, a sender and at least one recipient"
    else
      let c' := if String.eqb (nc_TLS c) "" then withTLS "starttls" c else c in
      if existsb (String.eqb (nc_TLS c')) ["starttls"; "tls"; "none"] then inl c'
      else inr "TLS must be starttls, tls or none"
  else inr ("unknown channel type " +:+ Quote typ).

(** ** Rules *)
Definition alertJSON (a : Alert) : json :=
  JObj [("id", JInt (a_ID a)); ("rule_id", JInt (a_RuleID a)); ("rule_name", JStr (a_RuleName a));
        ("system_id", JInt (a_SystemID a)); ("system_name", JStr (a_SystemName a)); ("metric", JStr (a_Metric a));
        ("threshold", JFloat (a_Threshold a)); ("value", JFloat (a_Value a)); ("started_at", JInt (a_StartedAt a));
        ("resolved_at", JOptInt (a_ResolvedAt a))].
Definition ruleJSON (r : AlertRule) : json :=
  JObj [("id", JInt (r_ID r)); ("name", JStr (r_Name r)); ("system_id", JOptInt (r_SystemID r));
        ("metric", JStr (r_Metric r)); ("threshold", JFloat (r_Threshold r)); ("duration", JInt (r_Duration r));
        ("notifiers", JArr (map JInt (r_Notifiers r))); ("enabled", JBool (r_Enabled r));
        ("created_at", JInt (r_CreatedAt r))].
Definition getAlerts (r : request) (s : Session) : M hub response :=
  active ⇐ (e ← db ActiveAlerts; mret (orInternal e));
  history ⇐ (e ← db (ResolvedAlerts alertHistory); mret (orInternal e));
  mret (writeJSON 200 (JObj [("active", JArr (map alertJSON active)); ("history", JArr (map alertJSON history))])).
Definition getAlertRules (r : request) (s : Session) : M hub response :=
  rules ⇐ (e ← db AlertRules; mret (orInternal e));
  mret (writeJSON 200 (JArr (map ruleJSON rules))).

Definition withRule (name : string) (threshold : f64) (r : AlertRule) : AlertRule :=
  mkAlertRule (r_ID r) name (r_SystemID r) (r_Metric r) threshold (r_Duration r) (r_Notifiers r) (r_Enabled r) (r_CreatedAt r).
Fixpoint notifiersExist (ids : list Z) : M hub bool :=
  match ids with
  | [] => mret true
  | id :: rest => n ← db (getNotifier id);
                  match n with Err _ => mret false | Ok _ => notifiersExist rest end
  end.
(** The rule as it will be stored, or the message. *)
Definition validateRule (r : AlertRule) : M hub (AlertRule + string) :=
  match alertMetrics (r_Metric r) with
  | None => mret (inr "choose what the rule watches")
  | Some (label, percent) =>
    let name0 := TrimSpace (r_Name r) in
    let name := if String.eqb name0 "" then label else name0 in
    if maxNameLen <? RuneCountInString name then mret (inr "name must be at most 64 characters") else
    let offline := String.eqb (r_Metric r) "offline" in
    let threshold := if offline then fzero else r_Threshold r in
    if offline && (r_Duration r <? 30)
    then mret (inr "wait at least 30 seconds before reporting a system as offline")
    else if negb offline && percent && (fle threshold fzero || fge threshold (ofInt 100))
    then mret (inr "the threshold must be between 0 and 100 %")
    else if negb offline && negb percent && fle threshold fzero
    then mret (inr "the threshold must be above 0")
    else if (r_Duration r <? 0) || (86400 <? r_Duration r)
    then mret (inr "the duration must be between 0 seconds and 24 hours")
    else
      sysOK ← match r_SystemID r with
              | None => mret true
              | Some id => s ← db (getSystem id); mret (is_ok s)
              end;
      if negb sysOK then mret (inr "that system does not exist") else
      ok ← notifiersExist (r_Notifiers r);
      mret (if negb ok then inr "a selected notification channel does not exist"
            else inl (withRule name threshold r))
  end.
Definition describeRule (r : AlertRule) : string :=
  if String.eqb (r_Metric r) "offline" then "offline for " +:+ durationString (ruleDuration r)
  else r_Metric r +:+ " above " +:+ formatG (r_Threshold r) +:+ " for " +:+ durationString (ruleDuration r).
Definition withoutID (r : AlertRule) : AlertRule :=
  mkAlertRule 0 (r_Name r) (r_SystemID r) (r_Metric r) (r_Threshold r) (r_Duration r) (r_Notifiers r) (r_Enabled r) (r_CreatedAt r).
Definition saveAlertRule (r : request) (s : Session) (body : option AlertRule) : M hub response :=
  rule0 ⇐ mret (readJSON body);
  let idStr := rq_PathValue r "id" in
  rule1 ⇐ (if negb (String.eqb idStr "") then
             let id := (ParseInt 64 idStr).1 in
             old ← db (getAlertRule id);
             mret (match old with
                   | Err _ => inl (writeError 404 "rule not found")
                   | Ok _ => inr (withRuleID id (r_CreatedAt rule0) rule0)
                   end)
           else mret (inr (withoutID rule0)));
  v ← validateRule rule1;
  match v with
  | inr msg => mret (writeError 400 msg)
  | inl rule2 =>
    rule ⇐ (e ← db (SaveAlertRule rule2); mret (orInternal e));
    resetAlerts (r_ID rule) 0;;
    audit (Some r) (u_Username (s_User s)) "alert_rule_saved" None (Quote (r_Name rule) +:+ ": " +:+ describeRule rule);;
    t ← db timeNow;
    emit (EEvaluateOffline t);;
    mret (writeJSON 200 (ruleJSON rule))
  end.
Definition deleteAlertRule (r : request) (s : Session) : M hub response :=
  let id := (ParseInt 64 (rq_PathValue r "id")).1 in
  rule ← db (getAlertRule id);
  match rule with
  | Err _ => mret (writeError 404 "rule not found")
  | Ok rule =>
    _ ⇐ (e ← db (DeleteAlertRule id); mret (orInternal e));
    resetAlerts id 0;;
    audit (Some r) (u_Username (s_User s)) "alert_rule_deleted" None (Quote (r_Name rule));;
    mret noContent
  end.

(** ** Channels *)
Definition notifierJSON (admin : bool) (n : Notifier) : json :=
  JObj [("id", JInt (n_ID n)); ("name", JStr (n_Name n)); ("type", JStr (n_Type n)); ("enabled", JBool (n_Enabled n));
        ("last_sent", JInt (n_LastSent n)); ("last_error", JStr (n_LastError n)); ("created_at", JInt (n_CreatedAt n));
        ("config", JObj (if admin then masked (unmarshal (n_Config n)).1 else []))].
Definition getNotifiers (r : request) (s : Session) : M hub response :=
  l ⇐ (e ← db Notifiers; mret (orInternal e));
  mret (writeJSON 200 (JArr (map (notifierJSON (Can (s_User s) RoleAdmin)) l))).

Definition parseNotifier (inp : notifierInput) : M hub (Notifier + string) :=
  if negb (notifierTypes (in_Type inp)) then mret (inr "choose a channel type") else
  let name := TrimSpace (in_Name inp) in
  if String.eqb name "" || (maxNameLen <? RuneCountInString name) then mret (inr "name must be 1-64 characters") else
  c ← (if negb (in_ID inp =? 0) then
         stored ← db (getNotifier (in_ID inp));
         mret (match stored with
               | Err _ => None
               | Ok st => Some (keepSecrets (unmarshal (n_Config st)).1 (in_Config inp))
               end)
       else mret (Some (in_Config inp)));
  mret (match c with
        | None => inr "channel not found"
        | Some c =>
          match validateConfig (in_Type inp) c with
          | inr msg => inr msg
          | inl c' => inl (mkNotifier (in_ID inp) name (in_Type inp) (marshal (JObj (configFields c'))) (in_Enabled inp) 0 "" 0)
          end
        end).
Definition withInputID (id : Z) (i : notifierInput) : notifierInput :=
  mkNotifierInput id (in_Name i) (in_Type i) (in_Enabled i) (in_Config i).
Definition saveNotifier (r : request) (s : Session) (body : option notifierInput) : M hub response :=
  inp ⇐ mret (readJSON body);
  p ← parseNotifier (withInputID (ParseInt 64 (rq_PathValue r "id")).1 inp);
  match p with
  | inr msg => mret (writeError 400 msg)
  | inl n =>
    saved ⇐ (e ← db (SaveNotifier n); mret (orInternal e));
    audit (Some r) (u_Username (s_User s)) "notifier_saved" None (n_Type n +:+ " channel " +:+ Quote (n_Name n));;
    publish "alerts" JNull;;
    mret (writeJSON 200 (JObj [("id", JInt (n_ID saved))]))
  end.
(** [slices.Index] and [slices.Delete]: the list without the first [id]. *)
Fixpoint removeFirst (id : Z) (l : list Z) : option (list Z) :=
  match l with
  | [] => None
  | x :: rest => if x =? id then Some rest
                 else match removeFirst id rest with Some rest' => Some (x :: rest') | None => None end
  end.
Definition withNotifiers (l : list Z) (r : AlertRule) : AlertRule :=
  mkAlertRule (r_ID r) (r_Name r) (r_SystemID r) (r_Metric r) (r_Threshold r) (r_Duration r) l (r_Enabled r) (r_CreatedAt r).
Fixpoint detach (id : Z) (rules : list AlertRule) : M hub (response + unit) :=
  match rules with
  | [] => mret (inr tt)
  | rule :: rest =>
    match removeFirst id (r_Notifiers rule) with
    | None => detach id rest
    | Some l =>
      e ← db (SaveAlertRule (withNotifiers l rule));
      match e with Err _ => mret (inl internalError) | Ok _ => detach id rest end
    end
  end.
Definition deleteNotifier (r : request) (s : Session) : M hub response :=
  let id := (ParseInt 64 (rq_PathValue r "id")).1 in
  n ← db (getNotifier id);
  match n with
  | Err _ => mret (writeError 404 "channel not found")
  | Ok n =>
    rules ⇐ (e ← db AlertRules; mret (orInternal e));
    _ ⇐ detach id rules;
    _ ⇐ (e ← db (DeleteNotifier id); mret (orInternal e));
    reloadRulesLocked;;
    audit (Some r) (u_Username (s_User s)) "notifier_deleted" None (n_Type n +:+ " channel " +:+ Quote (n_Name n));;
    mret noContent
  end.
(** [outcome]: the error of the test message, if any. *)
Definition testNotifier (r : request) (s : Session) (body : option notifierInput) (outcome : option string) : M hub response :=
  inp ⇐ mret (readJSON body);
  let inp' := if String.eqb (in_Name inp) ""
              then mkNotifierInput (in_ID inp) "test" (in_Type inp) (in_Enabled inp) (in_Config inp) else inp in
  p ← parseNotifier inp';
  match p with
  | inr msg => mret (writeError 400 msg)
  | inl n =>
    _ ← db timeNow;
    mret (match outcome with Some msg => writeError 422 msg | None => noContent end)
  end.
End api.

(** ** Properties *)
Section props.
Context `{Lib} `{Marshal} `{!Unmarshal notifierConfig}.
Implicit Types (h : hub).
Abbreviation tables h := (m_db (h_m h)).

(** Channel secrets never reach the browser: what an administrator gets for a channel has no
    token and no password, only whether they are set; anyone else gets no settings at all.
    Saving those settings back keeps the stored secrets. *)
Theorem notifier_secrets_hidden (c : notifierConfig) (n : Notifier) :
  (∀ k v, (k, v) ∈ masked c → k ≠ "token" ∧ k ≠ "password")
  ∧ ("token_set", JBool (negb (String.eqb (nc_Token c) ""))) ∈ masked c
  ∧ (∃ fields, notifierJSON false n = JObj (fields ++ [("config", JObj [])])
       ∧ ∀ k v, (k, v) ∈ fields → k ≠ "config")
  ∧ (∀ inp, nc_Token inp = "" → nc_Password inp = "" →
       nc_Token (keepSecrets c inp) = nc_Token c ∧ nc_Password (keepSecrets c inp) = nc_Password c).
Proof.
  split_and!.
  - intros k v. unfold masked. rewrite elem_of_app, elem_of_deleteWhere. cbn.
    intros [[_ Hn]|Hin]; [apply orb_false_iff in Hn as [H1' H2']; by bool_hyps|].
    repeat (apply elem_of_cons in Hin as [?|Hin]; [by simplify_eq|]). by apply not_elem_of_nil in Hin.
  - unfold masked. apply elem_of_app. right.
    assert (existsb (λ f, String.eqb f.1 "token") (configFields c) = negb (String.eqb (nc_Token c) "")) as ->; [|constructor].
    unfold configFields, strField. rewrite !existsb_app.
    destruct (nc_URL c =? "")%string, (nc_Token c =? "")%string, (nc_ChatID c =? "")%string, (nc_Host c =? "")%string,
      (nc_Port c =? 0), (nc_Username c =? "")%string, (nc_Password c =? "")%string, (nc_From c =? "")%string,
      (nc_To c =? "")%string, (nc_TLS c =? "")%string; reflexivity.
  - exists [("id", JInt (n_ID n)); ("name", JStr (n_Name n)); ("type", JStr (n_Type n)); ("enabled", JBool (n_Enabled n));
        ("last_sent", JInt (n_LastSent n)); ("last_error", JStr (n_LastError n)); ("created_at", JInt (n_CreatedAt n))].
    split; [done|].
    intros k v Hin. repeat (apply elem_of_cons in Hin as [?|Hin]; [by simplify_eq|]). by apply not_elem_of_nil in Hin.
  - intros inp Ht Hp. unfold keepSecrets. cbn. by rewrite Ht, Hp.
Qed.

Lemma notifiersExist_sound ids h :
  wp (notifiersExist ids) (λ ok _, ok = true → ∀ id, id ∈ ids → ∃ n, n ∈ notifiers (tables h) ∧ n_ID n = id) h.
Proof.
  revert h. induction ids as [|x ids IH]; intros h; cbn [notifiersExist]; [apply wp_ret; by intros _ ? ?%not_elem_of_nil|].
  apply wp_bind. unfold getNotifier. apply wp_db, wp_query. intros m Hm _. split; [|by apply wp_ret].
  destruct (oneRow _) as [n|] eqn:E; [|by apply wp_ret]. apply oneRow_ok, elem_of_selectWhere in E as [Hin Hid]. bool_hyps.
  eapply wp_mono; [apply IH|]. cbn [h_m with_m]. rewrite Hm. intros ok _ Hok He id [->|Hid']%elem_of_cons; eauto.
Qed.
(** What every rule in use satisfies. *)
Definition validRule (r : AlertRule) : Prop :=
  r_Name r ≠ "" ∧ RuneCountInString (r_Name r) ≤ maxNameLen ∧ 0 ≤ r_Duration r ≤ 86400
  ∧ ∃ label percent, alertMetrics (r_Metric r) = Some (label, percent)
  ∧ (r_Metric r = "offline" → r_Threshold r = fzero ∧ 30 ≤ r_Duration r)
  ∧ (r_Metric r ≠ "offline" → fle (r_Threshold r) fzero = false)
  ∧ (percent = true → fge (r_Threshold r) (ofInt 100) = false).

(** Only sensible rules get through validation: a known metric, a name of 1 to 64 characters,
    a duration of at most a day (at least 30 seconds for offline rules), and a threshold
    above 0, below 100 for percentages; its system and channels existed. *)
Theorem validateRule_sound (r r' : AlertRule) (h h' : hub) (Hok : validateRule r h = (inl r', h')) :
  validRule r' ∧ r_Metric r' = r_Metric r ∧ r_Notifiers r' = r_Notifiers r
  ∧ (∀ id, r_SystemID r' = Some id → ∃ s, s ∈ systems (tables h) ∧ sy_ID s = id)
  ∧ (∀ id, id ∈ r_Notifiers r' → ∃ n, n ∈ notifiers (tables h) ∧ n_ID n = id).
Proof.
  refine (wp_run _ (λ v _, v = inl r' → validRule r' ∧ r_Metric r' = r_Metric r ∧ r_Notifiers r' = r_Notifiers r
    ∧ (∀ id, r_SystemID r' = Some id → ∃ s, s ∈ systems (tables h) ∧ sy_ID s = id)
    ∧ (∀ id, id ∈ r_Notifiers r' → ∃ n, n ∈ notifiers (tables h) ∧ n_ID n = id)) _ _ _ _ Hok eq_refl).
  unfold validateRule. destruct (alertMetrics (r_Metric r)) as [[label percent]|] eqn:Em; [|by apply wp_ret].
  set (name := if String.eqb (TrimSpace (r_Name r)) "" then label else TrimSpace (r_Name r)).
  destruct (Z.ltb_spec maxNameLen (RuneCountInString name)) as [|Hlen]; [by apply wp_ret|].
  destruct (String.eqb_spec (r_Metric r) "offline") as [Hoff|Hoff].
  all: cbn [negb andb]; repeat (match goal with |- wp (if ?b then _ else _) _ _ => destruct b eqn:?; [by apply wp_ret|] end).
  all: bool_hyps; apply wp_bind.
  all: eapply (wp_mono _ (λ ok h1, tables h1 = tables h ∧ (ok = true → ∀ id, r_SystemID r = Some id → ∃ s, s ∈ systems (tables h) ∧ sy_ID s = id))).
  1,3: destruct (r_SystemID r) as [id0|]; [|by apply wp_ret]; apply wp_bind; unfold getSystem; apply wp_db, wp_query;
    intros m Hm _; split; [|by apply wp_ret]; apply wp_ret; (split; [done|]); destruct (oneRow _) as [s0|] eqn:Es; [|done];
    intros _ id [= <-]; apply oneRow_ok, elem_of_selectWhere in Es as [? ?]; bool_hyps; eauto.
  all: intros [] h1 [Ht1 Hsys]; cbn [negb]; [|by apply wp_ret]; specialize (Hsys eq_refl).
  all: apply wp_bind; eapply wp_mono; [apply notifiersExist_sound|]; intros [] h2 Hnot; cbn [negb]; apply wp_ret; [|done].
  all: intros [= <-]; rewrite Ht1 in Hnot; cbn; split_and!; [|done|done|done|by apply Hnot].
  all: assert (Hname : name ≠ "") by (unfold name; destruct (String.eqb_spec (TrimSpace (r_Name r)) ""); [|done];
    unfold alertMetrics in Em; repeat case_match; by simplify_eq).
  all: unfold validRule; cbn [r_Name r_Duration r_Metric r_Threshold withRule];
    split_and!; [done|done|lia|lia|exists label, percent; split_and!; [done|..]].
  all: intros Hx; try done.
  all: try match goal with Hm : r_Metric _ = "offline" |- _ = fzero ∧ _ => split; [done|lia] end.
  all: try match goal with Hm : r_Metric _ = "offline" |- _ => subst percent; rewrite Hm in Em; by vm_compute in Em end.
  all: destruct percent; try done; cbn [negb andb] in *; rewrite ?orb_false_iff in *; tauto.
Qed.
End props.

Lemma validateRule_sound_witness :
  validRule (mkAlertRule 0 "CPU" None "cpu" (ofInt 90) 60 [] true 0).
Proof.
  destruct (validateRule_sound (mkAlertRule 0 " " None "cpu" (ofInt 90) 60 [] true 0)
    (mkAlertRule 0 "CPU" None "cpu" (ofInt 90) 60 [] true 0) demoHub demoHub) as [Hv _]; [reflexivity|exact Hv].
Defined.

(** Deleting a channel takes its number out of each rule once: a rule that was saved with the
    channel listed twice keeps it, and the channel created next gets the same number, so that
    rule notifies a channel nobody chose for it. *)
Definition demoMarshal : Marshal := λ _, "{}".
Definition demoConfig : Unmarshal notifierConfig := λ _, (mkNotifierConfig "" "" "" "" 0 "" "" "" "" "", true).
Definition channelInput (name : string) : notifierInput :=
  mkNotifierInput 0 name "ntfy" true (mkNotifierConfig "https://ntfy" "" "" "" 0 "" "" "" "" "").
Definition requestFor (id : string) : request :=
  mkRequest "POST" "@" "hub" "" None true "" "" [] (λ _, id) (λ _, "") false.
Definition twiceListed : hub :=
  let h1 := (@saveNotifier demoLib demoMarshal demoConfig (requestFor "") demoSession (Some (channelInput "old")) demoHub).2 in
  let h2 := (@saveAlertRule demoLib demoMarshal (λ _, "") (λ _, "") (requestFor "") demoSession
               (Some (mkAlertRule 0 "disk" None "disk" (ofInt 90) 60 [1; 1] true 0)) h1).2 in
  let h3 := (@deleteNotifier demoLib (requestFor "1") demoSession h2).2 in
  (@saveNotifier demoLib demoMarshal demoConfig (requestFor "") demoSession (Some (channelInput "new")) h3).2.
(** Finding: after the rule's only channel was deleted and another one created, the rule is
    attached to the new channel. *)
Theorem deleted_channel_stays_attached :
  map (λ r, (r_Name r, r_Notifiers r)) (selectWhere (λ r, String.eqb (r_Name r) "disk") (en_rules (h_alerts twiceListed)))
    = [("disk", [1])]
  ∧ map (λ n, (n_ID n, n_Name n)) (notifiers (m_db (h_m twiceListed))) = [(1, "new")].
Proof. split; vm_compute; reflexivity. Qed.
