(* ===== verification/Notify.v ===== *)
(** * Sending notifications ([internal/hub/notify.go])

    What goes over the network (requests to web services, the dialogue with a mail server) is the
    trace of events; what the other side answers is in the state, in the order of the questions, and
    may be anything. Modelled of the standard library: which errors name the URL, which header values
    are refused, when [smtp.PlainAuth] gives out the password, and the Q encoding of [mime]. *)
From Stdlib Require Import ZArith Lia Ascii String.
From S2P Require Import Prelude GoStrings Float64 Library Paths Update Protocol Hub AlertApi.
From stdpp Require Import base gmap strings list.
Local Open Scope string_scope.
Local Open Scope list_scope.
Local Open Scope Z_scope.
Local Open Scope lotse_scope.

Definition CRLF : string := String carriageReturn NL.

(** ** The network *)
Inductive httpAnswer : Type :=
| HFail (reason : string)                       (* the request failed: the error inside the [url.Error] *)
| HStatus (code : Z) (status body : string).    (* the status line and the body *)
Inductive smtpCmd : Type :=
| SStartTLS | SAuth (username password : string) | SMail (from : string) | SRcpt (to : string)
| SData (text : string) | SQuit.
Inductive netEvent : Type :=
| NPost (url : string) (header : list (string * string)) (body : string)
| NDial (encrypted : bool) (addr : string)
| NSmtp (encrypted : bool) (cmd : smtpCmd)
| NClose.
Record net := mkNet {
  nt_http : list httpAnswer;           (* the answers to the next requests *)
  nt_smtp : list (option string);      (* what the next steps with the mail server give: an error, or success *)
  nt_tls : bool;                       (* the connection to the mail server is encrypted *)
  nt_hello : option (option string);   (* the greeting was exchanged, with this result *)
  nt_trace : list netEvent;
}.
Definition net_event (e : netEvent) : M net unit := mmodify (λ w,
  mkNet (nt_http w) (nt_smtp w) (nt_tls w) (nt_hello w) (nt_trace w ++ [e])).
Definition net_session (tls : bool) (hello : option (option string)) : M net unit := mmodify (λ w,
  mkNet (nt_http w) (nt_smtp w) tls hello (nt_trace w)).
Definition net_answer : M net httpAnswer := mstate (λ w,
  match nt_http w with
  | [] => (HFail "EOF", w)
  | a :: rest => (a, mkNet rest (nt_smtp w) (nt_tls w) (nt_hello w) (nt_trace w))
  end).
Definition net_ask : M net (option string) := mstate (λ w,
  match nt_smtp w with
  | [] => (Some "EOF", w)
  | a :: rest => (a, mkNet (nt_http w) rest (nt_tls w) (nt_hello w) (nt_trace w))
  end).

(** ** Errors of [net/http] *)
Inductive httpErr : Type := UrlError (op url reason : string) | PlainErr (msg : string).
(** A header value may hold no control character but the tab. *)
Definition validHeaderValue (v : string) : bool :=
  forallb (λ b, (b =? 9) || ((32 <=? b) && negb (b =? 127))) (bytesOf v).

(** ** [mime.QEncoding] *)
Definition qPlain (b : Z) : bool := (32 <=? b) && (b <=? 126) && negb (b =? 61) && negb (b =? 63) && negb (b =? 95).
Definition upperHex (n : Z) : Z := if n <? 10 then 48 + n else 55 + n.
Definition qByte (b : Z) : list Z :=
  if b =? 32 then [95] else if qPlain b then [b] else [61; upperHex (Z.shiftr b 4); upperHex (Z.land b 15)].
Definition needsEncoding (b : list Z) : bool := existsb (λ x, ((x <? 32) || (126 <? x)) && negb (x =? 9)) b.
Definition openWord : list Z := bytesOf "=?utf-8?q?".
Definition closeWord : list Z := bytesOf "?=".
Definition maxContentLen : nat := 63.
(** The words, with [cur] bytes in the current one; every round takes at least one byte. *)
Fixpoint qWords (fuel cur : nat) (b : list Z) : list Z :=
  match fuel, b with
  | S f, x :: _ =>
    let runeLen := if qPlain x then 1%nat else runeWidth b in
    let encLen := if qPlain x then 1%nat else (3 * runeLen)%nat in
    let split := (maxContentLen <? cur + encLen)%nat in
    (if split then closeWord ++ [32] ++ openWord else [])
    ++ concat (map qByte (take runeLen b))
    ++ qWords f ((if split then 0 else cur) + encLen) (drop runeLen b)
  | _, _ => []
  end.
Definition qEncode (s : string) : string :=
  let b := bytesOf s in
  if needsEncoding b then stringOf (openWord ++ qWords (length b) 0 b ++ closeWord) else s.

(** [net.JoinHostPort]. *)
Definition JoinHostPort (host port : string) : string :=
  if containsByte ":" host then "[" +:+ host +:+ "]:" +:+ port else host +:+ ":" +:+ port.
Definition isFinite (x : f64) : bool := match x with SpecFloat.S754_nan | SpecFloat.S754_infinity _ => false | _ => true end.
Definition floatName (x : f64) : string :=
  match x with SpecFloat.S754_infinity true => "-Inf" | SpecFloat.S754_infinity false => "+Inf" | _ => "NaN" end.

Section notify.
Context `{Lib} `{Marshal}.
(** [url.Parse]'s reason for refusing a URL, and [time.Time.Format] with RFC 3339 and RFC 1123Z. *)
Context (urlReason : string → string) (rfc3339 rfc1123z : Z → string).

Definition httpErrText (e : httpErr) : string :=
  match e with UrlError op url reason => op +:+ " " +:+ Quote url +:+ ": " +:+ reason | PlainErr m => m end.
(** [http.NewRequestWithContext]: the error for a URL that does not parse. *)
Definition newRequest (url : string) : option httpErr :=
  match urlParse url with Some _ => None | None => Some (UrlError "parse" url (urlReason url)) end.
(** [Client.Do]: every error is an [url.Error]. *)
Definition clientDo (url : string) (header : list (string * string)) (body : string) : M net (httpErr + Z * string * string) :=
  match find (λ h, negb (validHeaderValue h.2)) header with
  | Some h => mret (inl (UrlError "Post" url ("net/http: invalid header field value for " +:+ Quote h.1)))
  | None =>
    net_event (NPost url header body);;
    a ← net_answer;
    mret (match a with HFail r => inl (UrlError "Post" url r) | HStatus c s b => inr (c, s, b) end)
  end.
(** [do]: URLs, which may contain tokens, stay out of the message. *)
Definition do (url : string) (header : list (string * string)) (body : string) : M net (option string) :=
  r ← clientDo url header body;
  mret (match r with
        | inl (UrlError _ _ reason) => Some reason
        | inl (PlainErr msg) => Some msg
        | inr (code, status, b) =>
          if Z.quot code 100 =? 2 then None
          else Some ("server answered " +:+ status +:+ ": " +:+ TrimSpace (substring 0 300 b))
        end).

Definition plainText (n : notification) : string :=
  no_Title n +:+ NL +:+ no_Message n +:+ (if String.eqb (no_URL n) "" then "" else NL +:+ no_URL n).
Definition sendNtfy (c : notifierConfig) (n : notification) : M net (option string) :=
  match newRequest (nc_URL c) with
  | Some e => mret (Some (httpErrText e))
  | None =>
    do (nc_URL c)
      ([("Title", no_Title n)]
       ++ (if no_Firing n then [("Priority", "high"); ("Tags", "warning")] else [("Tags", "white_check_mark")])
       ++ (if String.eqb (no_URL n) "" then [] else [("Click", no_URL n)])
       ++ (if String.eqb (nc_Token c) "" then [] else [("Authorization", "Bearer " +:+ nc_Token c)]))
      (no_Message n)
  end.
(** [json.Marshal] fails only for numbers that are not finite. *)
Definition postJSON (endpoint : string) (numbers : list f64) (body : json) : M net (option string) :=
  match find (λ x, negb (isFinite x)) numbers with
  | Some x => mret (Some ("json: unsupported value: " +:+ floatName x))
  | None =>
    match newRequest endpoint with
    | Some e => mret (Some (httpErrText e))
    | None => do endpoint [("Content-Type", "application/json")] (marshal body)
    end
  end.
Definition telegramAPI : string := "https://api.telegram.org".
Definition telegramEndpoint (c : notifierConfig) : string := telegramAPI +:+ "/bot" +:+ nc_Token c +:+ "/sendMessage".

(** ** Mail *)
Definition isLocalhost (name : string) : bool := existsb (String.eqb name) ["localhost"; "127.0.0.1"; "::1"].
Definition plainLine (s : string) : bool := negb (ContainsAny s [newline; carriageReturn]).
(** The methods of [net/smtp.Client]. *)
Definition smtpHello : M net (option string) :=
  did ← mgets nt_hello;
  match did with
  | Some e => mret e
  | None => tls ← mgets nt_tls; e ← net_ask; net_session tls (Some e);; mret e
  end.
Definition smtpStep (cmd : smtpCmd) : M net (option string) :=
  tls ← mgets nt_tls; net_event (NSmtp tls cmd);; net_ask.
Definition smtpStartTLS : M net (option string) :=
  smtpHello ;?
  smtpStep SStartTLS ;?
  (did ← mgets nt_hello; net_session true did;; net_ask).
Definition smtpQuit : M net (option string) := smtpHello ;? smtpStep SQuit.
Definition smtpAuth (host username password : string) : M net (option string) :=
  smtpHello ;?
  (tls ← mgets nt_tls;
   if negb tls && negb (isLocalhost host) then _ ← smtpQuit; mret (Some "unencrypted connection")
   else e ← smtpStep (SAuth username password);
        match e with Some _ => _ ← smtpQuit; mret e | None => mret None end).
Definition badLine : option string := Some "smtp: A line must not contain CR or LF".
Definition smtpMail (from : string) : M net (option string) :=
  if negb (plainLine from) then mret badLine else smtpHello ;? smtpStep (SMail from).
Definition smtpRcpt (to : string) : M net (option string) :=
  if negb (plainLine to) then mret badLine else smtpStep (SRcpt to).
Fixpoint smtpRcpts (l : list string) : M net (option string) :=
  match l with [] => mret None | r :: rest => smtpRcpt r ;? smtpRcpts rest end.
(** The recipients: separated by commas, blank ones left out. *)
Definition recipients (c : notifierConfig) : list string :=
  deleteWhere (String.eqb "") (map TrimSpace (Split "," (nc_To c))).
Definition mailHeaders (c : notifierConfig) (n : notification) : list string :=
  ["From: " +:+ nc_From c; "To: " +:+ GoStrings.Join ", " (recipients c); "Subject: " +:+ qEncode (no_Title n);
   "Date: " +:+ rfc1123z (no_Time n); "MIME-Version: 1.0"; "Content-Type: text/plain; charset=utf-8"].
Definition mailBody (n : notification) : string :=
  replaceByte newline CRLF (no_Message n +:+ (if String.eqb (no_URL n) "" then "" else CRLF +:+ CRLF +:+ no_URL n)).
Definition mailText (c : notifierConfig) (n : notification) : string :=
  foldr (λ h rest, h +:+ CRLF +:+ rest) "" (mailHeaders c n) +:+ CRLF +:+ mailBody n +:+ CRLF.
(** [Data], the text, and the end of the text: two answers of the server. *)
Definition smtpData (text : string) : M net (option string) :=
  tls ← mgets nt_tls;
  net_ask ;?
  (net_event (NSmtp tls (SData text));; net_ask).
Definition offerTLS : M net (option string) :=
  e ← smtpHello;
  offered ← (match e with Some _ => mret false | None => a ← net_ask; mret (bool_decide (a = None)) end);
  if negb offered then mret (Some "the mail server does not offer STARTTLS; choose TLS or none")
  else smtpStartTLS.
Definition smtpSend (c : notifierConfig) (n : notification) : M net (option string) :=
  (if negb (String.eqb (nc_Username c) "") then smtpAuth (nc_Host c) (nc_Username c) (nc_Password c) else mret None) ;?
  smtpMail (nc_From c) ;?
  smtpRcpts (recipients c) ;?
  smtpData (mailText c n) ;?
  smtpQuit.
Definition smtpDialogue (c : notifierConfig) (n : notification) : M net (option string) :=
  (if String.eqb (nc_TLS c) "starttls" then offerTLS else mret None) ;? smtpSend c n.
Definition mailPort (c : notifierConfig) : Z :=
  if nc_Port c =? 0 then (if String.eqb (nc_TLS c) "tls" then 465 else 587) else nc_Port c.
Definition sendEmail (c : notifierConfig) (n : notification) : M net (option string) :=
  let tls := String.eqb (nc_TLS c) "tls" in
  net_event (NDial tls (JoinHostPort (nc_Host c) (itoa (mailPort c))));;
  net_ask ;?
  (net_session tls None;;
   greeted ← net_ask;
   match greeted with
   | Some _ => net_event NClose;; mret greeted
   | None => e ← smtpDialogue c n; net_event NClose;; mret e
   end).

(** ** [send] *)
Definition discordEmbed (n : notification) : json :=
  JObj ([("color", JInt (if no_Firing n then 13646651 else 828172)); ("description", JStr (no_Message n));
         ("timestamp", JStr (rfc3339 (no_Time n))); ("title", JStr (no_Title n))]
        ++ (if String.eqb (no_URL n) "" then [] else [("url", JStr (no_URL n))])).
Definition sendTo (typ : string) (c : notifierConfig) (n : notification) : M net (option string) :=
  if String.eqb typ "ntfy" then sendNtfy c n
  else if String.eqb typ "discord" then
    postJSON (nc_URL c) [] (JObj [("embeds", JArr [discordEmbed n]); ("username", JStr "Lotse")])
  else if String.eqb typ "slack" then postJSON (nc_URL c) [] (JObj [("text", JStr (plainText n))])
  else if String.eqb typ "telegram" then
    postJSON (telegramEndpoint c) []
      (JObj [("chat_id", JStr (nc_ChatID c)); ("disable_web_page_preview", JBool true); ("text", JStr (plainText n))])
  else if String.eqb typ "webhook" then
    postJSON (nc_URL c) [no_Threshold n; no_Value n]
      (JObj [("message", JStr (no_Message n)); ("metric", JStr (no_Metric n));
             ("status", JStr (if no_Firing n then "firing" else "resolved")); ("system", JStr (no_System n));
             ("threshold", JFloat (no_Threshold n)); ("time", JStr (rfc3339 (no_Time n))); ("title", JStr (no_Title n));
             ("url", JStr (no_URL n)); ("value", JFloat (no_Value n))])
  else if String.eqb typ "email" then sendEmail c n
  else mret (Some ("unknown channel type " +:+ Quote typ)).
End notify.

(** ** The dialogue with a mail server *)
Section mail.
Context `{Lib} `{Marshal}.
Context (rfc1123z : Z → string).
Implicit Types (c : notifierConfig) (n : notification) (w : net).

(** On a connection with encryption [tls], [m] only causes events that satisfy [P] and keeps the
    encryption; when it succeeds, it caused exactly [script], and [F] holds. *)
Definition says (tls : bool) (P : netEvent → Prop) (script : list netEvent) (F : Prop) (m : M net (option string)) : Prop :=
  ∀ w, nt_tls w = tls →
    let '(e, w') := m w in
    ∃ l, nt_trace w' = nt_trace w ++ l ∧ nt_tls w' = tls ∧ Forall P l ∧ (e = None → l = script ∧ F).
Lemma says_bind tls P s1 s2 (F1 F2 : Prop) m k :
  says tls P s1 F1 m → (F1 → says tls P s2 F2 k) → says tls P (s1 ++ s2) (F1 ∧ F2) (m ;? k).
Proof.
  intros Hm Hk w Hw. unfold mbind, M_bind. specialize (Hm w Hw). destruct (m w) as [e w1].
  destruct Hm as (l & Ht & Hw1 & HP & Hok). destruct e as [e|]; [by exists l|].
  destruct (Hok eq_refl) as [-> HF1]. specialize (Hk HF1 w1 Hw1). destruct (k w1) as [e2 w2].
  destruct Hk as (l2 & Ht2 & Hw2 & HP2 & Hok2). exists (s1 ++ l2). rewrite Ht2, Ht, app_assoc. split_and!; [done|done|by apply Forall_app|].
  intros He. by destruct (Hok2 He) as [-> ?].
Qed.
(** Afterwards, a failed step may still add what [P] allows. *)
Lemma says_then tls P s (F : Prop) m (k : option string → M net (option string)) :
  says tls P s F m → (∀ e, is_Some e → says tls P [] False (k e)) → k None = mret None →
  says tls P s F (mbind k m).
Proof.
  intros Hm Hk Hn w Hw. unfold mbind, M_bind. specialize (Hm w Hw). destruct (m w) as [e w1].
  destruct Hm as (l & Ht & Hw1 & HP & Hok). destruct e as [e|]; [|rewrite Hn; by exists l].
  specialize (Hk (Some e) ltac:(eauto) w1 Hw1). destruct (k (Some e) w1) as [e2 w2].
  destruct Hk as (l2 & Ht2 & Hw2 & HP2 & Hok2). exists (l ++ l2). rewrite Ht2, Ht, app_assoc.
  split_and!; [done|done|by apply Forall_app|]. intros He. by destruct (Hok2 He).
Qed.
Lemma says_weaken tls P s s' (F F' : Prop) m : says tls P s F m → s = s' → (F → F') → says tls P s' F' m.
Proof.
  intros Hm -> HF w Hw. specialize (Hm w Hw). destruct (m w) as [e w1]. destruct Hm as (l & ? & ? & ? & Hok).
  exists l. split_and!; [done..|]. intros He. destruct (Hok He). auto.
Qed.
Lemma says_false tls P s F m : says tls P [] False m → says tls P s F m.
Proof.
  intros Hm w Hw. specialize (Hm w Hw). destruct (m w) as [e w1]. destruct Hm as (l & ? & ? & ? & Hok).
  exists l. split_and!; [done..|]. intros He. by destruct (Hok He).
Qed.
Lemma says_ask tls P : says tls P [] True net_ask.
Proof. intros w Hw. unfold net_ask, mstate. destruct (nt_smtp w); exists []; by rewrite app_nil_r. Qed.
Lemma says_ret tls P : says tls P [] True (mret None).
Proof. intros w Hw. exists []. by rewrite app_nil_r. Qed.
Lemma says_fail tls P s F msg : says tls P s F (mret (Some msg)).
Proof. intros w Hw. exists []. by rewrite app_nil_r. Qed.
Lemma says_hello tls P : says tls P [] True smtpHello.
Proof.
  intros w Hw. unfold smtpHello, mbind, M_bind, mgets. destruct (nt_hello w) as [e|]; [exists []; by rewrite app_nil_r|].
  destruct (net_ask w) as [e w1] eqn:E. pose proof (says_ask tls P w Hw) as Ha. rewrite E in Ha. destruct Ha as (l & Ht & Hw1 & HP & Hok).
  cbn. exists l. by split_and!.
Qed.
Lemma says_step tls (P : netEvent → Prop) cmd : P (NSmtp tls cmd) → says tls P [NSmtp tls cmd] True (smtpStep cmd).
Proof.
  intros HP w Hw. unfold smtpStep, mbind, M_bind, mgets. rewrite Hw. unfold net_event, mmodify.
  match goal with |- context [net_ask ?w1] => pose proof (says_ask tls P w1 Hw) as Ha; destruct (net_ask w1) as [e w2] end.
  destruct Ha as (l & Ht & Hw1 & HP2 & Hok). cbn in Ht. exists ([NSmtp tls cmd] ++ l). rewrite Ht, app_assoc.
  split_and!; [done|done|apply Forall_app; split; [by repeat constructor|done]|]. intros He. by destruct (Hok He) as [-> ?].
Qed.
Lemma says_quit tls (P : netEvent → Prop) : P (NSmtp tls SQuit) → says tls P [NSmtp tls SQuit] True smtpQuit.
Proof.
  intros HP. unfold smtpQuit. eapply says_weaken; [eapply (says_bind _ _ [] _ True True); [apply says_hello|intros _; by apply says_step]|done|done].
Qed.

(** What may be said to a mail server: with encryption chosen, all but the question for it is
    encrypted; the password only over an encrypted connection or on the same machine; one line each; and
    the text, with one line per header. *)
Definition mayBeSaid c n (e : netEvent) : Prop :=
  match e with
  | NSmtp tls cmd =>
    (nc_TLS c ≠ "none" → tls = true ∨ cmd = SStartTLS) ∧
    match cmd with
    | SAuth _ _ => tls = true ∨ isLocalhost (nc_Host c) = true
    | SMail from => from = nc_From c ∧ plainLine from = true
    | SRcpt to => to ∈ recipients c ∧ plainLine to = true
    | SData text => text = mailText rfc1123z c n ∧ Forall (λ h, plainLine h = true) (mailHeaders rfc1123z c n)
    | SStartTLS | SQuit => True
    end
  | NPost _ _ _ => False
  | NDial _ _ | NClose => True
  end.
(** The commands of a mail that was sent. *)
Definition mailScript c n (tls : bool) : list netEvent :=
  (if String.eqb (nc_Username c) "" then [] else [NSmtp tls (SAuth (nc_Username c) (nc_Password c))])
  ++ [NSmtp tls (SMail (nc_From c))] ++ map (λ r, NSmtp tls (SRcpt r)) (recipients c)
  ++ [NSmtp tls (SData (mailText rfc1123z c n)); NSmtp tls SQuit].
Definition secured c (tls : bool) : Prop := nc_TLS c ≠ "none" → tls = true.

Lemma says_auth c n tls (Hsec : secured c tls) :
  says tls (mayBeSaid c n) [NSmtp tls (SAuth (nc_Username c) (nc_Password c))] True
    (smtpAuth (nc_Host c) (nc_Username c) (nc_Password c)).
Proof.
  assert (Hq : mayBeSaid c n (NSmtp tls SQuit)) by (split; [by left; apply Hsec|done]).
  assert (Hgive : ∀ e, says tls (mayBeSaid c n) [] False (_ ← smtpQuit; mret (Some e))).
  { intros e w Hw. unfold mbind, M_bind. pose proof (says_quit tls _ Hq w Hw) as Hs. destruct (smtpQuit w) as [e1 w1].
    destruct Hs as (l & Ht & Hw1 & HP & _). by exists l. }
  unfold smtpAuth. eapply says_weaken; [eapply (says_bind _ _ [] _ True True); [apply says_hello|intros _]|done|done].
  intros w Hw. unfold mbind at 1, M_bind at 1, mgets at 1. rewrite Hw.
  destruct (negb tls && negb (isLocalhost (nc_Host c))) eqn:E.
  - by apply (says_false tls _ _ True _ (Hgive "unencrypted connection") w Hw).
  - assert (Hgood : tls = true ∨ isLocalhost (nc_Host c) = true).
    { apply andb_false_iff in E as [E|E]; apply negb_false_iff in E; auto. }
    pose proof (says_then tls (mayBeSaid c n) _ True (smtpStep (SAuth (nc_Username c) (nc_Password c)))
      (λ e, match e with Some _ => _ ← smtpQuit; mret e | None => mret None end)
      (says_step tls _ _ (conj (λ Hn, or_introl (Hsec Hn)) Hgood))) as Ht.
    apply Ht; [|done|done]. intros e [x ->]. apply Hgive.
Qed.
Lemma says_rcpts c n tls (Hsec : secured c tls) (l : list string) :
  (∀ r, r ∈ l → r ∈ recipients c) →
  says tls (mayBeSaid c n) (map (λ r, NSmtp tls (SRcpt r)) l) (Forall (λ r, plainLine r = true) l) (smtpRcpts l).
Proof.
  induction l as [|r l IH]; intros Hin; [eapply says_weaken; [apply says_ret|done|done]|]. cbn [smtpRcpts map].
  eapply says_weaken; [eapply (says_bind _ _ [NSmtp tls (SRcpt r)] _ (plainLine r = true))| |].
  - unfold smtpRcpt. destruct (plainLine r) eqn:Er; [|apply says_fail]. eapply says_weaken; [apply says_step|done|done].
    split; [by left; apply Hsec|split; [apply Hin; by left|done]].
  - intros _. apply IH. intros x Hx. apply Hin. by right.
  - done.
  - intros [? ?]. by constructor.
Qed.

(** *** Header lines *)
Lemma containsByte_bytes a s : containsByte a s = true → byte_of a ∈ bytesOf s.
Proof.
  induction s as [|x s IH]; [done|]. cbn. intros [E|E]%orb_true_iff; [apply Ascii.eqb_eq in E as ->; by left|right; auto].
Qed.
Lemma plainLine_append s t : plainLine (s +:+ t) = plainLine s && plainLine t.
Proof.
  unfold plainLine, ContainsAny. cbn [existsb]. rewrite !containsByte_append, !orb_false_r.
  by destruct (containsByte newline s), (containsByte newline t), (containsByte carriageReturn s), (containsByte carriageReturn t).
Qed.
Definition plainByte (b : Z) : Prop := 32 ≤ b ≤ 126.
Lemma containsByte_stringOf a l : byte_of a ∉ l → Forall isByte l → containsByte a (stringOf l) = false.
Proof.
  induction l as [|x l IH]; intros Hn Hb; [done|]. apply Forall_cons_1 in Hb as [Hx Hb]. apply not_elem_of_cons in Hn as [Hne Hn].
  change (Ascii.eqb (ascii_of x) a || containsByte a (stringOf l) = false).
  rewrite IH, orb_false_r by done. destruct (Ascii.eqb_spec (ascii_of x) a) as [E|]; [|done].
  exfalso. apply Hne. rewrite <-E. unfold byte_of, ascii_of. rewrite N_ascii_embedding; unfold isByte in Hx; lia.
Qed.
Lemma plainLine_stringOf l : Forall plainByte l → plainLine (stringOf l) = true.
Proof.
  intros Hl. assert (Hb : Forall isByte l) by (eapply Forall_impl; [exact Hl|]; unfold plainByte, isByte; intros ? ?; lia).
  assert (Hn : ∀ a, byte_of a < 32 → byte_of a ∉ l).
  { intros a Ha Hin. rewrite Forall_forall in Hl. specialize (Hl _ Hin). unfold plainByte in Hl. lia. }
  unfold plainLine, ContainsAny. cbn. by rewrite !containsByte_stringOf by (try apply Hn; done).
Qed.
Lemma plainBytes_check l : forallb (λ b, (32 <=? b) && (b <=? 126)) l = true → Forall plainByte l.
Proof.
  rewrite forallb_forall, Forall_forall. intros Hl x Hx. specialize (Hl x ltac:(by apply list_elem_of_In)).
  apply andb_true_iff in Hl as [? ?]. unfold plainByte. lia.
Qed.
Lemma upperHex_plain x : 0 ≤ x < 16 → plainByte (upperHex x).
Proof. unfold upperHex, plainByte. case_match; lia. Qed.
Lemma qByte_plain b : isByte b → Forall plainByte (qByte b).
Proof.
  unfold isByte, qByte. intros Hb. destruct (b =? 32); [by apply plainBytes_check|].
  destruct (qPlain b) eqn:E.
  - unfold qPlain in E. rewrite !andb_true_iff in E. destruct E as [[[[? ?] _] _] _]. repeat constructor; unfold plainByte; lia.
  - constructor; [unfold plainByte; lia|]. constructor; [|constructor; [|constructor]]; apply upperHex_plain.
    + rewrite Z.shiftr_div_pow2 by lia. change (2 ^ 4) with 16. split; [apply Z.div_pos; lia|apply Z.div_lt_upper_bound; lia].
    + change 15 with (Z.ones 4). rewrite Z.land_ones by lia. apply Z.mod_pos_bound. lia.
Qed.
Lemma qWords_plain f cur b : Forall isByte b → Forall plainByte (qWords f cur b).
Proof.
  assert (Ho : Forall plainByte openWord) by (by apply plainBytes_check).
  assert (Hc : Forall plainByte closeWord) by (by apply plainBytes_check).
  revert cur b. induction f as [|f IH]; intros cur [|x b] Hb; [constructor..|]. cbn [qWords].
  apply Forall_app. split; [case_match; [|constructor]|apply Forall_app; split].
  - apply Forall_app; split; [done|]. constructor; [unfold plainByte; lia|done].
  - apply Forall_concat. apply Forall_map. eapply Forall_impl; [|apply qByte_plain]. by apply Forall_take.
  - apply IH. by apply Forall_drop.
Qed.
(** The subject is one line, whatever the title holds. *)
Lemma qEncode_line s : plainLine (qEncode s) = true.
Proof.
  unfold qEncode. destruct (needsEncoding (bytesOf s)) eqn:E.
  - apply plainLine_stringOf, Forall_app. split; [by apply plainBytes_check|]. apply Forall_app.
    split; [apply qWords_plain, bytesOf_isByte|by apply plainBytes_check].
  - unfold plainLine, ContainsAny. cbn [existsb]. rewrite orb_false_r. apply negb_true_iff, orb_false_iff.
    split; apply not_true_iff_false; intros Hin; apply containsByte_bytes in Hin;
      (assert (Ht : needsEncoding (bytesOf s) = true) by (apply existsb_exists; eexists; split; [by apply list_elem_of_In, Hin|done]); congruence).
Qed.
Lemma plainLine_Join l : Forall (λ r, plainLine r = true) l → plainLine (GoStrings.Join ", " l) = true.
Proof.
  induction 1 as [|x [|y l] Hx Hl IH]; [done|done|]. change (plainLine (x +:+ ", " +:+ GoStrings.Join ", " (y :: l)) = true).
  by rewrite !plainLine_append, Hx, IH.
Qed.
Lemma mailHeaders_plain c n : (∀ t, plainLine (rfc1123z t) = true) → plainLine (nc_From c) = true →
  Forall (λ r, plainLine r = true) (recipients c) → Forall (λ h, plainLine h = true) (mailHeaders rfc1123z c n).
Proof.
  intros Hd Hf Hr. repeat constructor; rewrite ?plainLine_append, ?Hf, ?Hd, ?qEncode_line, ?plainLine_Join by done; done.
Qed.

Lemma says_data c n tls (Hsec : secured c tls) : Forall (λ h, plainLine h = true) (mailHeaders rfc1123z c n) →
  says tls (mayBeSaid c n) [NSmtp tls (SData (mailText rfc1123z c n))] True (smtpData (mailText rfc1123z c n)).
Proof.
  intros Hh w Hw. unfold smtpData. unfold mbind at 1, M_bind at 1, mgets at 1. rewrite Hw.
  revert w Hw. change (says tls (mayBeSaid c n) [NSmtp tls (SData (mailText rfc1123z c n))] True
    (net_ask ;? (net_event (NSmtp tls (SData (mailText rfc1123z c n)));; net_ask))).
  eapply says_weaken; [eapply (says_bind _ _ [] _ True True); [apply says_ask|intros _]|done|done].
  intros w Hw. assert (HP : mayBeSaid c n (NSmtp tls (SData (mailText rfc1123z c n)))) by (split; [by left; apply Hsec|done]).
  pose proof (says_step tls _ _ HP w Hw) as Hs. unfold smtpStep, mbind, M_bind, mgets in Hs. by rewrite Hw in Hs.
Qed.
Lemma says_send c n tls (Hsec : secured c tls) (Hdate : ∀ t, plainLine (rfc1123z t) = true) :
  says tls (mayBeSaid c n) (mailScript c n tls) True (smtpSend rfc1123z c n).
Proof.
  unfold smtpSend, mailScript.
  assert (Hquit : mayBeSaid c n (NSmtp tls SQuit)) by (split; [by left; apply Hsec|done]).
  eapply says_weaken; [eapply (says_bind _ _ _ _ True True)|done|done].
  { destruct (String.eqb (nc_Username c) ""); [apply says_ret|by apply says_auth]. }
  intros _. eapply says_weaken; [eapply (says_bind _ _ [NSmtp tls (SMail (nc_From c))] _ (plainLine (nc_From c) = true) True)|done|done].
  { unfold smtpMail. destruct (plainLine (nc_From c)) eqn:Ef; [|apply says_fail]. cbn [negb].
    eapply says_weaken; [eapply (says_bind _ _ [] _ True True); [apply says_hello|intros _; apply says_step]|done|done].
    split; [by left; apply Hsec|done]. }
  intros Hf. eapply says_weaken; [eapply (says_bind _ _ _ _ _ True); [by apply says_rcpts|]|done|done].
  intros Hr. change ([?x; ?y]) with ([x] ++ [y]). eapply says_weaken; [eapply (says_bind _ _ [_] _ True True)|done|done].
  { apply says_data; [done|]. by apply mailHeaders_plain. }
  intros _. by apply says_quit.
Qed.

(** Asking for encryption: on success, the connection is encrypted from here on. *)
Lemma offerTLS_spec w : nt_tls w = false →
  let '(e, w') := offerTLS w in
  ∃ l, nt_trace w' = nt_trace w ++ l ∧ (l = [] ∨ l = [NSmtp false SStartTLS])
    ∧ (e = None → l = [NSmtp false SStartTLS] ∧ nt_tls w' = true).
Proof.
  intros Hw. pose proof (says_hello false (λ _, False) w Hw) as Hh. unfold offerTLS, smtpStartTLS, mbind, M_bind.
  assert (Hnil : ∀ l : list netEvent, Forall (λ _, False) l → l = []) by (intros [|??] Hf; [done|by apply Forall_cons_1 in Hf as [[] _]]).
  destruct (smtpHello w) as [[e|] w1]; destruct Hh as (l & Ht & Hw1 & ->%Hnil & _); rewrite app_nil_r in Ht.
  { exists []. cbn. rewrite Ht, app_nil_r. split_and!; [done|by left|done]. }
  pose proof (says_ask false (λ _, False) w1 Hw1) as Ha. destruct (net_ask w1) as [a w2].
  destruct Ha as (l & Ht2 & Hw2 & ->%Hnil & _); rewrite app_nil_r in Ht2. cbn [mret M_ret].
  case_bool_decide; cbn [negb]; [|exists []; cbn; rewrite app_nil_r; split_and!; [congruence|by left|done]].
  pose proof (says_hello false (λ _, False) w2 Hw2) as Hh. destruct (smtpHello w2) as [[e|] w3];
    destruct Hh as (l & Ht3 & Hw3 & ->%Hnil & _); rewrite app_nil_r in Ht3.
  { exists []. cbn. rewrite app_nil_r. split_and!; [congruence|by left|done]. }
  unfold smtpStep, mbind, M_bind, mgets. rewrite Hw3. unfold net_event, mmodify.
  match goal with |- context [net_ask ?w'] => pose proof (says_ask false (λ _, False) w' Hw3) as Ha; destruct (net_ask w') as [[e|] w4] end;
    destruct Ha as (l & Ht4 & Hw4 & ->%Hnil & _); rewrite app_nil_r in Ht4; cbn in Ht4; rewrite Ht3, Ht2, Ht in Ht4.
  { exists [NSmtp false SStartTLS]. cbn. split_and!; [done|by right|done]. }
  unfold net_session, mmodify.
  match goal with |- context [net_ask ?w'] => pose proof (says_ask true (λ _, False) w' eq_refl) as Ha; destruct (net_ask w') as [e w5] end.
  destruct Ha as (l & Ht5 & Hw5 & ->%Hnil & _). rewrite app_nil_r in Ht5. cbn in Ht5.
  exists [NSmtp false SStartTLS]. split_and!; [congruence|by right|done].
Qed.

Definition startScript c : list netEvent := if String.eqb (nc_TLS c) "starttls" then [NSmtp false SStartTLS] else [].
Definition knownTLS c : Prop := nc_TLS c = "starttls" ∨ nc_TLS c = "tls" ∨ nc_TLS c = "none".
Lemma validateConfig_tls c0 c : validateConfig "email" c0 = inl c → knownTLS c.
Proof.
  unfold validateConfig. cbn. destruct (_ || _ || _); [done|]. set (c' := if String.eqb (nc_TLS c0) "" then _ else _).
  rewrite orb_false_r. destruct (_ || _) eqn:E; [|done]. intros <-%(inj inl).
  apply orb_true_iff in E as [E|E]; [|apply orb_true_iff in E as [E|E]]; apply String.eqb_eq in E; unfold knownTLS; auto.
Qed.
Lemma dialogue_spec c n w (Hk : knownTLS c) (Hdate : ∀ t, plainLine (rfc1123z t) = true) :
  nt_tls w = String.eqb (nc_TLS c) "tls" →
  let '(e, w') := smtpDialogue rfc1123z c n w in
  ∃ l, nt_trace w' = nt_trace w ++ l ∧ Forall (mayBeSaid c n) l
    ∧ (e = None → l = startScript c ++ mailScript c n (negb (String.eqb (nc_TLS c) "none"))).
Proof.
  intros Hw. unfold smtpDialogue, startScript.
  assert (Hplain : ∀ tls, nt_tls w = tls → secured c tls → tls = negb (String.eqb (nc_TLS c) "none") → String.eqb (nc_TLS c) "starttls" = false →
    let '(e, w') := (mret None ;? smtpSend rfc1123z c n) w in
    ∃ l, nt_trace w' = nt_trace w ++ l ∧ Forall (mayBeSaid c n) l
      ∧ (e = None → l = [] ++ mailScript c n (negb (String.eqb (nc_TLS c) "none")))).
  { intros tls Ht Hs Hn _. unfold mbind, M_bind. cbn [mret M_ret]. pose proof (says_send c n tls Hs Hdate w Ht) as Hsend.
    destruct (smtpSend rfc1123z c n w) as [e w']. destruct Hsend as (l & ? & _ & ? & Hok). exists l. split_and!; [done..|].
    intros He. rewrite <-Hn. by destruct (Hok He). }
  destruct Hk as [E|[E|E]]; unfold secured in *; rewrite E in *; [|by apply (Hplain true)|by apply (Hplain false)]. clear Hplain. cbn [String.eqb negb].
  pose proof (offerTLS_spec w Hw) as Ho. unfold mbind, M_bind. cbn. destruct (offerTLS w) as [[e|] w1]; destruct Ho as (l & Ht & Hl & Hok).
  { exists l. split_and!; [done| |done]. destruct Hl as [->| ->]; [constructor|]. constructor; [split; [by right|done]|constructor]. }
  destruct (Hok eq_refl) as [-> Hw1]. pose proof (says_send c n true (λ _, eq_refl) Hdate w1 Hw1) as Hsend.
  destruct (smtpSend rfc1123z c n w1) as [e w']. destruct Hsend as (l2 & Ht2 & _ & HP2 & Hok2). exists ([NSmtp false SStartTLS] ++ l2).
  rewrite Ht2, Ht, app_assoc. split_and!; [done| |].
  - constructor; [split; [by right|done]|done].
  - intros He. by destruct (Hok2 He) as [-> _].
Qed.

(** Mail goes out protected and complete. With the settings a channel can be saved with, for any
    answers of the mail server and any failure on the way: nothing but the dialogue of one mail is
    sent; unless the administrator chose no encryption, everything except the question for it is
    sent encrypted; the password is sent only over an encrypted connection or to the same machine;
    sender and recipients are single lines, and the text is the mail's, each of its six headers
    one line, whatever names the title holds, so that nothing can be injected into the headers or the dialogue. When
    sending reports success, the mail was offered to every recipient in one complete dialogue, and
    the connection was closed. *)
Theorem email_protected (c0 c : notifierConfig) (n : notification) (w : net)
    (Hval : validateConfig "email" c0 = inl c) (Hdate : ∀ t, plainLine (rfc1123z t) = true) :
  let '(err, w') := sendEmail rfc1123z c n w in
  let tls := String.eqb (nc_TLS c) "tls" in
  let addr := JoinHostPort (nc_Host c) (itoa (mailPort c)) in
  ∃ l, nt_trace w' = nt_trace w ++ l ∧ Forall (mayBeSaid c n) l
    ∧ (err = None → l = [NDial tls addr]
         ++ (if String.eqb (nc_TLS c) "starttls" then [NSmtp false SStartTLS] else [])
         ++ mailScript c n (negb (String.eqb (nc_TLS c) "none")) ++ [NClose]).
Proof.
  apply validateConfig_tls in Hval. unfold sendEmail. unfold mbind, M_bind, net_event, mmodify. fold (startScript c).
  match goal with |- context [net_ask ?w1] => pose proof (says_ask (nt_tls w) (λ _, False) w1 eq_refl) as Ha; destruct (net_ask w1) as [[e|] w1'] end.
  { destruct Ha as (l & Ht & _ & HP & _). exists (NDial (String.eqb (nc_TLS c) "tls") (JoinHostPort (nc_Host c) (itoa (mailPort c))) :: l).
    rewrite Ht. cbn. rewrite <-app_assoc. split_and!; [done| |done]. constructor; [done|]. by eapply Forall_impl; [exact HP|]. }
  destruct Ha as (l & Ht & _ & HP & Hok). destruct (Hok eq_refl) as [-> _]. rewrite app_nil_r in Ht. cbn in Ht.
  unfold net_session, mmodify.
  match goal with |- context [net_ask ?w2] => pose proof (says_ask (String.eqb (nc_TLS c) "tls") (λ _, False) w2 eq_refl) as Ha; destruct (net_ask w2) as [[e|] w2'] end;
    destruct Ha as (l2 & Ht2 & Hw2 & HP2 & Hok2); cbn in Ht2; rewrite Ht in Ht2.
  { assert (l2 = []) as -> by (destruct l2; [done|by apply Forall_cons_1 in HP2 as [[] _]]). eexists. cbn. rewrite Ht2, app_nil_r, <-app_assoc.
    split_and!; [done|by repeat constructor|done]. }
  destruct (Hok2 eq_refl) as [-> _]. rewrite app_nil_r in Ht2.
  pose proof (dialogue_spec c n w2' Hval Hdate Hw2) as Hd. destruct (smtpDialogue rfc1123z c n w2') as [e w3].
  destruct Hd as (l3 & Ht3 & HP3 & Hok3). eexists. cbn. rewrite Ht3, Ht2, <-!app_assoc. split_and!; [done| |].
  - constructor; [done|]. apply Forall_app. split; [done|by repeat constructor].
  - intros He. cbn. by rewrite (Hok3 He), <-app_assoc.
Qed.
End mail.

(** ** Errors do not show secrets *)
Create HintDb agree.
Section secrets.
Context `{Lib} `{Marshal}.
Context (urlReason : string → string) (rfc3339 rfc1123z : Z → string).
Implicit Types (c : notifierConfig) (n : notification) (w : net).

(** The network up to what was said on it: the same answers are to come. *)
Definition sameAnswers w1 w2 : Prop :=
  nt_http w1 = nt_http w2 ∧ nt_smtp w1 = nt_smtp w2 ∧ nt_tls w1 = nt_tls w2 ∧ nt_hello w1 = nt_hello w2.
(** Two operations that cannot be told apart by their results. *)
Definition agree {A} (m1 m2 : M net A) : Prop :=
  ∀ w1 w2, sameAnswers w1 w2 → (m1 w1).1 = (m2 w2).1 ∧ sameAnswers (m1 w1).2 (m2 w2).2.
Lemma agree_ret {A} (a : A) : agree (mret a) (mret a).
Proof. by intros w1 w2. Qed.
Lemma agree_bind {A B} (m1 m2 : M net A) (k1 k2 : A → M net B) :
  agree m1 m2 → (∀ a, agree (k1 a) (k2 a)) → agree (mbind k1 m1) (mbind k2 m2).
Proof.
  intros Hm Hk w1 w2 Hw. unfold mbind, M_bind. destruct (Hm w1 w2 Hw) as [E Hw']. destruct (m1 w1), (m2 w2). cbn in *. subst. by apply Hk.
Qed.
Lemma agree_event e1 e2 : agree (net_event e1) (net_event e2).
Proof. by intros w1 w2 (? & ? & ? & ?). Qed.
Lemma agree_session t h : agree (net_session t h) (net_session t h).
Proof. by intros w1 w2 (? & ? & ? & ?). Qed.
Lemma agree_ask : agree net_ask net_ask.
Proof. intros w1 w2 (E1 & E2 & E3 & E4). unfold net_ask, mstate, sameAnswers. rewrite E2. destruct (nt_smtp w2) eqn:?; cbn; split_and!; congruence. Qed.
Lemma agree_answer : agree net_answer net_answer.
Proof. intros w1 w2 (E1 & E2 & E3 & E4). unfold net_answer, mstate, sameAnswers. rewrite E1. destruct (nt_http w2) eqn:?; cbn; split_and!; congruence. Qed.
Lemma agree_tls : agree (mgets nt_tls) (mgets nt_tls).
Proof. intros w1 w2 Hw. pose proof Hw as (_ & _ & E & _). by split. Qed.
Lemma agree_hello : agree (mgets nt_hello) (mgets nt_hello).
Proof. intros w1 w2 Hw. pose proof Hw as (_ & _ & _ & E). by split. Qed.
#[local] Hint Resolve agree_ret agree_event agree_session agree_ask agree_answer agree_tls agree_hello : agree.
Ltac agree1 :=
  lazymatch goal with
  | |- agree (mbind _ _) (mbind _ _) => apply agree_bind; [|intros ?]
  | |- agree (if ?b then _ else _) (if ?b then _ else _) => destruct b
  | |- agree (match ?x with _ => _ end) (match ?x with _ => _ end) => destruct x
  end.
Ltac agrees := repeat first [solve [eauto 2 with agree] | agree1].

Lemma agree_smtpHello : agree smtpHello smtpHello.
Proof. unfold smtpHello. agrees. Qed.
#[local] Hint Resolve agree_smtpHello : agree.
Lemma agree_step (x y : smtpCmd) : agree (smtpStep x) (smtpStep y).
Proof. unfold smtpStep. agrees. Qed.
#[local] Hint Resolve agree_step : agree.
Lemma agree_rcpts l : agree (smtpRcpts l) (smtpRcpts l).
Proof. induction l; cbn [smtpRcpts]; unfold smtpRcpt; agrees. Qed.
#[local] Hint Resolve agree_rcpts : agree.

(** The same channel with other secrets: access token, password, and the URL, which may contain one. *)
Definition withSecrets (url token password : string) c : notifierConfig :=
  mkNotifierConfig url token (nc_ChatID c) (nc_Host c) (nc_Port c) (nc_Username c) password (nc_From c) (nc_To c) (nc_TLS c).
(** The request can be built: the URL parses, the access token fits into a header. *)
Definition endpointOf (typ : string) c : string := if String.eqb typ "telegram" then telegramEndpoint c else nc_URL c.
Definition wellFormed (typ : string) c : Prop :=
  typ ≠ "email" → is_Some (urlParse (endpointOf typ c)) ∧ validHeaderValue ("Bearer " +:+ nc_Token c) = true.

Lemma agree_email url token password c n : agree (sendEmail rfc1123z c n) (sendEmail rfc1123z (withSecrets url token password c) n).
Proof.
  unfold sendEmail, smtpDialogue, smtpSend, offerTLS, smtpStartTLS, smtpAuth, smtpMail, smtpData, smtpQuit, mailPort. cbn [withSecrets nc_TLS nc_Host nc_Port nc_Username nc_From nc_Password].
  change (recipients (withSecrets url token password c)) with (recipients c). agrees.
Qed.
Lemma agree_do u1 u2 h1 h2 b1 b2 :
  fst <$> find (λ h, negb (validHeaderValue h.2)) h1 = fst <$> find (λ h, negb (validHeaderValue h.2)) h2 →
  agree (do u1 h1 b1) (do u2 h2 b2).
Proof.
  intros Hf w1 w2 Hw. unfold do, clientDo, mbind, M_bind.
  destruct (find _ h1) as [[k1 v1]|], (find _ h2) as [[k2 v2]|]; cbn in Hf; try done; [injection Hf as <-; by split|].
  destruct (agree_bind _ _ _ _ (agree_event (NPost u1 h1 b1) (NPost u2 h2 b2)) (λ _, agree_answer) w1 w2 Hw) as [E Hw'].
  unfold mbind, M_bind in E, Hw'. cbn in E, Hw' |- *. revert E Hw'.
  destruct (net_answer _) as [a1 w1']. destruct (net_answer _) as [a2 w2']. cbn. intros -> ?. by destruct a2.
Qed.
Lemma agree_postJSON u1 u2 l b : is_Some (urlParse u1) → is_Some (urlParse u2) →
  agree (postJSON urlReason u1 l b) (postJSON urlReason u2 l b).
Proof.
  intros [x1 E1] [x2 E2]. unfold postJSON, newRequest. rewrite E1, E2. destruct (find _ l); [apply agree_ret|by apply agree_do].
Qed.
Lemma find_app_none {A} (p : A → bool) l k1 k2 : find p k1 = None → find p k2 = None → find p (l ++ k1) = find p (l ++ k2).
Proof. intros H1' H2'. induction l as [|x l IH]; cbn; [congruence|]. by destruct (p x). Qed.
Lemma agree_ntfy c1 c2 n : wellFormed "ntfy" c1 → wellFormed "ntfy" c2 → agree (sendNtfy urlReason c1 n) (sendNtfy urlReason c2 n).
Proof.
  intros W1 W2. destruct (W1 ltac:(done)) as [[x1 E1] A1]. destruct (W2 ltac:(done)) as [[x2 E2] A2].
  change (endpointOf "ntfy" c1) with (nc_URL c1) in E1. change (endpointOf "ntfy" c2) with (nc_URL c2) in E2.
  unfold sendNtfy, newRequest. rewrite E1, E2. apply agree_do. rewrite !app_assoc. f_equal.
  apply find_app_none; case_match; cbn [find snd]; [done|by rewrite A1|done|by rewrite A2].
Qed.

(** What goes wrong with a channel is shown to everyone who may look at alerts, so it must not show
    its secrets. For a channel whose request can be built: with any other access token, password and
    URL, and the same answers from the other side, sending gives the same message. *)
Theorem errors_hide_secrets (typ url token password : string) (c : notifierConfig) (n : notification) (w : net)
    (Hwf : wellFormed typ c) (Hwf' : wellFormed typ (withSecrets url token password c)) :
  (sendTo urlReason rfc3339 rfc1123z typ c n w).1 = (sendTo urlReason rfc3339 rfc1123z typ (withSecrets url token password c) n w).1.
Proof.
  assert (Hagree : agree (sendTo urlReason rfc3339 rfc1123z typ c n) (sendTo urlReason rfc3339 rfc1123z typ (withSecrets url token password c) n));
    [|by apply Hagree].
  unfold sendTo.
  destruct (String.eqb_spec typ "ntfy") as [->|_]; [by apply agree_ntfy|].
  assert (Hpost : ∀ t l b, t ≠ "email" → typ = t → agree (postJSON urlReason (endpointOf t c) l b) (postJSON urlReason (endpointOf t (withSecrets url token password c)) l b)).
  { intros t l b Ht ->. apply agree_postJSON; [by apply Hwf|by apply Hwf']. }
  destruct (String.eqb_spec typ "discord") as [->|_]; [by apply (Hpost "discord")|].
  destruct (String.eqb_spec typ "slack") as [->|_]; [by apply (Hpost "slack")|].
  destruct (String.eqb_spec typ "telegram") as [->|_]; [by apply (Hpost "telegram")|].
  destruct (String.eqb_spec typ "webhook") as [->|_]; [by apply (Hpost "webhook")|].
  destruct (String.eqb_spec typ "email") as [->|_]; [apply agree_email|apply agree_ret].
Qed.
End secrets.

(** *** Witnesses *)
Definition demoMail : notifierConfig :=
  mkNotifierConfig "" "" "" "mail.example" 0 "lotse" "secret" "hub@example" "a@example, b@example" "".
Definition demoNote : notification := mkNotification "web1 is down" "no sample for 5 minutes" true "https://hub.example" 0 "web1" "offline" fzero fzero.
Definition demoNet (http : list httpAnswer) (k : nat) : net := mkNet http (replicate k None) false None [].
Definition demoDate (t : Z) : string := "Thu, 01 Jan 1970 00:00:00 +0000".

Lemma email_protected_witness :
  let c := withTLS "starttls" demoMail in
  (@sendEmail demoDate c demoNote (demoNet [] 20)).1 = None
  ∧ ∃ l, nt_trace (sendEmail demoDate c demoNote (demoNet [] 20)).2 = l ∧ Forall (mayBeSaid demoDate c demoNote) l.
Proof.
  split; [by vm_compute|].
  pose proof (@email_protected demoLib demoDate demoMail (withTLS "starttls" demoMail) demoNote (demoNet [] 20) eq_refl (λ _, eq_refl)) as Hp.
  destruct (sendEmail _ _ _ _) as [e w']. cbv zeta in Hp. destruct Hp as (l & Ht & HP & _). exists l. by split.
Defined.
Lemma errors_hide_secrets_witness :
  let c := mkNotifierConfig "https://a.example/hook" "" "" "" 0 "" "" "" "" "" in
  let send c := (@sendTo demoLib demoMarshal (λ _, "") demoDate demoDate "webhook" c demoNote (demoNet [HFail "connection refused"] 0)).1 in
  send c = send (withSecrets "https://b.example/other-secret" "" "" c) ∧ send c = Some "connection refused".
Proof.
  split; [|by vm_compute].
  apply (@errors_hide_secrets demoLib demoMarshal (λ _, "") demoDate demoDate "webhook" "https://b.example/other-secret" "" ""); intros _; (split; [by eexists|by vm_compute]).
Defined.

(** Finding. An error of building the request, before [do] could take the URL out of it, does show the
    URL: a Telegram channel with a token that does not fit into a URL can be saved, and its error
    shows the token. *)
Lemma telegram_token_echoed `{Lib, Marshal} urlReason rfc3339 rfc1123z c n w :
  nc_Token c ≠ "" → nc_ChatID c ≠ "" → urlParse (telegramEndpoint c) = None →
  validateConfig "telegram" c = inl c
  ∧ (sendTo urlReason rfc3339 rfc1123z "telegram" c n w).1
    = Some ("parse " +:+ Quote ("https://api.telegram.org/bot" +:+ nc_Token c +:+ "/sendMessage") +:+ ": " +:+ urlReason (telegramEndpoint c)).
Proof.
  intros Ht Hc Hu. split.
  - unfold validateConfig. cbn. by rewrite (proj2 (String.eqb_neq _ _) Ht), (proj2 (String.eqb_neq _ _) Hc).
  - unfold sendTo, postJSON, newRequest. cbn. by rewrite Hu.
Qed.
(** Finding. The link of a mail is set apart with CR LF already, before every LF becomes CR LF: the mail
    has CR CR LF there. *)
Lemma mail_link_line_breaks : 
  mailBody demoNote = ("no sample for 5 minutes" +:+ String carriageReturn CRLF +:+ String carriageReturn CRLF +:+ "https://hub.example")%string.
Proof. by vm_compute. Qed.
