(* ===== verification/State.v ===== *)
(** * Samples in memory ([internal/hub/state.go])

    Each connected system has its latest sample, a ring of recent samples for the live chart
    and the 1-minute bucket being averaged. *)
From Stdlib Require Import ZArith Lia Ascii String.
From S2P Require Import Prelude GoStrings Float64 Library Store StoreTables StoreInv StoreSteps Metrics Limiter TailBuffer Update Webauthn Protocol Hub Alerts AlertProps AuthProps.
From stdpp Require Import base gmap strings list relations.
Local Open Scope string_scope.
Local Open Scope list_scope.
Local Open Scope Z_scope.
Local Open Scope lotse_scope.

(** A sample in the order of [MetricCols]. *)
Definition metricValues (m : Metrics) : list f64 :=
  [me_CPU m; ofInt (me_MemUsed m); ofInt (me_MemTotal m); ofInt (me_SwapUsed m); ofInt (me_SwapTotal m);
   ofInt (me_DiskUsed m); ofInt (me_DiskTotal m); me_DiskRead m; me_DiskWrite m; me_NetRx m; me_NetTx m;
   me_Load1 m; me_Load5 m; me_Load15 m].

Definition zeroSum : list f64 := replicate NumMetricCols fzero.
Definition newSysState : sysState := mkSysState None 0 [] 0 zeroSum 0.
Definition putState (id : Z) (st : sysState) : M hub unit := mmodify (λ h, with_states (<[id := st]> (h_states h)) h).

(** Nothing for a system without an agent, so a late sample cannot bring a deleted system's
    state back. *)
Definition liveState (id : Z) : M hub (option sysState) :=
  h ← mget;
  match h_agents h !! id with
  | None => mret None
  | Some _ =>
    match h_states h !! id with
    | Some st => mret (Some st)
    | None => putState id newSysState;; mret (Some newSysState)
    end
  end.

Definition average (sum : list f64) (n : Z) : list f64 := map (λ x, fdiv x (ofInt n)) sum.
Definition takeBucket (st : sysState) : MetricRow * sysState :=
  (mkMetricRow (st_bucketTS st) (average (st_sum st) (st_n st)),
   mkSysState (st_latest st) (st_latestAt st) (st_ring st) (st_bucketTS st) zeroSum 0).

(** The sample without its lists. *)
Definition lite (m : Metrics) : Metrics :=
  mkMetrics (me_Time m) (me_CPU m) (me_MemUsed m) (me_MemTotal m) (me_SwapUsed m) (me_SwapTotal m) (me_DiskUsed m)
    (me_DiskTotal m) (me_DiskRead m) (me_DiskWrite m) (me_NetRx m) (me_NetTx m) (me_Load1 m) (me_Load5 m) (me_Load15 m)
    (me_Uptime m) (me_Battery m) [] [].
Definition minuteOf (now : Z) : Z := now /! 60 * 60.
Definition pushRing (p : livePoint) (ring : list livePoint) : list livePoint :=
  let ring' := ring ++ [p] in
  if (liveRingSize <? length ring')%nat then drop (length ring' - liveRingSize) ring' else ring'.
(** What [record] does while it holds the state's lock. *)
Definition absorb (now : Z) (m : Metrics) (st : sysState) : option MetricRow * sysState :=
  let minute := minuteOf now in
  let '(done, st1) := if (0 <? st_n st) && negb (st_bucketTS st =? minute)
                      then let '(row, st') := takeBucket st in (Some row, st') else (None, st) in
  (done, mkSysState (Some m) now (pushRing (mkLivePoint now (lite m)) (st_ring st1)) minute
           (zip_with fadd (st_sum st1) (metricValues m)) (st_n st1 + 1)).

Section state.
Context `{Lib} `{Marshal}.
Context (formatPct formatNum : f64 → string).

Definition writeBucket (id : Z) (row : MetricRow) (latest : option Metrics) (seen : Z) : M hub unit :=
  _ ← db (InsertMetrics id Res1 row);
  match latest with
  | None => mret tt
  | Some m => _ ← db (UpdateLastSeen id seen (marshal (metricsJSON m))); mret tt
  end.
Definition metricsEvent (id t : Z) (m : Metrics) : json :=
  JObj [("id", JInt id); ("t", JInt t); ("m", metricsJSON m)].
Definition record (id : Z) (m : Metrics) : M hub unit :=
  t ← db timeNow;
  let now := unix t in
  o ← liveState id;
  match o with
  | None => mret tt
  | Some st =>
    let '(done, st') := absorb now m st in
    putState id st';;
    match done with
    | Some row => writeBucket id row (st_latest st) (st_latestAt st)
    | None => mret tt
    end;;
    publish "metrics" (metricsEvent id now m);;
    evaluateMetrics formatPct formatNum id m (fromUnix now)
  end.

Definition flushState (id : Z) (force : bool) : M hub unit :=
  t ← db timeNow;
  let minute := minuteOf (unix t) in
  o ← mgets (λ h, h_states h !! id);
  match o with
  | None => mret tt
  | Some st =>
    if (st_n st =? 0) || (negb force && (minute <=? st_bucketTS st)) then mret tt else
    let '(row, st') := takeBucket st in
    putState id st';;
    writeBucket id row (st_latest st) (st_latestAt st)
  end.
(** [order]: the order in which [range] visits the map. *)
Fixpoint flushAll (ids : list Z) (force : bool) : M hub unit :=
  match ids with
  | [] => mret tt
  | id :: rest => flushState id force;; flushAll rest force
  end.
Definition flush (order : gmap Z sysState → list Z) (force : bool) : M hub unit :=
  ids ← mgets (λ h, order (h_states h)); flushAll ids force.

Definition currentBucket (id : Z) (h : hub) : option MetricRow :=
  match h_states h !! id with
  | None => None
  | Some st => if st_n st =? 0 then None else Some (mkMetricRow (st_latestAt st) (average (st_sum st) (st_n st)))
  end.
Definition liveSeries (id : Z) (h : hub) : list MetricRow :=
  match h_states h !! id with
  | None => []
  | Some st => map (λ p, mkMetricRow (lp_T p) (metricValues (lp_M p))) (st_ring st)
  end.
End state.

(** ** The live chart and the minute averages *)
Section props.
Context `{Lib} `{Marshal}.
Context (formatPct formatNum : f64 → string).
Implicit Types (h : hub).
Abbreviation tables h := (m_db (h_m h)).

(** A step that leaves the samples, the links, the history and the systems alone. *)
Definition besides h h' : Prop :=
  h_states h' = h_states h ∧ h_agents h' = h_agents h ∧ metrics (tables h') = metrics (tables h)
  ∧ systems (tables h') = systems (tables h) ∧ clock (h_m h') = clock (h_m h) ∧ (noFaults (h_m h) → noFaults (h_m h')).
#[local] Instance besides_preorder : PreOrder besides.
Proof.
  split; unfold besides; [intros h; by split_and!|].
  intros h1 h2 h3 (? & ? & ? & ? & ? & ?) (? & ? & ? & ? & ? & ?). split_and!; try congruence. auto.
Qed.
Lemma steps_sql_besides {A} (f : store → res A * store) :
  (∀ d, metrics (f d).2 = metrics d ∧ systems (f d).2 = systems d) → steps besides (db (sql f)).
Proof.
  intros Hf h. destruct h as [[d [t ks fs rs]] ? ? ? ? ? ? ? ? ? ? ? ? ? ? ?]. unfold besides, db, sql, noFaults, clock. cbn.
  specialize (Hf d). destruct fs as [|[] fs]; cbn; [destruct (f d)| |destruct (f d)]; cbn in *; naive_solver.
Qed.
Lemma steps_query_besides {A} (f : store → res A) : steps besides (db (query f)).
Proof. by apply steps_sql_besides. Qed.
Lemma steps_engine_besides f : steps besides (onEngine f).
Proof. by intros h. Qed.
Lemma steps_publish_besides e d : steps besides (publish e d).
Proof. intros h. unfold publish, mmodify. cbn. by destruct (decide _). Qed.
Hint Resolve steps_query_besides steps_engine_besides steps_publish_besides : steps.
Lemma steps_step_besides r id holds v since now delay : steps besides (step r id holds v since now delay).
Proof.
  unfold step. go_steps. all: try apply steps_engine_besides.
  all: apply steps_sql_besides; intros d; by destruct d.
Qed.
Lemma steps_evaluate_besides id m now : steps besides (evaluateMetrics formatPct formatNum id m now).
Proof.
  unfold evaluateMetrics. go_steps.
  - generalize a. clear a. intros l. induction l as [|r l IH]; cbn [evaluateRules]; go_steps; apply steps_step_besides.
  - unfold dispatch. go_steps. by intros h.
Qed.

Definition knownSystem (id : Z) h : Prop := systemExists (Some id) (tables h) = true.
Lemma knownSystem_update id id' f d :
  (∀ x, sy_ID (f x) = sy_ID x) → systemExists (Some id) (updateSystems id' f d).2 = systemExists (Some id) d.
Proof.
  intros Hf. unfold updateSystems, systemExists. cbn [snd].
  assert (systems (set_systems (updateWhere (λ x, sy_ID x =? id') f (systems d)) d)
          = updateWhere (λ x, sy_ID x =? id') f (systems d)) as -> by by destruct d.
  unfold existsWhere. induction (systems d) as [|x l IH]; [done|]. unfold updateWhere in *. cbn. rewrite IH.
  by destruct (sy_ID x =? id'); rewrite ?Hf.
Qed.

(** What the step does to the samples: [st] is the new state, [rows] the new history. *)
Definition samplesAre (id : Z) (st : sysState) (rows : gmap (Z * Z * Z) (list f64)) h h' : Prop :=
  h_states h' = <[id := st]> (h_states h) ∧ h_agents h' = h_agents h ∧ metrics (tables h') = rows
  ∧ knownSystem id h' ∧ noFaults (h_m h').
Lemma writeBucket_effect id row latest seen h :
  noFaults (h_m h) → knownSystem id h →
  wp (writeBucket id row latest seen) (λ _ h',
    h_states h' = h_states h ∧ h_agents h' = h_agents h ∧ clock (h_m h') = clock (h_m h)
    ∧ metrics (tables h') = <[(id, Res1, mr_TS row) := mr_Values row]> (metrics (tables h))
    ∧ knownSystem id h' ∧ noFaults (h_m h')) h.
Proof.
  intros Hn Hk. unfold writeBucket. apply wp_bind.
  eapply (wp_mono _ (λ _ h', h_states h' = h_states h ∧ h_agents h' = h_agents h ∧ clock (h_m h') = clock (h_m h)
    ∧ metrics (tables h') = <[(id, Res1, mr_TS row) := mr_Values row]> (metrics (tables h))
    ∧ knownSystem id h' ∧ noFaults (h_m h'))).
  - unfold wp, db, InsertMetrics, sql, insertMetric, knownSystem, noFaults, clock in *.
    destruct h as [[d [t ks fs rs]] ? ? ? ? ? ? ? ? ? ? ? ? ? ? ?]. cbn -[systemExists Res1] in *. subst fs.
    rewrite Hk. cbn -[systemExists Res1]. split_and!; try done; destruct d; done.
  - intros _ h1 (Hs & Ha & Hc & Hm & Hk1 & Hn1). destruct latest as [m|]; [|by apply wp_ret]. apply wp_bind.
    unfold UpdateLastSeen. eapply (wp_mono _ (λ _ h', h_states h' = h_states h1 ∧ h_agents h' = h_agents h1
      ∧ clock (h_m h') = clock (h_m h1) ∧ metrics (tables h') = metrics (tables h1) ∧ knownSystem id h' ∧ noFaults (h_m h'))).
    + unfold wp, db, sql, knownSystem, noFaults, clock, mbind, M_bind in *.
      pose proof (knownSystem_update id id (withSeen seen (marshal (metricsJSON m))) (tables h1)) as Hu.
      destruct h1 as [[d [t ks fs rs]] ? ? ? ? ? ? ? ? ? ? ? ? ? ? ?]. cbn -[systemExists updateSystems] in *. subst fs.
      destruct (updateSystems _ _ d) as [r d'] eqn:E. cbn -[systemExists] in *.
      split_and!; try done; [unfold updateSystems in E; simplify_eq; by destruct d|by rewrite Hu].
    + intros _ h2 (? & ? & ? & ? & ? & ?). apply wp_ret. split_and!; try done; congruence.
Qed.

Definition stateAt (id : Z) h : sysState := default newSysState (h_states h !! id).
Definition storedRow (id : Z) (o : option MetricRow) (rows : gmap (Z * Z * Z) (list f64)) :=
  match o with Some row => <[(id, Res1, mr_TS row) := mr_Values row]> rows | None => rows end.
Lemma record_effect id m h :
  noFaults (h_m h) → knownSystem id h → is_Some (h_agents h !! id) →
  wp (record formatPct formatNum id m) (λ _ h',
    let '(done, st') := absorb (unix (clock (h_m h'))) m (stateAt id h) in
    samplesAre id st' (storedRow id done (metrics (tables h))) h h') h.
Proof.
  intros Hn Hk [ac Ha]. unfold record. apply wp_bind. apply wp_db, wp_timeNow_nf. intros m1 Hd Hn1. specialize (Hn1 Hn).
  apply wp_bind. unfold liveState. apply wp_bind, wp_get. cbn [h_agents with_m h_states]. rewrite Ha.
  apply (wp_mono _ (λ o h1, o = Some (stateAt id h) ∧ ∃ st0, h1 = with_states (partial_alter (λ _, st0) id (h_states h)) (with_m m1 h))).
  { unfold stateAt. destruct (h_states h !! id) as [st|] eqn:Es.
    - apply wp_ret. split; [done|]. exists (Some st). rewrite <-Es, partial_alter_self. by destruct h.
    - apply wp_bind, wp_modify, wp_ret. split; [done|]. exists (Some newSysState). by destruct h. }
  intros _ h1 [-> [st0 ->]]. destruct (absorb _ _ _) as [done st'] eqn:Eab.
  apply wp_bind, wp_modify. set (h2 := with_states _ _).
  assert (Hbase : h_states h2 = <[id := st']> (h_states h) ∧ h_agents h2 = h_agents h ∧ tables h2 = tables h
    ∧ clock (h_m h2) = clock m1 ∧ noFaults (h_m h2)).
  { subst h2. cbn [h_states h_agents h_m with_states with_m]. rewrite Hd. split_and!; try done. apply map_eq. intros k.
    destruct (decide (k = id)) as [->|]; [by rewrite !lookup_insert_eq|]. by rewrite !lookup_insert_ne, lookup_partial_alter_ne. }
  destruct Hbase as (Hs2 & Ha2 & Ht2 & Hc2 & Hn2). clearbody h2. apply wp_bind.
  apply (wp_mono _ (λ _ h3, samplesAre id st' (storedRow id done (metrics (tables h))) h h3 ∧ clock (h_m h3) = clock m1)).
  { destruct done as [row|]; [|apply wp_ret].
    - eapply wp_mono; [apply writeBucket_effect; unfold knownSystem in *; rewrite ?Ht2; done|].
      intros _ h3 (? & ? & ? & ? & ? & ?). unfold samplesAre, storedRow. rewrite Ht2 in *. split_and!; try done; congruence.
    - unfold samplesAre, storedRow, knownSystem in *. rewrite Ht2. split_and!; done. }
  intros _ h3 [(? & ? & ? & ? & ?) Hc3]. apply wp_bind. eapply wp_steps; [apply steps_publish_besides|].
  intros _ h4 (? & ? & ? & ? & ? & Hn4). eapply wp_steps; [apply steps_evaluate_besides|].
  intros _ h5 (? & ? & ? & ? & ? & Hn5). assert (Hc5 : clock (h_m h5) = clock m1) by congruence.
  rewrite Hc5, Eab. unfold samplesAre, knownSystem, systemExists in *. split_and!; [congruence..| |auto].
  by replace (systems (tables h5)) with (systems (tables h3)) by congruence.
Qed.
Lemma flush_effect id force h :
  noFaults (h_m h) → knownSystem id h →
  wp (flushState id force) (λ _ h',
    let st := stateAt id h in let now := minuteOf (unix (clock (h_m h'))) in
    if (st_n st =? 0) || (negb force && (now <=? st_bucketTS st))
    then h_states h' = h_states h ∧ h_agents h' = h_agents h ∧ tables h' = tables h ∧ noFaults (h_m h')
    else samplesAre id (takeBucket st).2 (storedRow id (Some (takeBucket st).1) (metrics (tables h))) h h') h.
Proof.
  intros Hn Hk. unfold flushState. apply wp_bind. apply wp_db, wp_timeNow_nf. intros m1 Hd Hn1. specialize (Hn1 Hn).
  apply wp_bind, wp_gets. cbn [h_states with_m]. unfold stateAt. destruct (h_states h !! id) as [st|] eqn:Es; cbn [default Datatypes.id].
  - destruct ((st_n st =? 0) || _) eqn:Eb.
    + apply wp_ret. cbn [h_m with_m h_states h_agents]. by rewrite Eb.
    + cbn [takeBucket fst snd]. apply wp_bind, wp_modify.
      eapply wp_mono; [apply writeBucket_effect; [done|]; unfold knownSystem; cbn; by rewrite Hd|].
      cbn [h_m with_m with_states h_states h_agents]. rewrite Hd. intros _ h3 (? & ? & Hc & ? & ? & ?). rewrite Hc, Eb. by split_and!.
  - apply wp_ret. cbn. by rewrite Hd.
Qed.

(** ** The reports of one system

    The samples of system [id], with the (hub) second each arrived in; the periodic flush and
    anything that does not concern this system may happen in between. The hub's clock does not
    go back. *)
Definition bystander (id : Z) h h' : Prop :=
  h_states h' !! id = h_states h !! id ∧ (is_Some (h_agents h !! id) → is_Some (h_agents h' !! id))
  ∧ (∀ ts, metrics (tables h') !! (id, Res1, ts) = metrics (tables h) !! (id, Res1, ts))
  ∧ (knownSystem id h → knownSystem id h') ∧ (noFaults (h_m h) → noFaults (h_m h')).
Definition arrival h : Z := unix (clock (h_m h)).
Inductive reports (id : Z) : list (Z * Metrics) → hub → hub → Prop :=
| reports_none h : reports id [] h h
| reports_sample l h h1 h2 m : reports id l h h1 → record formatPct formatNum id m h1 = (tt, h2) →
    clock (h_m h1) ≤ clock (h_m h2) → reports id (l ++ [(arrival h2, m)]) h h2
| reports_flush l h h1 h2 : reports id l h h1 → flushState id false h1 = (tt, h2) →
    clock (h_m h1) ≤ clock (h_m h2) → reports id l h h2
| reports_other l h h1 h2 : reports id l h h1 → bystander id h1 h2 →
    clock (h_m h1) ≤ clock (h_m h2) → reports id l h h2.

(** The samples of one minute, and their column sums in order of arrival. *)
Definition inMinute (l : list (Z * Metrics)) (minute : Z) : list Metrics :=
  map snd (selectWhere (λ x, minuteOf x.1 =? minute) l).
Definition sumOf (xs : list Metrics) : list f64 := fold_left (λ acc m, zip_with fadd acc (metricValues m)) xs zeroSum.
Definition averageOf (xs : list Metrics) : list f64 := average (sumOf xs) (Z.of_nat (length xs)).

Lemma inMinute_app l t m minute :
  inMinute (l ++ [(t, m)]) minute = inMinute l minute ++ (if minuteOf t =? minute then [m] else []).
Proof. unfold inMinute, selectWhere. rewrite List.filter_app, map_app. cbn. by destruct (minuteOf t =? minute). Qed.
Lemma sumOf_app xs m : sumOf (xs ++ [m]) = zip_with fadd (sumOf xs) (metricValues m).
Proof. unfold sumOf. by rewrite fold_left_app. Qed.
Lemma minuteOf_mono a b : a ≤ b → minuteOf a ≤ minuteOf b.
Proof. intros Hab. unfold minuteOf. pose proof (Z.quot_le_mono a b 60). lia. Qed.

(** The bucket in progress holds the samples of its minute; every other minute with samples is
    in the history, and over. *)
Definition isOpen (st : sysState) (minute : Z) : bool := negb (st_n st =? 0) && (st_bucketTS st =? minute).
Record tracked (id : Z) (l : list (Z * Metrics)) h : Prop := {
  tr_nf : noFaults (h_m h);
  tr_agent : is_Some (h_agents h !! id);
  tr_known : knownSystem id h;
  tr_ring : st_ring (stateAt id h) = drop (length l - liveRingSize) (map (λ x, mkLivePoint x.1 (lite x.2)) l);
  tr_count : st_n (stateAt id h) = 0 → st_sum (stateAt id h) = zeroSum;
  tr_open : st_n (stateAt id h) ≠ 0 →
    let xs := inMinute l (st_bucketTS (stateAt id h)) in
    st_sum (stateAt id h) = sumOf xs ∧ st_n (stateAt id h) = Z.of_nat (length xs)
    ∧ st_bucketTS (stateAt id h) ≤ minuteOf (arrival h);
  tr_closed : ∀ minute, inMinute l minute ≠ [] → isOpen (stateAt id h) minute = false →
    metrics (tables h) !! (id, Res1, minute) = Some (averageOf (inMinute l minute)) ∧ minute < minuteOf (arrival h);
}.
Lemma arrival_mono h h' : clock (h_m h) ≤ clock (h_m h') → minuteOf (arrival h) ≤ minuteOf (arrival h').
Proof. intros Hc. by apply minuteOf_mono, unix_mono. Qed.
Lemma pushRing_last (p : livePoint) l0 :
  pushRing p (drop (length l0 - liveRingSize) l0) = drop (length (l0 ++ [p]) - liveRingSize) (l0 ++ [p]).
Proof.
  unfold pushRing. rewrite !length_app, length_drop. cbn [length].
  set (n := liveRingSize). assert (n = 180%nat) by done. clearbody n.
  destruct (Nat.ltb_spec n (length l0 - (length l0 - n) + 1)).
  - rewrite <-drop_app_le, drop_drop by lia. f_equal. lia.
  - rewrite <-drop_app_le by lia. f_equal. lia.
Qed.

Lemma stateAt_put id st rows h h' : samplesAre id st rows h h' → stateAt id h' = st.
Proof. intros (Hs & _). unfold stateAt. rewrite Hs. by rewrite lookup_insert_eq. Qed.
Lemma tracked_fresh id l h h' : tracked id l h → clock (h_m h) ≤ clock (h_m h') →
  isOpen (stateAt id h) (minuteOf (arrival h')) = false → inMinute l (minuteOf (arrival h')) = [].
Proof.
  intros Ht Hc Ho. pose proof (arrival_mono _ _ Hc). destruct (inMinute l (minuteOf (arrival h'))) eqn:E; [done|].
  destruct (tr_closed _ _ _ Ht (minuteOf (arrival h'))); [by rewrite E|done|]. lia.
Qed.
(** The row [absorb] closes is the average of its minute. *)
Lemma tracked_row id l h : tracked id l h → st_n (stateAt id h) ≠ 0 →
  average (st_sum (stateAt id h)) (st_n (stateAt id h)) = averageOf (inMinute l (st_bucketTS (stateAt id h))).
Proof. intros Ht Hn. destruct (tr_open _ _ _ Ht Hn) as (-> & -> & _). done. Qed.
Lemma absorb_cases now m st :
  let mi := minuteOf now in let '(done, st') := absorb now m st in
  st_bucketTS st' = mi ∧ st_ring st' = pushRing (mkLivePoint now (lite m)) (st_ring st)
  ∧ if (0 <? st_n st) && negb (st_bucketTS st =? mi)
    then done = Some (takeBucket st).1 ∧ st_sum st' = zip_with fadd zeroSum (metricValues m) ∧ st_n st' = 1
    else done = None ∧ st_sum st' = zip_with fadd (st_sum st) (metricValues m) ∧ st_n st' = st_n st + 1.
Proof. unfold absorb. cbn [takeBucket]. by destruct ((0 <? st_n st) && _). Qed.

Lemma tracked_sample id l h h' m done st' :
  tracked id l h → absorb (arrival h') m (stateAt id h) = (done, st') →
  samplesAre id st' (storedRow id done (metrics (tables h))) h h' → clock (h_m h) ≤ clock (h_m h') →
  tracked id (l ++ [(arrival h', m)]) h'.
Proof.
  intros Ht Hab Hs Hc. pose proof (absorb_cases (arrival h') m (stateAt id h)) as Hcase. rewrite Hab in Hcase.
  cbn zeta in Hcase. destruct Hcase as (Hb & Hr & Hcase). pose proof (stateAt_put _ _ _ _ _ Hs) as Hst.
  pose proof (arrival_mono _ _ Hc) as Hmono. pose proof (tracked_row _ _ _ Ht) as Hrow.
  destruct Ht as [Hnf Hag Hkn Hring Hz Hopen Hclosed] eqn:Eht. destruct Hs as (Hs & Ha & Hm & Hk & Hn). clear Eht.
  assert (Hfresh : isOpen (stateAt id h) (minuteOf (arrival h')) = false → inMinute l (minuteOf (arrival h')) = [])
    by exact (tracked_fresh id l h h' Ht Hc).
  assert (Hpos : st_n (stateAt id h) ≠ 0 → 0 < st_n (stateAt id h)).
  { intros Hne. destruct (Hopen Hne) as (_ & He & _). lia. }
  assert (Hsum : st_sum st' = sumOf (inMinute (l ++ [(arrival h', m)]) (minuteOf (arrival h')))
    ∧ st_n st' = Z.of_nat (length (inMinute (l ++ [(arrival h', m)]) (minuteOf (arrival h'))))).
  { rewrite inMinute_app, Z.eqb_refl, sumOf_app, length_app. cbn [length]. unfold isOpen in Hfresh.
    destruct (Z.eq_dec (st_n (stateAt id h)) 0) as [E0|E0].
    - rewrite E0 in *. cbn in Hcase, Hfresh. rewrite Hfresh by done. destruct Hcase as (_ & -> & ->). by rewrite Hz.
    - destruct (Hopen E0) as (Ex & En & _). rewrite (proj2 (Z.eqb_neq _ _) E0) in Hfresh. cbn [negb andb] in Hfresh.
      rewrite (proj2 (Z.ltb_lt _ _) (Hpos E0)) in Hcase. cbn [andb] in Hcase.
      destruct (Z.eqb_spec (st_bucketTS (stateAt id h)) (minuteOf (arrival h'))) as [Eb|Eb]; cbn [negb] in Hcase.
      + destruct Hcase as (_ & -> & ->). rewrite Eb in *. rewrite Ex, En. split; [done|lia].
      + destruct Hcase as (_ & -> & ->). rewrite Hfresh by done. done. }
  split; rewrite ?Hst; [done|by rewrite Ha|done| | | |].
  - rewrite Hr, Hring, map_app, length_app. cbn [map fst snd length].
    pose proof (pushRing_last (mkLivePoint (arrival h') (lite m)) (map (λ x, mkLivePoint x.1 (lite x.2)) l)) as Hp.
    rewrite length_app, length_map in Hp. exact Hp.
  - intros E0. rewrite E0 in Hsum. rewrite inMinute_app, Z.eqb_refl, length_app in Hsum. cbn [length] in Hsum. lia.
  - intros _. rewrite Hb. destruct Hsum. split_and!; [done|done|lia].
  - intros k Hk1 Hk2. unfold isOpen in Hk2. rewrite Hb in Hk2.
    assert (Hne : (minuteOf (arrival h') =? k) = false).
    { destruct (_ =? k) eqn:E; [|done]. rewrite andb_true_r in Hk2. bool_hyps. rewrite inMinute_app, Z.eqb_refl, length_app in Hsum.
      cbn [length] in Hsum. lia. }
    rewrite inMinute_app, Hne, app_nil_r in *. bool_hyps.
    destruct (isOpen (stateAt id h) k) eqn:Eo.
    + unfold isOpen in Eo. bool_hyps. subst k. rewrite (proj2 (Z.ltb_lt _ _)) in Hcase by auto. cbn [andb] in Hcase.
      rewrite (proj2 (Z.eqb_neq (st_bucketTS _) _)) in Hcase by done. cbn [negb] in Hcase. destruct Hcase as (-> & _).
      rewrite Hm. cbn [storedRow takeBucket fst mr_TS mr_Values]. rewrite lookup_insert_eq. rewrite Hrow by done. split; [done|].
      destruct (Hopen ltac:(done)) as (_ & _ & ?). lia.
    + destruct (Hclosed k Hk1 Eo) as [He Hlt]. split; [|lia]. rewrite Hm, <-He.
      destruct ((0 <? st_n (stateAt id h)) && _) eqn:Ec; destruct Hcase as (-> & _); cbn [storedRow]; [|done].
      cbn [takeBucket fst mr_TS mr_Values]. apply lookup_insert_ne. intros [= Ek]. unfold isOpen in Eo. bool_hyps.
      rewrite <-Ek, Z.eqb_refl, andb_true_r in Eo. bool_hyps. lia.
Qed.
Lemma tracked_same id l h h' :
  tracked id l h → bystander id h h' → clock (h_m h) ≤ clock (h_m h') → tracked id l h'.
Proof.
  intros [Hnf Hag Hkn Hring Hz Hopen Hclosed] (Hs & Ha & Hm & Hk & Hn) Hc. pose proof (arrival_mono _ _ Hc).
  assert (Hst : stateAt id h' = stateAt id h) by (unfold stateAt; by rewrite Hs).
  split; rewrite ?Hst; auto.
  - intros E0. destruct (Hopen E0) as (? & ? & ?). split_and!; [done|done|lia].
  - intros k Hk1 Hk2. destruct (Hclosed k Hk1 Hk2) as [He ?]. rewrite Hm, He. split; [done|lia].
Qed.
Lemma tracked_flush id l h h' :
  tracked id l h → flushState id false h = (tt, h') → clock (h_m h) ≤ clock (h_m h') → tracked id l h'.
Proof.
  intros Ht Hf Hc. pose proof (wp_run _ _ _ _ _ (flush_effect id false h (tr_nf _ _ _ Ht) (tr_known _ _ _ Ht)) Hf) as Hs.
  cbn beta zeta in Hs. cbn [negb andb] in Hs. pose proof (arrival_mono _ _ Hc). fold (arrival h') in Hs. destruct ((st_n _ =? 0) || _) eqn:Eb.
  - destruct Hs as (Hs & Ha & Hd & Hn). apply (tracked_same _ _ h); [done| |done]. unfold bystander, knownSystem.
    rewrite Hs, Ha, Hd. done.
  - pose proof (stateAt_put _ _ _ _ _ Hs) as Hst. pose proof (tracked_row _ _ _ Ht) as Hrow.
    destruct Ht as [Hnf Hag Hkn Hring Hz Hopen Hclosed]. destruct Hs as (_ & Ha & Hm & Hk & Hn). bool_hyps.
    split; rewrite ?Hst; cbn [takeBucket snd st_ring st_n st_sum st_bucketTS]; auto; [by rewrite Ha|done|].
    intros k Hk1 _. rewrite Hm. cbn [storedRow takeBucket fst mr_TS mr_Values].
    destruct (Z.eqb_spec (st_bucketTS (stateAt id h)) k) as [<-|Ek].
    + rewrite lookup_insert_eq, Hrow by done. split; [done|lia].
    + rewrite lookup_insert_ne by congruence. destruct (Hclosed k Hk1) as [He ?]; [|split; [done|lia]].
      unfold isOpen. by rewrite (proj2 (Z.eqb_neq _ _) Ek), andb_false_r.
Qed.
Lemma reports_tracked id l h h' : reports id l h h' → tracked id [] h → tracked id l h'.
Proof.
  induction 1 as [h|l h h1 h2 m _ IH Hr Hc|l h h1 h2 _ IH Hf Hc|l h h1 h2 _ IH Hb Hc]; intros Ht; [done|..]; specialize (IH Ht).
  - pose proof (wp_run _ _ _ _ _ (record_effect id m h1 (tr_nf _ _ _ IH) (tr_known _ _ _ IH) (tr_agent _ _ _ IH)) Hr) as Hs.
    cbn beta zeta in Hs. fold (arrival h2) in Hs. destruct (absorb _ _ _) as [done st'] eqn:E. by eapply tracked_sample.
  - by eapply tracked_flush.
  - by eapply tracked_same.
Qed.

(** A system as it is right after its agent connected for the first time: no samples yet. *)
Definition justConnected (id : Z) h : Prop :=
  noFaults (h_m h) ∧ is_Some (h_agents h !! id) ∧ knownSystem id h ∧ h_states h !! id = None.
Lemma justConnected_tracked id h : justConnected id h → tracked id [] h.
Proof. intros (? & ? & ? & E). split; unfold stateAt; rewrite ?E; done. Qed.

(** The history is right: whatever mix of samples and periodic flushes happened since the
    agent connected, each minute that had samples is stored as the column-wise average of
    exactly the samples that arrived in it (the sum in order of arrival, divided by their
    number), and the minute in progress, if it had samples, is the bucket in memory, with
    the same average. No sample is lost or counted twice. *)
Theorem minute_averages (id : Z) (l : list (Z * Metrics)) (h h' : hub)
    (Hnew : justConnected id h) (Hrun : reports id l h h') (minute : Z) (Hsome : inMinute l minute ≠ []) :
  if isOpen (stateAt id h') minute
  then ∃ row, currentBucket id h' = Some row ∧ mr_Values row = averageOf (inMinute l minute)
  else metrics (tables h') !! (id, Res1, minute) = Some (averageOf (inMinute l minute)).
Proof.
  pose proof (reports_tracked _ _ _ _ Hrun (justConnected_tracked _ _ Hnew)) as Ht.
  destruct (isOpen _ _) eqn:Eo; [|by apply (tr_closed _ _ _ Ht)].
  unfold isOpen in Eo. bool_hyps. pose proof (tracked_row _ _ _ Ht) as Hrow. unfold currentBucket, stateAt in *.
  destruct (h_states h' !! id) as [st|]; [|done]. cbn [default Datatypes.id] in *. subst minute.
  rewrite (proj2 (Z.eqb_neq _ _)) by done. eexists. split; [done|]. cbn [mr_Values]. by apply Hrow.
Qed.
(** The live chart shows the last 180 samples, oldest first, with the second each
    arrived in. *)
Theorem live_chart (id : Z) (l : list (Z * Metrics)) (h h' : hub)
    (Hnew : justConnected id h) (Hrun : reports id l h h') :
  liveSeries id h' = drop (length l - liveRingSize) (map (λ x, mkMetricRow x.1 (metricValues x.2)) l)
  ∧ (length (liveSeries id h') ≤ 180)%nat.
Proof.
  pose proof (reports_tracked _ _ _ _ Hrun (justConnected_tracked _ _ Hnew)) as Ht.
  assert (Hl : liveSeries id h' = map (λ p, mkMetricRow (lp_T p) (metricValues (lp_M p))) (st_ring (stateAt id h'))).
  { unfold liveSeries, stateAt. by destruct (h_states h' !! id). }
  assert (He : liveSeries id h' = drop (length l - liveRingSize) (map (λ x, mkMetricRow x.1 (metricValues x.2)) l)).
  { rewrite Hl, (tr_ring _ _ _ Ht). rewrite <-skipn_map, map_map. done. }
  split; [done|]. rewrite He, length_drop, length_map. change 180%nat with liveRingSize. lia.
Qed.
End props.

(** ** Witnesses *)
Definition demoInfo : SystemInfo := mkSystemInfo "pi" "linux" "debian" "12" "6.1" "arm64" "A72" 4 4096 [].
Definition demoAgent (conn : nat) : agentConn := mkAgentConn conn 1 "pi" "@" demoInfo [].
Definition demoSample (cpu : Z) : Metrics :=
  mkMetrics 0 (ofInt cpu) 1 2 0 0 1 2 fzero fzero fzero fzero fzero fzero fzero 60 None [] [].
Definition demoMarsh : Marshal := λ _, "{}".
(** One system, its agent connected, at second 120; the clock moves 5, 10 and 50 seconds. *)
Definition demoConnected : hub :=
  let m := (CreateSystem "pi" "SHA256:pi" "{}" "1.0.0" demoAdmin).2 in
  with_agents {[1 := demoAgent 0]} (newHub (mkConfig "" []) ∅ (mkMach (m_db m) (mkEnv (seconds 120) (map seconds [5; 10; 50]) [] []))).
Definition demoRecord (cpu : Z) (h : hub) : hub := (@record demoLib demoMarsh (λ _, "") (λ _, "") 1 (demoSample cpu) h).2.
Definition demoRecorded : hub := demoRecord 70 (demoRecord 30 (demoRecord 10 demoConnected)).
Lemma demoReports :
  @reports demoLib demoMarsh (λ _, "") (λ _, "") 1 [(125, demoSample 10); (135, demoSample 30); (185, demoSample 70)]
    demoConnected demoRecorded.
Proof.
  assert (Hr : ∀ cpu h, @record demoLib demoMarsh (λ _, "") (λ _, "") 1 (demoSample cpu) h = (tt, demoRecord cpu h)).
  { intros cpu h. unfold demoRecord. by destruct (record _ _ _ _ _) as [[] ?]. }
  pose proof (reports_sample (λ _, "") (λ _, "") 1 [] demoConnected demoConnected _ (demoSample 10) (reports_none _ _ _ _) (Hr _ _)) as H1.
  pose proof (λ Hc, reports_sample (λ _, "") (λ _, "") 1 _ _ _ _ (demoSample 30) (H1 Hc) (Hr _ _)) as H2.
  pose proof (λ Hc Hd, reports_sample (λ _, "") (λ _, "") 1 _ _ _ _ (demoSample 70) (H2 Hc Hd) (Hr _ _)) as H3.
  apply H3; vm_compute; discriminate.
Qed.
Lemma demoJustConnected : justConnected 1 demoConnected.
Proof. split_and!; [done|by eexists|done|done]. Qed.
Lemma minute_averages_witness :
  metrics (m_db (h_m demoRecorded)) !! (1, Res1, 120) = Some (averageOf [demoSample 10; demoSample 30]).
Proof.
  refine (minute_averages _ _ 1 _ demoConnected demoRecorded demoJustConnected demoReports 120 _). discriminate.
Defined.
Lemma live_chart_witness : map mr_TS (liveSeries 1 demoRecorded) = [125; 135; 185].
Proof.
  destruct (live_chart _ _ 1 _ demoConnected demoRecorded demoJustConnected demoReports) as [-> _]. reflexivity.
Defined.
