(* ===== verification/Gateway.v ===== *)
(** * Agent connections ([internal/hub/gateway.go])

    What the hub does for an agent whose SSH handshake finished with the key of fingerprint
    [fingerprint]: the first request, admission and enrollment, registration, samples, and the
    end of the connection. A connection is a number ([ac_conn]); the pointer comparisons of the
    source compare it. *)
From Stdlib Require Import ZArith Lia Ascii String.
From S2P Require Import Prelude GoStrings Float64 Library Store StoreTables StoreInv StoreSteps Metrics Limiter TailBuffer Update Webauthn Protocol Hub Auth AuthProps Alerts AlertProps State.
From stdpp Require Import base gmap strings list relations.
Local Open Scope string_scope.
Local Open Scope list_scope.
Local Open Scope Z_scope.
Local Open Scope lotse_scope.

Definition maxFilesystems : nat := 32.
Definition statusEvent (id : Z) (online : bool) : json := JObj [("id", JInt id); ("online", JBool online)].

(** [n.Contains(ip)] for an IPv4 network [n] given by its masked address and prefix length. *)
Definition netContains (n : Z * Z) (a : netAddr) : bool :=
  match Unmap a with
  | Addr4 ip => Z.shiftr ip (32 - n.2) =? Z.shiftr n.1 (32 - n.2)
  | Addr6 _ _ => false
  end.
Definition withMetricsFS (l : list Filesystem) (m : Metrics) : Metrics :=
  mkMetrics (me_Time m) (me_CPU m) (me_MemUsed m) (me_MemTotal m) (me_SwapUsed m) (me_SwapTotal m) (me_DiskUsed m)
    (me_DiskTotal m) (me_DiskRead m) (me_DiskWrite m) (me_NetRx m) (me_NetTx m) (me_Load1 m) (me_Load5 m) (me_Load15 m)
    (me_Uptime m) (me_Battery m) l (me_Containers m).

Section gateway.
Context `{Lib} `{Marshal} `{!Unmarshal Hello} `{!Unmarshal Metrics}.
Context (formatPct formatNum : f64 → string).

Definition inNetwork (ac : agentConn) (n : Z * Z) : bool :=
  existsb (λ iface, existsb (λ addr, match ParseCIDRAddr addr with
                                     | Some ip => netContains n ip
                                     | None => false
                                     end) (ni_Addrs iface)) (si_Interfaces (ac_info ac)).

(** The system of the key, or the message for the agent. *)
Definition admitAgent (fingerprint : string) (hello : Hello) : M hub (System + string) :=
  if negb (he_Protocol hello =? ProtocolVersion)
  then mret (inr ("agent speaks protocol " +:+ itoa (he_Protocol hello) +:+ ", hub speaks "
                  +:+ itoa ProtocolVersion +:+ "; update the agent"))
  else
  let info := marshal (infoJSON (he_Info hello)) in
  found ← db (SystemByFingerprint fingerprint);
  match found with
  | Ok sys =>
    if negb (String.eqb (sy_Info sys) info) || negb (String.eqb (sy_AgentVersion sys) (he_AgentVersion hello)) then
      _ ← db (UpdateSystemInfo (sy_ID sys) info (he_AgentVersion hello));
      publish "systems" JNull;;
      mret (inl (withInfo info (he_AgentVersion hello) sys))
    else mret (inl sys)
  | Err ErrNotFound =>
    if String.eqb (he_Token hello) ""
    then mret (inr "unknown agent; add it with an enrollment token from the hub UI") else
    valid ← db (ValidEnrollToken (hashToken (he_Token hello)));
    match valid with
    | Err _ => mret (inr "internal error")
    | Ok false => mret (inr "enrollment token is invalid or expired")
    | Ok true =>
      let name0 := TrimSpace (si_Hostname (he_Info hello)) in
      let name1 := if String.eqb name0 "" then "unnamed" else name0 in
      let name := if maxNameLen <? strLen name1 then stringOf (take (Z.to_nat maxNameLen) (bytesOf name1)) else name1 in
      created ← db (CreateSystem name fingerprint info (he_AgentVersion hello));
      match created with
      | Err _ => mret (inr "internal error")
      | Ok sys =>
        audit None "" "system_enrolled" (Some sys) ("agent key " +:+ fingerprint);;
        publish "systems" JNull;;
        mret (inl sys)
      end
    end
  | Err _ => mret (inr "internal error")
  end.

Definition isCurrent (ac : agentConn) (h : hub) : bool :=
  match h_agents h !! ac_id ac with Some x => (ac_conn x =? ac_conn ac)%nat | None => false end.
Definition dropAgent (id : Z) : M hub unit := mmodify (λ h, with_agents (delete id (h_agents h)) h).
(** The report interval; a second connection of the system replaces the first. *)
Definition register (ac : agentConn) : M hub Z :=
  h ← mget;
  let old := h_agents h !! ac_id ac in
  mmodify (λ h, with_agents (<[ac_id ac := ac]> (h_agents h)) h);;
  let interval := intervalLocked h in
  match old with Some o => emit (ECloseLink (ac_conn o)) | None => mret tt end;;
  publish "status" (statusEvent (ac_id ac) true);;
  agentOnline (ac_id ac);;
  mret interval.
Definition unregister (ac : agentConn) : M hub unit :=
  h ← mget;
  if negb (isCurrent ac h) then mret tt else
  dropAgent (ac_id ac);;
  match h_states h !! ac_id ac with Some _ => flushState (ac_id ac) true | None => mret tt end;;
  agentOffline (ac_id ac);;
  publish "status" (statusEvent (ac_id ac) false).

Definition helloReply (ok : bool) (error : string) (interval : Z) : json :=
  JObj ([("ok", JBool ok)] ++ (if String.eqb error "" then [] else [("error", JStr error)])
        ++ (if interval =? 0 then [] else [("interval", JInt interval)])).
(** [serveAgent] up to its loop. [req]: the type and payload of the first request, [None] when
    none came. The answer to the request, and the connection when it was accepted (then the
    loop runs and ends with [unregister]); a refused one is over. *)
Definition serveAgent (conn : nat) (remote fingerprint : string) (req : option (string * string))
    : M hub (option (bool * json) * option agentConn) :=
  match req with
  | None => mret (None, None)
  | Some (typ, payload) =>
    if negb (String.eqb typ ReqHello) then mret (Some (false, JNull), None) else
    let '(hello, ok) := unmarshal payload : Hello * bool in
    if negb ok then mret (Some (false, JNull), None) else
    admitted ← admitAgent fingerprint hello;
    match admitted with
    | inr msg => mret (Some (false, helloReply false msg 0), None)
    | inl sys =>
      let ac := mkAgentConn conn (sy_ID sys) (sy_Name sys) remote (he_Info hello) (he_Features hello) in
      interval ← register ac;
      again ← db (getSystem (sy_ID sys));
      match again with
      | Err ErrNotFound =>
        h ← mget;
        (if isCurrent ac h then dropAgent (ac_id ac) else mret tt);;
        unregister ac;;
        mret (Some (false, helloReply false "this system was deleted on the hub; enroll it again" 0), None)
      | _ => mret (Some (true, helloReply true "" interval), Some ac)
      end
    end
  end.
(** [handleAgent]: [accepted] is the upgrade of the request; [handshake] the key the agent has
    proven and its first request, [None] when the SSH handshake failed. *)
Definition handleAgent (conn : nat) (r : request) (accepted : bool) (handshake : option (string * option (string * string)))
    : M hub (option (bool * json) * option agentConn) :=
  if negb accepted then mret (None, None) else
  match handshake with
  | None => mret (None, None)
  | Some (fingerprint, req) => serveAgent conn (clientIP r) fingerprint req
  end.
(** One request in the loop: the answer. *)
Definition agentRequest (sysID : Z) (typ payload : string) : M hub bool :=
  if negb (String.eqb typ ReqMetrics) then mret false else
  let '(m, ok) := unmarshal payload : Metrics * bool in
  if negb ok then mret false else
  let m' := if (maxFilesystems <? length (me_Filesystems m))%nat
            then withMetricsFS (take maxFilesystems (me_Filesystems m)) m else m in
  record formatPct formatNum sysID m';;
  mret true.
(** The watchdog closes a link that was silent for too long. *)
Definition watchdogCloses (lastMsg now : Z) : bool := agentTimeout <? timeSub now lastMsg.
End gateway.

(** ** Admission *)
Section admission.
Context `{Lib} `{Marshal}.
Implicit Types (h : hub) (hello : Hello).
Abbreviation tables h := (m_db (h_m h)).

Definition knownKey (fp : string) h : Prop := ∃ s, s ∈ systems (tables h) ∧ sy_Fingerprint s = fp.
(** The token exists and is not expired when the hub looks. *)
Definition goodToken (token : string) h : Prop :=
  token ≠ "" ∧ ∃ e, e ∈ enroll_tokens (tables h) ∧ er_token_hash e = hashToken token
                    ∧ unix (timeNow (h_m h)).1 < er_expires_at e.
(** No system but those of [h]: same numbers, same keys. *)
Definition sameSystems h h' : Prop :=
  ∀ s, s ∈ systems (tables h') → ∃ s0, s0 ∈ systems (tables h) ∧ sy_ID s0 = sy_ID s ∧ sy_Fingerprint s0 = sy_Fingerprint s.


(** Steps after the decision: the tables of systems and tokens stay. *)
Definition keepsSystems h h' : Prop := systems (tables h') = systems (tables h) ∧ (noFaults (h_m h) → noFaults (h_m h')).
#[local] Instance keepsSystems_preorder : PreOrder keepsSystems.
Proof. split; unfold keepsSystems; [done|]. intros h1 h2 h3 [? ?] [? ?]. split; [congruence|auto]. Qed.
Lemma steps_audit_keepsSystems r u a s d : steps keepsSystems (audit r u a s d).
Proof.
  unfold audit. go_steps. intros h. unfold keepsSystems, db, AddAudit.
  destruct (h_m h) as [[] [t ks fs rs]]. unfold noFaults. cbn. destruct ks as [|k ks], fs as [|[] fs]; cbn; done.
Qed.
Lemma steps_publish_keepsSystems e d : steps keepsSystems (publish e d).
Proof. intros h. unfold publish, mmodify. cbn. by destruct (decide _). Qed.
Hint Resolve steps_audit_keepsSystems steps_publish_keepsSystems : steps.
Lemma UpdateSystemInfo_same id info v h :
  wp (db (UpdateSystemInfo id info v)) (λ _ h', sameSystems h h') h.
Proof.
  unfold UpdateSystemInfo. apply wp_db, wp_bind, wp_sql; intros m Hm; apply wp_ret; unfold sameSystems; cbn [h_m with_m]; rewrite Hm.
  - unfold updateSystems. cbn [snd]. intros s. assert (∀ l d, systems (set_systems l d) = l) as -> by by intros ? [].
    intros (s0 & Hs0 & ->)%elem_of_updateWhere. exists s0. by destruct (sy_ID s0 =? id).
  - intros s Hs. by exists s.
Qed.
(** Enrollment: one more system, with the given key. *)
Lemma CreateSystem_effect name fp info v h :
  ¬ knownKey fp h →
  wp (db (CreateSystem name fp info v)) (λ r h',
    (∀ s, s ∈ systems (tables h') → s ∈ systems (tables h) ∨ sy_Fingerprint s = fp)
    ∧ (∀ sys, r = Ok sys → sys ∈ systems (tables h') ∧ sy_Fingerprint sys = fp)
    ∧ (noFaults (h_m h) → is_ok r = true)) h.
Proof.
  intros Hnew. unfold CreateSystem. apply wp_db, wp_bind, wp_timeNow_full. intros m1 Hm1 Hn1. apply wp_bind.
  assert (He : existsWhere (λ x, String.eqb (sy_Fingerprint x) fp) (systems (m_db m1)) = false).
  { apply existsWhere_false. intros x Hx. apply String.eqb_neq. rewrite Hm1 in Hx. intros He. apply Hnew. by exists x. }
  apply wp_sql_cases; unfold insertSystem; rewrite ?He; cbn [fst snd].
  - intros m2 Hm2 Hn2. set (row := mkSystem _ _ _ _ _ _ _ _) in *.
    assert (Hs : systems (m_db m2) = systems (tables h) ++ [row]) by (rewrite Hm2, Hm1; by destruct (tables h)).
    unfold getSystem. apply wp_query_cases; intros m3 Hm3 Hn3; cbn [h_m with_m]; rewrite Hm3, Hs; split_and!.
    1,4: intros s [?| ->%list_elem_of_singleton]%elem_of_app; auto.
    + intros sys Hq. apply oneRow_ok, elem_of_selectWhere in Hq as [Hin Hid]. split; [done|]. bool_hyps.
      apply elem_of_app in Hin as [Hin| ->%list_elem_of_singleton]; [|done]. exfalso.
      apply (nextID_fresh (map sy_ID (systems (m_db m1)))). rewrite <-Hid, Hm1. by apply list_elem_of_fmap_2.
    + intros _. destruct (oneRow _) eqn:E; [done|]. exfalso. unfold selectWhere in E. rewrite List.filter_app in E.
      cbn in E. rewrite Z.eqb_refl in E. by destruct (List.filter _ _).
    + done.
    + intros Hn. exfalso. auto.
  - intros m2 Hm2 Hn2. apply wp_ret. cbn [h_m with_m]. rewrite Hm2, Hm1. split_and!; [auto|done|intros Hn; exfalso; auto].
Qed.
Lemma wp_then_inl (m : M hub unit) (sys : System) (R : hub → hub → Prop) (Q : System + string → hub → Prop) h :
  steps R m → (∀ h', R h h' → Q (inl sys) h') → wp (m ≫= λ _, mret (inl sys)) Q h.
Proof. intros Hm HQ. apply wp_bind. eapply wp_steps; [done|]. intros _ h' HR. apply wp_ret, HQ, HR. Qed.

(** What [admitAgent] decides, in terms of the tables it found. *)
Definition admitPost (fp : string) hello h (r : System + string) h' : Prop :=
  (∀ sys, r = inl sys → he_Protocol hello = ProtocolVersion ∧ sy_Fingerprint sys = fp
            ∧ ∃ s, s ∈ systems (tables h') ∧ sy_ID s = sy_ID sys ∧ sy_Fingerprint s = fp)
  ∧ (∀ s, s ∈ systems (tables h') →
       (∃ s0, s0 ∈ systems (tables h) ∧ sy_ID s0 = sy_ID s ∧ sy_Fingerprint s0 = sy_Fingerprint s)
       ∨ (sy_Fingerprint s = fp ∧ he_Protocol hello = ProtocolVersion ∧ ¬ knownKey fp h ∧ goodToken (he_Token hello) h))
  ∧ (noFaults (h_m h) → he_Protocol hello = ProtocolVersion → knownKey fp h ∨ goodToken (he_Token hello) h → ∃ sys, r = inl sys).
Lemma admitPost_refused fp hello h msg h' :
  tables h' = tables h →
  (noFaults (h_m h) → he_Protocol hello = ProtocolVersion → knownKey fp h ∨ goodToken (he_Token hello) h → False) →
  admitPost fp hello h (inr msg) h'.
Proof.
  intros Ht Hno. split_and!; [done| |].
  - rewrite Ht. intros s Hs. left. by exists s.
  - intros ? ? ?. exfalso. auto.
Qed.
Lemma goodToken_counted token h t :
  token ≠ "" → t = (timeNow (h_m h)).1 →
  (0 <? countWhere (λ x, String.eqb (er_token_hash x) (hashToken token) && (unix t <? er_expires_at x)%Z) (enroll_tokens (tables h)))%nat = true
  ↔ goodToken token h.
Proof.
  intros Hne ->. rewrite Nat.ltb_lt, countWhere_pos. unfold goodToken. split.
  - intros (e & He & Hb). bool_hyps. split; [done|]. eauto.
  - intros [_ (e & He & Hh & Hx)]. exists e. split; [done|]. rewrite Hh, String.eqb_refl. by apply Z.ltb_lt.
Qed.
Lemma admit_known fp hello h h1 sys info :
  sys ∈ systems (tables h) → sy_Fingerprint sys = fp → he_Protocol hello = ProtocolVersion → tables h1 = tables h →
  wp (if negb (String.eqb (sy_Info sys) info) || negb (String.eqb (sy_AgentVersion sys) (he_AgentVersion hello)) then
        _ ← db (UpdateSystemInfo (sy_ID sys) info (he_AgentVersion hello));
        publish "systems" JNull;; mret (inl (withInfo info (he_AgentVersion hello) sys))
      else mret (inl sys)) (admitPost fp hello h) h1.
Proof.
  intros Hin Hfp Hp Ht.
  destruct (_ || _); [|apply wp_ret; split_and!; [intros ? [= <-]; split_and!; [done|done|exists sys; by rewrite Ht]|..|by eauto];
    rewrite Ht; intros s Hs; left; by exists s].
  apply wp_bind. eapply wp_mono; [apply wp_and; [apply UpdateSystemInfo_same|];
    apply (wp_db _ (λ _ h', ∃ s, s ∈ systems (tables h') ∧ sy_ID s = sy_ID sys ∧ sy_Fingerprint s = fp)); unfold UpdateSystemInfo; apply wp_bind|].
  - apply wp_sql; intros m Hm; apply wp_ret; cbn [h_m with_m]; rewrite Hm, Ht; [|by exists sys].
    exists (withInfo info (he_AgentVersion hello) sys). split; [|done]. unfold updateSystems. cbn [snd].
    assert (∀ l d, systems (set_systems l d) = l) as -> by by intros ? []. apply elem_of_updateWhere. exists sys.
    by rewrite Z.eqb_refl.
  - intros _ h2 [Hsame Hstill]. apply (wp_then_inl _ _ keepsSystems); [apply steps_publish_keepsSystems|].
    intros h3 [Hs3 _]. unfold admitPost. rewrite Hs3. split_and!; [|intros s Hs; left; unfold sameSystems in Hsame; rewrite Ht in Hsame; auto|eauto].
    intros ? [= <-]. split_and!; [done|done|]. destruct Hstill as (s & ? & ? & ?). by exists s.
Qed.
Lemma admit_new fp hello h h1 info :
  ¬ knownKey fp h → he_Protocol hello = ProtocolVersion → goodToken (he_Token hello) h →
  tables h1 = tables h → (noFaults (h_m h) → noFaults (h_m h1)) → ∀ name,
  wp (created ← db (CreateSystem name fp info (he_AgentVersion hello));
      match created with
      | Err _ => mret (inr "internal error")
      | Ok sys => audit None "" "system_enrolled" (Some sys) ("agent key " +:+ fp);;
                  publish "systems" JNull;; mret (inl sys)
      end) (admitPost fp hello h) h1.
Proof.
  intros Hnew Hp Htok Ht Hn name. apply wp_bind.
  eapply wp_mono; [apply CreateSystem_effect; unfold knownKey; by rewrite Ht|]. intros r h2 (Hall & Hok & Hsucc).
  assert (Hpast : ∀ s, s ∈ systems (tables h2) →
       (∃ s0, s0 ∈ systems (tables h) ∧ sy_ID s0 = sy_ID s ∧ sy_Fingerprint s0 = sy_Fingerprint s)
       ∨ (sy_Fingerprint s = fp ∧ he_Protocol hello = ProtocolVersion ∧ ¬ knownKey fp h ∧ goodToken (he_Token hello) h)).
  { intros s Hs. rewrite <-Ht. destruct (Hall s Hs); [left; by exists s|by right]. }
  destruct r as [sys|e].
  - destruct (Hok sys eq_refl) as [Hin Hfp]. apply wp_bind. eapply wp_steps; [apply steps_audit_keepsSystems|].
    intros _ h3 [Hs3 _]. apply (wp_then_inl _ _ keepsSystems); [apply steps_publish_keepsSystems|].
    intros h4 [Hs4 _]. unfold admitPost. rewrite Hs4, Hs3. split_and!; [|done|eauto].
    intros ? [= <-]. split_and!; [done|done|by exists sys].
  - apply wp_ret. split_and!; [done|done|]. intros Hf _ _. by specialize (Hsucc (Hn Hf)).
Qed.
Lemma admit_post fp hello h : wp (admitAgent fp hello) (admitPost fp hello h) h.
Proof.
  unfold admitAgent. destruct (Z.eqb_spec (he_Protocol hello) ProtocolVersion) as [Hp|Hp]; cbn [negb];
    [|apply wp_ret, admitPost_refused; [done|intros; done]].
  apply wp_bind. unfold SystemByFingerprint. apply wp_db, wp_query_clock; intros m1 Hm1 Hc1 Hn1.
  2: { apply wp_ret, admitPost_refused; [done|intros Hn _ _; by apply Hn1]. }
  destruct (oneRow _) as [sys|e] eqn:E.
  { apply oneRow_ok, elem_of_selectWhere in E as [Hin Hfp]. bool_hyps. by apply admit_known. }
  assert (Hnew : ¬ knownKey fp h).
  { intros (s & Hs & Hfp). destruct (selectWhere (λ x, String.eqb (sy_Fingerprint x) fp) (systems (tables h))) eqn:Es; [|done].
    assert (Hin : s ∈ ([] : list System)); [|by apply not_elem_of_nil in Hin]. rewrite <-Es. apply elem_of_selectWhere. split; [done|].
    by apply String.eqb_eq. }
  assert (He : e = ErrNotFound) by (destruct (selectWhere _ _); by simplify_eq/=). subst e.
  destruct (String.eqb_spec (he_Token hello) "") as [Htk|Htk];
    [apply wp_ret, admitPost_refused; [done|intros _ _ [?|[? _]]; done]|].
  apply wp_bind. unfold ValidEnrollToken. apply wp_db, wp_bind, wp_timeNow_full. intros m2 Hm2 Hn2. cbn [h_m with_m] in *.
  apply wp_query_cases; intros m3 Hm3 Hn3.
  2: { apply wp_ret, admitPost_refused; [cbn; congruence|intros Hn _ _; apply Hn3; auto]. }
  rewrite Hm2, Hm1, Hc1. destruct (0 <? _)%nat eqn:Ev.
  - apply goodToken_counted in Ev; [|done|done]. cbv zeta. apply admit_new; [done..|cbn; congruence|cbn; auto].
  - apply wp_ret, admitPost_refused; [cbn; congruence|]. intros _ _ [?|Hg]; [done|].
    apply (goodToken_counted (he_Token hello) h _ Htk eq_refl) in Hg. by rewrite Hg in Ev.
Qed.

(** C5. Only enrolled machines get in. An agent is admitted only when it speaks the hub's
    protocol, and as the system with its own key. A system the hub did not know before
    appears only with the key of this agent, and only when the agent sent an enrollment
    token that exists and has not expired. Conversely, when the database works, an agent with a known
    key or such a token is admitted. *)
Theorem admit_sound (fp : string) (hello : Hello) (h : hub) :
  let '(r, h') := admitAgent fp hello h in
  (∀ sys, r = inl sys → he_Protocol hello = ProtocolVersion ∧ sy_Fingerprint sys = fp
     ∧ ∃ s, s ∈ systems (tables h') ∧ sy_ID s = sy_ID sys ∧ sy_Fingerprint s = fp)
  ∧ (∀ s, s ∈ systems (tables h') →
       (∃ s0, s0 ∈ systems (tables h) ∧ sy_ID s0 = sy_ID s ∧ sy_Fingerprint s0 = sy_Fingerprint s)
       ∨ (sy_Fingerprint s = fp ∧ he_Protocol hello = ProtocolVersion ∧ ¬ knownKey fp h ∧ goodToken (he_Token hello) h))
  ∧ (noFaults (h_m h) → he_Protocol hello = ProtocolVersion → knownKey fp h ∨ goodToken (he_Token hello) h → ∃ sys, r = inl sys).
Proof. apply wp_let, admit_post. Qed.
End admission.
