(* ===== verification/Systems.v ===== *)
(** * Systems, charts and enrollment ([internal/hub/api.go], the audit log page of [audit.go] and
    the update offer of [agentupdate.go]) *)
From Stdlib Require Import ZArith Lia Ascii String SpecFloat Sorted.
From S2P Require Import Prelude GoStrings Float64 Library Store StoreTables StoreInv StoreSteps Metrics Limiter TailBuffer Update Webauthn Protocol Hub Auth AuthProps Alerts AlertProps AlertApi State Gateway.
From stdpp Require Import base gmap strings list relations.
Local Open Scope string_scope.
Local Open Scope list_scope.
Local Open Scope Z_scope.
Local Open Scope lotse_scope.

(** ** Charts *)
Definition ranges (name : string) : option (Z * Z) :=
  if String.eqb name "1h" then Some (Res1, hours 1)
  else if String.eqb name "24h" then Some (Res1, hours 24)
  else if String.eqb name "7d" then Some (Res10, hours (7 * 24))
  else if String.eqb name "30d" then Some (Res60, hours (30 * 24))
  else if String.eqb name "1y" then Some (Res60, hours (365 * 24))
  else None.
Definition liveSpan : Z := 5 * 60.

Record seriesDTO := mkSeries {
  se_Step : Z;
  se_From : Z;
  se_To : Z;
  se_T : list Z;
  se_Values : list (string * list f64);
}.
(** [math.Round]: half away from zero. *)
Definition fround (f : f64) : f64 :=
  match f with
  | S754_finite s m e =>
    if 0 <=? e then f
    else let n := (2 * Z.pos m + 2 ^ (- e)) / 2 ^ (1 - e) in
         if n =? 0 then S754_zero s else ofInt (if s then - n else n)
  | _ => f
  end.
(** [jsonFloat.MarshalJSON]. *)
Definition jsonFloat (v : f64) : json :=
  match v with
  | S754_nan | S754_infinity _ => JNull
  | _ => JFloat (fdiv (fround (fmul v (ofInt 100))) (ofInt 100))
  end.
(** A column of every row, with [vs] at the end of each. *)
Definition appendCols (cols : list (list f64)) (vs : list f64) : list (list f64) :=
  imap (λ c col, col ++ [default fzero (vs !! c)]) cols.
Fixpoint seriesLoop (rows : list MetricRow) (prev : option Z) (step : Z) (t : list Z) (cols : list (list f64))
    : list Z * list (list f64) :=
  match rows with
  | [] => (t, cols)
  | row :: rest =>
    let '(t1, cols1) := match prev with
                        | Some p => if (0 <? step) && (2 * step <? mr_TS row - p)
                                    then (t ++ [p + step], appendCols cols (replicate NumMetricCols fnan))
                                    else (t, cols)
                        | None => (t, cols)
                        end in
    seriesLoop rest (Some (mr_TS row)) step (t1 ++ [mr_TS row]) (appendCols cols1 (mr_Values row))
  end.
Definition buildSeries (rows : list MetricRow) (step from to : Z) : seriesDTO :=
  let '(t, cols) := seriesLoop rows None step [] (replicate NumMetricCols []) in
  mkSeries step from to t (zip MetricCols cols).
Definition seriesJSON (s : seriesDTO) : json :=
  JObj [("step", JInt (se_Step s)); ("from", JInt (se_From s)); ("to", JInt (se_To s));
        ("t", JArr (map JInt (se_T s)));
        ("values", JObj (map (λ c, (c.1, JArr (map jsonFloat c.2))) (se_Values s)))].

Section api.
Context `{Lib} `{Marshal} `{!Unmarshal SystemInfo} `{!Unmarshal Metrics}.
(** [time.Format(time.DateTime)], and the hub's public key as text. *)
Context (formatDateTime : Z → string) (PublicKey : string).

(** ** Update offers *)
Definition updateFor (h : hub) (info : SystemInfo) (agentVersion : string) : option Manifest :=
  if String.eqb (si_OS info) "" || String.eqb (si_Arch info) "" then None else
  match h_updates h !! AgentFile (si_OS info) (si_Arch info) with
  | None => None
  | Some m => if Newer (mf_Version m) agentVersion then Some m else None
  end.
Definition updateVersion (h : hub) (s : System) (info : SystemInfo) (features : list string) : string :=
  if negb (existsb (String.eqb FeatureUpdate) features) then ""
  else match updateFor h info (sy_AgentVersion s) with Some m => mf_Version m | None => "" end.

(** ** Systems *)
Definition toDTO (h : hub) (s : System) : json :=
  let info := (unmarshal (sy_Info s) : SystemInfo * bool).1 in
  let '(online, features) := match h_agents h !! sy_ID s with
                             | Some ac => (true, ac_features ac)
                             | None => (false, [])
                             end in
  let '(ms, seen) := match h_states h !! sy_ID s with
                     | Some st => match st_latest st with
                                  | Some m => (Some m, st_latestAt st)
                                  | None => (None, sy_LastSeen s)
                                  end
                     | None => (None, sy_LastSeen s)
                     end in
  let ms' := match ms with
             | Some m => Some m
             | None => if String.eqb (sy_LastMetrics s) "" then None
                       else let '(m, ok) := unmarshal (sy_LastMetrics s) : Metrics * bool in
                            if ok then Some m else None
             end in
  let update := updateVersion h s info features in
  JObj ([("id", JInt (sy_ID s)); ("name", JStr (sy_Name s)); ("online", JBool online);
         ("fingerprint", JStr (sy_Fingerprint s)); ("info", infoJSON info);
         ("features", JArr (map JStr features)); ("agent_version", JStr (sy_AgentVersion s))]
        ++ (if String.eqb update "" then [] else [("update", JStr update)])
        ++ [("last_seen", JInt seen); ("created_at", JInt (sy_CreatedAt s));
            ("metrics", match ms' with Some m => metricsJSON m | None => JNull end)]).

Definition lookupSystem (r : request) : M hub (response + System) :=
  let '(id, ok) := ParseInt 64 (rq_PathValue r "id") in
  if negb ok then mret (inl (writeError 404 "system not found")) else
  s ← db (getSystem id);
  mret (match s with
        | Ok sys => inr sys
        | Err ErrNotFound => inl (writeError 404 "system not found")
        | Err _ => inl internalError
        end).
Definition getSystems (r : request) (s : Session) : M hub response :=
  l ⇐ (e ← db Systems; mret (orInternal e));
  h ← mget;
  mret (writeJSON 200 (JArr (map (toDTO h) l))).
(** [getSystem] of the API. *)
Definition showSystem (r : request) (s : Session) : M hub response :=
  sys ⇐ lookupSystem r;
  h ← mget;
  mret (writeJSON 200 (toDTO h sys)).
Definition renameAgent (name : string) (ac : agentConn) : agentConn :=
  mkAgentConn (ac_conn ac) (ac_id ac) name (ac_remote ac) (ac_info ac) (ac_features ac).
Definition patchSystem (r : request) (s : Session) (body : option string) : M hub response :=
  sys ⇐ lookupSystem r;
  b ⇐ mret (readJSON body);
  let name := TrimSpace b in
  _ ⇐ mret (ensure (negb (String.eqb name "" || (maxNameLen <? RuneCountInString name)))
              (writeError 400 "name must be 1-64 characters"));
  _ ⇐ (e ← db (RenameSystem (sy_ID sys) name); mret (orInternal e));
  audit (Some r) (u_Username (s_User s)) "system_renamed" (Some sys)
    ("renamed from " +:+ Quote (sy_Name sys) +:+ " to " +:+ Quote name);;
  let sys' := withName name sys in
  mmodify (λ h, with_agents (alter (renameAgent name) (sy_ID sys) (h_agents h)) h);;
  publish "systems" JNull;;
  h ← mget;
  mret (writeJSON 200 (toDTO h sys')).
Definition deleteSystem (r : request) (s : Session) : M hub response :=
  sys ⇐ lookupSystem r;
  e ← db (DeleteSystem (sy_ID sys));
  match e with
  | Ok _ | Err ErrNotFound =>
    h ← mget;
    let ac := h_agents h !! sy_ID sys in
    mmodify (λ h, with_states (delete (sy_ID sys) (h_states h)) (with_agents (delete (sy_ID sys) (h_agents h)) h));;
    match ac with Some ac => emit (ECloseLink (ac_conn ac)) | None => mret tt end;;
    resetAlerts 0 (sy_ID sys);;
    audit (Some r) (u_Username (s_User s)) "system_deleted" (Some sys) "";;
    publish "systems" JNull;;
    mret noContent
  | Err _ => mret internalError
  end.

(** ** Metrics *)
Definition getMetrics (r : request) (s : Session) : M hub response :=
  sys ⇐ lookupSystem r;
  t ← db timeNow;
  let now := unix t in
  let name := rq_Query r "range" in
  if String.eqb name "live" then
    h ← mget;
    let rows := selectWhere (λ row, now - liveSpan <=? mr_TS row) (liveSeries (sy_ID sys) h) in
    mret (writeJSON 200 (seriesJSON (buildSeries rows 0 (now - liveSpan) now)))
  else match ranges name with
  | None => mret (writeError 400 "range must be one of live, 1h, 24h, 7d, 30d, 1y")
  | Some (res_, span) =>
    let from := now - span /! nsec in
    rows ⇐ (e ← db (QueryMetrics (sy_ID sys) res_ from now); mret (orInternal e));
    h ← mget;
    let rows' := match currentBucket (sy_ID sys) h with
                 | Some row => if (res_ =? Res1) && match last rows with None => true | Some x => mr_TS x <? mr_TS row end
                               then rows ++ [row] else rows
                 | None => rows
                 end in
    mret (writeJSON 200 (seriesJSON (buildSeries rows' (res_ * 60) from now)))
  end.

(** ** Enrollment *)
Definition publicURL (cfg : Config) (r : request) : string :=
  if negb (String.eqb (cfg_PublicURL cfg) "") then cfg_PublicURL cfg else
  let scheme := if isHTTPS r then "https" else "http" in
  let host := if String.eqb (rq_ForwardedHost r) "" then rq_Host r else rq_ForwardedHost r in
  scheme +:+ "://" +:+ host.
Definition postEnroll (r : request) (s : Session) : M hub response :=
  token ← db randomToken;
  t ← db timeNow;
  let expires := t + enrollTTL in
  _ ⇐ (e ← db (CreateEnrollToken (hashToken token) expires); mret (orInternal e));
  audit (Some r) (u_Username (s_User s)) "token_created" None ("valid until " +:+ formatDateTime expires);;
  h ← mget;
  mret (writeJSON 200 (JObj [("token", JStr token); ("expires_at", JInt (unix expires));
                             ("hub_url", JStr (publicURL (h_cfg h) r)); ("hub_key", JStr PublicKey)])).

(** ** Audit log *)
Definition omitEmpty (k v : string) : list (string * json) := if String.eqb v "" then [] else [(k, JStr v)].
Definition auditJSON (e : AuditEntry) : json :=
  JObj ([("id", JInt (ae_ID e)); ("t", JInt (ae_Time e)); ("username", JStr (ae_Username e)); ("action", JStr (ae_Action e))]
        ++ match ae_SystemID e with Some id => [("system_id", JInt id)] | None => [] end
        ++ omitEmpty "system_name" (ae_SystemName e) ++ omitEmpty "remote" (ae_Remote e) ++ omitEmpty "detail" (ae_Detail e)).
Definition auditLimit (s : string) : nat :=
  let n := (Atoi s).1 in if (n <=? 0) || (200 <? n) then 50%nat else Z.to_nat n.
Definition getAudit (r : request) (s : Session) : M hub response :=
  let before := (ParseInt 64 (rq_Query r "before")).1 in
  let limit := auditLimit (rq_Query r "limit") in
  let user := if Can (s_User s) RoleAdmin then "" else u_Username (s_User s) in
  entries ⇐ (e ← db (AuditOf user before (limit + 1)); mret (orInternal e));
  mret (writeJSON 200 (JObj [("entries", JArr (map auditJSON (take limit entries)));
                             ("more", JBool (limit <? length entries)%nat)])).
End api.

(** ** Charts: properties *)
Section charts.
Implicit Types (rows : list MetricRow) (pts : list (Z * option (list f64))).

(** A point of the chart: a stored row, or a gap. *)
Definition point (r : MetricRow) : Z * option (list f64) := (mr_TS r, Some (mr_Values r)).
Definition cell (c : nat) (p : Z * option (list f64)) : f64 :=
  match p.2 with Some v => default fzero (v !! c) | None => fnan end.
(** A hole of more than two steps before a row starts with a gap. *)
Definition gapBefore (step : Z) (prev : option Z) (r : MetricRow) : list (Z * option (list f64)) :=
  match prev with
  | Some p => if (0 <? step) && (2 * step <? mr_TS r - p) then [(p + step, None)] else []
  | None => []
  end.
Fixpoint withGaps (step : Z) (prev : option Z) rows : list (Z * option (list f64)) :=
  match rows with
  | [] => []
  | r :: rest => gapBefore step prev r ++ point r :: withGaps step (Some (mr_TS r)) rest
  end.
Definition extend (pts : list (Z * option (list f64))) (x : list Z * list (list f64)) : list Z * list (list f64) :=
  (x.1 ++ map fst pts, imap (λ c col, col ++ map (cell c) pts) x.2).
Lemma extend_nil x : extend [] x = x.
Proof.
  destruct x as [t cols]. unfold extend. cbn. rewrite app_nil_r. f_equal. apply list_eq. intros i. rewrite list_lookup_imap.
  destruct (cols !! i); [|done]. cbn. by rewrite app_nil_r.
Qed.
Lemma extend_app p1 p2 x : extend (p1 ++ p2) x = extend p2 (extend p1 x).
Proof.
  destruct x as [t cols]. unfold extend. cbn. rewrite map_app, app_assoc. f_equal. apply list_eq. intros i.
  rewrite !list_lookup_imap. destruct (cols !! i); [|done]. cbn. by rewrite map_app, app_assoc.
Qed.
Lemma seriesLoop_points rows prev step t cols :
  (length cols ≤ NumMetricCols)%nat → seriesLoop rows prev step t cols = extend (withGaps step prev rows) (t, cols).
Proof.
  revert prev t cols. induction rows as [|r rows IH]; intros prev t cols Hl; cbn [seriesLoop withGaps]; [by rewrite extend_nil|].
  change (point r :: ?l) with ([point r] ++ l). rewrite !extend_app.
  set (gap := match prev with Some p => _ | None => _ end).
  assert (Hg : gap = extend (gapBefore step prev r) (t, cols)).
  { unfold gap, gapBefore. destruct prev as [p|]; [|by rewrite extend_nil]. destruct (_ && _); [|by rewrite extend_nil].
    unfold extend. cbn [map fst snd]. f_equal. apply list_eq. intros i. unfold appendCols. rewrite !list_lookup_imap.
    destruct (cols !! i) eqn:Ei; [|done]. apply lookup_lt_Some in Ei. by rewrite lookup_replicate_2 by lia. }
  rewrite Hg. destruct (extend (gapBefore _ _ _) _) as [t1 cols1] eqn:E.
  rewrite IH; [by unfold extend at 3|]. unfold appendCols. rewrite length_imap. unfold extend in E. simplify_eq. by rewrite length_imap.
Qed.
Definition rowOf (p : Z * option (list f64)) : option (Z * list f64) :=
  match p.2 with Some v => Some (p.1, v) | None => None end.
Lemma withGaps_rows step prev rows : omap rowOf (withGaps step prev rows) = map (λ r, (mr_TS r, mr_Values r)) rows.
Proof.
  revert prev. induction rows as [|r rows IH]; intros prev; [done|]. cbn [withGaps map]. rewrite omap_app. cbn. rewrite IH.
  destruct prev as [p|]; [|done]. cbn. by destruct (_ && _).
Qed.
Lemma withGaps_sorted step prev rows :
  StronglySorted Z.lt (option_list prev ++ map mr_TS rows) → StronglySorted Z.lt (option_list prev ++ map fst (withGaps step prev rows)).
Proof.
  revert prev. induction rows as [|r rows IH]; intros prev Hs; [done|]. cbn [withGaps].
  assert (Hr : StronglySorted Z.lt (mr_TS r :: map fst (withGaps step (Some (mr_TS r)) rows))).
  { apply (IH (Some (mr_TS r))). destruct prev; [|done]. by inversion Hs. }
  destruct prev as [p|]; [|done]. cbn in Hs. apply StronglySorted_inv in Hs as [_ Hall]. inversion Hall as [|? ? Hpr _]; subst.
  assert (Hfar : ∀ t, t < mr_TS r → Forall (Z.lt t) (mr_TS r :: map fst (withGaps step (Some (mr_TS r)) rows))).
  { intros t Ht. constructor; [done|]. apply StronglySorted_inv in Hr as [_ Hr]. eapply Forall_impl; [exact Hr|]. cbn. lia. }
  cbn [gapBefore]. destruct (_ && _) eqn:E; cbn [option_list app map fst]; [|by constructor; [|apply Hfar]].
  bool_hyps. constructor; [constructor; [done|]|]; [apply Hfar; lia|]. constructor; [lia|apply Hfar; lia].
Qed.
(** Two rows next to each other are at most two steps apart. *)
Definition bridged (step : Z) (p q : Z * option (list f64)) : Prop := is_Some p.2 → is_Some q.2 → q.1 - p.1 ≤ 2 * step.
Lemma withGaps_bridged step t v rows : 0 < step → Sorted (bridged step) ((t, Some v) :: withGaps step (Some t) rows).
Proof.
  intros Hpos. revert t v. induction rows as [|r rows IH]; intros t v; cbn [withGaps gapBefore]; [by repeat constructor|].
  rewrite (proj2 (Z.ltb_lt _ _) Hpos). cbn [andb]. destruct (Z.ltb_spec (2 * step) (mr_TS r - t)); cbn [app].
  - constructor; [constructor; [apply IH|]|]; constructor; unfold bridged; cbn; [by intros []%is_Some_None|by intros _ []%is_Some_None].
  - constructor; [apply IH|]. constructor. unfold bridged. cbn. lia.
Qed.

(** What a chart is drawn from, for rows in ascending order: one column per metric, all as
    long as the time axis; the time axis ascends strictly; without the gap points (null in
    every column) the points are exactly the rows; and where two rows follow each other
    without a gap they are at most two steps apart, so the line never bridges a longer
    outage. *)
Theorem chart_series (rows : list MetricRow) (step from to : Z)
    (Hstep : 0 < step) (Hrows : StronglySorted Z.lt (map mr_TS rows)) :
  ∃ pts : list (Z * option (list f64)),
    se_T (buildSeries rows step from to) = map fst pts
    ∧ se_Values (buildSeries rows step from to) = imap (λ c name, (name, map (cell c) pts)) MetricCols
    ∧ omap rowOf pts = map (λ r, (mr_TS r, mr_Values r)) rows
    ∧ StronglySorted Z.lt (se_T (buildSeries rows step from to))
    ∧ Sorted (bridged step) pts.
Proof.
  exists (withGaps step None rows).
  assert (Ht : se_T (buildSeries rows step from to) = map fst (withGaps step None rows)
    ∧ se_Values (buildSeries rows step from to) = imap (λ c name, (name, map (cell c) (withGaps step None rows))) MetricCols).
  { unfold buildSeries. rewrite seriesLoop_points by done. by vm_compute. }
  destruct Ht as [Ht Hv]. rewrite Ht, Hv. split_and!; [done|done|apply withGaps_rows|by apply (withGaps_sorted step None)|].
  destruct rows as [|r rows]; [constructor|]. cbn. by apply withGaps_bridged.
Qed.
End charts.
Definition demoRow (t : Z) : MetricRow := mkMetricRow t (metricValues (demoSample t)).
Lemma chart_series_witness :
  map fst (se_Values (buildSeries (map demoRow [60; 120; 300]) 60 0 360)) = MetricCols
  ∧ se_T (buildSeries (map demoRow [60; 120; 300]) 60 0 360) = [60; 120; 180; 300].
Proof.
  split; [|reflexivity].
  destruct (chart_series (map demoRow [60; 120; 300]) 60 0 360) as (pts & _ & -> & _); [lia|repeat constructor|reflexivity].
Defined.

(** ** Deleting a system *)
Section deleting.
Context `{Lib} `{Marshal}.
Implicit Types (h : hub).
Abbreviation tables h := (m_db (h_m h)).

(** A step that at most writes the activity log and tells the browsers. *)
Definition logOnly h h' : Prop :=
  h_agents h' = h_agents h ∧ h_states h' = h_states h ∧ h_alerts h' = h_alerts h ∧ h_trace h' = h_trace h
  ∧ systems (tables h') = systems (tables h) ∧ metrics (tables h') = metrics (tables h)
  ∧ alert_rules (tables h') = alert_rules (tables h) ∧ alerts (tables h') = alerts (tables h)
  ∧ (noFaults (h_m h) → noFaults (h_m h')).
#[export] Instance logOnly_preorder : PreOrder logOnly.
Proof.
  split; unfold logOnly; [intros h; by split_and!|].
  intros h1 h2 h3 (? & ? & ? & ? & ? & ? & ? & ? & ?) (? & ? & ? & ? & ? & ? & ? & ? & ?). split_and!; try congruence. auto.
Qed.
Lemma steps_audit_logOnly r u a s d : steps logOnly (audit r u a s d).
Proof.
  unfold audit. go_steps. intros h. unfold logOnly, db, AddAudit.
  destruct (h_m h) as [[] [t ks fs rs]]. unfold noFaults. cbn. destruct ks as [|k ks], fs as [|[] fs]; cbn; by split_and!.
Qed.
Lemma steps_publish_logOnly e d : steps logOnly (publish e d).
Proof. intros h. unfold publish, mmodify. cbn. destruct (decide _); by split_and!. Qed.

(** Nothing is left of the system. *)
Record gone (id : Z) h : Prop := {
  go_row : ∀ s, s ∈ systems (tables h) → sy_ID s ≠ id;
  go_history : ∀ res_ ts, metrics (tables h) !! (id, res_, ts) = None;
  go_rules : ∀ r, r ∈ alert_rules (tables h) → r_SystemID r ≠ Some id;
  go_alerts : ∀ a, a ∈ alerts (tables h) → a_ResolvedAt a = None → a_SystemID a ≠ id;
  go_engine : ∀ rule, en_states (h_alerts h) !! (rule, id) = None;
  go_offline : en_offline (h_alerts h) !! id = None;
  go_agent : h_agents h !! id = None;
  go_state : h_states h !! id = None;
}.
Lemma gone_log id h h' : logOnly h h' → gone id h → gone id h'.
Proof.
  intros (Ha & Hs & He & _ & Hy & Hm & Hr & Hal & _) [].
  split; rewrite ?Ha, ?Hs, ?He, ?Hy, ?Hm, ?Hr, ?Hal; done.
Qed.
Lemma wp_lookupSystem r h (Q : response + System → hub → Prop) :
  (∀ resp h', rs_status resp ≠ 204 → Q (inl resp) h') →
  (∀ sys m, m_db m = tables h → (noFaults (h_m h) → noFaults m) → sys ∈ systems (tables h) →
     sy_ID sys = (ParseInt 64 (rq_PathValue r "id")).1 → Q (inr sys) (with_m m h)) →
  wp (lookupSystem r) Q h.
Proof.
  intros Hl Hr. unfold lookupSystem. destruct (ParseInt 64 _) as [id []]; cbn [negb]; [|by apply wp_ret, Hl].
  apply wp_bind. unfold getSystem. apply wp_db, wp_query_cases; intros m Hm Hn; apply wp_ret; [|by apply Hl].
  destruct (oneRow _) as [sys|e] eqn:E; [|destruct e; by apply Hl].
  apply oneRow_ok, elem_of_selectWhere in E as [Hin Hid]. bool_hyps. by apply Hr.
Qed.
Lemma deleteSystems_gone id d :
  let d' := (deleteSystems id d).2 in id ∈ map sy_ID (systems d) →
  systems d' = deleteWhere (λ x, sy_ID x =? id) (systems d)
  ∧ (∀ res_ ts, metrics d' !! (id, res_, ts) = None)
  ∧ (∀ r, r ∈ alert_rules d' → r_SystemID r ≠ Some id) ∧ alerts d' = alerts d.
Proof.
  cbn zeta. intros Hin. unfold deleteSystems. destruct (_ =? 0)%nat eqn:E.
  - bool_hyps. rewrite countWhere_zero in E. apply list_elem_of_fmap in Hin as (s & -> & Hs). specialize (E s Hs). bool_hyps. done.
  - destruct d as [us se en sy me au no ru al pa sc rn]. cbn. split_and!; [done| | |done].
    + intros res_ ts. rewrite map_lookup_filter. destruct (me !! _); [|done]. cbn. by rewrite option_guard_False by (intros Hx; by apply Hx).
    + intros r [_ Hr]%elem_of_deleteWhere. by bool_hyps.
Qed.
Lemma resetAlerts_system id h (Q : unit → hub → Prop) :
  id ≠ 0 → noFaults (h_m h) →
  (∀ h', noFaults (h_m h') → h_agents h' = h_agents h → h_states h' = h_states h → h_trace h' = h_trace h →
     systems (tables h') = systems (tables h) → metrics (tables h') = metrics (tables h) → alert_rules (tables h') = alert_rules (tables h) →
     (∀ a, a ∈ alerts (tables h') → a_ResolvedAt a = None → a_SystemID a ≠ id) →
     (∀ rule, en_states (h_alerts h') !! (rule, id) = None) → en_offline (h_alerts h') !! id = None →
     en_rules (h_alerts h') = en_rules (h_alerts h) → Q tt h') →
  wp (resetAlerts 0 id) Q h.
Proof.
  intros Hid Hn HQ. unfold resetAlerts. apply wp_bind, wp_db, wp_timeNow_nf. intros m1 Hm1 Hn1. apply wp_bind.
  unfold ResolveAlertsWhere, resolveWhere. apply wp_db, wp_sql_nf; [by apply Hn1|]. intros m2 Hn2 Hm2. cbn [fst snd h_m with_m] in *.
  rewrite Hm1 in Hm2. apply wp_bind, wp_modify. rewrite (proj2 (Z.eqb_neq id 0) Hid). cbn [negb andb].
  apply wp_bind, wp_modify, wp_bind, wp_ret. eapply wp_steps; [apply steps_publish_logOnly|].
  intros [] h' (Ha & Hs & He & Ht & Hy & Hm & Hr & Hal & Hnf). cbn in *. rewrite Hm2 in *.
  destruct (tables h) as [us se en sy me au no ru al pa sc rn]. cbn in *. apply HQ; rewrite ?He; try done; [by apply Hnf| | |].
  - rewrite Hal. intros a (a0 & Ha0 & ->)%elem_of_updateWhere. unfold isActive.
    destruct (bool_decide (a_ResolvedAt a0 = None)) eqn:Er; cbn [andb]; bool_hyps; [|done].
    rewrite (proj2 (Z.eqb_neq id 0) Hid). cbn [negb andb orb]. destruct (Z.eqb_spec (a_SystemID a0) id); [done|by intros _].
  - intros rule. cbn. rewrite map_lookup_filter. destruct (en_states _ !! _); [|done]. cbn. by rewrite option_guard_False by (intros [_ Hx]; by apply Hx).
  - cbn. apply lookup_delete_eq.
Qed.

(** C27. A deleted system is gone: when [deleteSystem] answers 204 (with a working database; system
    numbers start at 1), its row, its history and its own rules are gone, its alerts are
    resolved, no engine state, live sample or link of it is left, its agent's
    connection was closed, and every other system is still there. *)
Theorem deleteSystem_complete (r : request) (s : Session) (h : hub) (Hn : noFaults (h_m h))
    (Hid : (ParseInt 64 (rq_PathValue r "id")).1 ≠ 0) :
  let '(resp, h') := deleteSystem r s h in
  let id := (ParseInt 64 (rq_PathValue r "id")).1 in
  rs_status resp = 204 →
  gone id h'
  ∧ (∀ ac, h_agents h !! id = Some ac → ECloseLink (ac_conn ac) ∈ h_trace h')
  ∧ (∀ x, x ∈ systems (tables h) → sy_ID x ≠ id → x ∈ systems (tables h')).
Proof.
  apply wp_let. unfold deleteSystem. apply wp_bind, wp_lookupSystem; [intros resp h' Hs; by apply wp_ret|].
  intros sys m Hm Hnm Hin Hsid. set (id := (ParseInt 64 (rq_PathValue r "id")).1) in *. rewrite Hsid. clearbody id.
  apply wp_bind. unfold DeleteSystem. apply wp_db, wp_bind, wp_sql_nf; [by apply Hnm|]. intros m1 Hn1 Hm1. cbn [h_m with_m] in *.
  apply wp_ret. rewrite Hm in *.
  destruct (deleteSystems_gone id (tables h)) as (Hsy & Hme & Hru & Hal); [rewrite <-Hsid; by apply list_elem_of_fmap_2|].
  rewrite <-Hm1 in Hsy, Hme, Hru, Hal.
  destruct (needAffected _) as [u|[]] eqn:E; try (apply wp_ret; done).
  all: apply wp_bind, wp_get, wp_bind, wp_modify, wp_bind; cbn [h_agents with_m];
    eapply (wp_mono _ (λ _ h2, ∃ tr, h2 = with_trace tr (with_states (delete id (h_states h)) (with_agents (delete id (h_agents h)) (with_m m1 h)))
       ∧ ∀ ac, h_agents h !! id = Some ac → ECloseLink (ac_conn ac) ∈ tr));
    [destruct (h_agents h !! id) as [ac|]; [apply wp_modify|apply wp_ret];
       [eexists; split; [reflexivity|]; intros ? [= <-]; apply elem_of_app; right; by constructor
       |exists (h_trace h); split; [by destruct h|done]]|].
  all: intros _ h2 (tr & -> & Htr); apply wp_bind, resetAlerts_system; [congruence|done|].
  all: intros h3 Hn3 Ha3 Hs3 Ht3 Hy3 Hm3 Hr3 Hal3 Hen3 Hof3 _; cbn in Ha3, Hs3, Ht3, Hy3, Hm3, Hr3;
    assert (Hg3 : gone id h3) by (split; rewrite ?Hy3, ?Hm3, ?Hr3, ?Ha3, ?Hs3, ?Hsy; try done; try apply lookup_delete_eq;
      intros x [_ Hx]%elem_of_deleteWhere; by bool_hyps).
  all: apply wp_bind; eapply wp_steps; [apply steps_audit_logOnly|]; intros _ h4 H34; apply wp_bind;
    eapply wp_steps; [apply steps_publish_logOnly|]; intros _ h5 H45; apply wp_ret; intros _;
    pose proof (gone_log _ _ _ H45 (gone_log _ _ _ H34 Hg3)) as Hg5;
    destruct H34 as (_ & _ & _ & Ht4 & Hy4 & _), H45 as (_ & _ & _ & Ht5 & Hy5 & _); rewrite Ht5, Ht4, Hy5, Hy4, Hy3, Ht3;
    (split_and!; [done|done|]); rewrite Hsy; intros x Hx Hne; apply elem_of_deleteWhere; split; [done|by apply Z.eqb_neq].
Qed.
End deleting.

Lemma deleteSystem_complete_witness :
  rs_status (@deleteSystem demoLib demoMarsh (requestFor "1") demoSession demoConnected).1 = 204
  ∧ gone 1 (@deleteSystem demoLib demoMarsh (requestFor "1") demoSession demoConnected).2.
Proof.
  pose proof (@deleteSystem_complete demoLib demoMarsh (requestFor "1") demoSession demoConnected eq_refl) as Hd.
  split; [by vm_compute|].
  destruct (deleteSystem _ _ _) as [resp h'] eqn:E. destruct Hd as [Hg _]; [by vm_compute| |exact Hg].
  vm_compute in E. by injection E as <- _.
Defined.

(** Deleting a system removes its own rules from the database but not from the engine, which
    reloads its rules only when a rule or a channel changes. The next system to enroll gets
    the freed number, and the deleted rule watches it. *)
Definition hubWithRule : hub :=
  (@saveAlertRule demoLib demoMarsh (λ _, "") (λ _, "") (requestFor "") demoSession
     (Some (mkAlertRule 0 "own rule" (Some 1) "cpu" (ofInt 50) 0 [] true 0)) demoConnected).2.
Definition hubAfterSwap : hub :=
  let h1 := (@deleteSystem demoLib demoMarsh (requestFor "1") demoSession hubWithRule).2 in
  let h2 := with_m (mkMach (m_db (h_m h1)) (mkEnv (clock (h_m h1)) [] [] ["token"])) h1 in
  let h3 := (@postEnroll demoLib (λ _, "") "key" demoRequest demoSession h2).2 in
  let h4 := (@admitAgent demoLib demoMarsh "SHA256:other" (mkHello 1 "1.0.0" "token" demoInfo []) h3).2 in
  let h5 := (@register demoMarsh (demoAgent 7) h4).2 in
  (@record demoLib demoMarsh (λ _, "") (λ _, "") 1 (demoSample 70) h5).2.
(** Finding: the new system, with another key, has an active alert of a rule that no
    longer exists. *)
Theorem deleted_rule_stays_active :
  map sy_Fingerprint (systems (m_db (h_m hubAfterSwap))) = ["SHA256:other"]
  ∧ map (λ a, (a_RuleName a, a_SystemID a, a_ResolvedAt a)) (alerts (m_db (h_m hubAfterSwap))) = [("own rule", 1, None)]
  ∧ existsWhere (λ r, String.eqb (r_Name r) "own rule") (alert_rules (m_db (h_m hubAfterSwap))) = false.
Proof. split_and!; vm_compute; reflexivity. Qed.

(** A second connection within the same minute replaces what the first one reported in it: the
    minute's row is written when the link ends and again, from the samples of the new link
    only, when the minute is over. *)
Definition demoReconnected : hub :=
  let h0 := with_m (mkMach (m_db (h_m demoConnected)) (mkEnv (seconds 120) [] [] [])) demoConnected in
  let h1 := (@unregister demoMarsh (demoAgent 0) (demoRecord 10 h0)).2 in
  let h2 := (@register demoMarsh (demoAgent 1) h1).2 in
  let h3 := demoRecord 30 h2 in
  (@flushState demoMarsh 1 false (with_m (mkMach (m_db (h_m h3)) (mkEnv (seconds 180) [] [] [])) h3)).2.
(** Finding: of the two samples of minute 120, only the second is in the history. *)
Theorem reconnect_replaces_minute :
  metrics (m_db (h_m demoReconnected)) !! (1, Res1, 120) = Some (averageOf [demoSample 30])
  ∧ averageOf [demoSample 30] ≠ averageOf [demoSample 10; demoSample 30].
Proof. split; [vm_compute; reflexivity|by vm_compute]. Qed.
