(* ===== verification/Routes.v ===== *)
(** * Routing ([internal/hub/api.go]: [Handler], [securityHeaders])

    The table of routes with the role each one asks for, the documented matching of
    [net/http.ServeMux] (patterns with a method and path wildcards, the most specific pattern wins,
    registering conflicting patterns panics), and the handlers around the multiplexer. The handlers
    themselves are parameters here: what is shown holds for whatever they do. *)
From Stdlib Require Import ZArith Lia Ascii String.
From S2P Require Import Prelude GoStrings Float64 Library Paths Store StoreTables StoreInv StoreSteps Limiter Update Proxy Webauthn Protocol Hub Auth AuthProps Users Systems.
From stdpp Require Import base gmap strings list.
Local Open Scope string_scope.
Local Open Scope list_scope.
Local Open Scope Z_scope.
Local Open Scope lotse_scope.

(** ** Handlers and guards *)
Inductive endpoint : Type :=
| Health | GetSetup | PostSetup | PostLogin | PostLoginPasskeyOptions | PostLogout
| GetMe | PostPassword | PostTOTPSetup | PostTOTPEnable | PostTOTPDisable
| GetPasskeys | PostPasskey | PostPasskeyOptions | PatchPasskey | DeletePasskey
| PostElevate | GetAudit | HandleEvents | GetSystems | GetSystem | GetMetrics | GetProcesses | GetServices
| GetAlerts | GetAlertRules | GetNotifiers
| PatchSystem | HandleShell | PostWake | PostPower | PostService | PostSignal
| GetFiles | DownloadFile | PutFile | PostFileAction
| GetScripts | SaveScript | DeleteScript | GetRuns | PostRun | GetRun | GetRunEvents | PostRunCancel
| DeleteSystem | PostAgentUpdate | PostEnroll | SaveAlertRule | DeleteAlertRule
| SaveNotifier | TestNotifier | DeleteNotifier | GetUsers | PostUser | PatchUser | DeleteUser
| ApiNotFound | HandleAgent | GetInstallScript | GetAgentBinary | Static.
#[export] Instance endpoint_eq_dec : EqDecision endpoint.
Proof. solve_decision. Defined.
(** What stands before a handler: nothing, any session, or a session whose role includes one. *)
Inductive guard : Type := Public | AnyUser | NeedsRole (role : string).
#[export] Instance guard_eq_dec : EqDecision guard.
Proof. solve_decision. Defined.

(** ** Patterns *)
Inductive seg : Type := Lit (s : string) | Wild (name : string).
#[export] Instance seg_eq_dec : EqDecision seg.
Proof. solve_decision. Defined.
(** A path that ends in a slash matches everything below it. *)
Record pattern := mkPattern { pt_method : string; pt_segs : list seg; pt_tree : bool }.
Record route := mkRoute { rt_pattern : pattern; rt_guard : guard; rt_handler : endpoint }.

Definition parseSeg (s : string) : seg :=
  match s with
  | String "{" rest => Wild (substring 0 (String.length rest - 1) rest)
  | _ => Lit s
  end.
Definition space : ascii := " ".
Definition parsePattern (s : string) : pattern :=
  let '(method, path) := match Split space s with [m; p] => (m, p) | _ => ("", s) end in
  let segs := tl (Split slash path) in
  let tree := HasSuffix path "/" in
  mkPattern method (map parseSeg (if tree then removelast segs else segs)) tree.

(** The segments of a request path; a trailing slash is a last, empty segment. *)
Definition pathSegs (path : string) : list string := tl (Split slash path).
Definition matchSeg (p : seg) (s : string) : bool :=
  negb (String.eqb s "") && match p with Lit l => String.eqb l s | Wild _ => true end.
Fixpoint matchSegs (ps : list seg) (tree : bool) (ss : list string) : bool :=
  match ps, ss with
  | [], [] => negb tree
  | [], _ :: _ => tree
  | _ :: _, [] => false
  | p :: ps, s :: ss => matchSeg p s && matchSegs ps tree ss
  end.
(** A GET pattern serves HEAD too; a pattern without a method serves all. *)
Definition matchMethod (m method : string) : bool :=
  String.eqb m "" || String.eqb m method || (String.eqb m "GET" && String.eqb method "HEAD").
Definition matches (p : pattern) (method : string) (ss : list string) : bool :=
  matchMethod (pt_method p) method && matchSegs (pt_segs p) (pt_tree p) ss.

(** ** Precedence: [p] covers [q] when it matches every request [q] matches *)
Definition coversMethod (m n : string) : bool :=
  String.eqb m "" || String.eqb m n || (String.eqb m "GET" && String.eqb n "HEAD").
Definition coversSeg (p q : seg) : bool :=
  match p, q with Wild _, _ => true | Lit a, Lit b => String.eqb a b | Lit _, Wild _ => false end.
Fixpoint coversSegs (ps : list seg) (pt : bool) (qs : list seg) (qt : bool) : bool :=
  match ps, qs with
  | [], [] => eqb pt qt
  | [], _ :: _ => pt
  | _ :: _, [] => false
  | p :: ps, q :: qs => coversSeg p q && coversSegs ps pt qs qt
  end.
Definition covers (p q : pattern) : bool :=
  coversMethod (pt_method p) (pt_method q) && coversSegs (pt_segs p) (pt_tree p) (pt_segs q) (pt_tree q).
(** Some request matches both. *)
Definition meetMethod (m n : string) : bool := coversMethod m n || coversMethod n m.
Definition meetSeg (p q : seg) : bool :=
  match p, q with Lit a, Lit b => String.eqb a b | _, _ => true end.
Fixpoint meetSegs (ps : list seg) (pt : bool) (qs : list seg) (qt : bool) : bool :=
  match ps, qs with
  | [], [] => eqb pt qt
  | [], _ :: _ => pt
  | _ :: _, [] => qt
  | p :: ps, q :: qs => meetSeg p q && meetSegs ps pt qs qt
  end.
Definition meet (p q : pattern) : bool :=
  meetMethod (pt_method p) (pt_method q) && meetSegs (pt_segs p) (pt_tree p) (pt_segs q) (pt_tree q).
(** Two patterns that meet must be comparable, and not the same; else registering the second panics. *)
Definition conflict (p q : pattern) : bool :=
  meet p q && (eqb (covers p q) (covers q p)).

(** [mux.HandleFunc]: the table grows, or the program panics. *)
Definition HandleFunc (rt : route) (table : option (list route)) : option (list route) :=
  t ← table; if existsb (λ x, conflict (rt_pattern x) (rt_pattern rt)) t then None else Some (t ++ [rt]).

(** ** The table *)
Definition public (e : endpoint) : guard * endpoint := (Public, e).
Definition viewer (e : endpoint) : guard * endpoint := (NeedsRole RoleViewer, e).
Definition operator (e : endpoint) : guard * endpoint := (NeedsRole RoleOperator, e).
Definition admin (e : endpoint) : guard * endpoint := (NeedsRole RoleAdmin, e).
Definition AgentPath : string := "/api/agent/connect".
Definition registrations : list (string * (guard * endpoint)) := [
  ("GET /api/health", public Health);
  ("GET /api/setup", public GetSetup);
  ("POST /api/setup", public PostSetup);
  ("POST /api/login", public PostLogin);
  ("POST /api/login/passkey-options", public PostLoginPasskeyOptions);
  ("POST /api/logout", public PostLogout);
  ("GET /api/me", viewer GetMe);
  ("POST /api/me/password", viewer PostPassword);
  ("POST /api/me/totp/setup", viewer PostTOTPSetup);
  ("POST /api/me/totp/enable", viewer PostTOTPEnable);
  ("POST /api/me/totp/disable", viewer PostTOTPDisable);
  ("GET /api/me/passkeys", viewer GetPasskeys);
  ("POST /api/me/passkeys", viewer PostPasskey);
  ("POST /api/me/passkeys/options", viewer PostPasskeyOptions);
  ("PATCH /api/me/passkeys/{id}", viewer PatchPasskey);
  ("DELETE /api/me/passkeys/{id}", viewer DeletePasskey);
  ("POST /api/elevate", viewer PostElevate);
  ("GET /api/audit", viewer GetAudit);
  ("GET /api/events", viewer HandleEvents);
  ("GET /api/systems", viewer GetSystems);
  ("GET /api/systems/{id}", viewer GetSystem);
  ("GET /api/systems/{id}/metrics", viewer GetMetrics);
  ("GET /api/systems/{id}/processes", viewer GetProcesses);
  ("GET /api/systems/{id}/services", viewer GetServices);
  ("GET /api/alerts", viewer GetAlerts);
  ("GET /api/alert-rules", viewer GetAlertRules);
  ("GET /api/notifiers", viewer GetNotifiers);
  ("PATCH /api/systems/{id}", operator PatchSystem);
  ("GET /api/systems/{id}/shell", (AnyUser, HandleShell));
  ("POST /api/systems/{id}/wake", operator PostWake);
  ("POST /api/systems/{id}/power", operator PostPower);
  ("POST /api/systems/{id}/services", operator PostService);
  ("POST /api/systems/{id}/processes/{pid}/signal", operator PostSignal);
  ("GET /api/systems/{id}/files", operator GetFiles);
  ("GET /api/systems/{id}/files/download", operator DownloadFile);
  ("PUT /api/systems/{id}/files", operator PutFile);
  ("POST /api/systems/{id}/files", operator PostFileAction);
  ("GET /api/scripts", operator GetScripts);
  ("POST /api/scripts", operator SaveScript);
  ("PUT /api/scripts/{id}", operator SaveScript);
  ("DELETE /api/scripts/{id}", operator DeleteScript);
  ("GET /api/runs", operator GetRuns);
  ("POST /api/runs", operator PostRun);
  ("GET /api/runs/{id}", operator GetRun);
  ("GET /api/runs/{id}/events", operator GetRunEvents);
  ("POST /api/runs/{id}/cancel", operator PostRunCancel);
  ("DELETE /api/systems/{id}", admin DeleteSystem);
  ("POST /api/systems/{id}/update", admin PostAgentUpdate);
  ("POST /api/enroll", admin PostEnroll);
  ("POST /api/alert-rules", admin SaveAlertRule);
  ("PUT /api/alert-rules/{id}", admin SaveAlertRule);
  ("DELETE /api/alert-rules/{id}", admin DeleteAlertRule);
  ("POST /api/notifiers", admin SaveNotifier);
  ("POST /api/notifiers/test", admin TestNotifier);
  ("PUT /api/notifiers/{id}", admin SaveNotifier);
  ("DELETE /api/notifiers/{id}", admin DeleteNotifier);
  ("GET /api/users", admin GetUsers);
  ("POST /api/users", admin PostUser);
  ("PATCH /api/users/{id}", admin PatchUser);
  ("DELETE /api/users/{id}", admin DeleteUser);
  ("/api/", public ApiNotFound);
  ("GET " +:+ AgentPath, public HandleAgent);
  ("GET /install.sh", public GetInstallScript);
  ("GET /install.ps1", public GetInstallScript);
  ("GET /download/{file}", public GetAgentBinary);
  ("/", public Static)
].
Definition routeOf (x : string * (guard * endpoint)) : route := mkRoute (parsePattern x.1) x.2.1 x.2.2.
(** [NewServeMux] and the registrations in order. *)
Definition newMux : option (list route) := foldl (λ t x, HandleFunc (routeOf x) t) (Some []) registrations.
Definition routes : list route := map routeOf registrations.

(** The matching pattern that every other matching pattern covers. *)
Definition findRoute (method : string) (ss : list string) : option route :=
  let cands := selectWhere (λ rt, matches (rt_pattern rt) method ss) routes in
  List.find (λ c, forallb (λ d, covers (rt_pattern d) (rt_pattern c)) cands) cands.
(** The values of the wildcards. *)
Fixpoint bindSegs (ps : list seg) (ss : list string) (name : string) : string :=
  match ps, ss with
  | Wild n :: ps, s :: ss => if String.eqb n name then s else bindSegs ps ss name
  | Lit _ :: ps, _ :: ss => bindSegs ps ss name
  | _, _ => ""
  end.

(** ** The handler *)
(** Answers of the multiplexer: a redirect to the cleaned path, or what a handler answered. *)
Inductive muxAnswer : Type := Redirected (path : string) | Answered (resp : response).
Record answer := mkAnswer { an_headers : list (string * string); an_result : muxAnswer }.

(** The path as the multiplexer wants it. *)
Definition cleanPath (p : string) : string :=
  if String.eqb p "" then "/" else
  let p := if HasPrefix p "/" then p else "/" +:+ p in
  let np := Clean p in
  if HasSuffix p "/" && negb (String.eqb np "/") then np +:+ "/" else np.
(** A pattern that ends in a slash matches the path itself, not something below it. *)
Definition exactMatch (rt : route) (path : string) : bool :=
  if negb (pt_tree (rt_pattern rt)) then true
  else HasSuffix path "/" && (length (pathSegs path) =? S (length (pt_segs (rt_pattern rt))))%nat.

Definition securityHeaderList : list (string * string) := [
  ("X-Content-Type-Options", "nosniff");
  ("Referrer-Policy", "same-origin");
  ("X-Frame-Options", "DENY");
  ("Content-Security-Policy", "default-src 'self'; style-src 'self' 'unsafe-inline'; img-src 'self' data:; "
     +:+ "connect-src 'self'; frame-ancestors 'none'; base-uri 'self'; form-action 'self'")].
Definition with_RemoteAddr (a : string) (r : request) : request :=
  mkRequest (rq_method r) a (rq_Host r) (rq_Origin r) (rq_cookie r) (rq_TLS r) (rq_ForwardedProto r) (rq_ForwardedHost r)
    (rq_ForwardedFor r) (rq_PathValue r) (rq_Query r) (rq_done r).
Definition with_PathValue (v : string → string) (r : request) : request :=
  mkRequest (rq_method r) (rq_RemoteAddr r) (rq_Host r) (rq_Origin r) (rq_cookie r) (rq_TLS r) (rq_ForwardedProto r)
    (rq_ForwardedHost r) (rq_ForwardedFor r) v (rq_Query r) (rq_done r).

Section handler.
Context `{Lib}.
(** The handlers: those without a session and those with one; and the decoding of a path segment. *)
Context (open : endpoint → request → M hub response) (signed : endpoint → sessionHandler).
Context (pathUnescape : string → string) (proxies : list (netAddr * Z)).

Definition segsOf (path : string) : list string := map pathUnescape (pathSegs path).
(** A handler behind its guard. *)
Definition guarded (rt : route) (r : request) : M hub response :=
  match rt_guard rt with
  | Public => open (rt_handler rt) r
  | AnyUser => requireUser (signed (rt_handler rt)) r
  | NeedsRole role => requireRole role (signed (rt_handler rt)) r
  end.
(** [ServeMux.ServeHTTP]. *)
Definition serveMux (path : string) (r : request) : M hub muxAnswer :=
  let clean := if String.eqb (rq_method r) "CONNECT" then path else cleanPath path in
  match findRoute (rq_method r) (segsOf clean) with
  | None => mret (Answered (writeError 404 "not found"))
  | Some rt =>
    let slashed := findRoute (rq_method r) (segsOf (clean +:+ "/")) in
    if negb (exactMatch rt clean) && negb (HasSuffix clean "/")
       && match slashed with Some rt2 => exactMatch rt2 (clean +:+ "/") | None => false end
    then mret (Redirected (clean +:+ "/"))
    else if negb (String.eqb clean path) then mret (Redirected clean)
    else resp ← guarded rt (with_PathValue (bindSegs (pt_segs (rt_pattern rt)) (segsOf clean)) r); mret (Answered resp)
  end.
Definition securityHeaders (next : request → M hub muxAnswer) (r : request) : M hub answer :=
  a ← next r; mret (mkAnswer securityHeaderList a).
(** Requests of other origins that would change state are refused. *)
Definition sameOrigin (next : request → M hub muxAnswer) (r : request) : M hub muxAnswer :=
  let refused := Answered (writeError 403 "cross-origin request refused") in
  if existsb (String.eqb (rq_method r)) ["GET"; "HEAD"; "OPTIONS"] then next r
  else if String.eqb (rq_Origin r) "" then next r
  else match urlParse (rq_Origin r) with
       | Some u => if String.eqb (url_Host u) (rq_Host r) then next r else mret refused
       | None => mret refused
       end.
Definition Handler (path : string) (r : request) : M hub answer :=
  securityHeaders (sameOrigin (serveMux path)) (with_RemoteAddr (realIP proxies (rq_RemoteAddr r) (rq_ForwardedFor r)) r).
End handler.

(** ** Registration does not panic, and every request finds its route *)
Lemma newMux_routes : newMux = Some routes.
Proof. vm_compute. reflexivity. Qed.
Lemma coversSeg_trans p q r : coversSeg p q = true → coversSeg q r = true → coversSeg p r = true.
Proof. destruct p, q, r; cbn; try done. intros ->%String.eqb_eq ->%String.eqb_eq. apply String.eqb_refl. Qed.
Lemma coversSegs_trans ps pt qs qt rs rt :
  coversSegs ps pt qs qt = true → coversSegs qs qt rs rt = true → coversSegs ps pt rs rt = true.
Proof.
  revert qs rs. induction ps as [|p ps IH]; intros [|q qs] [|r rs]; cbn; try done; try (by destruct pt, qt, rt).
  rewrite !andb_true_iff. intros [??] [??]. split; [by eapply coversSeg_trans|by eapply IH].
Qed.
Lemma coversMethod_trans m n o : coversMethod m n = true → coversMethod n o = true → coversMethod m o = true.
Proof.
  unfold coversMethod. rewrite !orb_true_iff, !andb_true_iff, !String.eqb_eq. intros [[?|?]|[??]] [[?|?]|[??]]; subst; auto; discriminate.
Qed.
(** The order of the routes: [x] is at least as general as [y]. *)
Definition moreGeneral (x y : route) : Prop := covers (rt_pattern x) (rt_pattern y) = true.
#[export] Instance moreGeneral_trans : Transitive moreGeneral.
Proof.
  intros p q r. unfold moreGeneral, covers. rewrite !andb_true_iff. intros [??] [??].
  split; [by eapply coversMethod_trans|by eapply coversSegs_trans].
Qed.

(** Patterns that match the same request meet. *)
Lemma matchMethod_meet m n method : matchMethod m method = true → matchMethod n method = true → meetMethod m n = true.
Proof.
  unfold matchMethod, meetMethod, coversMethod. rewrite !orb_true_iff, !andb_true_iff, !String.eqb_eq.
  intros [[?|?]|[??]] [[?|?]|[??]]; subst; auto 8; discriminate.
Qed.
Lemma matchSegs_meet ps pt qs qt ss :
  matchSegs ps pt ss = true → matchSegs qs qt ss = true → meetSegs ps pt qs qt = true.
Proof.
  revert qs ss. induction ps as [|p ps IH]; intros [|q qs] [|s ss]; cbn; try done; try (by destruct pt, qt).
  rewrite !andb_true_iff. intros [Hp ?] [Hq ?]. split; [|by eapply IH].
  unfold matchSeg in Hp, Hq. destruct p, q; cbn; bool_hyps; subst; auto using String.eqb_refl.
Qed.
Lemma matches_meet p q method ss : matches p method ss = true → matches q method ss = true → meet p q = true.
Proof.
  unfold matches, meet. rewrite !andb_true_iff. intros [??] [??].
  split; [by eapply matchMethod_meet|by eapply matchSegs_meet].
Qed.
(** Of two registered patterns that meet one covers the other. *)
Definition comparable (p q : pattern) : bool := negb (meet p q) || covers p q || covers q p.
Lemma routes_comparable x y : x ∈ routes → y ∈ routes → comparable (rt_pattern x) (rt_pattern y) = true.
Proof.
  assert (Hall : forallb (λ a, forallb (λ b, comparable (rt_pattern a) (rt_pattern b)) routes) routes = true)
    by (vm_compute; reflexivity).
  rewrite !list_elem_of_In. intros Hx Hy. rewrite forallb_forall in Hall. specialize (Hall x Hx).
  rewrite forallb_forall in Hall. auto.
Qed.
(** A list whose members are comparable has a member below all. *)
Lemma least_member {A} (R : A → A → Prop) `{!Transitive R} (l : list A) :
  l ≠ [] → (∀ x y, x ∈ l → y ∈ l → R x y ∨ R y x) → ∃ c, c ∈ l ∧ ∀ d, d ∈ l → R d c.
Proof.
  induction l as [|a l IH]; [done|]. intros _ Hc. destruct l as [|b l].
  - exists a. split; [constructor|]. intros d ->%list_elem_of_singleton. by destruct (Hc a a); try constructor.
  - destruct IH as (c & Hin & Hle); [done|intros x y ??; apply Hc; by constructor|].
    assert (Haa : R a a) by (destruct (Hc a a); auto; constructor).
    destruct (Hc a c) as [Hac|Hca]; [constructor|by constructor| |].
    + exists c. split; [by constructor|]. intros d [->|Hd]%elem_of_cons; auto.
    + exists a. split; [constructor|]. intros d [->|Hd]%elem_of_cons; [done|]. transitivity c; auto.
Qed.

Lemma findRoute_spec method ss rt :
  findRoute method ss = Some rt →
  rt ∈ routes ∧ matches (rt_pattern rt) method ss = true
  ∧ ∀ d, d ∈ routes → matches (rt_pattern d) method ss = true → covers (rt_pattern d) (rt_pattern rt) = true.
Proof.
  unfold findRoute. intros Hf. apply find_some in Hf as [Hin Hall]. apply list_elem_of_In, elem_of_selectWhere in Hin as [??].
  split_and!; [done|done|]. intros d Hd Hm. rewrite forallb_forall in Hall. apply Hall, list_elem_of_In, elem_of_selectWhere. auto.
Qed.
Lemma static_matches method s ss : ∃ rt, rt ∈ routes ∧ matches (rt_pattern rt) method (s :: ss) = true.
Proof. exists (mkRoute (mkPattern "" [] true) Public Static). split; [|done]. unfold routes. set_solver. Qed.

#[export] Instance pattern_eq_dec : EqDecision pattern.
Proof. solve_decision. Defined.
#[export] Instance route_eq_dec : EqDecision route.
Proof. solve_decision. Defined.
Lemma routes_distinct x y :
  x ∈ routes → y ∈ routes → covers (rt_pattern x) (rt_pattern y) = true → covers (rt_pattern y) (rt_pattern x) = true → x = y.
Proof.
  assert (Hall : forallb (λ a, forallb (λ b, negb (covers (rt_pattern a) (rt_pattern b))
    || negb (covers (rt_pattern b) (rt_pattern a)) || bool_decide (a = b)) routes) routes = true) by (vm_compute; reflexivity).
  rewrite !list_elem_of_In. intros Hx Hy Hxy Hyx. rewrite forallb_forall in Hall. specialize (Hall x Hx).
  rewrite forallb_forall in Hall. specialize (Hall y Hy). rewrite Hxy, Hyx in Hall. by apply bool_decide_eq_true in Hall.
Qed.
Lemma findRoute_total method s ss : ∃ rt, findRoute method (s :: ss) = Some rt.
Proof.
  unfold findRoute. set (cands := selectWhere _ routes). destruct (static_matches method s ss) as (rt0 & Hr0 & Hm0).
  assert (Hin : ∀ x, x ∈ cands ↔ x ∈ routes ∧ matches (rt_pattern x) method (s :: ss) = true).
  { intros x. unfold cands. by rewrite elem_of_selectWhere. }
  destruct (least_member moreGeneral cands) as (c & Hc & Hle).
  - assert (Hrt : rt0 ∈ cands) by (by apply Hin). intros E. rewrite E in Hrt. by apply not_elem_of_nil in Hrt.
  - intros x y [Hx Hmx]%Hin [Hy Hmy]%Hin. pose proof (routes_comparable x y Hx Hy) as Hc. unfold comparable in Hc.
    rewrite (matches_meet _ _ _ _ Hmx Hmy) in Hc. cbn in Hc. by apply orb_true_iff in Hc.
  - destruct (List.find _ cands) as [rt|] eqn:Ef; [by exists rt|]. exfalso.
    apply list_elem_of_In, (find_none _ _ Ef c), not_true_iff_false in Hc. apply Hc, forallb_forall.
    intros d Hd%list_elem_of_In. by apply Hle.
Qed.

(** Routing is well defined: registering the routes does not panic, and every request path has
    exactly one most specific pattern, the one that is served; a path no API route knows ends at
    the catch-all handlers. *)
Theorem routing_total (method s : string) (ss : list string) :
  newMux = Some routes
  ∧ ∃ rt, findRoute method (s :: ss) = Some rt ∧ rt ∈ routes ∧ matches (rt_pattern rt) method (s :: ss) = true
    ∧ ∀ d, d ∈ routes → matches (rt_pattern d) method (s :: ss) = true →
        covers (rt_pattern d) (rt_pattern rt) = true ∧ (covers (rt_pattern rt) (rt_pattern d) = true → d = rt).
Proof.
  split; [apply newMux_routes|]. destruct (findRoute_total method s ss) as [rt Hf]. exists rt. split; [done|].
  destruct (findRoute_spec _ _ _ Hf) as (Hin & Hm & Hle). split_and!; [done|done|]. intros d Hd Hmd.
  split; [by apply Hle|]. intros Hc. symmetry. by apply routes_distinct; auto.
Qed.

(** ** Who may ask for what *)
(** The methods that change nothing. *)
Definition reads (method : string) : bool := existsb (String.eqb method) ["GET"; "HEAD"].
(** The policy, by the area of the path: what concerns the hub itself is for administrators, what acts
    on machines for operators, and the own account and looking at systems for everyone; the
    terminal checks the role itself. *)
Definition under (area : string) (ss : list string) : bool :=
  match ss with api :: a :: _ => String.eqb api "api" && String.eqb a area | _ => false end.
Definition ofSystem (what : string) (ss : list string) : bool :=
  under "systems" ss && match ss with _ :: _ :: _ :: w :: _ => String.eqb w what | _ => String.eqb what "" end.
Definition adminArea (method : string) (ss : list string) : bool :=
  under "users" ss || under "enroll" ss || ofSystem "update" ss
  || (negb (reads method) && (under "alert-rules" ss || under "notifiers" ss))
  || (String.eqb method "DELETE" && ofSystem "" ss).
Definition operatorArea (method : string) (ss : list string) : bool :=
  under "scripts" ss || under "runs" ss || ofSystem "files" ss
  || (negb (reads method) && under "systems" ss).
Definition policy (method : string) (ss : list string) : guard :=
  if ofSystem "shell" ss then AnyUser
  else if adminArea method ss then NeedsRole RoleAdmin
  else if operatorArea method ss then NeedsRole RoleOperator
  else NeedsRole RoleViewer.
Definition publicEndpoints : list endpoint :=
  [Health; GetSetup; PostSetup; PostLogin; PostLoginPasskeyOptions; PostLogout; ApiNotFound; HandleAgent;
   GetInstallScript; GetAgentBinary; Static].
Definition obeys (rt : route) : Prop := ∀ method ss,
  matches (rt_pattern rt) method ss = true →
  (rt_guard rt = Public ∧ rt_handler rt ∈ publicEndpoints) ∨ rt_guard rt = policy method ss.
Lemma matchSeg_Lit l s : matchSeg (Lit l) s = true → s = l.
Proof. unfold matchSeg. rewrite andb_true_iff, String.eqb_eq. by intros [_ ->]. Qed.
(** Takes the segments of the path apart along the pattern. *)
Lemma matchSegs_cons p ps tree ss :
  matchSegs (p :: ps) tree ss = true → ∃ s ss', ss = s :: ss' ∧ matchSeg p s = true ∧ matchSegs ps tree ss' = true.
Proof. destruct ss as [|s ss']; [done|]. intros [??]%andb_true_iff. eauto. Qed.
Lemma matchSegs_nil ss : matchSegs [] false ss = true → ss = [].
Proof. by destruct ss. Qed.
Ltac split_segs :=
  repeat match goal with
         | H : matchSegs [] false _ = true |- _ => apply matchSegs_nil in H; subst
         | H : matchSegs (_ :: _) _ _ = true |- _ => apply matchSegs_cons in H as (? & ? & -> & ? & H)
         | H : matchSeg (Lit _) _ = true |- _ => apply matchSeg_Lit in H; subst
         end.
Lemma matchMethod_spec m method :
  matchMethod m method = true → m = "" ∨ method = m ∨ (m = "GET" ∧ method = "HEAD").
Proof. unfold matchMethod. rewrite !orb_true_iff, !andb_true_iff, !String.eqb_eq. naive_solver. Qed.
Lemma routes_obey : Forall obeys routes.
Proof.
  let r := eval vm_compute in routes in change routes with r.
  repeat (apply Forall_cons; split); [..|apply Forall_nil; done].
  all: intros method ss Hm; try (left; split; [reflexivity|cbn; set_solver]).
  all: right; apply andb_true_iff in Hm as [Hm Hs]; cbn [rt_guard rt_pattern pt_segs pt_tree pt_method] in *; split_segs.
  all: apply matchMethod_spec in Hm as [Hm|[->|[Hm ->]]]; try discriminate Hm.
  all: vm_compute; reflexivity.
Qed.

Section access.
Context `{Lib}.
Context (open : endpoint → request → M hub response) (signed : endpoint → sessionHandler).
Context (pathUnescape : string → string) (proxies : list (netAddr * Z)).
Abbreviation tables h := (m_db (h_m h)).
(** A session may do what a guard asks for. *)
Definition allowed (g : guard) (s : Session) : Prop :=
  match g with Public => False | AnyUser => True | NeedsRole role => RoleIncludes (u_Role (s_User s)) role = true end.
(** The request came from a page of another origin. *)
Definition foreign (r : request) : Prop :=
  rq_Origin r ≠ "" ∧ ∀ u, urlParse (rq_Origin r) = Some u → url_Host u ≠ rq_Host r.

Lemma wp_guarded rt method ss (r : request) (Q : response → hub → Prop) h :
  rt ∈ routes → matches (rt_pattern rt) method ss = true →
  (∀ resp h1, refusal resp → onlyMach h h1 → tables h1 = tables h → Q resp h1) →
  (rt_handler rt ∈ publicEndpoints → wp (open (rt_handler rt) r) Q h) →
  (∀ token s h1, rq_cookie r = Some token → onlyMach h h1 → tables h1 = tables h →
     validSession (tables h) token (unix (clock (h_m h1))) s → allowed (policy method ss) s →
     wp (signed (rt_handler rt) r s) Q h1) →
  wp (guarded open signed rt r) Q h.
Proof.
  intros Hin Hm Hno Hopen Hsig. pose proof routes_obey as Ho. rewrite Forall_forall in Ho.
  unfold guarded. destruct (Ho rt Hin method ss Hm) as [[-> Hp]| ->]; [by apply Hopen|].
  assert (Hpol : policy method ss ≠ Public) by (unfold policy; by repeat case_match).
  destruct (policy method ss) as [| |role]; [done| |].
  - apply wp_requireUser; [done|]. intros. by eapply Hsig.
  - apply wp_requireRole; [done|]. intros. by eapply Hsig.
Qed.
Lemma wp_serveMux path (r : request) (Q : muxAnswer → hub → Prop) h :
  (∀ p, Q (Redirected p) h) → Q (Answered (writeError 404 "not found")) h →
  (∀ rt, rt ∈ routes → matches (rt_pattern rt) (rq_method r) (segsOf pathUnescape path) = true →
     wp (guarded open signed rt (with_PathValue (bindSegs (pt_segs (rt_pattern rt)) (segsOf pathUnescape path)) r))
       (λ resp, Q (Answered resp)) h) →
  wp (serveMux open signed pathUnescape path r) Q h.
Proof.
  intros Hred Hnf Hg. unfold serveMux. set (clean := if String.eqb _ "CONNECT" then _ else _).
  destruct (findRoute _ (segsOf _ clean)) as [rt|] eqn:Ef; [|by apply wp_ret].
  destruct (_ && _ && _); [by apply wp_ret|].
  destruct (String.eqb_spec clean path) as [Ec|]; cbn [negb]; [|by apply wp_ret].
  destruct (findRoute_spec _ _ _ Ef) as (Hin & Hm & _). rewrite Ec in *. apply wp_bind.
  eapply wp_mono; [by apply Hg|]. intros. by apply wp_ret.
Qed.

(** The request as the handlers see it. *)
Definition seenAs (r r' : request) : Prop :=
  rq_method r' = rq_method r ∧ rq_cookie r' = rq_cookie r
  ∧ rq_RemoteAddr r' = realIP proxies (rq_RemoteAddr r) (rq_ForwardedFor r).

(** What may come of a request. *)
Inductive outcome (path : string) (r : request) (h : hub) : muxAnswer → hub → Prop :=
| out_refused a h' : onlyMach h h' → tables h' = tables h → outcome path r h a h'
| out_public ep r' resp h' :
    ep ∈ publicEndpoints → seenAs r r' → (reads (rq_method r) || String.eqb (rq_method r) "OPTIONS" = false → ¬ foreign r) →
    open ep r' h = (resp, h') → outcome path r h (Answered resp) h'
| out_signed ep r' token s h1 resp h' :
    rq_cookie r = Some token → onlyMach h h1 → tables h1 = tables h →
    validSession (tables h) token (unix (clock (h_m h1))) s →
    allowed (policy (rq_method r) (segsOf pathUnescape path)) s →
    seenAs r r' → (reads (rq_method r) || String.eqb (rq_method r) "OPTIONS" = false → ¬ foreign r) →
    signed ep r' s h1 = (resp, h') → outcome path r h (Answered resp) h'.
Lemma serveMux_outcome path r r1 h :
  seenAs r r1 → (reads (rq_method r) || String.eqb (rq_method r) "OPTIONS" = false → ¬ foreign r) →
  wp (serveMux open signed pathUnescape path r1) (outcome path r h) h.
Proof.
  intros Hs Hf. apply wp_serveMux; [intros; by apply out_refused|by apply out_refused|].
  intros rt Hin Hm. set (r2 := with_PathValue _ _). assert (Hs2 : seenAs r r2) by done.
  eapply wp_guarded; [done|done|intros; by apply out_refused| |].
  - intros Hp. unfold wp. destruct (open _ r2 h) eqn:E. by eapply out_public.
  - intros token s h1 Hc Ho Ht Hv Ha. unfold wp. destruct (signed _ r2 s h1) eqn:E.
    destruct Hs as (Hmeth & Hcook & _). rewrite Hmeth in Ha. eapply out_signed; eauto. by rewrite <-Hcook.
Qed.

(** C3. Access policy: behind the multiplexer a handler that is not one of the public ones runs only
    for a cookie with a valid session, whose user's role suffices for what the path is about: administrators
    for users, enrolling, updates, removing systems and changing rules and channels, operators for
    scripts, runs, files and whatever else acts on a machine. No handler runs for a state-changing request
    from another origin. Anything else is refused, with the database unchanged. *)
Theorem access_policy (path : string) (r : request) (h : hub) :
  let '(ans, h') := Handler open signed pathUnescape proxies path r h in
  an_headers ans = securityHeaderList ∧ outcome path r h (an_result ans) h'.
Proof.
  apply wp_let. unfold Handler, securityHeaders. apply wp_bind. set (r1 := with_RemoteAddr _ r).
  assert (Hs : seenAs r r1) by done.
  eapply (wp_mono _ (outcome path r h)); [|intros a h' Ho; by apply wp_ret].
  unfold sameOrigin. destruct (existsb _ _) eqn:Em.
  { apply serveMux_outcome; [done|]. intros Hw. exfalso. revert Em Hw. unfold reads. cbn [existsb].
    destruct (String.eqb _ "GET"), (String.eqb _ "HEAD"), (String.eqb _ "OPTIONS"); done. }
  destruct (String.eqb_spec (rq_Origin r1) "") as [Eo|Eo]; [apply serveMux_outcome; [done|]; by intros _ [? _]|].
  destruct (urlParse (rq_Origin r1)) as [u|] eqn:Eu; [|apply wp_ret; by apply out_refused].
  destruct (String.eqb_spec (url_Host u) (rq_Host r1)) as [Eh|]; [|apply wp_ret; by apply out_refused].
  apply serveMux_outcome; [done|]. intros _ [_ Hf]. by apply (Hf u).
Qed.
End access.

(** The literal pattern wins over the wildcard; HEAD is served by GET; unknown API paths are not found. *)
Example route_examples :
  map (λ x, rt_handler <$> findRoute x.1 x.2)
    [("POST", ["api"; "notifiers"; "test"]); ("PUT", ["api"; "notifiers"; "test"]); ("HEAD", ["api"; "me"]);
     ("GET", ["api"; "nothing"]); ("GET", ["api"; "agent"; "connect"]); ("GET", ["systems"; "3"])]
  = [Some TestNotifier; Some SaveNotifier; Some GetMe; Some ApiNotFound; Some HandleAgent; Some Static].
Proof. reflexivity. Qed.
