(* ===== verification/Links.v ===== *)
(** * Who is connected

    The links of the hub over its life: connections are registered and end, systems are renamed
    and deleted, everything else happens in between. *)
From Stdlib Require Import ZArith Lia Ascii String.
From S2P Require Import Prelude GoStrings Float64 Library Store StoreTables StoreInv StoreSteps Metrics Limiter TailBuffer Update Webauthn Protocol Hub Auth AuthProps Alerts AlertProps AlertApi State Gateway Systems.
From stdpp Require Import base gmap strings list relations.
Local Open Scope string_scope.
Local Open Scope list_scope.
Local Open Scope Z_scope.
Local Open Scope lotse_scope.

Section links.
Context `{Lib} `{Marshal} `{!Unmarshal SystemInfo} `{!Unmarshal Metrics}.
Implicit Types (h : hub) (ac : agentConn).

(** A step that changes no link; effects only add up. *)
Definition linksKept h h' : Prop := h_agents h' = h_agents h ∧ ∃ l, h_trace h' = h_trace h ++ l.
#[export] Instance linksKept_preorder : PreOrder linksKept.
Proof.
  split; unfold linksKept.
  - intros h. split; [done|]. exists []. by rewrite app_nil_r.
  - intros h1 h2 h3 [? [l1 Hl1]] [? [l2 Hl2]]. split; [congruence|]. exists (l1 ++ l2). by rewrite Hl2, Hl1, app_assoc.
Qed.
Lemma linksKept_calm h h' : h_agents h' = h_agents h → h_trace h' = h_trace h → linksKept h h'.
Proof. intros ? Ht. split; [done|]. exists []. by rewrite app_nil_r. Qed.
Lemma steps_db_links {A} (m : M mach A) : steps linksKept (db m).
Proof. intros h. unfold db. destruct (m (h_m h)). by apply linksKept_calm. Qed.
Lemma steps_publish_links e d : steps linksKept (publish e d).
Proof. intros h. unfold publish, mmodify. cbn. by destruct (decide _); apply linksKept_calm. Qed.
Lemma steps_engine_links f : steps linksKept (onEngine f).
Proof. intros h. by apply linksKept_calm. Qed.
Lemma steps_emit_links e : steps linksKept (emit e).
Proof. intros h. split; [done|]. by exists [e]. Qed.
Lemma steps_putState_links id st : steps linksKept (putState id st).
Proof. intros h. by apply linksKept_calm. Qed.
Hint Resolve steps_db_links steps_publish_links steps_engine_links steps_emit_links steps_putState_links : steps.
Lemma steps_flushState_links id force : steps linksKept (flushState id force).
Proof. unfold flushState, takeBucket, writeBucket. go_steps. Qed.
Lemma steps_agent_links id : steps linksKept (agentOnline id) ∧ steps linksKept (agentOffline id).
Proof. unfold agentOnline, agentOffline. split; go_steps. Qed.
Lemma steps_reset_links r id : steps linksKept (resetAlerts r id).
Proof. unfold resetAlerts, reloadRulesLocked. go_steps. Qed.
Lemma steps_audit_links r u a s d : steps linksKept (audit r u a s d).
Proof. unfold audit. go_steps. Qed.
Lemma steps_lookup_links r : steps linksKept (lookupSystem r).
Proof. unfold lookupSystem. go_steps. Qed.
Hint Resolve steps_flushState_links steps_reset_links steps_audit_links steps_lookup_links : steps.

(** A connection [c] is done for: the hub closed it. *)
Definition closed (c : nat) h : Prop := ECloseLink c ∈ h_trace h.
(** What a step does to the links: the new map, and the connections it closes. *)
Definition relinks (f : gmap Z agentConn → gmap Z agentConn) (cl : gmap Z agentConn → list nat) h h' : Prop :=
  h_agents h' = f (h_agents h) ∧ (∃ l, h_trace h' = h_trace h ++ l) ∧ ∀ c, c ∈ cl (h_agents h) → closed c h'.
Definition linkOf (id : Z) (m : gmap Z agentConn) : list nat := option_list (ac_conn <$> m !! id).

Lemma relinks_then f cl h1 h2 h3 : relinks f cl h1 h2 → linksKept h2 h3 → relinks f cl h1 h3.
Proof.
  intros (Hf & [l Hl] & Hc) [Ha [l' Hl']]. split_and!; [congruence| |].
  - exists (l ++ l'). by rewrite Hl', Hl, app_assoc.
  - intros c Hin. unfold closed. rewrite Hl'. apply elem_of_app. left. by apply Hc.
Qed.
Lemma relinks_after f cl h1 h2 h3 : linksKept h1 h2 → relinks f cl h2 h3 → relinks f cl h1 h3.
Proof.
  intros [Ha [l Hl]] (Hf & [l' Hl'] & Hc). unfold relinks. rewrite <-Ha. split_and!; [done| |done].
  exists (l ++ l'). by rewrite Hl', Hl, app_assoc.
Qed.
Lemma register_links ac h :
  wp (register ac) (λ _ h', relinks <[ac_id ac := ac]> (linkOf (ac_id ac)) h h') h.
Proof.
  unfold register. apply wp_bind, wp_get, wp_bind, wp_modify, wp_bind.
  eapply (wp_mono _ (λ _ h1, relinks <[ac_id ac := ac]> (linkOf (ac_id ac)) h h1)).
  - unfold relinks, linkOf. destruct (h_agents h !! ac_id ac) as [o|].
    + apply wp_modify. cbn. split_and!; [done|by eexists|]. intros c ->%list_elem_of_singleton.
      apply elem_of_app. right. by constructor.
    + apply wp_ret. cbn. split_and!; [done|exists []; by rewrite app_nil_r|]. by intros c ?%not_elem_of_nil.
  - intros _ h1 Hr. eapply wp_steps; [|intros a h' Hk; by eapply relinks_then].
    go_steps. apply steps_agent_links.
Qed.
Lemma unregister_links ac h :
  wp (unregister ac) (λ _ h', relinks (λ m, if isCurrent ac h then delete (ac_id ac) m else m) (λ _, []) h h') h.
Proof.
  unfold unregister. apply wp_bind, wp_get. destruct (isCurrent ac h); cbn [negb].
  - apply wp_bind, wp_modify. eapply wp_steps with (R := linksKept); [go_steps; apply steps_agent_links|].
    intros _ h' Hk. eapply relinks_then; [|done]. split_and!; [done|exists []; by rewrite app_nil_r|]. by intros c ?%not_elem_of_nil.
  - apply wp_ret. split_and!; [done|exists []; by rewrite app_nil_r|]. by intros c ?%not_elem_of_nil.
Qed.
Lemma patchSystem_links r s body h :
  wp (patchSystem r s body) (λ _ h', linksKept h h' ∨ ∃ name id, relinks (alter (renameAgent name) id) (λ _, []) h h') h.
Proof.
  unfold patchSystem. apply wp_bind. eapply wp_steps; [apply steps_lookup_links|]. intros [resp|sys] h1 E1; [apply wp_ret; by left|].
  apply wp_bind, wp_ret. destruct (readJSON body) as [resp|b]; [apply wp_ret; by left|].
  apply wp_bind, wp_ret. destruct (ensure _ _) as [resp|[]]; [apply wp_ret; by left|].
  apply wp_bind. eapply wp_steps with (R := linksKept); [go_steps|]. intros [resp|[]] h2 E2; [apply wp_ret; left; by etrans|].
  apply wp_bind. eapply wp_steps; [apply steps_audit_links|]. intros _ h3 E3. apply wp_bind, wp_modify.
  eapply wp_steps with (R := linksKept); [go_steps|]. intros _ h4 E4. right. exists (TrimSpace b), (sy_ID sys).
  eapply relinks_after; [etrans; [exact E1|etrans; [exact E2|exact E3]]|]. eapply relinks_then; [|exact E4].
  split_and!; [done|exists []; by rewrite app_nil_r|]. by intros c ?%not_elem_of_nil.
Qed.
Lemma deleteSystem_links r s h :
  wp (deleteSystem r s) (λ _ h', linksKept h h' ∨ ∃ id, relinks (delete id) (linkOf id) h h') h.
Proof.
  unfold deleteSystem. apply wp_bind. eapply wp_steps; [apply steps_lookup_links|]. intros [resp|sys] h1 E1; [apply wp_ret; by left|].
  apply wp_bind. eapply wp_steps; [apply steps_db_links|]. intros e h2 E2.
  assert (Hgo : wp (h ← mget; let ac := h_agents h !! sy_ID sys in
    mmodify (λ h, with_states (delete (sy_ID sys) (h_states h)) (with_agents (delete (sy_ID sys) (h_agents h)) h));;
    match ac with Some ac => emit (ECloseLink (ac_conn ac)) | None => mret tt end;;
    resetAlerts 0 (sy_ID sys);;
    audit (Some r) (u_Username (s_User s)) "system_deleted" (Some sys) "";;
    publish "systems" JNull;; mret noContent) (λ _ h', linksKept h h' ∨ ∃ id, relinks (delete id) (linkOf id) h h') h2).
  { apply wp_bind, wp_get, wp_bind, wp_modify, wp_bind.
    eapply (wp_mono _ (λ _ h3, relinks (delete (sy_ID sys)) (linkOf (sy_ID sys)) h2 h3)).
    - unfold relinks, linkOf. destruct (h_agents h2 !! sy_ID sys) as [o|].
      + apply wp_modify. cbn. split_and!; [done|by eexists|]. intros c ->%list_elem_of_singleton.
        apply elem_of_app. right. by constructor.
      + apply wp_ret. cbn. split_and!; [done|exists []; by rewrite app_nil_r|]. by intros c ?%not_elem_of_nil.
    - intros _ h3 Hr. eapply wp_steps with (R := linksKept); [go_steps|]. intros _ h4 E4. right. exists (sy_ID sys).
      eapply relinks_after; [etrans; [exact E1|exact E2]|]. by eapply relinks_then. }
  destruct e as [u|[]]; try exact Hgo; apply wp_ret; left; by etrans.
Qed.

(** The connections that were registered and have not ended, with their systems. *)
Abbreviation openLinks := (list (nat * Z)).
Inductive linkStep : openLinks * hub → openLinks * hub → Prop :=
| link_connects o h h' ac interval : ac_conn ac ∉ map fst o → register ac h = (interval, h') →
    linkStep (o, h) ((ac_conn ac, ac_id ac) :: o, h')
| link_ends o h h' ac : (ac_conn ac, ac_id ac) ∈ o → unregister ac h = (tt, h') →
    linkStep (o, h) (deleteWhere (λ x, x.1 =? ac_conn ac)%nat o, h')
| link_renamed o h h' r s body resp : patchSystem r s body h = (resp, h') → linkStep (o, h) (o, h')
| link_deleted o h h' r s resp : deleteSystem r s h = (resp, h') → linkStep (o, h) (o, h')
| link_elsewhere o h h' : linksKept h h' → linkStep (o, h) (o, h').

Definition isLink (c : nat) (id : Z) h : Prop := ∃ x, h_agents h !! id = Some x ∧ ac_conn x = c.
Record linkInv (o : openLinks) h : Prop := {
  li_nodup : NoDup (map fst o);
  li_open : ∀ c id, (c, id) ∈ o → isLink c id h ∨ closed c h;
  li_map : ∀ id x, h_agents h !! id = Some x → ac_id x = id ∧ (ac_conn x, id) ∈ o;
}.
Lemma closed_grows c h h' l : h_trace h' = h_trace h ++ l → closed c h → closed c h'.
Proof. unfold closed. intros ->. rewrite elem_of_app. by left. Qed.
Lemma linkInv_kept o h h' : linksKept h h' → linkInv o h → linkInv o h'.
Proof.
  intros [Ha [l Hl]] [Hn Ho Hm]. split; [done| |by rewrite Ha]. intros c id Hin. unfold isLink. rewrite Ha.
  destruct (Ho c id Hin); [by left|right; by eapply closed_grows].
Qed.
Lemma linkInv_connects o h h' ac :
  ac_conn ac ∉ map fst o → relinks <[ac_id ac := ac]> (linkOf (ac_id ac)) h h' → linkInv o h →
  linkInv ((ac_conn ac, ac_id ac) :: o) h'.
Proof.
  intros Hnew (Ha & [l Hl] & Hc) [Hn Ho Hm]. split.
  - cbn. by apply NoDup_cons.
  - intros c id [[= -> ->]|Hin]%elem_of_cons; unfold isLink; rewrite Ha; [left; exists ac; by rewrite lookup_insert_eq|].
    destruct (Ho c id Hin) as [(x & Hx & <-)|Hcl]; [|right; by eapply closed_grows].
    destruct (decide (id = ac_id ac)) as [->|Hne]; [right; apply Hc; unfold linkOf; rewrite Hx; by constructor|].
    left. exists x. by rewrite lookup_insert_ne.
  - intros id x. rewrite Ha. intros [[<- <-]|[Hne Hx]]%lookup_insert_Some; [split; [done|by constructor]|].
    destruct (Hm id x Hx). split; [done|]. by constructor.
Qed.
Lemma linkInv_ends o h h' ac :
  (ac_conn ac, ac_id ac) ∈ o → relinks (λ m, if isCurrent ac h then delete (ac_id ac) m else m) (λ _, []) h h' → linkInv o h →
  linkInv (deleteWhere (λ x, x.1 =? ac_conn ac)%nat o) h'.
Proof.
  intros Hin (Ha & [l Hl] & _) [Hn Ho Hm].
  assert (Hcur : ∀ id x, h_agents h' !! id = Some x → h_agents h !! id = Some x ∧ ac_conn x ≠ ac_conn ac).
  { intros id x. rewrite Ha. destruct (isCurrent ac h) eqn:Ec.
    - intros [Hne Hx]%lookup_delete_Some. split; [done|]. intros Heq. apply Hne.
      destruct (Hm id x Hx) as [_ Hox]. rewrite Heq in Hox.
      by pose proof (key_unique fst o _ _ Hn Hin Hox eq_refl) as [= ?].
    - intros Hx. split; [done|]. intros Heq. destruct (Hm id x Hx) as [_ Hox]. rewrite Heq in Hox.
      pose proof (key_unique fst o _ _ Hn Hin Hox eq_refl) as [= <-]. unfold isCurrent in Ec. rewrite Hx, Heq, Nat.eqb_refl in Ec. done. }
  split.
  - unfold deleteWhere. clear -Hn. induction o as [|y o IH]; [constructor|]. cbn in *. apply NoDup_cons in Hn as [Hy Hn].
    destruct (negb _); [|by apply IH]. cbn. apply NoDup_cons. split; [|by apply IH].
    intros (z & Hz & Hf)%list_elem_of_fmap. apply Hy. apply list_elem_of_fmap. exists z. split; [done|].
    apply list_elem_of_In, filter_In in Hf as [? _]. by apply list_elem_of_In.
  - intros c id [Hino Hne]%elem_of_deleteWhere. cbn in Hne. bool_hyps.
    destruct (Ho c id Hino) as [(x & Hx & Hxc)|Hcl]; [|right; by eapply closed_grows].
    left. exists x. split; [|done]. rewrite Ha. destruct (isCurrent ac h) eqn:Ec; [|done]. apply lookup_delete_Some. split; [|done].
    intros <-. unfold isCurrent in Ec. rewrite Hx in Ec. bool_hyps. congruence.
  - intros id x Hx. destruct (Hcur id x Hx) as [Hx0 Hne]. destruct (Hm id x Hx0). split; [done|].
    apply elem_of_deleteWhere. split; [done|]. cbn. by apply Nat.eqb_neq.
Qed.
Lemma linkInv_renamed o h h' name id0 :
  relinks (alter (renameAgent name) id0) (λ _, []) h h' → linkInv o h → linkInv o h'.
Proof.
  intros (Ha & [l Hl] & _) [Hn Ho Hm].
  assert (Hsame : ∀ id, (λ x, (ac_conn x, ac_id x)) <$> h_agents h' !! id = (λ x, (ac_conn x, ac_id x)) <$> h_agents h !! id).
  { intros id. rewrite Ha. destruct (decide (id = id0)) as [->|]; [rewrite lookup_alter_eq|by rewrite lookup_alter_ne].
    by destruct (h_agents h !! id0). }
  split; [done| |].
  - intros c id Hin. destruct (Ho c id Hin) as [(x & Hx & <-)|]; [|right; by eapply closed_grows]. left.
    specialize (Hsame id). rewrite Hx in Hsame. destruct (h_agents h' !! id) as [y|] eqn:Ey; [|done].
    cbn in Hsame. injection Hsame as Hy _. by exists y.
  - intros id x Hx. specialize (Hsame id). rewrite Hx in Hsame. destruct (h_agents h !! id) as [y|] eqn:Ey; [|done].
    cbn in Hsame. injection Hsame as -> ->. by apply Hm.
Qed.
Lemma linkInv_deleted o h h' id0 : relinks (delete id0) (linkOf id0) h h' → linkInv o h → linkInv o h'.
Proof.
  intros (Ha & [l Hl] & Hc) [Hn Ho Hm]. split; [done| |].
  - intros c id Hin. destruct (Ho c id Hin) as [(x & Hx & <-)|]; [|right; by eapply closed_grows].
    destruct (decide (id = id0)) as [->|Hne]; [right; apply Hc; unfold linkOf; rewrite Hx; by constructor|].
    left. exists x. by rewrite Ha, lookup_delete_ne.
  - intros id x. rewrite Ha. intros [_ Hx]%lookup_delete_Some. by apply Hm.
Qed.
Lemma linkInv_step x y : linkStep x y → linkInv x.1 x.2 → linkInv y.1 y.2.
Proof.
  destruct 1 as [o h h' ac iv Hnew Hr|o h h' ac Hin Hu|o h h' r s body resp Hp|o h h' r s resp Hd|o h h' Hk]; cbn [fst snd]; intros Hi.
  - by apply (linkInv_connects o h h' ac Hnew (wp_run _ _ _ _ _ (register_links ac h) Hr)).
  - by apply (linkInv_ends o h h' ac Hin (wp_run _ _ _ _ _ (unregister_links ac h) Hu)).
  - destruct (wp_run _ _ _ _ _ (patchSystem_links r s body h) Hp) as [Hk|(name & id & Hk)];
      [by eapply linkInv_kept|by eapply linkInv_renamed].
  - destruct (wp_run _ _ _ _ _ (deleteSystem_links r s h) Hd) as [Hk|(id & Hk)];
      [by eapply linkInv_kept|by eapply linkInv_deleted].
  - by eapply linkInv_kept.
Qed.
Lemma linkInv_run x y : rtc linkStep x y → linkInv x.1 x.2 → linkInv y.1 y.2.
Proof. induction 1 as [|x y z Hxy _ IH]; [done|]. intros Hi. eapply IH, linkInv_step; eauto. Qed.

(** C24. Links are accounted for. However connections come and go, systems are renamed or deleted
    and other requests run: a connection that has not ended is the one link of its system,
    or the hub has closed it (replaced by a newer one, or the system was deleted); a system
    shown online has such a connection; so no system has two links that were not closed. *)
Theorem links_accounted (h h' : hub) (o : openLinks) (Hrun : rtc linkStep ([], h) (o, h')) (Hempty : h_agents h = ∅) :
  (∀ c id, (c, id) ∈ o → isLink c id h' ∨ closed c h')
  ∧ (∀ id ac, h_agents h' !! id = Some ac → (ac_conn ac, id) ∈ o)
  ∧ (∀ c1 c2 id, (c1, id) ∈ o → (c2, id) ∈ o → ¬ closed c1 h' → ¬ closed c2 h' → c1 = c2).
Proof.
  pose proof (linkInv_run _ _ Hrun) as Hi. cbn [fst snd] in Hi. destruct Hi as [Hn Ho Hm].
  { split; [constructor|by intros c id ?%not_elem_of_nil|]. intros id x. by rewrite Hempty, lookup_empty. }
  split_and!; [done|intros id ac Hac; by apply Hm|]. intros c1 c2 id E1 E2 Hc1 Hc2.
  destruct (Ho _ _ E1) as [(x & Hx & <-)|]; [|done]. destruct (Ho _ _ E2) as [(y & Hy & <-)|]; [|done]. congruence.
Qed.
End links.

(** ** Witness: the agent of system 1 connects twice; the first connection is closed *)
Lemma links_accounted_witness :
  let h1 := (@register demoMarsh (demoAgent 0) demoHub).2 in
  let h2 := (@register demoMarsh (demoAgent 1) h1).2 in
  closed 0 h2.
Proof.
  cbv zeta. set (h1 := (register (demoAgent 0) demoHub).2). set (h2 := (register (demoAgent 1) h1).2).
  destruct (@links_accounted demoLib demoMarsh (λ _, (demoInfo, true)) (λ _, (demoSample 0, true)) demoHub h2 [(1%nat, 1); (0%nat, 1)]) as (Ho & _ & _).
  - eapply rtc_l; [eapply (link_connects [] _ h1 (demoAgent 0)); [by apply not_elem_of_nil|apply surjective_pairing]|].
    eapply rtc_l; [|apply rtc_refl]. eapply (link_connects _ _ h2 (demoAgent 1)); [|apply surjective_pairing].
    cbn. intros Hx%list_elem_of_singleton. discriminate.
  - reflexivity.
  - destruct (Ho 0%nat 1) as [(x & Hx & Hc)|Hc]; [do 2 constructor| |exact Hc].
    vm_compute in Hx. injection Hx as <-. discriminate.
Defined.
