(* ===== verification/Control.v ===== *)
(** * Acting on machines ([internal/hub/{processes,control,wake,agentupdate}.go] and
    [protocol.Send])

    Requests to agents appear in the trace; their answers are the next replies of the state,
    none left meaning that the request timed out, which closes the connection. What an
    update's transfer runs into is an argument. *)
From Stdlib Require Import ZArith Lia Ascii String.
From S2P Require Import Prelude GoStrings Float64 Library Store StoreTables StoreInv StoreSteps Metrics Limiter TailBuffer Update Wol Webauthn Protocol Hub Auth AuthProps Alerts AlertProps AlertApi State Gateway Systems.
From stdpp Require Import base gmap strings list relations.
Local Open Scope string_scope.
Local Open Scope list_scope.
Local Open Scope Z_scope.
Local Open Scope lotse_scope.

Record ActionReply := mkActionReply { rp_Error : string }.
Record Process := mkProcess {
  pr_PID : Z;
  pr_Name : string;
  pr_User : string;
  pr_CPU : f64;
  pr_Mem : Z;
  pr_Started : Z;
  pr_Command : string;
}.
Record ProcessList := mkProcessList { pl_Processes : list Process; pl_Total : Z }.
Definition processJSON (p : Process) : json :=
  JObj ([("pid", JInt (pr_PID p)); ("name", JStr (pr_Name p))] ++ omitEmpty "user" (pr_User p)
        ++ [("cpu", JFloat (pr_CPU p)); ("mem", JInt (pr_Mem p))]
        ++ (if pr_Started p =? 0 then [] else [("started", JInt (pr_Started p))]) ++ omitEmpty "cmd" (pr_Command p)).
Definition processListJSON (l : ProcessList) : json :=
  JObj [("processes", JArr (map processJSON (pl_Processes l))); ("total", JInt (pl_Total l))].
(** A body the hub passes on as the agent sent it. *)
Definition rawJSON (payload : string) : json := JObj [("raw", JStr payload)].

Record signalBody := mkSignalBody { sb_Signal : string; sb_Name : string }.
Record serviceBody := mkServiceBody { sv_Name : string; sv_Action : string }.

Section control.
Context `{Lib} `{Marshal} `{!Unmarshal ActionReply} `{!Unmarshal ProcessList} `{!Unmarshal SystemInfo}.

(** [protocol.Send] with a reply: ok, payload and whether [err == nil]. *)
Definition send (conn : nat) (name : string) (msg : json) : M hub (bool * string * bool) :=
  emit (ESend conn name msg);;
  h ← mget;
  match h_replies h with
  | r :: rest => mmodify (with_replies rest);; mret r
  | [] => emit (ECloseLink conn);; mret (false, "", false)
  end.
Definition sendAction (ac : agentConn) (name : string) (msg : json) : M hub string :=
  '(ok, payload, errNil) ← send (ac_conn ac) name msg;
  let reply := (unmarshal payload : ActionReply * bool).1 in
  mret (if negb (String.eqb (rp_Error reply) "") then rp_Error reply
        else if negb errNil || negb ok then "the agent did not answer; it may need an update" else "").
Definition onlineAgent (r : request) : M hub (response + System * agentConn) :=
  x ← lookupSystem r;
  match x with
  | inl resp => mret (inl resp)
  | inr sys =>
    h ← mget;
    mret (match h_agents h !! sy_ID sys with
          | None => inl (writeError 409 "the system is offline")
          | Some ac => inr (sys, ac)
          end)
  end.

(** ** Power, services, processes *)
Definition postPower (r : request) (s : Session) (body : option string) : M hub response :=
  '(sys, ac) ⇐ onlineAgent r;
  action ⇐ mret (readJSON body);
  _ ⇐ mret (ensure (String.eqb action "reboot" || String.eqb action "shutdown") (writeError 400 "action must be reboot or shutdown"));
  _ ⇐ requireElevated s;
  _ ⇐ mret (ensure (has ac FeatureShell)
              (writeError 403 "rebooting is disabled on this machine; install the agent with --allow-shell"));
  msg ← sendAction ac ReqPower (JObj [("action", JStr action)]);
  if negb (String.eqb msg "") then
    audit (Some r) (u_Username (s_User s)) (action +:+ "_failed") (Some sys) msg;;
    mret (writeError 422 msg)
  else
    audit (Some r) (u_Username (s_User s)) action (Some sys) "";;
    mret noContent.
Definition getServices (r : request) (s : Session) : M hub response :=
  '(_, ac) ⇐ onlineAgent r;
  '(ok, payload, errNil) ← send (ac_conn ac) ReqServices (JObj []);
  if negb errNil || negb ok
  then mret (writeError 502 "the agent could not list its services; it may need an update")
  else mret (writeJSON 200 (rawJSON payload)).
Definition postService (r : request) (s : Session) (body : option serviceBody) : M hub response :=
  '(sys, ac) ⇐ onlineAgent r;
  b ⇐ mret (readJSON body);
  _ ⇐ mret (ensure (existsb (String.eqb (sv_Action b)) ["start"; "stop"; "restart"])
              (writeError 400 "action must be start, stop or restart"));
  _ ⇐ mret (ensure (negb (String.eqb (sv_Name b) "" || (256 <? strLen (sv_Name b)))) (writeError 400 "invalid service name"));
  _ ⇐ requireElevated s;
  _ ⇐ mret (ensure (has ac FeatureShell)
              (writeError 403 "controlling services is disabled on this machine; install the agent with --allow-shell"));
  let detail := sv_Action b +:+ " " +:+ truncate (sv_Name b) 128 in
  msg ← sendAction ac ReqService (JObj [("name", JStr (sv_Name b)); ("action", JStr (sv_Action b))]);
  if negb (String.eqb msg "") then
    audit (Some r) (u_Username (s_User s)) "service_control_failed" (Some sys) (detail +:+ ": " +:+ msg);;
    mret (writeError 422 msg)
  else
    audit (Some r) (u_Username (s_User s)) "service_controlled" (Some sys) detail;;
    mret noContent.
Definition withoutCommand (p : Process) : Process :=
  mkProcess (pr_PID p) (pr_Name p) (pr_User p) (pr_CPU p) (pr_Mem p) (pr_Started p) "".
Definition getProcesses (r : request) (s : Session) : M hub response :=
  '(_, ac) ⇐ onlineAgent r;
  let limit := (Atoi (rq_Query r "limit")).1 in
  '(ok, payload, errNil) ← send (ac_conn ac) ReqProcesses (JObj [("limit", JInt (Z.min (Z.max limit 1) 100))]);
  if negb errNil || negb ok then mret (writeError 502 "the agent could not list its processes")
  else if negb (Can (s_User s) RoleOperator) then
    let '(l, valid) := unmarshal payload : ProcessList * bool in
    if negb valid then mret (writeError 502 "the agent sent an invalid process list")
    else mret (writeJSON 200 (processListJSON (mkProcessList (map withoutCommand (pl_Processes l)) (pl_Total l))))
  else mret (writeJSON 200 (rawJSON payload)).
Definition postSignal (r : request) (s : Session) (body : option signalBody) : M hub response :=
  '(sys, ac) ⇐ onlineAgent r;
  let '(pid, valid) := ParseInt 32 (rq_PathValue r "pid") in
  _ ⇐ mret (ensure valid (writeError 400 "invalid process ID"));
  b ⇐ mret (readJSON body);
  _ ⇐ mret (ensure (String.eqb (sb_Signal b) "terminate" || String.eqb (sb_Signal b) "kill")
              (writeError 400 "signal must be terminate or kill"));
  _ ⇐ requireElevated s;
  _ ⇐ mret (ensure (has ac FeatureShell)
              (writeError 403 "stopping processes is disabled on this machine; install the agent with --allow-shell"));
  '(ok, payload, errNil) ← send (ac_conn ac) ReqSignal (JObj [("pid", JInt pid); ("signal", JStr (sb_Signal b))]);
  let reply := (unmarshal payload : ActionReply * bool).1 in
  let detail := sb_Signal b +:+ " PID " +:+ itoa pid +:+ " (" +:+ truncate (sb_Name b) 64 +:+ ")" in
  if negb errNil || negb ok then
    let msg := if String.eqb (rp_Error reply) "" then "the agent did not answer" else rp_Error reply in
    audit (Some r) (u_Username (s_User s)) "process_signal_failed" (Some sys) (detail +:+ ": " +:+ msg);;
    mret (writeError 422 msg)
  else
    audit (Some r) (u_Username (s_User s)) "process_signaled" (Some sys) detail;;
    mret noContent.

(** ** Wake-on-LAN *)
Record wakeResult := mkWakeResult { wr_Via : string; wr_Broadcast : string; wr_MACs : list string }.
Fixpoint collectMACs (ifaces : list NetInterface) (acc : list string) : list string :=
  match ifaces with
  | [] => acc
  | i :: rest =>
    collectMACs rest (if bool_decide (is_Some (ParseMAC (ni_MAC i))) && negb (existsb (String.eqb (ni_MAC i)) acc)
                      then acc ++ [ni_MAC i] else acc)
  end.
Definition collectSubnets (ifaces : list NetInterface) : list (string * (Z * Z)) :=
  flat_map (λ i, omap Broadcast (ni_Addrs i)) ifaces.
(** The agents that may relay, by number. *)
Definition relays (h : hub) (targetID : Z) : list agentConn :=
  sortBy (λ a b, ac_id a <=? ac_id b)
    (map snd (selectWhere (λ kv, negb (kv.1 =? targetID) && has kv.2 FeatureWake) (map_to_list (h_agents h)))).
Fixpoint tryRelays (macs : list string) (sn : string * (Z * Z)) (rls : list agentConn) : M hub (option wakeResult) :=
  match rls with
  | [] => mret None
  | rl :: rest =>
    if negb (inNetwork rl sn.2) then tryRelays macs sn rest else
    '(ok, _, errNil) ← send (ac_conn rl) ReqWake (JObj [("macs", JArr (map JStr macs)); ("broadcast", JStr sn.1)]);
    if errNil && ok then mret (Some (mkWakeResult (ac_name rl) sn.1 macs)) else tryRelays macs sn rest
  end.
Fixpoint trySubnets (macs : list string) (sns : list (string * (Z * Z))) (rls : list agentConn) : M hub (option wakeResult) :=
  match sns with
  | [] => mret None
  | sn :: rest => r ← tryRelays macs sn rls; match r with Some x => mret (Some x) | None => trySubnets macs rest rls end
  end.
(** [slices.Compact]: drop repeats of the element before. *)
Fixpoint compactFrom (prev : string) (l : list string) : list string :=
  match l with
  | [] => []
  | y :: rest => if String.eqb prev y then compactFrom y rest else y :: compactFrom y rest
  end.
Definition compact (l : list string) : list string := match l with [] => [] | x :: rest => x :: compactFrom x rest end.
(** [net]: whether the socket to a broadcast address opens and its writes succeed. *)
Definition wake (net : string → bool * list bool) (targetID : Z) (info : SystemInfo) : M hub (wakeResult + string) :=
  let macs := collectMACs (si_Interfaces info) [] in
  let subnets := collectSubnets (si_Interfaces info) in
  match macs with
  | [] => mret (inr "no MAC address is known for this system; it is recorded once an agent of version 0.2 or newer has connected")
  | _ =>
    h ← mget;
    relayed ← trySubnets macs subnets (relays h targetID);
    match relayed with
    | Some res => mret (inl res)
    | None =>
      let targets := compact (sortBy String.leb (map fst subnets ++ ["255.255.255.255"])) in
      let sent := selectWhere (λ bc, (wolSend macs bc (net bc).1 (net bc).2).2) targets in
      mret (match sent with
            | [] => inr "could not send the magic packet"
            | _ => inl (mkWakeResult "hub" (GoStrings.Join ", " sent) macs)
            end)
    end
  end.
Definition postWake (net : string → bool * list bool) (r : request) (s : Session) : M hub response :=
  sys ⇐ lookupSystem r;
  let info := (unmarshal (sy_Info sys) : SystemInfo * bool).1 in
  res ← wake net (sy_ID sys) info;
  match res with
  | inr msg =>
    audit (Some r) (u_Username (s_User s)) "wake_failed" (Some sys) msg;;
    mret (writeError 422 msg)
  | inl w =>
    audit (Some r) (u_Username (s_User s)) "wake" (Some sys)
      ("magic packet for " +:+ GoStrings.Join ", " (wr_MACs w) +:+ " sent via " +:+ wr_Via w +:+ " to " +:+ wr_Broadcast w);;
    mret (writeJSON 200 (JObj [("via", JStr (wr_Via w)); ("broadcast", JStr (wr_Broadcast w));
                               ("macs", JArr (map JStr (wr_MACs w)))]))
  end.

(** ** Agent updates *)
(** How the transfer went: the binary could not be opened, the agent refused the channel, the
    copy failed, no valid answer came, or the agent answered. *)
Inductive transfer : Type :=
| NoBinary
| Refused (err : string)
| CopyFailed (err : string)
| NoAnswer
| Answered (err : string).
Definition postAgentUpdate (r : request) (s : Session) (t : transfer) : M hub response :=
  '(sys, ac) ⇐ onlineAgent r;
  _ ⇐ mret (ensure (has ac FeatureUpdate)
     (writeError 409 "this agent cannot update itself (it is too old or was installed with --no-updates); re-run the install command"));
  h ← mget;
  match updateFor h (ac_info ac) (sy_AgentVersion sys) with
  | None => mret (writeError 409 ("this hub has no newer signed agent for " +:+ si_OS (ac_info ac) +:+ "/" +:+ si_Arch (ac_info ac)))
  | Some m =>
    let detail := sy_AgentVersion sys +:+ " → " +:+ mf_Version m in
    let fail msg := (audit (Some r) (u_Username (s_User s)) "agent_update_failed" (Some sys) (detail +:+ ": " +:+ msg);;
                     mret (writeError 422 msg)) : M hub response in
    match t with
    | NoBinary => mret internalError
    | Refused err => fail ("the agent refused the update: " +:+ err)
    | CopyFailed err => fail ("sending the update failed: " +:+ err)
    | NoAnswer => fail "the agent did not confirm the update"
    | Answered err =>
      if negb (String.eqb err "") then fail err else
      audit (Some r) (u_Username (s_User s)) "agent_updated" (Some sys) detail;;
      mret (writeJSON 200 (JObj [("version", JStr (mf_Version m))]))
    end
  end.
End control.

(** ** Who may act on a machine *)
Section guards.
Context `{Lib} `{Marshal} `{!Unmarshal ActionReply}.
Implicit Types (h : hub) (s : Session).
Abbreviation tables h := (m_db (h_m h)).

(** The hub [h], with another environment: the same tables and the same next clock reading. *)
Definition sameClock h h' : Prop :=
  ∃ m, h' = with_m m h ∧ m_db m = tables h ∧ (timeNow m).1 = (timeNow (h_m h)).1 ∧ (noFaults (h_m h) → noFaults m).
Lemma wp_onlineAgent r h (Q : response + System * agentConn → hub → Prop) :
  (∀ resp h', h_trace h' = h_trace h → Q (inl resp) h') →
  (∀ sys ac h', sameClock h h' → sys ∈ systems (tables h) → sy_ID sys = (ParseInt 64 (rq_PathValue r "id")).1 →
     h_agents h !! sy_ID sys = Some ac → Q (inr (sys, ac)) h') →
  wp (onlineAgent r) Q h.
Proof.
  intros Hl Hr. unfold onlineAgent. apply wp_bind. unfold lookupSystem.
  destruct (ParseInt 64 _) as [id []]; cbn [negb]; [|by apply wp_ret, wp_ret, Hl].
  apply wp_bind. unfold getSystem. apply wp_db, wp_query_clock; intros m Hm Hc Hn; apply wp_ret; [|by apply wp_ret, Hl].
  destruct (oneRow _) as [sys|e] eqn:E; [|destruct e; by apply wp_ret, Hl].
  apply oneRow_ok, elem_of_selectWhere in E as [Hin Hid]. bool_hyps. apply wp_bind, wp_get, wp_ret. cbn [h_agents with_m].
  destruct (h_agents h !! sy_ID sys) eqn:Ea; [|by apply Hl]. apply Hr; [by exists m|done|done|done].
Qed.
Lemma wp_elevated s h (Q : response + unit → hub → Prop) :
  (∀ resp m, m_db m = tables h → Q (inl resp) (with_m m h)) →
  (∀ m, m_db m = tables h → (noFaults (h_m h) → noFaults m) → unix (timeNow (h_m h)).1 ≤ s_ElevatedUntil s → Q (inr tt) (with_m m h)) →
  wp (requireElevated s) Q h.
Proof.
  intros Hl Hr. unfold requireElevated. apply wp_bind, wp_db, wp_timeNow_full. intros m Hm Hn. apply wp_ret.
  destruct (Z.leb_spec (unix (timeNow (h_m h)).1) (s_ElevatedUntil s)); cbn [ensure]; [by apply Hr|by apply Hl].
Qed.
(** What was sent: the one request, and the end of the link when nothing came back. *)
Definition sent (ac : agentConn) (name : string) (l : list effect) : Prop :=
  ∃ msg, l = [ESend (ac_conn ac) name msg] ∨ l = [ESend (ac_conn ac) name msg; ECloseLink (ac_conn ac)].
Lemma wp_send ac name msg h (Q : bool * string * bool → hub → Prop) :
  (∀ x h' l, h_m h' = h_m h → sent ac name l → h_trace h' = h_trace h ++ l → Q x h') → wp (send (ac_conn ac) name msg) Q h.
Proof.
  intros HQ. unfold send. apply wp_bind, wp_modify, wp_bind, wp_get. cbn [h_replies with_trace].
  destruct (h_replies h) as [|x rest].
  - apply wp_bind, wp_modify, wp_ret. eapply (HQ _ _ [_; _]); [done| |cbn; by rewrite <-app_assoc]. exists msg. by right.
  - apply wp_bind, wp_modify, wp_ret. eapply (HQ _ _ [_]); [done| |done]. exists msg. by left.
Qed.
(** The activity log has one more entry, by this user and for this system. *)
Definition logged (username : string) (id : Z) (l l' : list AuditEntry) : Prop :=
  ∃ e, l' = l ++ [e] ∧ ae_Username e = truncate username maxNameLen ∧ ae_SystemID e = Some id.
Lemma wp_audit r username action sys detail h (Q : unit → hub → Prop) :
  (∀ h', h_trace h' = h_trace h → (noFaults (h_m h) → logged username (sy_ID sys) (audit_log (tables h)) (audit_log (tables h'))) → Q tt h') →
  wp (audit r username action (Some sys) detail) Q h.
Proof.
  intros HQ. unfold audit. apply wp_bind, wp_db. unfold AddAudit. cbn [ae_Time]. apply wp_bind, wp_bind, wp_timeNow_nf.
  intros m1 Hm1 Hn1. apply wp_ret, wp_sql_cases; intros m2 Hm2 Hn2; apply wp_ret, HQ; try done; cbn [h_m with_m].
  - intros _. rewrite Hm2, Hm1. destruct (tables h). cbn. by eexists.
  - intros Hn. exfalso. auto.
Qed.

(** One of the three remote actions was requested. *)
Inductive remoteAction (r : request) s h : response → hub → Prop :=
| remote_power body resp h' : postPower r s body h = (resp, h') → remoteAction r s h resp h'
| remote_service body resp h' : postService r s body h = (resp, h') → remoteAction r s h resp h'
| remote_signal body resp h' : postSignal r s body h = (resp, h') → remoteAction r s h resp h'.
Definition actedOn (r : request) s h h' : Prop :=
  let id := (ParseInt 64 (rq_PathValue r "id")).1 in
  h_trace h' = h_trace h
  ∨ ∃ ac name l, h_agents h !! id = Some ac ∧ has ac FeatureShell = true ∧ unix (timeNow (h_m h)).1 ≤ s_ElevatedUntil s
      ∧ sent ac name l ∧ h_trace h' = h_trace h ++ l
      ∧ (noFaults (h_m h) → logged (u_Username (s_User s)) id (audit_log (tables h)) (audit_log (tables h'))).
Lemma actedOn_quiet r s h h' : h_trace h' = h_trace h → actedOn r s h h'.
Proof. by left. Qed.
Lemma sends_send ac name msg h :
  wp (send (ac_conn ac) name msg) (λ _ h', ∃ l, h_m h' = h_m h ∧ sent ac name l ∧ h_trace h' = h_trace h ++ l) h.
Proof. apply wp_send. eauto. Qed.
Lemma sends_action ac name msg h :
  wp (sendAction ac name msg) (λ _ h', ∃ l, h_m h' = h_m h ∧ sent ac name l ∧ h_trace h' = h_trace h ++ l) h.
Proof. unfold sendAction. apply wp_bind, wp_send. intros [[ok payload] errNil] h' l ? ? ?. apply wp_ret. eauto. Qed.
(** The common part of the three handlers, from the re-authentication on. *)
Lemma guarded_send {A} r s h h1 sys ac refused name (act : M hub A) (finish : A → M hub response) :
  sameClock h h1 → sy_ID sys = (ParseInt 64 (rq_PathValue r "id")).1 → h_agents h !! sy_ID sys = Some ac →
  (∀ h2, wp act (λ _ h', ∃ l, h_m h' = h_m h2 ∧ sent ac name l ∧ h_trace h' = h_trace h2 ++ l) h2) →
  (∀ x h', wp (finish x) (λ _ h'', h_trace h'' = h_trace h' ∧
     (noFaults (h_m h') → logged (u_Username (s_User s)) (sy_ID sys) (audit_log (tables h')) (audit_log (tables h'')))) h') →
  wp (_ ⇐ requireElevated s; _ ⇐ mret (ensure (has ac FeatureShell) refused); x ← act; finish x) (λ _ h', actedOn r s h h') h1.
Proof.
  intros (m & -> & Hm & Hc & Hn) Hid Hac Hsend Hfin. apply wp_bind, wp_elevated; [intros; by apply wp_ret, actedOn_quiet|].
  cbn [h_m with_m]. rewrite Hc. intros m2 Hm2 Hn2 Hel. apply wp_bind, wp_ret.
  destruct (has ac FeatureShell) eqn:Hf; cbn [ensure]; [|by apply wp_ret, actedOn_quiet].
  apply wp_bind. eapply wp_mono; [apply Hsend|]. intros x h3 (l & Hm3 & Hs & Ht3).
  eapply wp_mono; [apply Hfin|]. cbn beta. intros resp h4 [Ht4 Hlog].
  right. exists ac, name, l. rewrite <-Hid. rewrite Hm3 in Hlog. cbn [h_m with_m] in Hlog. rewrite Hm2, Hm in Hlog.
  split_and!; [done..|by rewrite Ht4, Ht3|auto].
Qed.

(** C6. Rebooting, controlling services and stopping processes are guarded: such a request reaches
    an agent only if the session re-authenticated recently enough, the agent is the one
    connected for that system and its owner allowed remote control; exactly one request is
    sent, and the action is in the activity log with the user's name and the system (when the
    database works). *)
Theorem remote_control_guarded (r : request) (s : Session) (h h' : hub) (resp : response)
    (Hact : remoteAction r s h resp h') :
  let id := (ParseInt 64 (rq_PathValue r "id")).1 in
  h_trace h' = h_trace h
  ∨ ∃ ac name l, h_agents h !! id = Some ac ∧ has ac FeatureShell = true ∧ unix (timeNow (h_m h)).1 ≤ s_ElevatedUntil s
      ∧ sent ac name l ∧ h_trace h' = h_trace h ++ l
      ∧ (noFaults (h_m h) → logged (u_Username (s_User s)) id (audit_log (tables h)) (audit_log (tables h'))).
Proof.
  change (actedOn r s h h'). destruct Hact as [body resp h' E|body resp h' E|body resp h' E];
    refine (wp_run _ (λ _ h', actedOn r s h h') _ _ _ _ E); clear E;
    apply wp_bind, wp_onlineAgent; try (intros resp' h1 Ht; by apply wp_ret, actedOn_quiet);
    intros sys ac h1 Hsc Hin Hid Hac;
    assert (Hq : h_trace h1 = h_trace h) by (destruct Hsc as (m & -> & _); done).
  - apply wp_bind, wp_ret. destruct (readJSON body) as [?|b]; [by apply wp_ret, actedOn_quiet|].
    apply wp_bind, wp_ret. destruct (ensure _ _) as [?|[]]; [by apply wp_ret, actedOn_quiet|].
    eapply guarded_send; [done..|intros; apply sends_action|].
    intros msg h2. destruct (negb _); apply wp_bind, wp_audit; intros h3 Ht Hl; by apply wp_ret.
  - apply wp_bind, wp_ret. destruct (readJSON body) as [?|b]; [by apply wp_ret, actedOn_quiet|].
    apply wp_bind, wp_ret. destruct (ensure _ _) as [?|[]]; [by apply wp_ret, actedOn_quiet|].
    apply wp_bind, wp_ret. destruct (ensure _ _) as [?|[]]; [by apply wp_ret, actedOn_quiet|].
    eapply guarded_send; [done..|intros; apply sends_action|].
    intros msg h2. destruct (negb _); apply wp_bind, wp_audit; intros h3 Ht Hl; by apply wp_ret.
  - destruct (ParseInt 32 _) as [pid valid].
    apply wp_bind, wp_ret. destruct (ensure _ _) as [?|[]]; [by apply wp_ret, actedOn_quiet|].
    apply wp_bind, wp_ret. destruct (readJSON body) as [?|b]; [by apply wp_ret, actedOn_quiet|].
    apply wp_bind, wp_ret. destruct (ensure _ _) as [?|[]]; [by apply wp_ret, actedOn_quiet|].
    eapply guarded_send; [done..|intros; apply sends_send|].
    intros [[ok payload] errNil] h2. destruct (_ || _); apply wp_bind, wp_audit; intros h3 Ht Hl; by apply wp_ret.
Qed.
End guards.

(** ** Witness: rebooting system 1 *)
Definition demoReply : Unmarshal ActionReply := λ s, (mkActionReply s, true).
Definition demoShellHub : hub :=
  with_replies [(true, "", true)]
    (with_agents {[1 := mkAgentConn 0 1 "pi" "@" demoInfo [FeatureShell]]} demoConnected).
Definition demoFresh : Session := mkSession (s_User demoSession) "token" 1000.
Lemma remote_control_guarded_witness :
  let h' := (@postPower demoLib demoReply (requestFor "1") demoFresh (Some "reboot") demoShellHub).2 in
  h_trace h' = [ESend 0 ReqPower (JObj [("action", JStr "reboot")])]
  ∧ logged "ada" 1 [] (audit_log (m_db (h_m h'))).
Proof.
  cbv zeta. split; [by vm_compute|].
  destruct (@remote_control_guarded demoLib demoReply (requestFor "1") demoFresh demoShellHub
    (@postPower demoLib demoReply (requestFor "1") demoFresh (Some "reboot") demoShellHub).2
    (@postPower demoLib demoReply (requestFor "1") demoFresh (Some "reboot") demoShellHub).1) as [Ht|(ac & name & l & _ & _ & _ & _ & _ & Hl)].
  - apply (remote_power _ _ _ (Some "reboot")), surjective_pairing.
  - vm_compute in Ht. discriminate.
  - exact (Hl eq_refl).
Defined.
