(* ===== verification/Shell.v ===== *)
(** * The browser terminal ([internal/hub/shell.go])

    The hub bridges a WebSocket and an SSH session channel. What the agent answers while the
    shell starts, the messages of both sides in the order they arrive, and how the session ends
    are arguments of [handleShell]; its results are the messages to the browser and the
    keystrokes passed on. *)
From Stdlib Require Import ZArith Lia Ascii String.
From S2P Require Import Prelude GoStrings Float64 Library Store StoreTables StoreInv StoreSteps Limiter TailBuffer Update Webauthn Protocol Hub Auth AuthProps AlertApi State Gateway Systems Control.
From stdpp Require Import base gmap strings list.
Local Open Scope string_scope.
Local Open Scope list_scope.
Local Open Scope Z_scope.
Local Open Scope lotse_scope.

Record termMsg := mkTermMsg {
  tm_Type : string;
  tm_Cols : Z;
  tm_Rows : Z;
  tm_Status : option Z;
  tm_Code : string;
  tm_Message : string;
}.
Definition termMsgJSON (m : termMsg) : json :=
  JObj ([("type", JStr (tm_Type m))]
        ++ (if tm_Cols m =? 0 then [] else [("cols", JInt (tm_Cols m))])
        ++ (if tm_Rows m =? 0 then [] else [("rows", JInt (tm_Rows m))])
        ++ match tm_Status m with Some n => [("status", JInt n)] | None => [] end
        ++ omitEmpty "code" (tm_Code m) ++ omitEmpty "message" (tm_Message m)).
Definition clampDim (v def : Z) : Z := if (v <=? 0) || (1000 <? v) then def else v.
Definition queryDim (r : request) (name : string) (def : Z) : Z := clampDim (Atoi (rq_Query r name)).1 def.
Definition humanBytes (n : Z) : string :=
  if 2 ^ 20 <=? n then formatF1 (fdiv (ofInt n) (ofInt (2 ^ 20))) +:+ " MiB"
  else if 2 ^ 10 <=? n then formatF1 (fdiv (ofInt n) (ofInt (2 ^ 10))) +:+ " KiB"
  else itoa n +:+ " B".

(** ** The two ends *)
(** What the hub writes to the WebSocket. *)
Inductive wsMsg : Type :=
| WsJSON (m : termMsg)
| WsBinary (data : string)
| WsClose (reason : string).
(** How the shell starts on the agent. *)
Inductive shellStart : Type :=
| ChannelRejected (msg : string)
| PtyRefused
| ShellRefused
| ShellRuns.
(** A message that arrives; [ok]: whether passing it on works. *)
Inductive termEvent : Type :=
| FromBrowser (data : string) (ok : bool)    (* a binary message *)
| ControlMsg (text : string)                 (* a text message *)
| FromAgent (data : string) (ok : bool).
(** The shell exited (with its status, when that came in time), or the browser, a logout or the
    hub ended the session. *)
Inductive termEnd : Type :=
| ShellExited (status : option Z)
| SessionEnded.
Record termState := mkTermState {
  te_ws : list wsMsg;           (* written to the browser *)
  te_keys : list string;        (* written to the agent *)
  te_requests : list json;      (* window-change requests *)
  te_typed : Z;
  te_printed : Z;
}.
Inductive shellAnswer : Type :=
| ShellHTTP (resp : response)               (* before the upgrade *)
| NoUpgrade                                 (* the library refused the upgrade *)
| ShellSocket (ws : list wsMsg) (keys : list string).

Section shell.
Context `{Lib} `{Marshal} `{!Unmarshal termMsg} (durationString : Z → string).

Definition termStep (st : termState) (ev : termEvent) : termState :=
  match ev with
  | FromAgent data ok =>
    mkTermState (if ok then te_ws st ++ [WsBinary data] else te_ws st) (te_keys st) (te_requests st)
      (te_typed st) (wrap64 (te_printed st + strLen data))
  | FromBrowser data ok =>
    mkTermState (te_ws st) (if ok then te_keys st ++ [data] else te_keys st) (te_requests st)
      (wrap64 (te_typed st + strLen data)) (te_printed st)
  | ControlMsg text =>
    let '(m, ok) := unmarshal text : termMsg * bool in
    if ok && String.eqb (tm_Type m) "resize" then
      mkTermState (te_ws st) (te_keys st)
        (te_requests st ++ [JObj [("columns", JInt (clampDim (tm_Cols m) 80)); ("rows", JInt (clampDim (tm_Rows m) 24))]])
        (te_typed st) (te_printed st)
    else st
  end.
Definition runTerminal (evs : list termEvent) : termState := fold_left termStep evs (mkTermState [] [] [] 0 0).
Definition termError (code msg : string) : list wsMsg := [WsJSON (mkTermMsg "error" 0 0 None code msg); WsClose code].

(** The part in which the shell runs; the connection is tracked, so that signing out ends it. *)
Definition runShell (sys : System) (ac : agentConn) (evs : list termEvent) (how : termEnd) (r : request) (s : Session)
    : M hub shellAnswer :=
  k ← track s RoleOperator;
  start ← db timeNow;
  audit (Some r) (u_Username (s_User s)) "shell_opened" (Some sys) "";;
  let st := runTerminal evs in
  mmodify (λ h, with_trace (h_trace h ++ map (ESend (ac_conn ac) "window-change") (te_requests st)) h);;
  stop ← db timeNow;
  let status := match how with ShellExited x => x | SessionEnded => None end in
  let detail := durationString (durationRound (timeSub stop start) (seconds 1)) +:+ "; " +:+ humanBytes (te_typed st)
                +:+ " typed, " +:+ humanBytes (te_printed st) +:+ " output"
                +:+ match status with Some n => "; exit status " +:+ itoa n | None => "" end in
  audit (Some r) (u_Username (s_User s)) "shell_closed" (Some sys) detail;;
  untrack k;;
  mret (ShellSocket (WsJSON (mkTermMsg "ready" 0 0 None "" "") :: te_ws st
          ++ match how with
             | ShellExited x => [WsJSON (mkTermMsg "exit" 0 0 x "" ""); WsClose "shell exited"]
             | SessionEnded => []
             end) (te_keys st)).
Definition handleShell (accepted : bool) (start : shellStart) (evs : list termEvent) (how : termEnd)
    (r : request) (s : Session) : M hub shellAnswer :=
  found ← lookupSystem r;
  match found with
  | inl resp => mret (ShellHTTP resp)
  | inr sys =>
    if negb accepted then mret NoUpgrade else
    let fail code msg := (mret (ShellSocket (termError code msg) [])) : M hub shellAnswer in
    if negb (Can (s_User s) RoleOperator)
    then fail "forbidden" ("your role (" +:+ u_Role (s_User s) +:+ ") cannot open shells") else
    now ← db timeNow;
    if s_ElevatedUntil s <? unix now then fail "reauth_required" "confirm your password to open a shell" else
    h ← mget;
    match h_agents h !! sy_ID sys with
    | None => fail "offline" "the system is offline"
    | Some ac =>
      if negb (has ac FeatureShell) then
        audit (Some r) (u_Username (s_User s)) "shell_denied" (Some sys) "remote shell is disabled on the agent";;
        fail "disabled" "Remote shell is disabled on this machine. Reinstall the agent with --allow-shell to enable it."
      else
      match start with
      | ChannelRejected msg => fail "failed" ("The agent refused the shell: " +:+ msg)
      | PtyRefused | ShellRefused | ShellRuns =>
        emit (ESend (ac_conn ac) "pty-req" (JObj [("term", JStr "xterm-256color"); ("columns", JInt (queryDim r "cols" 80));
                                                  ("rows", JInt (queryDim r "rows" 24))]));;
        match start with
        | PtyRefused => fail "failed" "The agent could not allocate a terminal."
        | _ =>
          emit (ESend (ac_conn ac) "shell" JNull);;
          match start with
          | ShellRuns => runShell sys ac evs how r s
          | _ => fail "failed" "The agent could not start a shell; check the agent log."
          end
        end
      end
    end
  end.
End shell.

(** ** Properties *)
Section guards.
Context `{Lib} `{Marshal} `{!Unmarshal termMsg} (durationString : Z → string).
Implicit Types (h : hub) (s : Session).
Abbreviation tables h := (m_db (h_m h)).

(** Nothing reaches the agent. *)
Definition untouched h (a : shellAnswer) h' : Prop :=
  h_trace h' = h_trace h ∧ ∀ ws keys, a = ShellSocket ws keys → keys = [].
(** The owner of the machine and the role and re-authentication of the user allow it. *)
Definition mayOpen (id : Z) s h (ac : agentConn) : Prop :=
  h_agents h !! id = Some ac ∧ has ac FeatureShell = true ∧ Can (s_User s) RoleOperator = true
  ∧ unix (timeNow (h_m h)).1 ≤ s_ElevatedUntil s.
(** Two more entries of the activity log, of this user and system. *)
Definition openedAndClosed (username : string) (id : Z) (l l' : list AuditEntry) : Prop :=
  ∃ e1 e2, l' = l ++ [e1; e2] ∧ ae_Action e1 = "shell_opened" ∧ ae_Action e2 = "shell_closed"
    ∧ Forall (λ e, ae_Username e = truncate username maxNameLen ∧ ae_SystemID e = Some id) [e1; e2].
Definition shellPost (id : Z) s h (a : shellAnswer) h' : Prop :=
  untouched h a h'
  ∨ ∃ ac l, mayOpen id s h ac ∧ h_trace h' = h_trace h ++ l ∧ Forall (λ e, ∃ name msg, e = ESend (ac_conn ac) name msg) l
      ∧ ((∃ ws, a = ShellSocket ws [])
         ∨ (noFaults (h_m h) → openedAndClosed (u_Username (s_User s)) id (audit_log (tables h)) (audit_log (tables h')))).

Lemma wp_audited r username action sys detail h (Q : unit → hub → Prop) :
  (∀ m, (noFaults (h_m h) → noFaults m ∧ ∃ e, audit_log (m_db m) = audit_log (tables h) ++ [e] ∧ ae_Action e = action
      ∧ ae_Username e = truncate username maxNameLen ∧ ae_SystemID e = Some (sy_ID sys)) → Q tt (with_m m h)) →
  wp (audit r username action (Some sys) detail) Q h.
Proof.
  intros HQ. unfold audit. apply wp_bind, wp_db. unfold AddAudit. cbn [ae_Time]. apply wp_bind, wp_bind, wp_timeNow_nf.
  intros m1 Hm1 Hn1. apply wp_ret, wp_sql_cases; intros m2 Hm2 Hn2; apply wp_ret, HQ.
  - intros Hn. split; [auto|]. rewrite Hm2, Hm1. destruct (tables h). cbn. by eexists.
  - intros Hn. exfalso. auto.
Qed.
Lemma wp_system r h (Q : response + System → hub → Prop) :
  (∀ resp h', h_trace h' = h_trace h → Q (inl resp) h') →
  (∀ sys h', sameClock h h' → sy_ID sys = (ParseInt 64 (rq_PathValue r "id")).1 → Q (inr sys) h') →
  wp (lookupSystem r) Q h.
Proof.
  intros Hl Hr. unfold lookupSystem. destruct (ParseInt 64 _) as [id []]; cbn [negb]; [|by apply wp_ret, Hl].
  apply wp_bind. unfold getSystem. apply wp_db, wp_query_clock; intros m Hm Hc Hn; apply wp_ret; [|by apply Hl].
  destruct (oneRow _) as [sys|e] eqn:E; [|destruct e; by apply Hl].
  apply oneRow_ok, elem_of_selectWhere in E as [_ Hid]. bool_hyps. apply Hr; [by exists m|done].
Qed.

Lemma runShell_post evs how r s sys ac h0 h :
  mayOpen (sy_ID sys) s h0 ac → tables h = tables h0 → (noFaults (h_m h0) → noFaults (h_m h)) →
  (∃ l, h_trace h = h_trace h0 ++ l ∧ Forall (λ e, ∃ name msg, e = ESend (ac_conn ac) name msg) l) →
  wp (runShell durationString sys ac evs how r s) (shellPost (sy_ID sys) s h0) h.
Proof.
  intros Hmay Hdb Hnf (l & Ht & Hl). unfold runShell. apply wp_bind. unfold track, wp at 1. cbn [fst snd].
  apply wp_bind, wp_db, wp_timeNow_full. cbn [h_m with_conns]. intros m1 Hm1 Hn1.
  apply wp_bind, wp_audited. cbn [h_m with_m with_conns]. intros m2 Ha2.
  apply wp_bind, wp_modify. apply wp_bind, wp_db, wp_timeNow_full. cbn [h_m with_m with_conns with_trace]. intros m3 Hm3 Hn3.
  apply wp_bind, wp_audited. cbn [h_m with_m]. intros m4 Ha4. apply wp_bind, wp_modify, wp_ret. right.
  exists ac, (l ++ map (ESend (ac_conn ac) "window-change") (te_requests (runTerminal evs))). split_and!; [done| | |].
  - cbn. by rewrite Ht, app_assoc.
  - apply Forall_app. split; [done|]. apply Forall_forall. intros e He. apply list_elem_of_fmap in He as (x & -> & _). eauto.
  - right. intros Hn. destruct Ha2 as (Hn2 & e1 & E1 & A1 & U1 & S1); [auto|].
    destruct Ha4 as (_ & e2 & E2 & A2 & U2 & S2); [auto|]. exists e1, e2. cbn [h_m with_m with_conns with_trace].
    rewrite E2, Hm3, E1, Hm1, Hdb, <-app_assoc. split_and!; [done|done|done|]. repeat constructor; auto.
Qed.

(** A terminal is opened only for those who may: something reaches an agent only when the user has
    the operator role and confirmed the password recently, the agent is the one connected for that
    system, and its owner allowed it; then only this agent gets requests. Keystrokes reach it only
    in a session whose opening and end are in the activity log under the user's name (when the
    database works). *)
Theorem shell_guarded (accepted : bool) (start : shellStart) (evs : list termEvent) (how : termEnd)
    (r : request) (s : Session) (h : hub) :
  let '(a, h') := handleShell durationString accepted start evs how r s h in
  shellPost (ParseInt 64 (rq_PathValue r "id")).1 s h a h'.
Proof.
  apply wp_let. unfold handleShell. apply wp_bind, wp_system.
  { intros resp h' Ht. apply wp_ret. left. by split. }
  intros sys h1 (m & -> & Hm & Hc & Hn) Hid. rewrite <-Hid.
  assert (Hquiet : ∀ m' code msg, wp (mret (ShellSocket (termError code msg) [])) (shellPost (sy_ID sys) s h) (with_m m' h)).
  { intros m' code msg. apply wp_ret. left. split; [done|]. by intros ws keys [= _ <-]. }
  destruct accepted; cbn [negb]; [|apply wp_ret; left; by split].
  destruct (Can _ _) eqn:Hcan; cbn [negb]; [|apply Hquiet].
  apply wp_bind, wp_db, wp_timeNow_full. cbn [h_m with_m]. rewrite Hc. intros m2 Hm2 Hn2.
  destruct (Z.ltb_spec (s_ElevatedUntil s) (unix (timeNow (h_m h)).1)) as [Hold|Hel]; [apply Hquiet|].
  apply wp_bind, wp_get. cbn [h_agents with_m].
  destruct (h_agents h !! sy_ID sys) as [ac|] eqn:Hac; [|apply Hquiet].
  destruct (has ac FeatureShell) eqn:Hf; cbn [negb].
  2: { apply wp_bind, wp_audited. intros m3 _. apply Hquiet. }
  assert (Hmay : mayOpen (sy_ID sys) s h ac) by done.
  assert (Hfail : ∀ h' code msg l, h_trace h' = h_trace h ++ l → Forall (λ e, ∃ name x, e = ESend (ac_conn ac) name x) l →
    wp (mret (ShellSocket (termError code msg) [])) (shellPost (sy_ID sys) s h) h').
  { intros h' code msg l Ht Hl. apply wp_ret. right. exists ac, l. split_and!; eauto. }
  destruct start; [apply Hquiet| | |]; apply wp_bind, wp_modify; cbn [h_trace with_m].
  - eapply Hfail; [done|]. repeat constructor; eauto.
  - apply wp_bind, wp_modify. eapply (Hfail _ _ _ [_; _]); [cbn; by rewrite <-app_assoc|]. repeat constructor; eauto.
  - apply wp_bind, wp_modify. apply runShell_post; [done|cbn; congruence|auto|].
    eexists [_; _]. split; [cbn; by rewrite <-app_assoc|]. repeat constructor; eauto.
Qed.
End guards.

(** *** Example: one keystroke, a resize and the output of a shell that exits *)
Definition demoTerm : Unmarshal termMsg := λ s, (mkTermMsg s 100 0 None "" "", true).
Example shell_session :
  let '(a, h') := @handleShell demoLib demoTerm (λ _, "1s") true ShellRuns
     [FromBrowser "l" true; ControlMsg "resize"; FromAgent "ls" true] (ShellExited (Some 0)) (requestFor "1") demoFresh demoShellHub in
  a = ShellSocket [WsJSON (mkTermMsg "ready" 0 0 None "" ""); WsBinary "ls"; WsJSON (mkTermMsg "exit" 0 0 (Some 0) "" "");
                   WsClose "shell exited"] ["l"]
  ∧ map ae_Detail (audit_log (m_db (h_m h'))) = [""; "1s; 1 B typed, 2 B output; exit status 0"]
  ∧ h_conns h' = [].
Proof. vm_compute. split_and!; reflexivity. Qed.
