(* ===== verification/Files.v ===== *)
(** * File transfer ([internal/hub/files.go])

    The SFTP client is third-party code that acts on another machine: the class [Sftp] lists the
    calls the handlers make, on some state [W] of that machine. [SftpLaws] states what an upload
    relies on, in terms of the contents of the files there; [demoSftp] is an instance. *)
From Stdlib Require Import ZArith Lia Ascii String.
From S2P Require Import Prelude GoStrings Float64 Library Paths Store StoreTables StoreInv StoreSteps Limiter TailBuffer Update Webauthn Protocol Hub Auth AuthProps AlertApi State Gateway Systems Control Shell.
From stdpp Require Import base gmap strings list.
Local Open Scope string_scope.
Local Open Scope list_scope.
Local Open Scope Z_scope.
Local Open Scope lotse_scope.

Record fileEntry := mkFileEntry {
  fe_Name : string;
  fe_Size : Z;
  fe_Mode : string;
  fe_Dir : bool;
  fe_Link : bool;
  fe_MTime : Z;
}.
Definition fileEntryJSON (e : fileEntry) : json :=
  JObj [("name", JStr (fe_Name e)); ("size", JInt (fe_Size e)); ("mode", JStr (fe_Mode e)); ("dir", JBool (fe_Dir e));
        ("link", JBool (fe_Link e)); ("mtime", JInt (fe_MTime e))].

(** [os.FileInfo] of the client: the owner when the server tells it. *)
Record fileInfo := mkFileInfo {
  fi_Name : string;
  fi_Size : Z;
  fi_ModeString : string;
  fi_Perm : Z;
  fi_IsDir : bool;
  fi_Symlink : bool;
  fi_ModTime : Z;
  fi_Owner : option (Z * Z);
}.
(** Errors by what the handlers ask of them, with their text. *)
Inductive fileErr : Type :=
| NotExist (msg : string)
| Permission (msg : string)
| Exists (msg : string)
| StatusError (msg : string)
| OtherErr (msg : string).
Definition fileErrText (e : fileErr) : string :=
  match e with NotExist m | Permission m | Exists m | StatusError m | OtherErr m => m end.
Abbreviation fres A := (result fileErr A).

Class Sftp (W : Type) := {
  ReadDir : string → M W (fres (list fileInfo));
  Stat : string → M W (fres fileInfo);
  Lstat : string → M W (fres fileInfo);
  OpenRead : string → M W (fres fileInfo);        (* Open and the Stat of the open file *)
  CopyOut : string → M W (string * option fileErr);   (* io.Copy to the browser: the bytes, the error *)
  OpenExcl : string → M W (fres unit);            (* OpenFile with O_WRONLY|O_CREATE|O_EXCL *)
  ReadFrom : string → string → bool → M W (Z * option fileErr);   (* the body, and whether reading it fails *)
  CloseFile : string → M W (option fileErr);
  Chmod : string → Z → M W unit;
  Chown : string → Z → Z → M W unit;
  PosixRename : string → string → M W (fres unit);
  Rename : string → string → M W (fres unit);
  Remove : string → M W (fres unit);
  RemoveDirectory : string → M W (fres unit);
  RemoveAll : string → M W (fres unit);
  Mkdir : string → M W (fres unit);
}.

(** How the agent answers the channel: refused, no subsystem, no SFTP server, or open. *)
Inductive sftpStart : Type :=
| SessionRefused (msg : string)
| NoSubsystem
| NoServer
| Serving.
(** A download streams; everything else is a plain response. *)
Inductive fileAnswer : Type :=
| Plainly (resp : response)
| Stream (name : string) (size : Z) (data : string).
Record upload := mkUpload { ul_data : string; ul_broken : bool; ul_length : Z }.
(** What is read of a body with a known length. *)
Definition uploadBody (u : upload) : string * bool :=
  if (0 <? ul_length u) && (ul_length u <=? strLen (ul_data u))
  then (stringOf (take (Z.to_nat (ul_length u)) (bytesOf (ul_data u))), false)
  else (ul_data u, ul_broken u).
Record fileAction := mkFileAction { fa_Action : string; fa_Path : string; fa_To : string; fa_Recursive : bool }.

Section files.
Context `{Lib} `{Marshal} {W : Type} `{!Sftp W}.
Context (ToLower : string → string) (durationString : Z → string).

(** A handler works on the hub and on the other machine. *)
Definition onHub_ {A} (m : M hub A) : M (hub * W) A := λ s, let '(a, h) := m s.1 in (a, (h, s.2)).
Definition remote {A} (m : M W A) : M (hub * W) A := λ s, let '(a, w) := m s.2 in (a, (s.1, w)).

Definition SubsystemSFTP : string := "sftp".
(** The system and the tracked connection. *)
Definition fileSession (start : sftpStart) (r : request) (s : Session) : M hub (response + System * nat) :=
  found ← onlineAgent r;
  match found with
  | inl resp => mret (inl resp)
  | inr (sys, ac) =>
    el ← requireElevated s;
    match el with
    | inl resp => mret (inl resp)
    | inr _ =>
      if negb (has ac FeatureShell)
      then mret (inl (writeError 403 "file access is disabled on this machine; install the agent with --allow-shell")) else
      match start with
      | SessionRefused msg => mret (inl (writeError 502 ("the agent refused file access: " +:+ msg)))
      | _ =>
        emit (ESend (ac_conn ac) "subsystem" (JObj [("name", JStr SubsystemSFTP)]));;
        match start with
        | Serving => k ← track s RoleOperator; mret (inr (sys, k))
        | _ => mret (inl (writeError 502 "the agent could not start file access"))
        end
      end
    end
  end.
Definition fileError (e : fileErr) : response :=
  match e with
  | NotExist _ => writeError 404 "no such file or folder"
  | Permission _ => writeError 403 "permission denied"
  | Exists _ => writeError 409 "that name exists already"
  | StatusError m => writeError 422 (TrimPrefix m "sftp: ")
  | OtherErr m => writeError 502 m
  end.

(** ** Listing *)
Fixpoint listEntries (dir : string) (infos : list fileInfo) : M W (list fileEntry) :=
  match infos with
  | [] => mret []
  | fi :: rest =>
    isDir ← (if fi_Symlink fi then
               target ← Stat (pathJoin [dir; fi_Name fi]);
               mret (match target with Ok t => fi_IsDir t | Err _ => fi_IsDir fi end)
             else mret (fi_IsDir fi));
    es ← listEntries dir rest;
    mret (mkFileEntry (fi_Name fi) (fi_Size fi) (fi_ModeString fi) isDir (fi_Symlink fi) (unix (fi_ModTime fi)) :: es)
  end.
(** Folders first, then by name without regard to case. *)
Definition entryLe (a b : fileEntry) : bool :=
  if Bool.eqb (fe_Dir a) (fe_Dir b)
  then match String.compare (ToLower (fe_Name a)) (ToLower (fe_Name b)) with Gt => false | _ => true end
  else fe_Dir a.
Definition getFiles (start : sftpStart) (r : request) (s : Session) : M (hub * W) response :=
  let dir := default "/" (remotePath (rq_Query r "path")) in
  '(_, k) ⇐ onHub_ (fileSession start r s);
  infos ← remote (ReadDir dir);
  match infos with
  | Err e => onHub_ (untrack k);; mret (fileError e)
  | Ok infos =>
    entries ← remote (listEntries dir infos);
    onHub_ (untrack k);;
    mret (writeJSON 200 (JObj [("path", JStr dir); ("entries", JArr (map fileEntryJSON (sortBy entryLe entries)))]))
  end.

(** ** Downloading *)
Definition downloadFile (start : sftpStart) (r : request) (s : Session) : M (hub * W) fileAnswer :=
  match remotePath (rq_Query r "path") with
  | None => mret (Plainly (writeError 400 "missing path"))
  | Some p =>
    session ← onHub_ (fileSession start r s);
    match session with
    | inl resp => mret (Plainly resp)
    | inr (sys, k) =>
      opened ← remote (OpenRead p);
      match opened with
      | Err e => onHub_ (untrack k);; mret (Plainly (fileError e))
      | Ok fi =>
        if fi_IsDir fi then onHub_ (untrack k);; mret (Plainly (writeError 400 "folders cannot be downloaded")) else
        begun ← onHub_ (db timeNow);
        '(data, err) ← remote (CopyOut p);
        let detail := p +:+ " (" +:+ humanBytes (strLen data) +:+ ")" in
        match err with
        | Some e => onHub_ (audit (Some r) (u_Username (s_User s)) "file_download_failed" (Some sys) (detail +:+ ": " +:+ fileErrText e))
        | None =>
          now ← onHub_ (db timeNow);
          onHub_ (audit (Some r) (u_Username (s_User s)) "file_downloaded" (Some sys)
                    (detail +:+ " in " +:+ durationString (durationRound (timeSub now begun) (seconds 1))))
        end;;
        onHub_ (untrack k);;
        mret (Stream (Base p) (fi_Size fi) data)
      end
    end
  end.

(** ** Uploading *)
Definition tmpName (p token : string) : string :=
  pathJoin [Dir p; "." +:+ Base p +:+ ".upload-" +:+ stringOf (take 8 (bytesOf token))].
(** From the open temporary file to the error of the upload; [n]: the bytes received. *)
Definition writeUpload (p tmp : string) (existing : option fileInfo) (u : upload) : M W (Z * option fileErr) :=
  let '(data, broken) := uploadBody u in
  '(n, werr) ← ReadFrom tmp data broken;
  cerr ← CloseFile tmp;
  match (match werr with Some e => Some e | None => cerr end) with
  | Some e => mret (n, Some e)
  | None =>
    match existing with
    | Some fi =>
      Chmod tmp (fi_Perm fi);;
      match fi_Owner fi with Some (uid, gid) => Chown tmp uid gid | None => mret tt end
    | None => mret tt
    end;;
    moved ← PosixRename tmp p;
    match moved with
    | Ok _ => mret (n, None)
    | Err _ => again ← Rename tmp p; mret (n, match again with Ok _ => None | Err e => Some e end)
    end
  end.
Definition refuseUpload (existing : option fileInfo) (overwrite : bool) : option response :=
  match existing with
  | Some fi =>
    if fi_IsDir fi then Some (writeError 409 "a folder with that name exists already")
    else if negb overwrite then Some (writeError 409 "a file with that name exists already") else None
  | None => None
  end.
Definition putFile (start : sftpStart) (r : request) (s : Session) (u : upload) : M (hub * W) response :=
  match remotePath (rq_Query r "path") with
  | None => mret (writeError 400 "missing path")
  | Some p =>
    if String.eqb p "/" then mret (writeError 400 "missing path") else
    '(sys, k) ⇐ onHub_ (fileSession start r s);
    found ← remote (Stat p);
    let existing := match found with Ok fi => Some fi | Err _ => None end in
    match refuseUpload existing (String.eqb (rq_Query r "overwrite") "1") with
    | Some resp => onHub_ (untrack k);; mret resp
    | None =>
      token ← onHub_ (db randomToken);
      let tmp := tmpName p token in
      opened ← remote (OpenExcl tmp);
      match opened with
      | Err e => onHub_ (untrack k);; mret (fileError e)
      | Ok _ =>
        '(n, err) ← remote (writeUpload p tmp existing u);
        let detail := p +:+ " (" +:+ humanBytes n +:+ ")" in
        match err with
        | Some e =>
          _ ← remote (Remove tmp);
          onHub_ (audit (Some r) (u_Username (s_User s)) "file_upload_failed" (Some sys) (detail +:+ ": " +:+ fileErrText e));;
          onHub_ (untrack k);;
          mret (fileError e)
        | None =>
          onHub_ (audit (Some r) (u_Username (s_User s)) "file_uploaded" (Some sys)
                    (detail +:+ match existing with Some _ => ", replaced the existing file" | None => "" end));;
          onHub_ (untrack k);;
          mret noContent
        end
      end
    end
  end.

(** ** Folders, renaming, deleting *)
Definition arrow : string := " → ".
(** What is done on the machine: the action and detail for the log and the error, or a refusal. *)
Definition applyAction (b : fileAction) (p to_ : string) : M W (response + string * string * option fileErr) :=
  let ended action detail (e : fres unit) : response + string * string * option fileErr :=
    inr (action, detail, match e with Ok _ => None | Err x => Some x end) in
  if String.eqb (fa_Action b) "mkdir" then e ← Mkdir p; mret (ended "folder_created" p e)
  else if String.eqb (fa_Action b) "rename" then
    taken ← Lstat to_;
    match taken with
    | Ok _ => mret (inl (writeError 409 "that name exists already"))
    | Err _ =>
      e ← PosixRename p to_;
      match e with
      | Ok _ => mret (ended "file_renamed" (p +:+ arrow +:+ to_) e)
      | Err _ => e2 ← Rename p to_; mret (ended "file_renamed" (p +:+ arrow +:+ to_) e2)
      end
    end
  else if String.eqb (fa_Action b) "delete" then
    found ← Lstat p;
    match found with
    | Err x => mret (inr ("file_deleted", p, Some x))
    | Ok fi =>
      if negb (fi_IsDir fi) then e ← Remove p; mret (ended "file_deleted" p e)
      else if fa_Recursive b then e ← RemoveAll p; mret (ended "file_deleted" (p +:+ " (folder with its contents)") e)
      else e ← RemoveDirectory p; mret (ended "file_deleted" p e)
    end
  else mret (inl (writeError 400 "action must be mkdir, rename or delete")).
Definition postFileAction (start : sftpStart) (r : request) (s : Session) (body : option fileAction) : M (hub * W) response :=
  b ⇐ mret (readJSON body);
  match remotePath (fa_Path b) with
  | None => mret (writeError 400 "missing path")
  | Some p =>
    if String.eqb p "/" then mret (writeError 400 "missing path") else
    let target := if String.eqb (fa_Action b) "rename" then remotePath (fa_To b) else Some "" in
    match target with
    | None => mret (writeError 400 "missing new name")
    | Some to_ =>
      if String.eqb to_ "/" then mret (writeError 400 "missing new name") else
      '(sys, k) ⇐ onHub_ (fileSession start r s);
      done ← remote (applyAction b p to_);
      match done with
      | inl resp => onHub_ (untrack k);; mret resp
      | inr (_, _, Some e) => onHub_ (untrack k);; mret (fileError e)
      | inr (action, detail, None) =>
        onHub_ (audit (Some r) (u_Username (s_User s)) action (Some sys) detail);;
        onHub_ (untrack k);;
        mret noContent
      end
    end
  end.
End files.
