(* ===== verification/FileProps.v ===== *)
(** * Properties of file transfer: who may, and what an upload leaves behind *)
From Stdlib Require Import ZArith Lia Ascii String.
From S2P Require Import Prelude GoStrings Float64 Library Paths Store StoreTables StoreInv StoreSteps Limiter TailBuffer Update Webauthn Protocol Hub Auth AuthProps AlertApi State Gateway Systems Control Shell Files.
From stdpp Require Import base gmap strings list.
Local Open Scope string_scope.
Local Open Scope list_scope.
Local Open Scope Z_scope.
Local Open Scope lotse_scope.

(** ** What the client does to the files of the machine

    [contents]: the regular files by path. A call that reports an error may have taken effect
    all the same (the answer was lost). *)
Class SftpLaws (W : Type) `{!Sftp W} := {
  contents : W → gmap string string;
  Stat_contents p w : contents (Stat p w).2 = contents w;
  OpenExcl_contents p w :
    let '(res, w') := OpenExcl p w in
    (contents w !! p = None ∧ contents w' = <[p := ""]> (contents w)) ∨ ((∃ e, res = Err e) ∧ contents w' = contents w);
  ReadFrom_contents p data broken w :
    let '(n, err, w') := ReadFrom p data broken w in
    ∃ c, contents w' = <[p := c]> (contents w) ∧ (err = None → broken = false ∧ c = data);
  CloseFile_contents p w : contents (CloseFile p w).2 = contents w;
  Chmod_contents p mode w : contents (Chmod p mode w).2 = contents w;
  Chown_contents p uid gid w : contents (Chown p uid gid w).2 = contents w;
  PosixRename_contents p q w :
    let '(res, w') := PosixRename p q w in
    (∃ c, contents w !! p = Some c ∧ contents w' = <[q := c]> (delete p (contents w)))
    ∨ ((∃ e, res = Err e) ∧ contents w' = contents w);
  Rename_contents p q w :
    let '(res, w') := Rename p q w in
    (∃ c, contents w !! p = Some c ∧ contents w' = <[q := c]> (delete p (contents w)))
    ∨ ((∃ e, res = Err e) ∧ contents w' = contents w);
  Remove_contents p w :
    contents (Remove p w).2 = contents w ∨ contents (Remove p w).2 = delete p (contents w);
}.

(** ** The temporary file *)
Lemma containsByte_take c n s : containsByte c s = false → containsByte c (stringOf (take n (bytesOf s))) = false.
Proof.
  revert n. induction s as [|a s IH]; intros [|n] Hs; [done..|].
  apply orb_false_iff in Hs as [Ha Hs]. change (bytesOf (String a s)) with (byte_of a :: bytesOf s). cbn [take].
  change (stringOf (byte_of a :: ?l)) with (String (ascii_of (byte_of a)) (stringOf l)). rewrite ascii_of_byte_of.
  cbn. by rewrite Ha, IH.
Qed.
Definition tmpElem (e token : string) : string := "." +:+ e +:+ ".upload-" +:+ stringOf (take 8 (bytesOf token)).
Lemma tmpElem_plain e token : plainElem e → containsByte slash token = false → plainElem (tmpElem e token).
Proof.
  intros (_ & _ & _ & Hs) Ht. unfold plainElem, tmpElem.
  assert (Hlen : ∀ s, ("." +:+ e +:+ ".upload-" +:+ stringOf (take 8 (bytesOf token)))%string = s → (9 ≤ String.length s)%nat).
  { intros s <-. rewrite !length_append. cbn. lia. }
  split_and!; [intros E%Hlen; cbn in E; lia..|].
  by rewrite !containsByte_append, Hs, (containsByte_take _ 8 _ Ht).
Qed.
(** The temporary file is another one, in the same folder. *)
Lemma tmpName_spec p token : (∃ l, p = rootPath l ∧ Forall plainElem l) → p ≠ "/" → containsByte slash token = false →
  tmpName p token ≠ p ∧ Dir (tmpName p token) = Dir p.
Proof.
  intros (k & -> & Hk) Hne Ht. destruct k as [|e l _] using rev_ind; [done|].
  apply Forall_app in Hk as [Hl He]. inversion He as [|? ? He' _]; subst. unfold tmpName.
  rewrite Dir_rootPath, Base_rootPath by done. change ("." +:+ e +:+ _)%string with (tmpElem e token).
  pose proof (tmpElem_plain e token He' Ht) as Hp. rewrite pathJoin_rootPath by done. split; [|by apply Dir_rootPath].
  intros Heq. apply (f_equal Base) in Heq. rewrite !Base_rootPath in Heq by done.
  apply (f_equal String.length) in Heq. unfold tmpElem in Heq. rewrite !length_append in Heq. cbn in Heq. lia.
Qed.

(** ** Uploads *)
Section uploads.
Context `{Lib} `{Marshal} {W : Type} `{!Sftp W, !SftpLaws W}.
Implicit Types (w : W) (p tmp : string).

(** What may differ between [w] and [w']: [tmp], and [p], whose contents are as before or [data]. *)
Definition replaced p tmp (data : string) (broken : bool) w w' : Prop :=
  (∀ x, x ≠ p → x ≠ tmp → contents w' !! x = contents w !! x)
  ∧ (contents w' !! p = contents w !! p ∨ (contents w' !! p = Some data ∧ broken = false)).
Lemma replaced_same p tmp data broken w w' : contents w' = contents w → replaced p tmp data broken w w'.
Proof. unfold replaced. intros ->. auto. Qed.
Lemma replaced_tmp p tmp data broken w w1 w2 : tmp ≠ p → replaced p tmp data broken w w1 →
  (∀ x, x ≠ tmp → contents w2 !! x = contents w1 !! x) → replaced p tmp data broken w w2.
Proof. intros Hne [Hx Hp] H2. split; [intros x ? ?; by rewrite H2, Hx|by rewrite H2]. Qed.
(** One of the two ways to rename. *)
Definition renames (rename : string → string → M W (fres unit)) : Prop := ∀ p q w,
  let '(res, w') := rename p q w in
  (∃ c, contents w !! p = Some c ∧ contents w' = <[q := c]> (delete p (contents w)))
  ∨ ((∃ e, res = Err e) ∧ contents w' = contents w).
Lemma wp_rename rename p tmp w (Q : fres unit → W → Prop) : renames rename →
  (∀ res w' c, contents w !! tmp = Some c → contents w' = <[p := c]> (delete tmp (contents w)) → Q res w') →
  (∀ e w', contents w' = contents w → Q (Err e) w') → wp (rename tmp p) Q w.
Proof.
  intros Hr Hok Hbad. specialize (Hr tmp p w). unfold wp. destruct (rename tmp p w) as [res w'].
  destruct Hr as [(c & Hc & Hw)|((e & ->) & Hw)]; cbn; eauto.
Qed.
Lemma writeUpload_spec p tmp existing u w : tmp ≠ p → is_Some (contents w !! tmp) →
  wp (writeUpload p tmp existing u) (λ x w', let '(data, broken) := uploadBody u in
    replaced p tmp data broken w w' ∧ (x.2 = None → contents w' !! p = Some data ∧ contents w' !! tmp = None)) w.
Proof.
  intros Hne Hin. unfold writeUpload. destruct (uploadBody u) as [data broken]. apply wp_bind.
  pose proof (ReadFrom_contents tmp data broken w) as Hrd. unfold wp at 1.
  destruct (ReadFrom tmp data broken w) as [[n werr] w1]. destruct Hrd as (c & Hw1 & Hc). cbn [fst snd].
  apply wp_bind. unfold wp at 1. pose proof (CloseFile_contents tmp w1) as Hcl.
  destruct (CloseFile tmp w1) as [cerr w2]. cbn [fst snd] in *. rewrite Hw1 in Hcl.
  assert (Hr2 : replaced p tmp data broken w w2).
  { eapply replaced_tmp; [done|by apply (replaced_same _ _ _ _ w w)|]. intros x Hx. by rewrite Hcl, lookup_insert_ne. }
  destruct (match werr with Some e => Some e | None => cerr end) as [e|] eqn:Eerr; [by apply wp_ret|].
  destruct werr; [done|]. destruct (Hc eq_refl) as [-> ->]. apply wp_bind.
  apply (wp_mono _ (λ _ w3, contents w3 = contents w2)).
  { destruct existing as [fi|]; [|by apply wp_ret]. apply wp_bind. unfold wp at 1. pose proof (Chmod_contents tmp (fi_Perm fi) w2).
    destruct (fi_Owner fi) as [[uid gid]|]; [|done]. unfold wp. by rewrite Chown_contents. }
  intros _ w3 Hw3. rewrite Hcl in Hw3.
  assert (Hdone : ∀ w4 c, contents w3 !! tmp = Some c → contents w4 = <[p := c]> (delete tmp (contents w3)) →
    replaced p tmp data false w w4 ∧ contents w4 !! p = Some data ∧ contents w4 !! tmp = None).
  { intros w4 c0 Hc0 Hw4. rewrite Hw3, lookup_insert_eq in Hc0. injection Hc0 as <-. rewrite Hw4, Hw3, delete_insert_eq.
    rewrite lookup_insert_eq, lookup_insert_ne, lookup_delete_eq by done. split; [|done]. split.
    - intros x Hp Ht. by rewrite Hw4, Hw3, delete_insert_eq, lookup_insert_ne, lookup_delete_ne.
    - right. by rewrite Hw4, lookup_insert_eq. }
  apply wp_bind, wp_rename; [exact PosixRename_contents| |].
  - intros res w4 c0 Hc0 Hw4. destruct (Hdone _ _ Hc0 Hw4) as (Hr4 & Hp4 & Ht4). destruct res as [[]|e]; [by apply wp_ret|].
    apply wp_bind, wp_rename; [exact Rename_contents| |].
    + intros res w5 c5 Hc5. by rewrite Ht4 in Hc5.
    + intros e' w5 Hw5. apply wp_ret. split; [|done]. destruct Hr4 as [Hx Hp]. by split; rewrite Hw5.
  - intros e w4 Hw4. assert (Hr4 : replaced p tmp data false w w4).
    { eapply replaced_tmp; [done|exact Hr2|]. intros x Hx. by rewrite Hw4, Hw3, Hcl. }
    apply wp_bind, wp_rename; [exact Rename_contents| |].
    + intros res w5 c5. rewrite Hw4. intros Hc5 Hw5. destruct (Hdone _ _ Hc5 Hw5) as (? & ? & ?). by apply wp_ret.
    + intros e' w5 Hw5. apply wp_ret. split; [|done]. destruct Hr4 as [Hx Hp]. by split; rewrite Hw5.
Qed.

(** *** Two states side by side *)
Lemma wp_remote {A} (m : M W A) (Q : A → hub * W → Prop) h w : wp m (λ a w', Q a (h, w')) w → wp (remote m) Q (h, w).
Proof. unfold wp, remote. cbn. by destruct (m w). Qed.
Lemma wp_onHub {A} (m : M hub A) (Q : A → hub * W → Prop) h w : wp m (λ a h', Q a (h', w)) h → wp (onHub_ m) Q (h, w).
Proof. unfold wp, onHub_. cbn. by destruct (m h). Qed.
Lemma wp_onHub_any {A} (m : M hub A) (Q : A → hub * W → Prop) h w : (∀ a h', Q a (h', w)) → wp (onHub_ m) Q (h, w).
Proof. intros HQ. apply wp_onHub. unfold wp. apply HQ. Qed.

Lemma remotePath_rooted x p : remotePath x = Some p → ∃ l, p = rootPath l ∧ Forall plainElem l.
Proof.
  unfold remotePath. destruct (_ || _); [done|]. intros [= <-]. apply Clean_plain, rooted_slash.
Qed.
Lemma refuseUpload_status existing overwrite resp : refuseUpload existing overwrite = Some resp → rs_status resp ≠ 204.
Proof. unfold refuseUpload. repeat case_match; intros ?; by simplify_eq. Qed.
(** A refused session is answered with an error. *)
Lemma fileSession_fails start r s h :
  wp (fileSession start r s) (λ x _, match x with inl resp => rs_status resp ≠ 204 | inr _ => True end) h.
Proof.
  unfold fileSession. apply wp_bind. unfold onlineAgent. apply wp_bind, wp_lookupSystem; [intros resp h' Hr; by apply wp_ret, wp_ret|].
  intros sys m _ _ _ _. apply wp_bind, wp_get, wp_ret. destruct (h_agents _ !! _) as [ac|]; [|by apply wp_ret].
  apply wp_bind. unfold requireElevated. apply wp_bind, wp_db, wp_timeNow_full. intros m2 _ _. apply wp_ret. unfold ensure.
  destruct (_ <=? _); [|by apply wp_ret]. destruct (negb _); [by apply wp_ret|].
  destruct start; [by apply wp_ret|by apply wp_bind, wp_modify, wp_ret..|].
  apply wp_bind, wp_modify, wp_bind. unfold track, wp. done.
Qed.

(** The outcome of an upload with the temporary file [tmp]. *)
Definition uploadPost p tmp (u : upload) w (resp : response) (hw : hub * W) : Prop :=
  let '(data, broken) := uploadBody u in
  replaced p tmp data broken w hw.2
  ∧ (contents hw.2 = contents w ∨ contents w !! tmp = None)
  ∧ (rs_status resp = 204 → contents hw.2 !! p = Some data ∧ contents hw.2 !! tmp = None ∧ contents w !! tmp = None).
Lemma uploadPost_same p tmp u w resp h w' : rs_status resp ≠ 204 → contents w' = contents w → uploadPost p tmp u w resp (h, w').
Proof. intros Hs Hw. unfold uploadPost. destruct (uploadBody u). split_and!; [by apply replaced_same|by left|done]. Qed.
Lemma fileError_status e : rs_status (fileError e) ≠ 204.
Proof. by destruct e. Qed.

(** C28. An upload is all or nothing: whatever fails on the way, and even when answers of the agent are
    lost, the file at the chosen path has its old contents or the complete new ones, an interrupted
    upload never replaces it, and no other file is touched except the temporary one, which is in the
    same folder and, unless nothing was changed at all, did not exist before, whether the upload succeeds
    or not; when it is reported as done, the new contents are there and the temporary file is gone. *)
Theorem upload_atomic (start : sftpStart) (r : request) (s : Session) (u : upload) (h : hub) (w : W) (p : string)
    (Hb64 : ∀ b, containsByte slash (b64urlEncode b) = false)
    (Hp : remotePath (rq_Query r "path") = Some p) (Hroot : p ≠ "/") :
  let '(resp, hw) := putFile start r s u (h, w) in
  ∃ tmp, tmp ≠ p ∧ Dir tmp = Dir p ∧ uploadPost p tmp u w resp hw.
Proof.
  pose proof (remotePath_rooted _ _ Hp) as Hroots.
  apply wp_let. unfold putFile. rewrite Hp. destruct (String.eqb_spec p "/"); [done|].
  assert (Hnone : ∀ resp h' w', rs_status resp ≠ 204 → contents w' = contents w →
    ∃ tmp, tmp ≠ p ∧ Dir tmp = Dir p ∧ uploadPost p tmp u w resp (h', w')).
  { intros resp h' w' Hs Hw. destruct (tmpName_spec p "" Hroots Hroot eq_refl).
    exists (tmpName p ""). split_and!; [done|done|by apply uploadPost_same]. }
  apply wp_bind, wp_onHub. eapply wp_mono; [apply fileSession_fails|]. intros [resp|[sys k]] h1 Hst; [by apply wp_ret, Hnone|].
  apply wp_bind, wp_remote. unfold wp at 1. pose proof (Stat_contents p w) as Hw1. destruct (Stat p w) as [found w1]. cbn [fst snd] in *.
  set (existing := match found with Ok fi => Some fi | Err _ => None end).
  destruct (refuseUpload _ _) as [resp|] eqn:Eref.
  { apply wp_bind, wp_onHub_any. intros _ h2. apply wp_ret, Hnone; [|done]. by apply refuseUpload_status in Eref. }
  apply wp_bind, wp_onHub. apply wp_db. unfold randomToken. apply wp_bind, wp_randRead. intros b m _. apply wp_ret.
  destruct (tmpName_spec p (b64urlEncode b) Hroots Hroot (Hb64 b)) as [Hne Hdir]. set (tmp := tmpName p (b64urlEncode b)) in *.
  apply wp_bind, wp_remote. unfold wp at 1. pose proof (OpenExcl_contents tmp w1) as Hop.
  destruct (OpenExcl tmp w1) as [opened w2]. cbn [fst snd] in *.
  assert (Hw2 : replaced p tmp (uploadBody u).1 (uploadBody u).2 w w2).
  { destruct Hop as [[Hn Hw2]|[_ Hw2]]; [|apply replaced_same; congruence].
    eapply replaced_tmp; [done|by apply (replaced_same _ _ _ _ w w)|]. intros x Hx. by rewrite Hw2, Hw1, lookup_insert_ne. }
  destruct opened as [[]|e].
  2: { apply wp_bind, wp_onHub_any. intros _ h2. apply wp_ret. exists tmp. split_and!; [done|done|]. unfold uploadPost.
       destruct (uploadBody u) as [data broken]. split_and!; [done| |intros Hs; by apply fileError_status in Hs].
       destruct Hop as [[Hn _]|[_ Hsame]]; [right; by rewrite <-Hw1|left; cbn; congruence]. }
  destruct Hop as [[Hn Hc2]|[[? ?] _]]; [|done].
  apply wp_bind, wp_remote. eapply wp_mono; [apply writeUpload_spec; [done|rewrite Hc2, lookup_insert_eq; by eexists]|].
  intros [nb err] w3. destruct (uploadBody u) as [data broken] eqn:Eu. intros [Hr3 Hd3]. cbn [fst snd] in *.
  assert (Hr : replaced p tmp data broken w w3).
  { destruct Hr3 as [Hx3 Hp3], Hw2 as [Hx2 Hp2]. split; [intros x ? ?; by rewrite Hx3, Hx2|].
    destruct Hp3 as [->|?]; [done|by right]. }
  destruct err as [e|].
  - apply wp_bind, wp_remote. unfold wp at 1. pose proof (Remove_contents tmp w3) as Hrm. destruct (Remove tmp w3) as [res w4]. cbn [fst snd] in *.
    apply wp_bind, wp_onHub_any. intros _ h4. apply wp_bind, wp_onHub_any. intros _ h5. apply wp_ret. exists tmp.
    split_and!; [done|done|]. unfold uploadPost. rewrite Eu. split_and!; [|right; by rewrite <-Hw1|intros Hs; by apply fileError_status in Hs].
    eapply replaced_tmp; [done|exact Hr|]. intros x Hx. cbn [snd]. destruct Hrm as [->| ->]; [done|by rewrite lookup_delete_ne].
  - apply wp_bind, wp_onHub_any. intros _ h4. apply wp_bind, wp_onHub_any. intros _ h5. apply wp_ret. exists tmp.
    split_and!; [done|done|]. unfold uploadPost. rewrite Eu. split_and!; [done|right; by rewrite <-Hw1|]. intros _. destruct (Hd3 eq_refl) as [Hp3 Ht3].
    split_and!; [done|done|]. by rewrite <-Hw1.
Qed.
End uploads.

(** ** Who may transfer files *)
Section guards.
Context `{Lib} `{Marshal} {W : Type} `{!Sftp W} (ToLower : string → string) (durationString : Z → string).
Implicit Types (h : hub) (s : Session) (σ : hub * W).
Abbreviation tables h := (m_db (h_m h)).

(** The request to the agent that starts file access, when it may be sent. *)
Definition accessed (r : request) s h h' : Prop :=
  let id := (ParseInt 64 (rq_PathValue r "id")).1 in
  ∃ ac msg, h_agents h !! id = Some ac ∧ has ac FeatureShell = true ∧ unix (timeNow (h_m h)).1 ≤ s_ElevatedUntil s
    ∧ h_trace h' = h_trace h ++ [ESend (ac_conn ac) "subsystem" msg].
Lemma accessed_trace r s h h1 h2 : accessed r s h h1 → h_trace h2 = h_trace h1 → accessed r s h h2.
Proof. intros (ac & msg & ? & ? & ? & Ht) Ht2. exists ac, msg. by rewrite Ht2. Qed.
Lemma wp_fileSession start r s h (Q : response + System * nat → hub → Prop) :
  (∀ resp h', h_trace h' = h_trace h ∨ accessed r s h h' → Q (inl resp) h') →
  (∀ sys k h', sy_ID sys = (ParseInt 64 (rq_PathValue r "id")).1 → accessed r s h h' → tables h' = tables h →
     (noFaults (h_m h) → noFaults (h_m h')) → Q (inr (sys, k)) h') →
  wp (fileSession start r s) Q h.
Proof.
  intros Hl Hr. unfold fileSession. apply wp_bind, wp_onlineAgent; [intros resp h' Ht; apply wp_ret; auto|].
  intros sys ac h1 (m & -> & Hm & Hc & Hn) _ Hid Hac. apply wp_bind, wp_elevated; [intros resp m2 _; apply wp_ret; auto|].
  cbn [h_m with_m]. rewrite Hc. intros m2 Hm2 Hn2 Hel. destruct (has ac FeatureShell) eqn:Hf; cbn [negb]; [|apply wp_ret; auto].
  assert (Hacc : ∀ h' msg, h_trace h' = h_trace h ++ [ESend (ac_conn ac) "subsystem" msg] → accessed r s h h').
  { intros h' msg Ht. exists ac, msg. by rewrite <-Hid. }
  destruct start; [apply wp_ret; auto| | |]; apply wp_bind, wp_modify.
  - apply wp_ret, Hl. right. by eapply Hacc.
  - apply wp_ret, Hl. right. by eapply Hacc.
  - apply wp_bind. unfold track, wp. cbn [fst snd mret M_ret]. apply Hr; [done|by eapply Hacc|cbn; congruence|auto].
Qed.

(** A step after which the trace is the same. *)
Definition traceKept σ σ' : Prop := h_trace σ'.1 = h_trace σ.1.
#[local] Instance traceKept_preorder : PreOrder traceKept.
Proof. split; unfold traceKept; [intros x; done|intros x y z; congruence]. Qed.
Lemma steps_remote_trace {A} (m : M W A) : steps traceKept (remote m).
Proof. intros [h w]. unfold traceKept, remote. cbn. by destruct (m w). Qed.
Lemma steps_onHub_trace {A} (m : M hub A) : steps (frames h_trace) m → steps traceKept (onHub_ m).
Proof. intros Hm [h w]. unfold traceKept, onHub_. cbn. specialize (Hm h). by destruct (m h). Qed.
Lemma steps_db_trace {A} (m : M mach A) : steps traceKept (onHub_ (db m)).
Proof. apply steps_onHub_trace. intros h. unfold frames, db. by destruct (m (h_m h)). Qed.
Lemma steps_audit_trace r u a sys d : steps traceKept (onHub_ (audit r u a sys d)).
Proof.
  apply steps_onHub_trace. intros h. generalize (steps_audit_onlyMach r u a sys d h).
  destruct (audit r u a sys d h) as [x h1]. unfold onlyMach, frames. cbn. intros ->. done.
Qed.
Lemma steps_untrack_trace k : steps traceKept (onHub_ (untrack k)).
Proof. by apply steps_onHub_trace. Qed.
#[local] Hint Resolve steps_remote_trace steps_db_trace steps_audit_trace steps_untrack_trace : steps.

(** A file handler ran. *)
Inductive fileRequest (r : request) s σ : hub * W → Prop :=
| file_list start resp σ' : getFiles ToLower start r s σ = (resp, σ') → fileRequest r s σ σ'
| file_download start ans σ' : downloadFile durationString start r s σ = (ans, σ') → fileRequest r s σ σ'
| file_upload start u resp σ' : putFile start r s u σ = (resp, σ') → fileRequest r s σ σ'
| file_action start body resp σ' : postFileAction start r s body σ = (resp, σ') → fileRequest r s σ σ'.
Definition fileGuard (r : request) s σ σ' : Prop :=
  (h_trace σ'.1 = h_trace σ.1 ∧ σ'.2 = σ.2) ∨ accessed r s σ.1 σ'.1.
(** The common shape of the handlers: a session, then anything that sends nothing more. *)
Lemma guarded_session {A} start r s σ (g : response → A) (cont : System * nat → M (hub * W) A) :
  (∀ x, steps traceKept (cont x)) →
  wp (mbind (λ x, match x with inl resp => mret (g resp) | inr y => cont y end) (onHub_ (fileSession start r s)))
    (λ _ σ', fileGuard r s σ σ') σ.
Proof.
  intros Hk. destruct σ as [h w]. apply wp_bind, wp_onHub, wp_fileSession.
  - intros resp h' [Ht|Ha]; apply wp_ret; [by left|by right].
  - intros sys k h' _ Ha _ _. eapply wp_steps; [apply Hk|]. intros _ [h2 w2] Ht. right. by eapply accessed_trace.
Qed.
Lemma fileGuard_refl r s σ : fileGuard r s σ σ.
Proof. by left. Qed.

(** C34. Files are reached only by those who may: listing, downloading, uploading and changing files
    reaches a machine only when the session re-authenticated recently enough, the agent is the one
    connected for that system and its owner allowed it; otherwise no request is sent and no file
    there is touched. *)
Theorem files_guarded (r : request) (s : Session) (σ σ' : hub * W) (Hreq : fileRequest r s σ σ') :
  (h_trace σ'.1 = h_trace σ.1 ∧ σ'.2 = σ.2) ∨ accessed r s σ.1 σ'.1.
Proof.
  change (fileGuard r s σ σ').
  destruct Hreq as [start resp σ' E|start ans σ' E|start u resp σ' E|start body resp σ' E];
    refine (wp_run _ (λ _ σ', fileGuard r s σ σ') _ _ _ _ E); clear E.
  - apply (guarded_session start r s σ id). intros [sys k]. go_steps.
  - unfold downloadFile. destruct (remotePath _) as [p|]; [|apply wp_ret, fileGuard_refl].
    apply (guarded_session start r s σ Plainly). intros [sys k]. go_steps.
  - unfold putFile. destruct (remotePath _) as [p|]; [|apply wp_ret, fileGuard_refl].
    destruct (String.eqb p "/"); [apply wp_ret, fileGuard_refl|].
    apply (guarded_session start r s σ id). intros [sys k]. go_steps.
  - unfold postFileAction. apply wp_bind, wp_ret. destruct (readJSON body) as [?|b]; [apply wp_ret, fileGuard_refl|].
    destruct (remotePath _) as [p|]; [|apply wp_ret, fileGuard_refl].
    destruct (String.eqb p "/"); [apply wp_ret, fileGuard_refl|].
    destruct (if String.eqb _ "rename" then _ else _) as [to_|]; [|apply wp_ret, fileGuard_refl].
    destruct (String.eqb to_ "/"); [apply wp_ret, fileGuard_refl|].
    apply (guarded_session start r s σ id). intros [sys k]. go_steps.
Qed.
End guards.

(** ** Witnesses: a machine whose files are a map *)
Definition demoInfoOf (p : string) (w : gmap string string) : fres fileInfo :=
  match w !! p with
  | Some c => Ok (mkFileInfo (Base p) (strLen c) "-rw-r--r--" 420 false false 0 None)
  | None => Err (NotExist "file does not exist")
  end.
Definition demoMove (p q : string) (w : gmap string string) : fres unit * gmap string string :=
  match w !! p with Some c => (Ok tt, <[q := c]> (delete p w)) | None => (Err (NotExist "file does not exist"), w) end.
#[export] Instance demoSftp : Sftp (gmap string string) := {|
  ReadDir p w := (Ok [], w);
  Stat p w := (demoInfoOf p w, w);
  Lstat p w := (demoInfoOf p w, w);
  OpenRead p w := (demoInfoOf p w, w);
  CopyOut p w := (default "" (w !! p), None, w);
  OpenExcl p w := match w !! p with Some _ => (Err (Files.Exists "file exists"), w) | None => (Ok tt, <[p := ""]> w) end;
  ReadFrom p data broken w :=
    if broken then (1, Some (OtherErr "unexpected EOF"), <[p := "?"]> w) else (strLen data, None, <[p := data]> w);
  CloseFile p w := (None, w);
  Chmod p mode w := (tt, w);
  Chown p uid gid w := (tt, w);
  PosixRename := demoMove;
  Rename := demoMove;
  Remove p w := (Ok tt, delete p w);
  RemoveDirectory p w := (Ok tt, w);
  RemoveAll p w := (Ok tt, w);
  Mkdir p w := (Ok tt, w);
|}.
#[export] Instance demoSftpLaws : SftpLaws (gmap string string).
Proof.
  refine {| contents w := w |}; try done.
  - intros p w. cbn. destruct (w !! p) eqn:E; [right|left]; naive_solver.
  - intros p data broken w. cbn. destruct broken; eexists; split; done.
  - intros p q w. cbn. unfold demoMove. destruct (w !! p) eqn:E; naive_solver.
  - intros p q w. cbn. unfold demoMove. destruct (w !! p) eqn:E; naive_solver.
  - intros p w. by right.
Defined.
Definition demoFileRequest : request :=
  mkRequest "PUT" "10.0.0.1" "hub" "" None false "" "" [] (λ _, "1") (λ k, if String.eqb k "path" then "/etc/motd" else "1") false.
Definition demoMachine : gmap string string := {["/etc/motd" := "old"]}.
(** The random bytes of the demo contain no slash. *)
Definition demoUrlLib : Lib := {|
  Quote := @Quote demoLib; sha256 := @sha256 demoLib; b64urlEncode _ := "abcdefgh"; b64urlDecode := @b64urlDecode demoLib;
  bcryptGenerate := @bcryptGenerate demoLib; bcryptCompare := @bcryptCompare demoLib; totpCode := @totpCode demoLib;
  totpGenerate := @totpGenerate demoLib; ParseAddr := @ParseAddr demoLib; ParseAddrPort := @ParseAddrPort demoLib;
  ParsePrefix := @ParsePrefix demoLib; addrString := @addrString demoLib; prefixString := @prefixString demoLib;
  b64Decode := @b64Decode demoLib; ed25519Verify := @ed25519Verify demoLib; ParsePKIXPublicKey := @ParsePKIXPublicKey demoLib;
  ecdsaVerifyASN1 := @ecdsaVerifyASN1 demoLib; rsaVerifyPKCS1v15 := @rsaVerifyPKCS1v15 demoLib; urlParse := @urlParse demoLib;
  addrPortString := @addrPortString demoLib; ParseIP4 := @ParseIP4 demoLib; SplitHostPort := @SplitHostPort demoLib;
  netParseMAC := @netParseMAC demoLib; ParseCIDR4 := @ParseCIDR4 demoLib; ParseCIDRAddr := @ParseCIDRAddr demoLib;
  ip4String := @ip4String demoLib; rangeOrder := @rangeOrder demoLib;
|}.
Definition demoUpload : upload := mkUpload "hello" false 5.
Lemma upload_atomic_witness :
  let '(resp, hw) := @putFile demoUrlLib _ demoSftp Serving demoFileRequest demoFresh demoUpload (demoShellHub, demoMachine) in
  rs_status resp = 204 ∧ hw.2 = {["/etc/motd" := "hello"]}
  ∧ ∃ tmp, tmp ≠ "/etc/motd" ∧ uploadPost "/etc/motd" tmp demoUpload demoMachine resp hw.
Proof.
  pose proof (@upload_atomic demoUrlLib _ demoSftp demoSftpLaws Serving demoFileRequest demoFresh demoUpload demoShellHub demoMachine
    "/etc/motd" (λ _, eq_refl) eq_refl ltac:(discriminate)) as Hu.
  assert (Hc : (@putFile demoUrlLib _ demoSftp Serving demoFileRequest demoFresh demoUpload (demoShellHub, demoMachine)).1 = noContent
    ∧ (@putFile demoUrlLib _ demoSftp Serving demoFileRequest demoFresh demoUpload (demoShellHub, demoMachine)).2.2 = {["/etc/motd" := "hello"]})
    by (split; vm_compute; reflexivity).
  destruct (putFile _ _ _ _ _) as [resp hw]. cbn [fst snd] in Hc. destruct Hc as [-> Hw]. split_and!; [reflexivity|exact Hw|].
  destruct Hu as (tmp & Hne & _ & Hp). by exists tmp.
Defined.
Lemma files_guarded_witness :
  let σ' := (@putFile demoUrlLib _ demoSftp Serving demoFileRequest demoFresh demoUpload (demoShellHub, demoMachine)).2 in
  accessed demoFileRequest demoFresh demoShellHub σ'.1.
Proof.
  intros σ'. destruct (@files_guarded demoUrlLib _ demoSftp id (λ _, "") demoFileRequest demoFresh (demoShellHub, demoMachine) σ') as [[Ht _]|Ha].
  - eapply (file_upload _ _ _ _ _ Serving demoUpload). apply surjective_pairing.
  - vm_compute in Ht. discriminate.
  - exact Ha.
Defined.
