(* ===== verification/Runs.v ===== *)
(** * Scripts and runs ([internal/hub/scripts.go])

    A run in progress is an [activeRun]; what happens on a system (the channel is refused, the
    agent refuses the script, output arrives and it ends some way) is an argument of
    [runOn]. Systems run in parallel in the program; [execute] takes the order in which they
    are served. *)
From Stdlib Require Import ZArith Lia Ascii String.
From S2P Require Import Prelude GoStrings Float64 Library Store StoreTables StoreInv StoreSteps Limiter TailBuffer Update Webauthn Protocol Hub Auth AuthProps Systems.
From stdpp Require Import base gmap strings list relations.
Local Open Scope string_scope.
Local Open Scope list_scope.
Local Open Scope Z_scope.
Local Open Scope lotse_scope.

Definition maxScriptSize : Z := Z.shiftl 256 10.
Definition maxRunOutput : nat := Z.to_nat (Z.shiftl 128 10).
Definition maxRunTargets : nat := 500.
Definition maxRunTimeout : Z := 24 * 60 * 60.
Definition runEventBuffer : nat := 256.

Definition scriptShells (shell : string) : string :=
  if String.eqb shell "sh" then "sh" else if String.eqb shell "bash" then "Bash"
  else if String.eqb shell "powershell" then "PowerShell" else if String.eqb shell "cmd" then "cmd" else "".
Definition shellRunsOn (shell goos : string) : bool :=
  if String.eqb shell "sh" || String.eqb shell "bash" then negb (String.eqb goos "windows")
  else if String.eqb shell "cmd" then String.eqb goos "windows"
  else true.
Definition osName (goos : string) : string :=
  if String.eqb goos "linux" then "Linux" else if String.eqb goos "darwin" then "macOS"
  else if String.eqb goos "windows" then "Windows" else "".

(** ** A run in memory *)
Definition newActiveRun (rec : ScriptRun) (targets : list runTarget) : activeRun :=
  mkActiveRun rec false targets (replicate (length targets) (newTail maxRunOutput)) (replicate (length targets) []) (Some ∅) false.
(** A slow viewer misses the event. *)
Definition publishLocked (ev : runEvent) (ar : activeRun) : activeRun :=
  mkActiveRun (ar_rec ar) (ar_canceled ar) (ar_targets ar) (ar_output ar) (ar_partial ar)
    (match ar_subs ar with Some m => Some (offer runEventBuffer ev <$> m) | None => None end) (ar_done ar).
Definition withOutput (s : string) (t : runTarget) : runTarget :=
  mkRunTarget (rt_SystemID t) (rt_SystemName t) (rt_Status t) (rt_ExitCode t) (rt_Error t) s (rt_Truncated t)
    (rt_StartedAt t) (rt_FinishedAt t).
Definition shownOutput (out : tailBuffer) (partial : list Z) : list Z :=
  let b := Bytes out in take (length b - Nat.min (length b) (length partial)) b.
Definition snapshotLocked (ar : activeRun) : ScriptRun * list runTarget :=
  (ar_rec ar, imap (λ i t, withOutput (stringOf (shownOutput (default (newTail maxRunOutput) (ar_output ar !! i))
                                                              (default [] (ar_partial ar !! i)))) t) (ar_targets ar)).
Definition targetJSON (t : runTarget) : json :=
  JObj ([("system_id", JInt (rt_SystemID t)); ("system_name", JStr (rt_SystemName t)); ("status", JStr (rt_Status t));
         ("exit_code", JOptInt (rt_ExitCode t))]
        ++ omitEmpty "error" (rt_Error t) ++ [("output", JStr (rt_Output t))]
        ++ (if rt_Truncated t then [("truncated", JBool true)] else [])
        ++ (if rt_StartedAt t =? 0 then [] else [("started_at", JInt (rt_StartedAt t))])
        ++ (if rt_FinishedAt t =? 0 then [] else [("finished_at", JInt (rt_FinishedAt t))])).
Definition with_targets (l : list runTarget) (ar : activeRun) : activeRun :=
  mkActiveRun (ar_rec ar) (ar_canceled ar) l (ar_output ar) (ar_partial ar) (ar_subs ar) (ar_done ar).
(** [activeRun.update]. *)
Definition updateTarget (i : nat) (fn : runTarget → runTarget) (ar : activeRun) : activeRun :=
  match ar_targets ar !! i with
  | None => ar
  | Some t => publishLocked (mkRunEvent "target" (targetJSON (withOutput "" (fn t))))
                (with_targets (<[i := fn t]> (ar_targets ar)) ar)
  end.
Definition withTruncated (b : bool) (t : runTarget) : runTarget :=
  mkRunTarget (rt_SystemID t) (rt_SystemName t) (rt_Status t) (rt_ExitCode t) (rt_Error t) (rt_Output t) b
    (rt_StartedAt t) (rt_FinishedAt t).
Definition outputEvent (systemID : Z) (data : list Z) : runEvent :=
  mkRunEvent "output" (JObj [("system_id", JInt systemID); ("data", JStr (stringOf data))]).
(** [activeRun.write]. *)
Definition writeTarget (i : nat) (p : list Z) (ar : activeRun) : activeRun :=
  match ar_targets ar !! i, ar_output ar !! i, ar_partial ar !! i with
  | Some t, Some out, Some partial =>
    let out' := Write p out in
    let live := partial ++ p in
    let n := completeUTF8 live in
    let ar' := mkActiveRun (ar_rec ar) (ar_canceled ar) (<[i := withTruncated (tb_dropped out') t]> (ar_targets ar))
                 (<[i := out']> (ar_output ar)) (<[i := drop n live]> (ar_partial ar)) (ar_subs ar) (ar_done ar) in
    if (0 <? n)%nat && match ar_subs ar with Some m => (0 <? size m)%nat | None => false end
    then publishLocked (outputEvent (rt_SystemID t) (take n live)) ar'
    else ar'
  | _, _, _ => ar
  end.

(** What happens on one system. *)
Inductive runEnd : Type :=
| EndExit (code : Z)           (* the agent reported the exit status *)
| EndCanceled                  (* none came, and the run was canceled *)
| EndTimeout                   (* none came in time *)
| EndLost.                     (* the link was lost *)
Inductive runOutcome : Type :=
| ChannelRefused (err : string)
| ScriptRefused
| Ran (chunks : list (list Z)) (how : runEnd).

Record runRequest := mkRunRequest {
  rr_ScriptID : option Z;
  rr_Name : string;
  rr_Shell : string;
  rr_Content : string;
  rr_Timeout : Z;
  rr_Systems : list Z;
}.
Definition setScript (name descr : string) (sc : Script) : Script :=
  mkScript (sc_ID sc) name descr (sc_Shell sc) (sc_Content sc) (sc_Timeout sc) (sc_CreatedBy sc) (sc_CreatedAt sc) (sc_UpdatedAt sc).
(** The script with its texts trimmed, and the message for an invalid one. *)
Definition validateScript (sc0 : Script) : Script * string :=
  let sc := setScript (TrimSpace (sc_Name sc0)) (TrimSpace (sc_Description sc0)) sc0 in
  (sc,
   if String.eqb (sc_Name sc) "" || (maxNameLen <? RuneCountInString (sc_Name sc)) then "name must be 1-64 characters"
   else if 500 <? RuneCountInString (sc_Description sc) then "the description must be at most 500 characters"
   else if String.eqb (scriptShells (sc_Shell sc)) "" then "shell must be sh, bash, powershell or cmd"
   else if String.eqb (TrimSpace (sc_Content sc)) "" then "the script is empty"
   else if maxScriptSize <? strLen (sc_Content sc) then "the script must be at most 256 KiB"
   else if (sc_Timeout sc <? 1) || (maxRunTimeout <? sc_Timeout sc) then "the time limit must be between 1 second and 24 hours"
   else "").
Definition scriptJSON (sc : Script) : json :=
  JObj [("id", JInt (sc_ID sc)); ("name", JStr (sc_Name sc)); ("description", JStr (sc_Description sc));
        ("shell", JStr (sc_Shell sc)); ("content", JStr (sc_Content sc)); ("timeout", JInt (sc_Timeout sc));
        ("created_by", JStr (sc_CreatedBy sc)); ("created_at", JInt (sc_CreatedAt sc)); ("updated_at", JInt (sc_UpdatedAt sc))].
Definition runJSON (d : ScriptRun * list runTarget) : json :=
  let r := d.1 in
  JObj [("id", JInt (sn_ID r)); ("script_id", JOptInt (sn_ScriptID r)); ("name", JStr (sn_Name r));
        ("shell", JStr (sn_Shell r)); ("content", JStr (sn_Content r)); ("timeout", JInt (sn_Timeout r));
        ("username", JStr (sn_Username r)); ("started_at", JInt (sn_StartedAt r));
        ("finished_at", JOptInt (sn_FinishedAt r)); ("targets", JArr (map targetJSON d.2))].
(** [slices.Compact] of a sorted list. *)
Fixpoint compactZ (l : list Z) : list Z :=
  match l with
  | x :: ((y :: _) as rest) => if x =? y then compactZ rest else x :: compactZ rest
  | _ => l
  end.

Section runs.
Context `{Lib} `{Marshal} `{!Unmarshal (list runTarget)}.
(** SQLite's summary of the results; [time.Duration]'s [%s]. *)
Context (targetsSummary : string → string) (durationString : Z → string).

(** ** Saved scripts *)
Definition getScripts (r : request) (s : Session) : M hub response :=
  l ⇐ (e ← db Scripts; mret (orInternal e));
  mret (writeJSON 200 (JArr (map scriptJSON l))).
Definition withAuthor (id : Z) (by_ : string) (created : Z) (sc : Script) : Script :=
  mkScript id (sc_Name sc) (sc_Description sc) (sc_Shell sc) (sc_Content sc) (sc_Timeout sc) by_ created (sc_UpdatedAt sc).
Definition saveScript (r : request) (s : Session) (body : option Script) : M hub response :=
  sc0 ⇐ mret (readJSON body);
  _ ⇐ requireElevated s;
  let idStr := rq_PathValue r "id" in
  sc1 ⇐ (if negb (String.eqb idStr "") then
           let id := (ParseInt 64 idStr).1 in
           old ← db (getScript id);
           mret (match old with
                 | Err _ => inl (writeError 404 "script not found")
                 | Ok o => inr (withAuthor id (sc_CreatedBy o) (sc_CreatedAt o) sc0)
                 end)
         else mret (inr (withAuthor 0 (u_Username (s_User s)) (sc_CreatedAt sc0) sc0)));
  let '(sc, msg) := validateScript sc1 in
  if negb (String.eqb msg "") then mret (writeError 400 msg) else
  saved ⇐ (e ← db (SaveScript sc); mret (orInternal e));
  audit (Some r) (u_Username (s_User s)) "script_saved" None (Quote (sc_Name saved) +:+ " (" +:+ scriptShells (sc_Shell saved) +:+ ")");;
  mret (writeJSON 200 (scriptJSON saved)).
Definition deleteScript (r : request) (s : Session) : M hub response :=
  _ ⇐ requireElevated s;
  let id := (ParseInt 64 (rq_PathValue r "id")).1 in
  sc ← db (getScript id);
  match sc with
  | Err _ => mret (writeError 404 "script not found")
  | Ok sc =>
    _ ⇐ (e ← db (DeleteScript id); mret (orInternal e));
    audit (Some r) (u_Username (s_User s)) "script_deleted" None (Quote (sc_Name sc));;
    mret noContent
  end.

(** ** Starting a run *)
Definition onRun (id : Z) (f : activeRun → activeRun) : M hub unit :=
  mmodify (λ h, with_runs (alter f id (h_runs h)) h).
Fixpoint pendingTargets (ids : list Z) : M hub (option (list runTarget)) :=
  match ids with
  | [] => mret (Some [])
  | id :: rest =>
    s ← db (getSystem id);
    match s with
    | Err _ => mret None
    | Ok sys =>
      l ← pendingTargets rest;
      mret (match l with
            | Some l => Some (mkRunTarget (sy_ID sys) (sy_Name sys) "pending" None "" "" false 0 0 :: l)
            | None => None
            end)
    end
  end.
Definition postRun (r : request) (s : Session) (body : option runRequest) : M hub response :=
  req ⇐ mret (readJSON body);
  _ ⇐ requireElevated s;
  sc0 ⇐ match rr_ScriptID req with
        | Some id => saved ← db (getScript id);
                     mret (match saved with Err _ => inl (writeError 404 "script not found") | Ok sc => inr sc end)
        | None => mret (inr (mkScript 0 (if String.eqb (TrimSpace (rr_Name req)) "" then "Command" else rr_Name req) ""
                               (rr_Shell req) (rr_Content req) (rr_Timeout req) "" 0 0))
        end;
  let '(sc, msg) := validateScript sc0 in
  if negb (String.eqb msg "") then mret (writeError 400 msg) else
  let ids := compactZ (sortBy Z.leb (rr_Systems req)) in
  if (length ids =? 0)%nat || (maxRunTargets <? length ids)%nat then mret (writeError 400 "choose at least one system") else
  ts ← pendingTargets ids;
  match ts with
  | None => mret (writeError 400 "a selected system does not exist")
  | Some targets =>
    t ← db timeNow;
    let rec := mkScriptRun 0 (rr_ScriptID req) (sc_Name sc) (sc_Shell sc) (sc_Content sc) (sc_Timeout sc)
                 (u_Username (s_User s)) (unix t) None (marshal (JArr (map targetJSON targets))) in
    rec' ⇐ (e ← db (CreateRun targetsSummary rec); mret (orInternal e));
    mmodify (λ h, with_runs (<[sn_ID rec' := newActiveRun rec' targets]> (h_runs h)) h);;
    emit (EExecute (sn_ID rec') (clientIP r));;
    mret (writeJSON 200 (JObj [("id", JInt (sn_ID rec'))]))
  end.

(** ** Running *)
Definition finishTarget (status msg : string) (code : option Z) (now : Z) (t : runTarget) : runTarget :=
  mkRunTarget (rt_SystemID t) (rt_SystemName t) status code msg (rt_Output t) (rt_Truncated t) (rt_StartedAt t) now.
Definition startTarget (now : Z) (t : runTarget) : runTarget :=
  mkRunTarget (rt_SystemID t) (rt_SystemName t) "running" (rt_ExitCode t) (rt_Error t) (rt_Output t) (rt_Truncated t) now
    (rt_FinishedAt t).
Definition finish (run : Z) (i : nat) (status msg : string) (code : option Z) : M hub unit :=
  t ← db timeNow; onRun run (updateTarget i (finishTarget status msg code (unix t))).
Fixpoint writeChunks (run : Z) (i : nat) (chunks : list (list Z)) : M hub unit :=
  match chunks with
  | [] => mret tt
  | p :: rest => (match p with [] => mret tt | _ => onRun run (writeTarget i p) end);; writeChunks run i rest
  end.
Definition scriptMsg (rec : ScriptRun) : json :=
  JObj [("shell", JStr (sn_Shell rec)); ("script", JStr (sn_Content rec)); ("timeout", JInt (sn_Timeout rec))].
Definition runOn (run : Z) (i : nat) (outcome : runOutcome) : M hub unit :=
  h ← mget;
  match h_runs h !! run with
  | None => mret tt
  | Some ar =>
    if ar_canceled ar then finish run i "canceled" "" None else
    match ar_targets ar !! i with
    | None => mret tt
    | Some t =>
      match h_agents h !! rt_SystemID t with
      | None => finish run i "skipped" "the system is offline" None
      | Some ac =>
        if negb (has ac FeatureShell)
        then finish run i "skipped" "scripts are disabled on this machine (install the agent with --allow-shell)" None
        else if negb (shellRunsOn (sn_Shell (ar_rec ar)) (si_OS (ac_info ac)))
        then finish run i "skipped" (scriptShells (sn_Shell (ar_rec ar)) +:+ " scripts do not run on " +:+ osName (si_OS (ac_info ac))) None
        else match outcome with
        | ChannelRefused err => finish run i "failed" ("the agent refused: " +:+ err) None
        | ScriptRefused =>
          emit (ESend (ac_conn ac) ReqScript (scriptMsg (ar_rec ar)));;
          finish run i "failed" "this agent cannot run scripts; update it" None
        | Ran chunks how =>
          emit (ESend (ac_conn ac) ReqScript (scriptMsg (ar_rec ar)));;
          now ← db timeNow;
          onRun run (updateTarget i (startTarget (unix now)));;
          writeChunks run i chunks;;
          match how with
          | EndExit code => finish run i (if code =? 0 then "done" else "failed") "" (Some code)
          | EndCanceled => finish run i "canceled" "stopped by a user" None
          | EndTimeout => finish run i "failed" "the agent did not finish in time" None
          | EndLost => finish run i "failed" "the connection to the agent was lost" None
          end
        end
      end
    end
  end.
Fixpoint runAll (run : Z) (order : list nat) (outcome : nat → runOutcome) : M hub unit :=
  match order with
  | [] => mret tt
  | i :: rest => runOn run i (outcome i);; runAll run rest outcome
  end.
Definition runDetail (rec : ScriptRun) (t : runTarget) : string :=
  Quote (sn_Name rec) +:+ match rt_ExitCode t with
                          | Some c => ": exit status " +:+ itoa c
                          | None => ": " +:+ rt_Status t
                          end
  +:+ (if String.eqb (rt_Error t) "" then "" else " (" +:+ rt_Error t +:+ ")")
  +:+ (if 0 <? rt_StartedAt t
       then " after " +:+ durationString (wrap64 ((rt_FinishedAt t - rt_StartedAt t) * nsec)) else "").
Fixpoint auditTargets (rec : ScriptRun) (remote : string) (l : list runTarget) : M hub unit :=
  match l with
  | [] => mret tt
  | t :: rest =>
    _ ← db (AddAudit (mkAuditEntry 0 0 (sn_Username rec) "script_run" (Some (rt_SystemID t)) (rt_SystemName t) remote (runDetail rec t)));
    auditTargets rec remote rest
  end.
Definition finishRec (finished : Z) (r : ScriptRun) : ScriptRun := withFinish (Some finished) (sn_Targets r) r.
Definition doneEvent (finished : Z) : runEvent := mkRunEvent "done" (JObj [("finished_at", JInt finished)]).
(** The event "done" is offered to the viewers and their channels are closed: the first component is what the closed
    channels still hold for them. *)
Definition closeRun (finished : Z) (ar : activeRun) : gmap nat (list runEvent) * activeRun :=
  let ar' := publishLocked (doneEvent finished) ar in
  (default ∅ (ar_subs ar'),
   mkActiveRun (finishRec finished (ar_rec ar')) (ar_canceled ar') (ar_targets ar') (ar_output ar') (ar_partial ar') None true).
(** The result is what the viewers' channels hold in the end. *)
Definition execute (run : Z) (remote : string) (order : list nat) (outcome : nat → runOutcome) : M hub (gmap nat (list runEvent)) :=
  runAll run order outcome;;
  t ← db timeNow;
  let finished := unix t in
  h ← mget;
  match h_runs h !! run with
  | None => mret ∅
  | Some ar =>
    let '(rec, targets) := snapshotLocked ar in
    _ ← db (FinishRun targetsSummary run finished (marshal (JArr (map targetJSON targets))));
    auditTargets rec remote targets;;
    h ← mget;
    match h_runs h !! run with
    | None => mret ∅
    | Some ar =>
      let '(channels, ar') := closeRun finished ar in
      mmodify (λ h, with_runs (<[run := ar']> (h_runs h)) h);;
      mret channels
    end
  end.
(** A minute after it finished, a run leaves the memory. *)
Definition forgetRun (run : Z) : M hub unit := mmodify (λ h, with_runs (delete run (h_runs h)) h).

(** ** The API of runs *)
Definition runDTO (h : hub) (rec : ScriptRun) : ScriptRun * list runTarget :=
  match h_runs h !! sn_ID rec with
  | Some ar => snapshotLocked ar
  | None => (rec, (unmarshal (sn_Targets rec) : list runTarget * bool).1)
  end.
Definition withoutContent (r : ScriptRun) : ScriptRun :=
  mkScriptRun (sn_ID r) (sn_ScriptID r) (sn_Name r) (sn_Shell r) "" (sn_Timeout r) (sn_Username r) (sn_StartedAt r)
    (sn_FinishedAt r) (sn_Targets r).
Definition getRuns (r : request) (s : Session) : M hub response :=
  recs ⇐ (e ← db (Runs 50); mret (orInternal e));
  h ← mget;
  mret (writeJSON 200 (JArr (map (λ rec, let d := runDTO h rec in
    runJSON (withoutContent d.1, map (withOutput "") d.2)) recs))).
Definition lookupRun (r : request) : M hub (response + ScriptRun) :=
  x ← db (getRunRec (ParseInt 64 (rq_PathValue r "id")).1);
  mret (match x with
        | Ok rec => inr rec
        | Err ErrNotFound => inl (writeError 404 "run not found")
        | Err _ => inl internalError
        end).
Definition getRun (r : request) (s : Session) : M hub response :=
  rec ⇐ lookupRun r;
  h ← mget;
  mret (writeJSON 200 (runJSON (runDTO h rec))).
(** The start of [getRunEvents]: snapshot and subscription at once. *)
Definition subscribeRun (ch : nat) (ar : activeRun) : (ScriptRun * list runTarget) * activeRun :=
  (snapshotLocked ar,
   if ar_done ar then ar
   else mkActiveRun (ar_rec ar) (ar_canceled ar) (ar_targets ar) (ar_output ar) (ar_partial ar)
          (match ar_subs ar with Some m => Some (<[ch := []]> m) | None => None end) (ar_done ar)).
Definition unsubscribeRun (ch : nat) (ar : activeRun) : activeRun :=
  mkActiveRun (ar_rec ar) (ar_canceled ar) (ar_targets ar) (ar_output ar) (ar_partial ar) (match ar_subs ar with Some m => Some (delete ch m) | None => None end) (ar_done ar).
Definition cancelRun (ar : activeRun) : activeRun :=
  mkActiveRun (ar_rec ar) true (ar_targets ar) (ar_output ar) (ar_partial ar) (ar_subs ar) (ar_done ar).
Definition postRunCancel (r : request) (s : Session) : M hub response :=
  rec ⇐ lookupRun r;
  h ← mget;
  match h_runs h !! sn_ID rec, sn_FinishedAt rec with
  | Some _, None =>
    onRun (sn_ID rec) cancelRun;;
    audit (Some r) (u_Username (s_User s)) "script_canceled" None (Quote (sn_Name rec));;
    mret noContent
  | _, _ => mret (writeError 409 "the run has finished")
  end.
Definition interruptTarget (t : runTarget) : runTarget :=
  if String.eqb (rt_Status t) "pending" || String.eqb (rt_Status t) "running"
  then mkRunTarget (rt_SystemID t) (rt_SystemName t) "failed" (rt_ExitCode t) "the hub restarted during the run" (rt_Output t)
         (rt_Truncated t) (rt_StartedAt t) (rt_FinishedAt t)
  else t.
Fixpoint interruptRuns (recs : list ScriptRun) : M hub (res unit) :=
  match recs with
  | [] => mret (Ok tt)
  | rec :: rest =>
    let targets := map interruptTarget (unmarshal (sn_Targets rec) : list runTarget * bool).1 in
    e ← db (FinishRun targetsSummary (sn_ID rec) (sn_StartedAt rec) (marshal (JArr (map targetJSON targets))));
    match e with Err x => mret (Err x) | Ok _ => interruptRuns rest end
  end.
Definition finishInterruptedRuns : M hub (res unit) :=
  recs ← db UnfinishedRuns;
  match recs with Err e => mret (Err e) | Ok l => interruptRuns l end.
End runs.
