(* ===== verification/RunProps.v ===== *)
(** * Properties of script runs: live output, results *)
From Stdlib Require Import ZArith Lia Ascii String.
From S2P Require Import Prelude GoStrings Float64 Library Store StoreTables StoreInv StoreSteps Limiter TailBuffer Update Webauthn Protocol Hub Auth AuthProps Systems State Runs.
From stdpp Require Import base gmap strings list relations.
Local Open Scope string_scope.
Local Open Scope list_scope.
Local Open Scope Z_scope.
Local Open Scope lotse_scope.

(** ** Live output *)
Implicit Types (ar : activeRun) (t : runTarget) (i : nat).

(** What happens to a run while its systems report. *)
Inductive runStep : activeRun → activeRun → Prop :=
| run_write ar i p : runStep ar (writeTarget i p ar)
| run_start ar i now : runStep ar (updateTarget i (startTarget now) ar)
| run_finish ar i status msg code now : runStep ar (updateTarget i (finishTarget status msg code now) ar)
| run_cancel ar : runStep ar (cancelRun ar)
| run_subscribe ar ch : runStep ar (subscribeRun ch ar).2
| run_unsubscribe ar ch : runStep ar (unsubscribeRun ch ar).

Record runInv (ids : list Z) ar : Prop := {
  ri_ids : map rt_SystemID (ar_targets ar) = ids;
  ri_output : length (ar_output ar) = length ids;
  ri_partial : length (ar_partial ar) = length ids;
  ri_stream : ∀ i out part, ar_output ar !! i = Some out → ar_partial ar !! i = Some part →
    ∃ pre, ring_of out (pre ++ part);
}.
Lemma maxRunOutput_pos : (0 < maxRunOutput)%nat.
Proof. unfold maxRunOutput. change 0%nat with (Z.to_nat 0). by apply Z2Nat.inj_lt. Qed.
Lemma runInv_new rec targets : runInv (map rt_SystemID targets) (newActiveRun rec targets).
Proof.
  split; cbn; rewrite ?length_replicate, ?length_map; try done.
  intros i out part [-> _]%lookup_replicate [-> _]%lookup_replicate. exists []. apply ring_newTail.
  apply maxRunOutput_pos.
Qed.
Lemma runInv_same ids ar ar' :
  map rt_SystemID (ar_targets ar') = map rt_SystemID (ar_targets ar) → ar_output ar' = ar_output ar → ar_partial ar' = ar_partial ar →
  runInv ids ar → runInv ids ar'.
Proof. intros Ht Ho Hp []. split; rewrite ?Ht, ?Ho, ?Hp; done. Qed.
Lemma map_insert_same (f : runTarget → runTarget) l i t :
  (∀ x, rt_SystemID (f x) = rt_SystemID x) → l !! i = Some t → map rt_SystemID (<[i := f t]> l) = map rt_SystemID l.
Proof.
  intros Hf Hi. change (map ?g ?x) with (g <$> x). rewrite list_fmap_insert, Hf. apply list_insert_id. by rewrite list_lookup_fmap, Hi.
Qed.
Lemma runInv_update ids ar i f : (∀ x, rt_SystemID (f x) = rt_SystemID x) → runInv ids ar → runInv ids (updateTarget i f ar).
Proof.
  intros Hf Hi. unfold updateTarget. destruct (ar_targets ar !! i) as [t|] eqn:E; [|done].
  apply (runInv_same ids ar); [|done..|done]. cbn. by apply map_insert_same.
Qed.
(** The parts of a write. *)
Lemma writeTarget_parts ids ar i p t out part :
  runInv ids ar → ar_targets ar !! i = Some t → ar_output ar !! i = Some out → ar_partial ar !! i = Some part →
  let ar' := writeTarget i p ar in let n := completeUTF8 (part ++ p) in
  map rt_SystemID (ar_targets ar') = map rt_SystemID (ar_targets ar)
  ∧ ar_output ar' = <[i := Write p out]> (ar_output ar) ∧ ar_partial ar' = <[i := drop n (part ++ p)]> (ar_partial ar)
  ∧ ar_subs ar' = match ar_subs ar with
                  | Some m => Some (if (0 <? n)%nat && (0 <? size m)%nat
                                    then offer runEventBuffer (outputEvent (rt_SystemID t) (take n (part ++ p))) <$> m else m)
                  | None => None
                  end
  ∧ ∃ pre, ring_of out (pre ++ part) ∧ ring_of (Write p out) ((pre ++ take n (part ++ p)) ++ drop n (part ++ p)).
Proof.
  intros [Hids Ho Hp Hs] Et Eo Ep. cbn zeta. unfold writeTarget. rewrite Et, Eo, Ep.
  set (n := completeUTF8 (part ++ p)).
  destruct (Hs i out part Eo Ep) as [pre Hr].
  assert (Hring : ∃ pre, ring_of out (pre ++ part) ∧ ring_of (Write p out) ((pre ++ take n (part ++ p)) ++ drop n (part ++ p))).
  { exists pre. split; [done|]. rewrite <-app_assoc, take_drop, app_assoc. by apply Write_ring. }
  assert (Hids' : map rt_SystemID (<[i := withTruncated (tb_dropped (Write p out)) t]> (ar_targets ar)) = map rt_SystemID (ar_targets ar))
    by by apply map_insert_same.
  destruct (ar_subs ar) as [m|] eqn:Em; [|rewrite andb_false_r; cbn; by split_and!].
  destruct ((0 <? n)%nat && (0 <? size m)%nat); cbn; rewrite ?Em; by split_and!.
Qed.
Lemma runInv_write ids ar i p : runInv ids ar → runInv ids (writeTarget i p ar).
Proof.
  intros Hi. destruct (ar_targets ar !! i) as [t|] eqn:Et; [|unfold writeTarget; by rewrite Et].
  destruct (ar_output ar !! i) as [out|] eqn:Eo; [|unfold writeTarget; by rewrite Et, Eo].
  destruct (ar_partial ar !! i) as [part|] eqn:Ep; [|unfold writeTarget; by rewrite Et, Eo, Ep].
  destruct (writeTarget_parts ids ar i p t out part Hi Et Eo Ep) as (Hids & Ho & Hp & _ & pre & _ & Hr).
  destruct Hi as [Hids0 Hlo Hlp Hs]. split; [by rewrite Hids|by rewrite Ho, length_insert|by rewrite Hp, length_insert|].
  intros j out' part'. rewrite Ho, Hp. destruct (decide (j = i)) as [->|Hne].
  - rewrite !list_lookup_insert_eq by (by eapply lookup_lt_Some). intros [= <-] [= <-]. eauto.
  - rewrite !list_lookup_insert_ne by done. by apply Hs.
Qed.
Lemma runInv_step ids ar ar' : runStep ar ar' → runInv ids ar → runInv ids ar'.
Proof.
  destruct 1; intros Hi; [by apply runInv_write|by apply runInv_update..|by apply (runInv_same ids ar)| |by apply (runInv_same ids ar)].
  cbn. destruct (ar_done ar); [done|]. by apply (runInv_same ids ar).
Qed.
Lemma runInv_steps ids ar ar' : rtc runStep ar ar' → runInv ids ar → runInv ids ar'.
Proof. induction 1 as [|x y z Hxy _ IH]; [done|]. intros Hi. eapply IH, runInv_step; eauto. Qed.

(** ** A viewer of a run

    From the subscription on: writes and status changes (the viewer's channel has room each
    time), events read by the viewer, other viewers coming and going. [evs] are the events it
    has read. *)
Definition queueOf (ch : nat) ar : option (list runEvent) :=
  match ar_subs ar with Some m => m !! ch | None => None end.
Definition keepsUp (ch : nat) ar : Prop := ∃ q, queueOf ch ar = Some q ∧ (length q < runEventBuffer)%nat.
Definition setQueue (ch : nat) (q : list runEvent) ar : activeRun :=
  mkActiveRun (ar_rec ar) (ar_canceled ar) (ar_targets ar) (ar_output ar) (ar_partial ar)
    (match ar_subs ar with Some m => Some (<[ch := q]> m) | None => None end) (ar_done ar).
Inductive watches (ch : nat) : list runEvent → activeRun → activeRun → Prop :=
| watch_none ar : watches ch [] ar ar
| watch_write evs ar ar' i p : watches ch evs ar ar' → keepsUp ch ar' → watches ch evs ar (writeTarget i p ar')
| watch_start evs ar ar' i now : watches ch evs ar ar' → keepsUp ch ar' → watches ch evs ar (updateTarget i (startTarget now) ar')
| watch_finish evs ar ar' i status msg code now : watches ch evs ar ar' → keepsUp ch ar' →
    watches ch evs ar (updateTarget i (finishTarget status msg code now) ar')
| watch_read evs ar ar' ev q : watches ch evs ar ar' → queueOf ch ar' = Some (ev :: q) →
    watches ch (evs ++ [ev]) ar (setQueue ch q ar')
| watch_others evs ar ar' ch' : watches ch evs ar ar' → ch' ≠ ch → watches ch evs ar (subscribeRun ch' ar').2
| watch_leave evs ar ar' ch' : watches ch evs ar ar' → ch' ≠ ch → watches ch evs ar (unsubscribeRun ch' ar').

(** The text an event adds to what the viewer shows for system [id]. *)
Definition dataOf (id : Z) (ev : runEvent) : string :=
  if String.eqb (re_name ev) "output" then
    match re_data ev with
    | JObj [(_, JInt x); (_, JStr s)] => if x =? id then s else ""
    | _ => ""
    end
  else "".
Definition textOf (id : Z) (evs : list runEvent) : string := foldr (λ ev s, dataOf id ev +:+ s) "" evs.
Lemma textOf_app id l k : textOf id (l ++ k) = textOf id l +:+ textOf id k.
Proof.
  unfold textOf. induction l as [|e l IH]; cbn; [done|]. rewrite IH. apply append_assoc.
Qed.
Lemma dataOf_output id x bs : dataOf id (outputEvent x bs) = if x =? id then stringOf bs else "".
Proof. done. Qed.

(** What a viewer who comes now is shown of target [i]. *)
Definition shownAt ar i : list Z :=
  shownOutput (default (newTail maxRunOutput) (ar_output ar !! i)) (default [] (ar_partial ar !! i)).
Lemma shown_ring out pre part : ring_of out (pre ++ part) → tb_dropped out = false → shownOutput out part = pre.
Proof.
  intros Hr Hd. pose proof (rg_dropped _ _ Hr) as Hdr. rewrite Hd in Hdr. symmetry in Hdr. bool_hyps.
  unfold shownOutput, Bytes. rewrite Hd, (rg_bytes _ _ Hr), lastN_all by lia. rewrite length_app, Nat.min_r by lia.
  apply take_app_length'. lia.
Qed.
Lemma ring_dropped_mono out h p : ring_of out h → tb_dropped (Write p out) = false → tb_dropped out = false.
Proof.
  intros Hr. destruct (Write_ring out h p Hr) as [Hr' Hm]. rewrite (rg_dropped _ _ Hr), (rg_dropped _ _ Hr'), Hm, length_app.
  intros Hlt. bool_hyps. apply Nat.ltb_ge. lia.
Qed.
Definition droppedAt ar i : bool := tb_dropped (default (newTail maxRunOutput) (ar_output ar !! i)).

(** The state of the viewer: read and queued events make up the difference between what was
    shown when it came and what is shown now. *)
Record viewInv (ids : list Z) (ch : nat) (evs : list runEvent) ar0 ar : Prop := {
  vi_run : runInv ids ar;
  vi_queue : ∃ q, queueOf ch ar = Some q ∧ ∀ i id, ids !! i = Some id → droppedAt ar i = false →
    stringOf (shownAt ar i) = stringOf (shownAt ar0 i) +:+ textOf id (evs ++ q);
}.
Lemma viewInv_sub ids ch ar m : runInv ids ar → ar_subs ar = Some m → ar_done ar = false →
  viewInv ids ch [] ar (subscribeRun ch ar).2.
Proof.
  intros Hi Hm Hd. cbn. rewrite Hd, Hm. split; [by apply (runInv_same ids ar)|].
  exists []. unfold queueOf. cbn. rewrite lookup_insert_eq. split; [done|]. intros i id _ _.
  change (shownAt _ i) with (shownAt ar i) at 1. by rewrite append_nil_r.
Qed.
Lemma queueOf_publish ch ev ar : queueOf ch (publishLocked ev ar) = offer runEventBuffer ev <$> queueOf ch ar.
Proof. unfold queueOf, publishLocked. cbn. destruct (ar_subs ar) as [m|]; [|done]. by rewrite lookup_fmap. Qed.
Lemma offer_room {A} cap (x : A) q : (length q < cap)%nat → offer cap x q = q ++ [x].
Proof. intros Hl. unfold offer. by rewrite (proj2 (Nat.ltb_lt _ _) Hl). Qed.
(** A status change adds no text. *)
Lemma viewInv_update ids ch evs ar0 ar i f :
  (∀ x, rt_SystemID (f x) = rt_SystemID x) → keepsUp ch ar → viewInv ids ch evs ar0 ar → viewInv ids ch evs ar0 (updateTarget i f ar).
Proof.
  intros Hf (q & Hq & Hl) [Hr (q' & Hq' & Ht)]. assert (q' = q) as -> by congruence. clear Hq'.
  split; [by apply runInv_update|]. unfold updateTarget. destruct (ar_targets ar !! i) as [t|]; [|by exists q].
  exists (q ++ [mkRunEvent "target" (targetJSON (withOutput "" (f t)))]). rewrite queueOf_publish.
  change (queueOf ch (with_targets _ ar)) with (queueOf ch ar). rewrite Hq. cbn [fmap option_fmap option_map].
  rewrite offer_room by done. split; [done|]. intros j id Hj Hd. change (shownAt _ j) with (shownAt ar j) at 1.
  rewrite (Ht j id Hj Hd), app_assoc, !textOf_app. cbn. rewrite append_nil_r. done.
Qed.
Lemma viewInv_write ids ch evs ar0 ar i p :
  NoDup ids → keepsUp ch ar → viewInv ids ch evs ar0 ar → viewInv ids ch evs ar0 (writeTarget i p ar).
Proof.
  intros Hnd (q & Hq & Hl) [Hr (q' & Hq' & Ht)]. assert (q' = q) as -> by congruence. clear Hq'.
  split; [by apply runInv_write|].
  destruct (ar_targets ar !! i) as [t|] eqn:Et; [|unfold writeTarget; rewrite Et; by exists q].
  destruct (ar_output ar !! i) as [out|] eqn:Eo; [|unfold writeTarget; rewrite Et, Eo; by exists q].
  destruct (ar_partial ar !! i) as [part|] eqn:Ep; [|unfold writeTarget; rewrite Et, Eo, Ep; by exists q].
  destruct (writeTarget_parts ids ar i p t out part Hr Et Eo Ep) as (_ & Ho & Hp & Hs & pre & Hring & Hring').
  set (n := completeUTF8 (part ++ p)) in *. set (ar' := writeTarget i p ar) in *.
  exists (if (0 <? n)%nat then q ++ [outputEvent (rt_SystemID t) (take n (part ++ p))] else q). split.
  - unfold queueOf in *. rewrite Hs. destruct (ar_subs ar) as [m|]; [|done].
    assert ((0 <? size m)%nat = true) as ->.
    { apply Nat.ltb_lt. destruct (size m) eqn:E; [|lia]. apply map_size_empty_iff in E as ->. by rewrite lookup_empty in Hq. }
    rewrite andb_true_r. destruct (0 <? n)%nat; [|done]. rewrite lookup_fmap, Hq. cbn. by rewrite offer_room.
  - intros j id Hj Hd. unfold droppedAt, shownAt in Hd |- *. rewrite Ho in Hd. rewrite Ho, Hp.
    assert (Hid : map rt_SystemID (ar_targets ar) !! i = Some (rt_SystemID t)) by (change (map ?g ?x) with (g <$> x); by rewrite list_lookup_fmap, Et).
    rewrite (ri_ids _ _ Hr) in Hid. destruct (decide (j = i)) as [->|Hne].
    + rewrite !list_lookup_insert_eq in * by (by eapply lookup_lt_Some). cbn [default Datatypes.id] in *.
      rewrite (shown_ring _ _ _ Hring' Hd), stringOf_app. assert (id = rt_SystemID t) as -> by congruence.
      pose proof (ring_dropped_mono _ _ _ Hring Hd) as Hd0. specialize (Ht i _ Hj). unfold shownAt, droppedAt in Ht.
      rewrite Eo, Ep in Ht. cbn [default Datatypes.id] in Ht. specialize (Ht Hd0). rewrite (shown_ring _ _ _ Hring Hd0) in Ht. rewrite Ht.
      destruct (0 <? n)%nat eqn:En; bool_hyps.
      * rewrite app_assoc, (textOf_app _ (evs ++ q)). unfold textOf at 3. cbn [foldr]. rewrite dataOf_output, Z.eqb_refl, append_nil_r.
        by rewrite append_assoc.
      * assert (n = 0%nat) as -> by lia. cbn. by rewrite append_nil_r.
    + rewrite !list_lookup_insert_ne in * by done. specialize (Ht j id Hj Hd). unfold shownAt in Ht. rewrite Ht. f_equal.
      destruct (0 <? n)%nat; [|done]. rewrite app_assoc, (textOf_app _ (evs ++ q)). unfold textOf at 3. cbn [foldr]. rewrite dataOf_output.
      destruct (Z.eqb_spec (rt_SystemID t) id) as [He|_]; [|by rewrite !append_nil_r].
      exfalso. apply Hne. eapply NoDup_lookup; [exact Hnd|exact Hj|]. by rewrite Hid, He.
Qed.
Lemma viewInv_read ids ch evs ar0 ar ev q :
  queueOf ch ar = Some (ev :: q) → viewInv ids ch evs ar0 ar → viewInv ids ch (evs ++ [ev]) ar0 (setQueue ch q ar).
Proof.
  intros Hq [Hr (q' & Hq' & Ht)]. assert (q' = ev :: q) as -> by congruence.
  split; [by apply (runInv_same ids ar)|]. exists q. unfold queueOf in *. cbn. destruct (ar_subs ar) as [m|]; [|done].
  rewrite lookup_insert_eq. split; [done|]. intros j id Hj Hd. rewrite <-app_assoc. by apply Ht.
Qed.
Lemma viewInv_others ids ch evs ar0 ar ar' :
  queueOf ch ar' = queueOf ch ar → ar_targets ar' = ar_targets ar → ar_output ar' = ar_output ar → ar_partial ar' = ar_partial ar →
  viewInv ids ch evs ar0 ar → viewInv ids ch evs ar0 ar'.
Proof.
  intros Hq Ht Ho Hp [Hr (q & Hq' & Hv)]. split; [apply (runInv_same ids ar); by rewrite ?Ht|]. exists q. rewrite Hq.
  unfold shownAt, droppedAt in *. rewrite Ho, Hp. by split.
Qed.
Lemma watches_view ids ch evs ar0 ar1 ar :
  NoDup ids → watches ch evs ar1 ar → viewInv ids ch [] ar0 ar1 → viewInv ids ch evs ar0 ar.
Proof.
  intros Hnd Hw Hv. induction Hw; auto using viewInv_write, viewInv_read.
  - by apply viewInv_update; auto.
  - by apply viewInv_update; auto.
  - apply (viewInv_others ids ch evs ar0 ar'); auto. all: cbn; destruct (ar_done ar'); try done.
    unfold queueOf. cbn. destruct (ar_subs ar'); [|done]. by rewrite lookup_insert_ne.
  - apply (viewInv_others ids ch evs ar0 ar'); auto.
    unfold queueOf. cbn. destruct (ar_subs ar'); [|done]. by rewrite lookup_delete_ne.
Qed.
Lemma running_step ar ar' : runStep ar ar' → ar_done ar = false ∧ is_Some (ar_subs ar) → ar_done ar' = false ∧ is_Some (ar_subs ar').
Proof.
  destruct 1; cbn; intros [Hd [m Hm]].
  - unfold writeTarget. repeat (case_match; try by eauto). all: cbn in *; rewrite ?Hm in *; eauto.
  - unfold updateTarget. case_match; cbn; rewrite ?Hm; eauto.
  - unfold updateTarget. case_match; cbn; rewrite ?Hm; eauto.
  - eauto.
  - rewrite Hd. cbn. rewrite Hm. eauto.
  - rewrite Hm. eauto.
Qed.
Lemma running_steps ar ar' : rtc runStep ar ar' → ar_done ar = false ∧ is_Some (ar_subs ar) → ar_done ar' = false ∧ is_Some (ar_subs ar').
Proof. induction 1 as [|x y z Hxy _ IH]; [done|]. intros Hi. eapply IH, running_step; eauto. Qed.
Lemma snapshot_output ar i t : (snapshotLocked ar).2 !! i = Some t → rt_Output t = stringOf (shownAt ar i).
Proof. cbn. rewrite list_lookup_imap. destruct (ar_targets ar !! i); [|done]. by intros [= <-]. Qed.
Lemma snapshot_id ar i t : (snapshotLocked ar).2 !! i = Some t → map rt_SystemID (ar_targets ar) !! i = Some (rt_SystemID t).
Proof.
  cbn. rewrite list_lookup_imap. change (map ?g ?x) with (g <$> x). rewrite list_lookup_fmap.
  destruct (ar_targets ar !! i); [|done]. by intros [= <-].
Qed.

(** C19. Live output is neither missed nor shown twice. Take a run at any moment, a viewer who comes
    then and whose channel has room for every event (a viewer too slow for its 256 events
    misses some), and any later moment: the output it was shown first, followed by the output of the events
    it has read and of those still in its channel, is exactly what a viewer who comes at the
    later moment is shown, however the output is split into chunks and characters, as long as
    no output of that system was dropped (128 KiB). *)
Theorem live_view_exact (rec : ScriptRun) (targets : list runTarget) (ch : nat) (ar0 ar : activeRun) (evs q : list runEvent)
    (i : nat) (t t' : runTarget)
    (Hids : NoDup (map rt_SystemID targets)) (Hrun : rtc runStep (newActiveRun rec targets) ar0)
    (Hw : watches ch evs (subscribeRun ch ar0).2 ar) (Hq : queueOf ch ar = Some q)
    (Hbefore : (subscribeRun ch ar0).1.2 !! i = Some t) (Hnow : (snapshotLocked ar).2 !! i = Some t')
    (Hkept : droppedAt ar i = false) :
  rt_Output t' = rt_Output t +:+ textOf (rt_SystemID t) (evs ++ q).
Proof.
  pose proof (runInv_steps _ _ _ Hrun (runInv_new rec targets)) as Hi.
  destruct (running_steps _ _ Hrun) as [Hd [m Hm]]; [by cbn; eauto|].
  destruct (watches_view _ ch evs ar0 _ ar Hids Hw (viewInv_sub _ ch ar0 m Hi Hm Hd)) as [Hr (q' & Hq' & Hv)].
  assert (q' = q) as -> by congruence. cbn [subscribeRun fst] in Hbefore.
  rewrite (snapshot_output _ _ _ Hnow), (snapshot_output _ _ _ Hbefore). apply Hv; [|done].
  apply snapshot_id in Hbefore. by rewrite (ri_ids _ _ Hi) in Hbefore.
Qed.

(** *** Witness: "h\xc3" is there when the viewer comes, "\xa9!" arrives later *)
Definition demoTarget : runTarget := mkRunTarget 1 "pi" "running" None "" "" false 1 0.
Definition demoRunRec : ScriptRun := mkScriptRun 1 None "Command" "sh" "echo" 60 "ada" 0 None "".
Lemma live_view_exact_witness :
  let ar0 := writeTarget 0 [104; 195] (newActiveRun demoRunRec [demoTarget]) in
  let ar := writeTarget 0 [169; 33] (subscribeRun 7 ar0).2 in
  ∃ t t', (snapshotLocked ar0).2 !! 0%nat = Some t ∧ (snapshotLocked ar).2 !! 0%nat = Some t'
  ∧ rt_Output t' = rt_Output t +:+ textOf (rt_SystemID t) [outputEvent 1 [195; 169; 33]].
Proof.
  intros ar0 ar. destruct ((snapshotLocked ar0).2 !! 0%nat) as [t|] eqn:Ht; [|done].
  destruct ((snapshotLocked ar).2 !! 0%nat) as [t'|] eqn:Ht'; [|done]. exists t, t'. do 2 (split; [done|]).
  refine (live_view_exact demoRunRec [demoTarget] 7 ar0 ar [] _ 0 t t' _ _ _ _ Ht Ht' _).
  - repeat constructor. by intros ?%not_elem_of_nil.
  - apply rtc_once. constructor.
  - apply watch_write; [constructor|]. exists []. split; [reflexivity|]. vm_compute. lia.
  - reflexivity.
  - unfold ar, ar0, droppedAt. reflexivity.
Defined.

(** ** Results *)
Section results.
Context `{Lib} `{Marshal}.
Context (targetsSummary : string → string) (durationString : Z → string).
Implicit Types (h : hub).
Abbreviation tables h := (m_db (h_m h)).

(** The run is over on this system: "done" means exit status 0, any other status "failed". *)
Definition settled t : Prop :=
  (rt_Status t = "done" ∧ rt_ExitCode t = Some 0)
  ∨ (rt_Status t = "failed" ∧ rt_ExitCode t ≠ Some 0)
  ∨ ((rt_Status t = "skipped" ∨ rt_Status t = "canceled") ∧ rt_ExitCode t = None).
(** The run [run] is in memory with [n] targets, those of [S] settled. *)
Definition settledOn (run : Z) (n : nat) (S : nat → Prop) h : Prop :=
  ∃ ar, h_runs h !! run = Some ar ∧ length (ar_targets ar) = n
    ∧ ∀ i t, S i → ar_targets ar !! i = Some t → settled t.
Lemma settledOn_sub run n (S S' : nat → Prop) h : (∀ i, S' i → S i) → settledOn run n S h → settledOn run n S' h.
Proof. intros HS (ar & ? & ? & Ht). exists ar. split_and!; [done..|]. eauto. Qed.
(** Changes of the run that settle target [i], or leave the settled ones so. *)
Definition keepsSettled (i : nat) (f : activeRun → activeRun) : Prop :=
  ∀ ar, length (ar_targets (f ar)) = length (ar_targets ar)
    ∧ ∀ j t, j ≠ i → ar_targets (f ar) !! j = Some t → ∃ t0, ar_targets ar !! j = Some t0 ∧ (settled t0 → settled t).
Lemma update_targets i f ar :
  ar_targets (updateTarget i f ar) = match ar_targets ar !! i with Some t => <[i := f t]> (ar_targets ar) | None => ar_targets ar end.
Proof. unfold updateTarget. by destruct (ar_targets ar !! i). Qed.
Lemma keepsSettled_update i f : keepsSettled i (updateTarget i f).
Proof.
  intros ar. rewrite update_targets. destruct (ar_targets ar !! i) as [ti|] eqn:E; [rewrite length_insert|]; (split; [done|]);
    intros j t Hne; [rewrite list_lookup_insert_ne by done|]; eauto.
Qed.
Lemma keepsSettled_write i p : keepsSettled i (writeTarget i p).
Proof.
  intros ar. unfold writeTarget. destruct (ar_targets ar !! i) as [t0|]; [|eauto]. destruct (ar_output ar !! i) as [out|]; [|eauto].
  destruct (ar_partial ar !! i); [|eauto]. destruct (_ && _); cbn; rewrite length_insert; (split; [done|]);
    intros j tj Hne; rewrite list_lookup_insert_ne by done; eauto.
Qed.
Lemma wp_onRun run i f n S h (Q : unit → hub → Prop) :
  keepsSettled i f → settledOn run n S h →
  (∀ h', h_m h' = h_m h → settledOn run n (λ j, S j ∧ j ≠ i) h' → Q tt h') → wp (onRun run f) Q h.
Proof.
  intros Hf (ar & Hr & Hn & Hs) HQ. apply wp_modify, HQ; [done|]. exists (f ar). cbn. rewrite lookup_alter_eq, Hr.
  destruct (Hf ar) as [Hlen Hj]. split_and!; [done|congruence|]. intros j t [HS Hne] Ht.
  destruct (Hj j t Hne Ht) as (t0 & Ht0 & Himp). eauto.
Qed.
Lemma finish_settles run i status msg code n S h :
  (∀ now t, settled (finishTarget status msg code now t)) → settledOn run n (λ j, S j ∧ j ≠ i) h →
  wp (finish run i status msg code) (λ _ h', settledOn run n (λ j, S j ∨ j = i) h') h.
Proof.
  intros Hset (ar & Hr & Hn & Hs). unfold finish. apply wp_bind, wp_db, wp_timeNow. intros m Hm. apply wp_modify.
  eexists. cbn [h_runs with_runs with_m]. rewrite lookup_alter_eq, Hr. split; [done|].
  rewrite update_targets. destruct (ar_targets ar !! i) as [ti|] eqn:Ei.
  - rewrite length_insert. split; [done|]. intros j t HS. destruct (decide (j = i)) as [->|Hne].
    + rewrite list_lookup_insert_eq by (by eapply lookup_lt_Some). intros [= <-]. apply Hset.
    + rewrite list_lookup_insert_ne by done. apply Hs. naive_solver.
  - split; [done|]. intros j t HS Ht. destruct (decide (j = i)) as [->|Hne]; [congruence|]. apply (Hs j); [naive_solver|done].
Qed.
Lemma settled_finish status msg code :
  (status = "done" ∧ code = Some 0) ∨ (status = "failed" ∧ code ≠ Some 0) ∨ ((status = "skipped" ∨ status = "canceled") ∧ code = None) →
  ∀ now t, settled (finishTarget status msg code now t).
Proof. intros Hc now t. exact Hc. Qed.
Lemma writeChunks_keeps run i chunks n S h (Q : unit → hub → Prop) :
  settledOn run n (λ j, S j ∧ j ≠ i) h → (∀ h', settledOn run n (λ j, S j ∧ j ≠ i) h' → Q tt h') → wp (writeChunks run i chunks) Q h.
Proof.
  revert h. induction chunks as [|p chunks IH]; intros h Hs HQ; cbn [writeChunks]; [by apply wp_ret, HQ|]. apply wp_bind.
  destruct p as [|b p]; [by apply wp_ret, IH|]. eapply wp_onRun; [apply keepsSettled_write|exact Hs|].
  intros h' _ Hs'. apply IH; [|done]. eapply settledOn_sub; [|exact Hs']. tauto.
Qed.
Lemma runOn_settles run i outcome n S h :
  settledOn run n S h → (i < n)%nat → wp (runOn run i outcome) (λ _ h', settledOn run n (λ j, S j ∨ j = i) h') h.
Proof.
  intros Hs Hi. unfold runOn. apply wp_bind, wp_get. pose proof Hs as (ar & Hr & Hn & Hset). rewrite Hr.
  assert (Hs' : settledOn run n (λ j, S j ∧ j ≠ i) h) by (eapply settledOn_sub; [|exact Hs]; tauto).
  destruct (ar_canceled ar); [apply finish_settles; [apply settled_finish; tauto|done]|].
  destruct (ar_targets ar !! i) as [t|] eqn:Et; [|apply lookup_ge_None in Et; lia].
  destruct (h_agents h !! _) as [ac|]; [|apply finish_settles; [apply settled_finish; tauto|done]].
  destruct (negb (has ac FeatureShell)); [apply finish_settles; [apply settled_finish; tauto|done]|].
  destruct (negb (shellRunsOn _ _)); [apply finish_settles; [apply settled_finish; tauto|done]|].
  destruct outcome as [err| |chunks how]; [|apply wp_bind, wp_modify|]; [apply finish_settles; [apply settled_finish; right; left; done|done]..|].
  apply wp_bind, wp_modify, wp_bind, wp_db, wp_timeNow. intros m Hm. apply wp_bind.
  eapply (wp_onRun _ i _ n S); [apply keepsSettled_update|by exists ar|]. intros h1 _ Hs1.
  apply wp_bind. eapply writeChunks_keeps; [exact Hs1|]. intros h2 Hs2.
  destruct how as [code| | |]; apply finish_settles; try done; apply settled_finish; [|tauto|by right; left..].
  destruct (Z.eqb_spec code 0) as [->|Hc]; [by left|right; left; split; [done|congruence]].
Qed.
Lemma runAll_settles run order outcome n S h :
  settledOn run n S h → Forall (λ i, i < n)%nat order →
  wp (runAll run order outcome) (λ _ h', settledOn run n (λ j, S j ∨ j ∈ order) h') h.
Proof.
  revert S h. induction order as [|i order IH]; intros S h Hs Ho; cbn [runAll].
  - apply wp_ret. eapply settledOn_sub; [|exact Hs]. intros j [?|?%not_elem_of_nil]; done.
  - apply Forall_cons in Ho as [Hi Ho]. apply wp_bind. eapply (wp_mono _ _ _ _ (runOn_settles _ _ _ n S _ Hs Hi)). intros _ h1 Hs1.
    eapply (wp_mono _ _ _ _ (IH _ _ Hs1 Ho)). intros _ h2 Hs2. eapply settledOn_sub; [|exact Hs2]. cbn beta. intros j. rewrite elem_of_cons. tauto.
Qed.

(** Storing the results and closing the run leave the targets alone. *)
Definition runsKept h h' : Prop := h_runs h' = h_runs h ∧ (noFaults (h_m h) → noFaults (h_m h')).
#[local] Instance runsKept_preorder : PreOrder runsKept.
Proof. split; unfold runsKept; [done|]. intros h1 h2 h3 [? ?] [? ?]. split; [congruence|auto]. Qed.
Definition rowsKept h h' : Prop := script_runs (tables h') = script_runs (tables h).
#[local] Instance rowsKept_preorder : PreOrder rowsKept.
Proof. split; unfold rowsKept; [done|]. intros h1 h2 h3 ? ?. congruence. Qed.
Lemma steps_audits rec remote l : steps (both runsKept rowsKept) (auditTargets durationString rec remote l).
Proof.
  induction l as [|t l IH]; cbn [auditTargets]; [go_steps|]. apply steps_bind; [apply _| |intros _; exact IH].
  intros h. unfold both, runsKept, rowsKept, db, AddAudit.
  destruct (h_m h) as [[] [now ks fs rs]]. unfold noFaults. cbn. destruct ks as [|k ks], fs as [|[] fs]; cbn; done.
Qed.

Definition nfKept h h' : Prop := noFaults (h_m h) → noFaults (h_m h').
#[local] Instance nfKept_preorder : PreOrder nfKept.
Proof. split; unfold nfKept; [by intros h|]. intros h1 h2 h3 ? ?. auto. Qed.
Lemma steps_timeNow_hub : steps nfKept (db timeNow).
Proof. intros h. unfold nfKept, db. pose proof (steps_timeNow_nf (h_m h)) as Hn. by destruct (timeNow (h_m h)). Qed.
Lemma steps_onRun_nf run f : steps nfKept (onRun run f).
Proof. intros h Hn. exact Hn. Qed.
Hint Resolve steps_timeNow_hub steps_onRun_nf : steps.
Lemma steps_runAll_nf run order outcome : steps nfKept (runAll run order outcome).
Proof.
  induction order as [|i order IH]; cbn [runAll]; [go_steps|]. apply steps_bind; [apply _| |intros _; exact IH].
  unfold runOn, finish. go_steps. 1,2: by intros h Hn.
  induction chunks as [|p chunks IHc]; cbn [writeChunks]; go_steps.
Qed.

(** The viewers of a run stay the same ones. *)
Definition viewersOf (run : Z) h : option (option (gset nat)) := (λ ar, dom <$> ar_subs ar) <$> h_runs h !! run.
Lemma publishLocked_viewers ev ar : dom <$> ar_subs (publishLocked ev ar) = (dom <$> ar_subs ar : option (gset nat)).
Proof. unfold publishLocked. cbn. destruct (ar_subs ar); [|done]. cbn. by rewrite dom_fmap_L. Qed.
Lemma steps_onRun_viewers run f : (∀ ar, dom <$> ar_subs (f ar) = (dom <$> ar_subs ar : option (gset nat))) →
  steps (frames (viewersOf run)) (onRun run f).
Proof.
  intros Hf h. unfold frames, viewersOf, onRun, mmodify. cbn. rewrite lookup_alter_eq. destruct (h_runs h !! run); [|done]. cbn. by rewrite Hf.
Qed.
Lemma steps_update_viewers run i f : steps (frames (viewersOf run)) (onRun run (updateTarget i f)).
Proof.
  apply steps_onRun_viewers. intros ar. unfold updateTarget. destruct (ar_targets ar !! i); [|done]. by rewrite publishLocked_viewers.
Qed.
Lemma steps_write_viewers run i p : steps (frames (viewersOf run)) (onRun run (writeTarget i p)).
Proof.
  apply steps_onRun_viewers. intros ar. unfold writeTarget. repeat case_match; rewrite ?publishLocked_viewers; done.
Qed.
Lemma steps_timeNow_viewers run : steps (frames (viewersOf run)) (db timeNow).
Proof. intros h. unfold frames, db. by destruct (timeNow (h_m h)). Qed.
Lemma steps_emit_viewers run e : steps (frames (viewersOf run)) (emit e).
Proof. by intros h. Qed.
#[local] Hint Resolve steps_update_viewers steps_write_viewers steps_timeNow_viewers steps_emit_viewers : steps.
Lemma steps_runAll_viewers run order outcome : steps (frames (viewersOf run)) (runAll run order outcome).
Proof.
  induction order as [|i order IH]; cbn [runAll]; [go_steps|]. apply steps_bind; [apply _| |intros _; exact IH].
  unfold runOn, finish. go_steps.
  induction chunks as [|p chunks IHc]; cbn [writeChunks]; go_steps.
Qed.
(** An offered event is the last one in a channel that is not full. *)
Lemma offer_last n (ev : runEvent) q : (length (offer n ev q) < n)%nat → last (offer n ev q) = Some ev.
Proof. unfold offer. destruct (Nat.ltb_spec (length q) n); [intros _; apply last_snoc|lia]. Qed.

(** C20. A run ends everywhere and is recorded. Whatever happens on the systems, in whatever order
    they are served and whichever statements of the database fail, when [execute] is through every target is settled: done
    with exit status 0, failed, skipped or canceled, none pending or running. The run in memory is marked done, and the
    channel of everyone who was watching is closed, with the event "done" as the last thing in it unless
    the viewer is so slow that the channel is full. The stored run, if no statement fails, is finished and
    holds exactly these results. *)
Theorem execute_completes (run : Z) (remote : string) (order : list nat) (outcome : nat → runOutcome)
    (ar : activeRun) (h : hub)
    (Hrun : h_runs h !! run = Some ar) (Horder : order ≡ₚ seq 0 (length (ar_targets ar))) :
  let '(channels, h') := execute targetsSummary durationString run remote order outcome h in
  ∃ ar' finished, h_runs h' !! run = Some ar' ∧ ar_done ar' = true ∧ ar_subs ar' = None
    ∧ length (ar_targets ar') = length (ar_targets ar) ∧ Forall settled (ar_targets ar')
    ∧ sn_FinishedAt (ar_rec ar') = Some finished
    ∧ dom channels = dom (default ∅ (ar_subs ar))
    ∧ (∀ ch q, channels !! ch = Some q → (length q < 256)%nat → last q = Some (doneEvent finished))
    ∧ (noFaults (h_m h) → ∀ row, row ∈ script_runs (tables h') → rr_ID row = run →
        sn_FinishedAt (rr_run row) = Some finished
        ∧ sn_Targets (rr_run row) = marshal (JArr (map targetJSON (snapshotLocked ar').2))).
Proof.
  apply wp_let. unfold execute. apply wp_bind.
  assert (Hs0 : settledOn run (length (ar_targets ar)) (λ _, False) h) by (exists ar; by split_and!).
  assert (Hlt : Forall (λ i, i < length (ar_targets ar))%nat order).
  { rewrite Horder. apply Forall_forall. intros i Hi%elem_of_seq. lia. }
  eapply wp_mono; [apply wp_and; [exact (runAll_settles run order outcome _ _ h Hs0 Hlt)|apply wp_and;
    [exact (wp_steps nfKept _ (λ _ h', nfKept h h') h (steps_runAll_nf run order outcome) (λ _ _ x, x))|
     exact (wp_steps (frames (viewersOf run)) _ (λ _ h', frames (viewersOf run) h h') h (steps_runAll_viewers run order outcome) (λ _ _ x, x))]]|].
  intros _ h1 ((ar1 & Hr1 & Hn1 & Hset) & Hnf1 & Hview).
  apply wp_bind, wp_db, wp_timeNow_nf. intros m2 Hm2 Hn2. apply wp_bind, wp_get. cbn [h_runs with_m]. rewrite Hr1.
  destruct (snapshotLocked ar1) as [rec ts] eqn:Esnap. apply wp_bind.
  set (stored := λ m, noFaults (h_m h) → ∀ row, row ∈ script_runs (m_db m) → rr_ID row = run →
        sn_FinishedAt (rr_run row) = Some (unix (clock m2)) ∧ sn_Targets (rr_run row) = marshal (JArr (map targetJSON ts))).
  assert (Hfin : wp (db (FinishRun targetsSummary run (unix (clock m2)) (marshal (JArr (map targetJSON ts)))))
            (λ _ h', h_runs h' = h_runs h1 ∧ stored (h_m h')) (with_m m2 h1)).
  { unfold FinishRun. apply wp_db, wp_sql_cases; intros m3 Hm3 Hn3; (split; [done|]); intros Hnf; [|exfalso; apply Hn3; auto].
    intros row. cbn [h_m with_m] in *. rewrite Hm3. cbn [snd fst].
    assert (∀ l d, script_runs (set_script_runs l d) = l) as -> by by intros ? [].
    intros (row0 & Hin & ->)%elem_of_updateWhere. by destruct (Z.eqb_spec (rr_ID row0) run) as [_|Hne]. }
  eapply wp_mono; [exact Hfin|]. intros _ h3 [Hr3 Hst]. clear Hfin.
  apply wp_bind. eapply wp_steps; [apply steps_audits|]. intros _ h4 [[Hr4 _] Hrows].
  apply wp_bind, wp_get. rewrite Hr4, Hr3, Hr1. cbn [closeRun]. apply wp_bind, wp_modify, wp_ret.
  eexists _, (unix (clock m2)). cbn [h_runs with_runs]. rewrite lookup_insert_eq. split; [done|].
  split_and!; [done|done|done| |done| | |].
  - apply Forall_lookup. intros i t Ht. apply (Hset i); [|done]. right. rewrite Horder, elem_of_seq.
    apply lookup_lt_Some in Ht. cbn in Ht. lia.
  - unfold frames, viewersOf in Hview. rewrite Hrun, Hr1 in Hview. cbn in Hview. cbn. destruct (ar_subs ar1), (ar_subs ar); simplify_eq/=; [|done].
    by rewrite dom_fmap_L.
  - cbn. destruct (ar_subs ar1) as [m|]; cbn; [|intros ch q; by rewrite lookup_empty]. intros ch q. rewrite lookup_fmap.
    destruct (m !! ch) as [q0|]; [|done]. intros [= <-]. apply offer_last.
  - intros Hnf row Hin Hid. unfold rowsKept in Hrows. cbn [h_m with_runs] in Hin. rewrite Hrows in Hin.
    destruct (Hst Hnf row Hin Hid) as [E1 E2]. split; [done|]. rewrite E2. do 3 f_equal. exact (eq_sym (f_equal snd Esnap)).
Qed.
End results.

(** *** Witness: a run on one system whose agent reports exit status 0 *)
Definition demoRunHub : hub :=
  with_runs {[1 := newActiveRun demoRunRec [demoTarget]]}
    (with_agents {[1 := mkAgentConn 0 1 "pi" "@" demoInfo [FeatureShell]]} demoConnected).
Lemma execute_completes_witness :
  let '(_, h') := @execute demoLib demoMarsh (λ s, s) (λ _, "") 1 "@" [0%nat] (λ _, Ran [] (EndExit 0)) demoRunHub in
  ∃ ar', h_runs h' !! 1 = Some ar' ∧ Forall settled (ar_targets ar').
Proof.
  pose proof (@execute_completes demoLib demoMarsh (λ s, s) (λ _, "") 1 "@" [0%nat] (λ _, Ran [] (EndExit 0))
    (newActiveRun demoRunRec [demoTarget]) demoRunHub eq_refl (reflexivity _)) as He.
  destruct (execute _ _ _ _ _ _ _) as [u h']. destruct He as (ar' & fin & Hr & _ & _ & _ & Hs & _). by exists ar'.
Defined.

(** The bytes held back from viewers are left out of the stored result too, where no chunk
    follows: a run whose output ends within a character loses its end. *)
Definition cutOutput : activeRun := writeTarget 0 [104; 195] (newActiveRun demoRunRec [demoTarget]).
(** Finding: two bytes were written and none dropped, the result has one. *)
Theorem final_bytes_left_out :
  (ringBytes <$> ar_output cutOutput !! 0%nat) = Some [104; 195]
  ∧ map (λ t, (rt_Output t, rt_Truncated t)) (snapshotLocked cutOutput).2 = [("h", false)].
Proof. split; reflexivity. Qed.
