(* ===== verification/Maintenance.v ===== *)
(** * The hub as a whole: start, periodic work, report intervals ([internal/hub/hub.go],
    [broker.go], [agentupdate.go]) *)
From Stdlib Require Import ZArith Lia Ascii String.
From S2P Require Import Prelude GoStrings Float64 Library Store StoreTables StoreInv StoreSteps Metrics Limiter TailBuffer Update Webauthn Protocol Hub Auth AuthProps Alerts AlertProps AlertApi State Gateway Systems Links Runs.
From stdpp Require Import base gmap strings list relations.
Local Open Scope string_scope.
Local Open Scope list_scope.
Local Open Scope Z_scope.
Local Open Scope lotse_scope.

Section maintenance.
Context `{Lib} `{Marshal} `{!Unmarshal (list runTarget)}.
Context (sqlAvg sqlMax : list f64 → f64) (targetsSummary : string → string).
Context (formatPct formatNum : f64 → string).

(** Every manifest file of the agent directory: its name without the directory, what it
    holds, and whether the binary it describes is there. *)
Definition ManifestExt : string := ".sig".
Definition loadUpdates (files : list (string * option Manifest * bool)) : gmap string Manifest :=
  fold_left (λ acc f, let '(base, m, binary) := f in
    match m with
    | Some m => if match Verify m with Ok _ => true | Err _ => false end
                   && String.eqb (mf_File m +:+ ManifestExt) base && (binary : bool)
                then <[mf_File m := m]> acc else acc
    | None => acc
    end) files ∅.
(** [New]: the hub with its stored alerts, interrupted runs closed; [None] is an error. *)
Definition startHub (cfg : Config) (files : list (string * option Manifest * bool)) (m : mach) : option hub :=
  let h0 := newHub cfg (loadUpdates files) m in
  let '(r1, h1) := loadAlerts h0 in
  match r1 with
  | Err _ => None
  | Ok _ => let '(r2, h2) := finishInterruptedRuns targetsSummary h1 in
            match r2 with Err _ => None | Ok _ => Some h2 end
  end.

Definition rollup (window : Z) : M hub unit :=
  now ← db timeNow;
  _ ← db (Rollup sqlAvg sqlMax Res10 window now);
  _ ← db (Rollup sqlAvg sqlMax Res60 window now);
  mret tt.
Definition prune : M hub unit :=
  t1 ← db timeNow; _ ← db (PruneMetrics t1);
  _ ← db DeleteExpired;
  t2 ← db timeNow; _ ← db (PruneAudit t2);
  t3 ← db timeNow; _ ← db (PruneAlerts t3);
  t4 ← db timeNow; _ ← db (PruneRuns t4);
  mret tt.
(** [maintenance]: what it does at once, and at each of its tickers. *)
Inductive tick : Type := FlushTick | OfflineTick (now : Z) | RollupTick | PruneTick.
Definition maintenanceStart : M hub unit := rollup (hours 48);; prune.
Definition maintenanceTick (order : gmap Z sysState → list Z) (t : tick) : M hub unit :=
  match t with
  | FlushTick => flush order false
  | OfflineTick now => evaluateOffline formatPct formatNum now
  | RollupTick => rollup (hours 2)
  | PruneTick => prune
  end.
End maintenance.

(** ** Report intervals *)
Section pace.
Context `{Lib} `{Marshal}.
Implicit Types (h : hub) (g : gmap nat Z).

(** What the agents know: the interval each connection was told last. *)
Definition hear (e : effect) g : gmap nat Z :=
  match e with
  | ESend c name (JObj [(_, JInt n)]) => if String.eqb name ReqInterval then <[c := n]> g else g
  | _ => g
  end.
Definition hearAll (l : list effect) g : gmap nat Z := fold_left (λ g e, hear e g) l g.

(** Steps of the hub as far as intervals go. A connection is told its interval in the answer to
    its first message. Anything else neither changes the mode nor the viewers, may only lose
    links, and sends no intervals. *)
Inductive paceStep : gmap nat Z * hub → gmap nat Z * hub → Prop :=
| pace_connect g h h' ac n : register ac h = (n, h') → paceStep (g, h) (<[ac_conn ac := n]> g, h')
| pace_subscribe g h h' ch l : subscribe ch h = (tt, h') → h_trace h' = h_trace h ++ l → paceStep (g, h) (hearAll l g, h')
| pace_unsubscribe g h h' ch l : unsubscribe ch h = (tt, h') → h_trace h' = h_trace h ++ l → paceStep (g, h) (hearAll l g, h')
| pace_idle g h h' l : idleExpired h = (tt, h') → h_trace h' = h_trace h ++ l → paceStep (g, h) (hearAll l g, h')
| pace_other g h h' : h_live h' = h_live h → dom (h_subs h') = dom (h_subs h) → h_idleTimer h' = h_idleTimer h →
    (∀ id ac, h_agents h' !! id = Some ac → ∃ ac0, h_agents h !! id = Some ac0 ∧ ac_conn ac0 = ac_conn ac) →
    paceStep (g, h) (g, h').
Record paceInv g h : Prop := {
  pi_told : ∀ id ac, h_agents h !! id = Some ac → g !! ac_conn ac = Some (intervalLocked h);
  pi_live : h_subs h ≠ ∅ → h_live h = true;
  pi_idle : h_subs h = ∅ → h_live h = true → h_idleTimer h = true;
}.
(** Steps that do not touch what intervals depend on. *)
Definition paceKept h h' : Prop :=
  h_agents h' = h_agents h ∧ h_live h' = h_live h ∧ dom (h_subs h') = dom (h_subs h) ∧ h_idleTimer h' = h_idleTimer h.
#[local] Instance paceKept_preorder : PreOrder paceKept.
Proof.
  split; unfold paceKept; [intros h; by split_and!|]. intros h1 h2 h3 (? & ? & ? & ?) (? & ? & ? & ?). split_and!; congruence.
Qed.
Lemma steps_publish_pace e d : steps paceKept (publish e d).
Proof. intros h. unfold publish, mmodify, paceKept. cbn. destruct (decide _); [done|]. cbn. by rewrite dom_fmap_L. Qed.
Lemma steps_db_pace {A} (m : M mach A) : steps paceKept (db m).
Proof. intros h. unfold paceKept, db. by destruct (m (h_m h)). Qed.
Lemma steps_engine_pace f : steps paceKept (onEngine f).
Proof. intros h. by unfold paceKept. Qed.
Lemma steps_emit_pace e : steps paceKept (emit e).
Proof. intros h. by unfold paceKept. Qed.
Hint Resolve steps_publish_pace steps_db_pace steps_engine_pace steps_emit_pace : steps.
Lemma register_frames ac h : wp (register ac) (λ n h',
  n = intervalLocked h ∧ h_agents h' = <[ac_id ac := ac]> (h_agents h) ∧ h_live h' = h_live h
  ∧ dom (h_subs h') = dom (h_subs h) ∧ h_idleTimer h' = h_idleTimer h) h.
Proof.
  unfold register. apply wp_bind, wp_get, wp_bind, wp_modify, wp_bind. eapply wp_steps with (R := paceKept); [go_steps|].
  intros _ h1 (Ha1 & Hl1 & Hs1 & Hi1). apply wp_bind. eapply wp_steps; [apply steps_publish_pace|].
  intros _ h2 (Ha2 & Hl2 & Hs2 & Hi2). apply wp_bind. eapply wp_steps with (R := paceKept); [unfold agentOnline; go_steps|].
  intros _ h3 (Ha3 & Hl3 & Hs3 & Hi3). apply wp_ret. cbn in *. split_and!; congruence.
Qed.
(** A broadcast reaches every connected agent. *)
Lemma hearAll_app l k g : hearAll (l ++ k) g = hearAll k (hearAll l g).
Proof. unfold hearAll. by rewrite fold_left_app. Qed.
Lemma hearAll_broadcast (cs : list nat) n g c :
  hearAll (map (λ c, ESend c ReqInterval (JObj [("seconds", JInt n)])) cs) g !! c = if decide (c ∈ cs) then Some n else g !! c.
Proof.
  revert g. induction cs as [|x cs IH]; intros g; [rewrite decide_False; [done|by apply not_elem_of_nil]|]. cbn [map]. unfold hearAll in *. cbn [fold_left].
  rewrite IH. cbn. destruct (decide (c ∈ cs)) as [Hc|Hc].
  - rewrite decide_True; [done|]. by constructor.
  - destruct (decide (c = x)) as [->|Hne]; [rewrite lookup_insert_eq, decide_True; [done|by constructor]|].
    rewrite lookup_insert_ne by done. rewrite decide_False; [done|]. by intros [?|?]%elem_of_cons.
Qed.
Lemma broadcast_told g h :
  let h' := (broadcastIntervalLocked h).2 in
  ∃ l, h_trace h' = h_trace h ++ l
    ∧ ∀ id ac, h_agents h !! id = Some ac → hearAll l g !! ac_conn ac = Some (intervalLocked h).
Proof.
  cbn. eexists. split; [done|]. intros id ac Hac.
  pose proof (hearAll_broadcast (map (λ kv, ac_conn kv.2) (map_to_list (h_agents h))) (intervalLocked h) g (ac_conn ac)) as Hh.
  rewrite map_map in Hh. rewrite Hh. rewrite decide_True; [done|]. apply list_elem_of_fmap. exists (id, ac). split; [done|].
  by apply elem_of_map_to_list.
Qed.
Definition told g h : Prop := ∀ id ac, h_agents h !! id = Some ac → g !! ac_conn ac = Some (intervalLocked h).
(** A step that ends in mode [live] having told everyone, or told no one and kept the mode. *)
Definition retold h h' : Prop :=
  ∃ l, h_trace h' = h_trace h ++ l ∧ ∀ g, told g h → told (hearAll l g) h'.
Lemma retold_quiet h h' : h_trace h' = h_trace h → h_agents h' = h_agents h → h_live h' = h_live h → retold h h'.
Proof.
  intros Ht Ha Hl. exists []. rewrite app_nil_r. split; [done|]. unfold told, intervalLocked. cbn. by rewrite Ha, Hl.
Qed.
Lemma retold_broadcast h h0 :
  h_trace h0 = h_trace h → h_agents h0 = h_agents h → retold h (broadcastIntervalLocked h0).2.
Proof.
  intros Ht Ha. pose proof (λ g, broadcast_told g h0) as Hb. cbn in Hb. eexists. cbn. rewrite Ht. split; [done|].
  intros g _ id ac Hac. cbn in Hac. destruct (Hb g) as (l & Hl & Htold). apply app_inv_head in Hl. subst l.
  rewrite (Htold id ac Hac). done.
Qed.
Lemma viewersChanged_paced h :
  let h' := (viewersChanged h).2 in
  retold h h' ∧ h_subs h' = h_subs h ∧ (h_subs h ≠ ∅ → h_live h' = true) ∧ (h_subs h = ∅ → h_live h' = true → h_idleTimer h' = true).
Proof.
  cbn zeta. unfold viewersChanged, mbind, M_bind, mget. destruct (Nat.ltb_spec 0 (size (h_subs h))) as [Hsz|Hsz].
  - assert (Hne : h_subs h ≠ ∅) by (intros E; rewrite E, map_size_empty in Hsz; lia).
    destruct (h_live h) eqn:El; cbn [negb].
    + cbn. split_and!; [by apply retold_quiet|done|done|done].
    + split_and!; [by apply (retold_broadcast h (with_live true (with_idleTimer false h)))|done|done|done].
  - assert (He : h_subs h = ∅) by (apply map_size_empty_iff; lia).
    destruct (h_live h) eqn:El, (h_idleTimer h) eqn:Ei; cbn.
    + split_and!; [by apply retold_quiet|done|done|done].
    + split_and!; [|done|done|done]. exists [EIdleTimer]. split; [done|]. intros g Hg. exact Hg.
    + split_and!; [by apply retold_quiet|done|done|congruence].
    + split_and!; [by apply retold_quiet|done|done|congruence].
Qed.
Lemma idleExpired_paced h :
  let h' := (idleExpired h).2 in
  retold h h' ∧ h_subs h' = h_subs h ∧ (h_live h = h_live h' ∨ h_subs h = ∅ ∧ h_live h' = false) ∧ (h_subs h = ∅ → h_live h' = false).
Proof.
  cbn zeta. unfold idleExpired, mbind, M_bind, mget, mmodify. cbn [with_idleTimer h_live h_subs].
  destruct (h_live h) eqn:El; cbn [andb].
  - destruct (Nat.eqb_spec (size (h_subs h)) 0) as [Hz|Hz].
    + assert (He : h_subs h = ∅) by (by apply map_size_empty_iff).
      split_and!; [by apply (retold_broadcast h (with_live false (with_idleTimer false h)))|done|by right|done].
    + cbn. split_and!; [by apply retold_quiet|done|by left|]. intros E. by rewrite E, map_size_empty in Hz.
  - cbn. split_and!; [by apply retold_quiet|done|by left|done].
Qed.
Lemma retold_run h h' l g : retold h h' → h_trace h' = h_trace h ++ l → told g h → told (hearAll l g) h'.
Proof. intros (l' & Hl' & Ht) Hl. rewrite Hl' in Hl. apply app_inv_head in Hl. subst l'. apply Ht. Qed.
Lemma paceInv_step x y : paceStep x y → paceInv x.1 x.2 → paceInv y.1 y.2.
Proof.
  destruct 1 as [g h h' ac n Hr|g h h' ch l Hs Hl|g h h' ch l Hs Hl|g h h' l Hs Hl|g h h' Hlive Hsubs Hid Hag]; cbn [fst snd]; intros [Ht Hv Hi].
  - destruct (wp_run _ _ _ _ _ (register_frames ac h) Hr) as (-> & Ha & Hlv & Hd & Htm).
    assert (Hemp : h_subs h' = ∅ ↔ h_subs h = ∅) by (rewrite <-!dom_empty_iff_L; by rewrite Hd).
    split; [|rewrite Hlv; intros Hne; apply Hv; by rewrite <-Hemp|rewrite Hlv, Htm, Hemp; exact Hi].
    intros id a. rewrite Ha. unfold intervalLocked. rewrite Hlv. intros [[<- <-]|[_ Hx]]%lookup_insert_Some; [by rewrite lookup_insert_eq|].
    destruct (decide (ac_conn a = ac_conn ac)) as [->|Hne]; [by rewrite lookup_insert_eq|].
    rewrite lookup_insert_ne by done. by apply (Ht id).
  - unfold subscribe, mbind, M_bind, mmodify in Hs. set (h0 := with_subs _ h) in Hs.
    destruct (viewersChanged_paced h0) as (Hre & Hsb & Hlv & Hid). rewrite Hs in *. cbn [snd] in *.
    split; [by apply (retold_run h0 h' l g Hre)|by rewrite Hsb|by rewrite Hsb].
  - unfold unsubscribe, mbind, M_bind, mmodify in Hs. set (h0 := with_subs _ h) in Hs.
    destruct (viewersChanged_paced h0) as (Hre & Hsb & Hlv & Hid). rewrite Hs in *. cbn [snd] in *.
    split; [by apply (retold_run h0 h' l g Hre)|by rewrite Hsb|by rewrite Hsb].
  - destruct (idleExpired_paced h) as (Hre & Hsb & Hor & Hoff). rewrite Hs in *. cbn [snd] in *.
    split; [by apply (retold_run h h' l g Hre)| |rewrite Hsb; intros He Hl2; rewrite Hoff in Hl2 by done; done].
    rewrite Hsb. intros Hne. destruct Hor as [<-|[? _]]; [by apply Hv|done].
  - assert (Hemp : h_subs h' = ∅ ↔ h_subs h = ∅) by (rewrite <-!dom_empty_iff_L; by rewrite Hsubs).
    split; [|rewrite Hlive; intros Hne; apply Hv; by rewrite <-Hemp|rewrite Hlive, Hid, Hemp; exact Hi].
    intros id a Ha. unfold intervalLocked. rewrite Hlive. destruct (Hag id a Ha) as (a0 & Ha0 & <-). by apply (Ht id).
Qed.

(** Agents report fast exactly while someone watches. Through any course of agents connecting and
    leaving, viewers coming and going and the idle timer firing: every connected agent was
    told last the interval of the hub's current mode; with a viewer the mode is live (2 s); and
    without one, a live hub has its idle timer running, so it goes back to 60 s. *)
Theorem agents_know_interval (h h' : hub) (g : gmap nat Z) (Hrun : rtc paceStep (∅, h) (g, h'))
    (Hagents : h_agents h = ∅) (Hsubs : h_subs h = ∅) (Hlive : h_live h = false) :
  (∀ id ac, h_agents h' !! id = Some ac → g !! ac_conn ac = Some (if h_live h' then liveInterval else idleInterval))
  ∧ (h_subs h' ≠ ∅ → h_live h' = true)
  ∧ (h_subs h' = ∅ → h_live h' = true → h_idleTimer h' = true).
Proof.
  assert (Hinv : ∀ x y, rtc paceStep x y → paceInv x.1 x.2 → paceInv y.1 y.2).
  { induction 1 as [|x y z Hxy _ IH]; [done|]. intros Hi. eapply IH, paceInv_step; eauto. }
  destruct (Hinv _ _ Hrun) as [Ht Hv Hi]; [|by split_and!].
  split; cbn; [intros id ac; by rewrite Hagents, lookup_empty|by rewrite Hsubs|by rewrite Hlive].
Qed.
End pace.

(** *** Witness: an agent connects, then a viewer comes *)
Lemma agents_know_interval_witness :
  let h1 := (@register demoMarsh (demoAgent 0) demoHub).2 in
  let h2 := (subscribe 5 h1).2 in
  hearAll [ESend 0 ReqInterval (JObj [("seconds", JInt liveInterval)])] {[0%nat := idleInterval]} !! 0%nat = Some (if h_live h2 then liveInterval else idleInterval).
Proof.
  cbv zeta.
  destruct (@agents_know_interval demoMarsh demoHub (subscribe 5 (@register demoMarsh (demoAgent 0) demoHub).2).2
    (hearAll [ESend 0 ReqInterval (JObj [("seconds", JInt liveInterval)])] {[0%nat := idleInterval]})) as [Ht _]; [|reflexivity..|].
  - eapply rtc_l; [eapply (pace_connect _ _ (@register demoMarsh (demoAgent 0) demoHub).2 (demoAgent 0)); apply surjective_pairing|].
    eapply rtc_l; [|apply rtc_refl]. eapply (pace_subscribe _ _ _ 5); [|by vm_compute].
    by destruct (subscribe _ _) as [[] ?].
  - apply (Ht 1 (demoAgent 0)). reflexivity.
Defined.
