(* ===== verification/HubCommand.v ===== *)
(** * The hub's command line ([cmd/hub/main.go], [cmd/hub/privileges_linux.go], [CreateEnrollToken] of
    [internal/hub/hub.go])

    The hub's process: its user and groups, who owns the files, and which of the next system calls fail.
    Only root may change owners, groups and users. *)
From Stdlib Require Import ZArith Lia Ascii String.
From S2P Require Import Prelude GoStrings Library Version Paths Store StoreInv Protocol Hub Auth AuthProps Web.
From stdpp Require Import base gmap strings list.
Local Open Scope string_scope.
Local Open Scope list_scope.
Local Open Scope Z_scope.
Local Open Scope lotse_scope.

Record process := mkProcess {
  ps_euid : Z;
  ps_egid : Z;
  ps_groups : list Z;
  ps_owner : gmap string (Z * Z);     (* owner and group of each file *)
  ps_faults : list bool;              (* which of the next system calls fail *)
  ps_served : list Z;                 (* the hub served, as this user *)
}.
Definition set_ids (uid gid : Z) (groups : list Z) (p : process) : process :=
  mkProcess uid gid groups (ps_owner p) (ps_faults p) (ps_served p).
Definition set_owner (o : gmap string (Z * Z)) (p : process) : process :=
  mkProcess (ps_euid p) (ps_egid p) (ps_groups p) o (ps_faults p) (ps_served p).
(** A system call: it may fail; one that needs root fails for others. *)
Definition syscall (root : bool) (f : process → process) : M process (option string) := mstate (λ p,
  let p' := mkProcess (ps_euid p) (ps_egid p) (ps_groups p) (ps_owner p) (tail (ps_faults p)) (ps_served p) in
  if default false (head (ps_faults p)) then (Some "input/output error", p')
  else if root && negb (ps_euid p =? 0) then (Some "operation not permitted", p')
  else (None, f p')).
Definition Lchown (path : string) (uid gid : Z) : M process (option string) :=
  syscall true (λ p, set_owner (<[path := (uid, gid)]> (ps_owner p)) p).
Definition Setgroups (l : list Z) : M process (option string) := syscall true (λ p, set_ids (ps_euid p) (ps_egid p) l p).
Definition Setgid (gid : Z) : M process (option string) := syscall true (λ p, set_ids (ps_euid p) gid (ps_groups p) p).
Definition Setuid (uid : Z) : M process (option string) := syscall true (λ p, set_ids uid (ps_egid p) (ps_groups p) p).

Section privileges.
Context `{Lib}.
(** What [filepath.WalkDir] visits below a folder: each path, or the error met there. *)
Context (walk : string → list (string + string)).

Definition envID (name v : string) : result string Z :=
  if String.eqb v "" then Ok 65532 else
  let '(id, ok) := Atoi v in
  if negb ok || (id <? 0) then Err (name +:+ " must be a numeric ID, got " +:+ Quote v) else Ok id.
(** The callback of the walk; the first error ends it. *)
Fixpoint chownAll (l : list (string + string)) (uid gid : Z) : M process (option string) :=
  match l with
  | [] => mret None
  | inr err :: _ => mret (Some err)
  | inl path :: rest => Lchown path uid gid ;? chownAll rest uid gid
  end.
Definition dropPrivileges (dataDir PUID PGID : string) : M process (option string) :=
  euid ← mgets ps_euid;
  if negb (euid =? 0) then mret None else
  match envID "PUID" PUID with
  | Err e => mret (Some e)
  | Ok uid =>
    match envID "PGID" PGID with
    | Err e => mret (Some e)
    | Ok gid =>
      if uid =? 0 then mret None else
      syscall false (λ p, p) ;?                                  (* os.MkdirAll *)
      (e ← chownAll (walk dataDir) uid gid;
       mret (match e with
             | Some e => Some ("handing " +:+ dataDir +:+ " to " +:+ itoa uid +:+ ":" +:+ itoa gid +:+ ": " +:+ e)
             | None => None
             end)) ;?
      Setgroups [] ;?
      Setgid gid ;?
      Setuid uid
    end
  end.
(** [serve]: what the hub does once it runs is [Hub.v] and what follows; [ran] is its result. *)
Definition serve (dataDir PUID PGID : string) (ran : option string) : M process (option string) :=
  dropPrivileges dataDir PUID PGID ;?
  (mmodify (λ p, mkProcess (ps_euid p) (ps_egid p) (ps_groups p) (ps_owner p) (ps_faults p) (ps_served p ++ [ps_euid p]));;
   mret ran).

(** [healthcheck]: [answer] is the status of the request, or the error. *)
Definition healthcheck (addr : string) (port : option string) (answer : string → result string (Z * string)) : option string :=
  match port with
  | None => Some ("address " +:+ addr +:+ ": missing port in address")
  | Some port =>
    match answer ("http://127.0.0.1:" +:+ port +:+ "/api/health") with
    | Err e => Some e
    | Ok (code, status) => if code =? 200 then None else Some ("status " +:+ status)
    end
  end.

(** *** The token command *)
(** [hub.CreateEnrollToken]; [opened] is the hub's key, or the error of opening its data. *)
Definition hubCreateEnrollToken (opened : result string string) (ttl : Z) : M mach (result string (string * Z * string)) :=
  match opened with
  | Err e => mret (Err e)
  | Ok key =>
    token ← randomToken;
    t ← timeNow;
    let expires := t + ttl in
    r ← CreateEnrollToken (hashToken token) expires;
    mret (match r with Err _ => Err "database error" | Ok _ => Ok (token, expires, key) end)
  end.
Definition token (dataDir publicURL PUID PGID : string) (opened : result string string) (ttl : Z) (allowShell : bool) :
    M (process * mach) (result string (string * list (string * string))) := λ s,
  let '(e, p) := dropPrivileges dataDir PUID PGID s.1 in
  match e with
  | Some e => (Err e, (p, s.2))
  | None =>
    let '(r, m) := hubCreateEnrollToken opened ttl s.2 in
    (match r with
     | Err e => Err e
     | Ok (tok, _, key) =>
       let hubURL := if String.eqb publicURL "" then "http://HUB-ADDRESS:8090" else publicURL in
       Ok (tok, InstallCommands hubURL key tok allowShell)
     end, (p, m))
  end.
End privileges.

Section privileges_props.
Context `{Lib} (walk : string → list (string + string)).
Implicit Types (p : process).

(** A process up to the faults that are left. *)
Definition sameProc p p' : Prop :=
  ps_euid p' = ps_euid p ∧ ps_egid p' = ps_egid p ∧ ps_groups p' = ps_groups p ∧ ps_owner p' = ps_owner p ∧ ps_served p' = ps_served p
  ∧ (ps_faults p = [] → ps_faults p' = []).
Lemma wp_syscall root f (Q : option string → process → Prop) p :
  (∀ e p', sameProc p p' → (ps_faults p = [] → root = true ∧ ps_euid p ≠ 0) → Q (Some e) p') →
  (∀ p', sameProc p p' → Q None (f p')) → wp (syscall root f) Q p.
Proof.
  intros HE HO. unfold wp, syscall, mstate. set (p1 := mkProcess _ _ _ _ _ _).
  assert (Hs : sameProc p p1) by (split_and!; try done; cbn; by intros ->).
  destruct (default false (head (ps_faults p))) eqn:Ef; [apply HE; [done|]; intros E; by rewrite E in Ef|].
  destruct (root && negb (ps_euid p =? 0)) eqn:Er; [|by apply HO]. apply HE; [done|]. intros _.
  apply andb_true_iff in Er as [-> Er]. split; [done|]. apply negb_true_iff in Er. lia.
Qed.
(** After handing over the files: nothing but owners changed. *)
Definition handed p p' : Prop :=
  ps_euid p' = ps_euid p ∧ ps_egid p' = ps_egid p ∧ ps_groups p' = ps_groups p ∧ ps_served p' = ps_served p
  ∧ (ps_faults p = [] → ps_faults p' = []).
Lemma wp_chownAll l uid gid (Q : option string → process → Prop) p :
  (∀ e p', handed p p' → (ps_faults p = [] → ps_euid p = 0 → ∃ err, inr err ∈ l) → Q (Some e) p') →
  (∀ p', handed p p' → (∀ path, inl path ∈ l → ps_owner p' !! path = Some (uid, gid))
     → (∀ path, ps_owner p !! path = Some (uid, gid) → ps_owner p' !! path = Some (uid, gid)) → Q None p') →
  wp (chownAll l uid gid) Q p.
Proof.
  revert p Q. induction l as [|[path|err] l IH]; intros p Q HE HO; cbn [chownAll].
  - apply wp_ret, HO; [done| |done]. intros path Hin. by apply not_elem_of_nil in Hin.
  - apply wp_bind, wp_syscall.
    + intros e p1 (? & ? & ? & ? & ? & ?) Hroot. apply wp_ret, HE; [by split_and!|]. intros Hf Hu. by destruct (Hroot Hf).
    + intros p1 (E1 & E2 & E3 & E4 & E5 & E6). apply IH.
      * intros e p2 (F1 & F2 & F3 & F4 & F5) Hbad. cbn in *. apply HE; [split_and!; [congruence..|auto]|].
        intros Hf Hu. destruct (Hbad (E6 Hf) ltac:(congruence)) as [err Herr]. exists err. by right.
      * intros p2 (F1 & F2 & F3 & F4 & F5) Hown Hkeep. cbn in *. apply HO; [split_and!; [congruence..|auto]| |].
        -- intros x [[= ->]|Hx]%elem_of_cons; [apply Hkeep; by rewrite lookup_insert_eq|by apply Hown].
        -- intros x Hx. apply Hkeep. destruct (decide (x = path)) as [->|Hne]; [by rewrite lookup_insert_eq|].
           rewrite lookup_insert_ne by done. congruence.
  - apply wp_ret, HE; [by split_and!|]. intros _ _. exists err. by left.
Qed.
(** What must have happened before the hub serves. *)
Definition dropped (dataDir PUID PGID : string) p p' : Prop :=
  (ps_euid p ≠ 0 ∧ p' = p)
  ∨ (envID "PUID" PUID = Ok 0 ∧ p' = p)
  ∨ ∃ uid gid, envID "PUID" PUID = Ok uid ∧ envID "PGID" PGID = Ok gid ∧ uid ≠ 0
      ∧ ps_euid p' = uid ∧ ps_egid p' = gid ∧ ps_groups p' = [] ∧ ps_served p' = ps_served p
      ∧ ∀ path, inl path ∈ walk dataDir → ps_owner p' !! path = Some (uid, gid).
(** Nothing stands in the way. *)
Definition mayDrop (dataDir PUID PGID : string) p : Prop :=
  ps_faults p = [] ∧ is_ok (envID "PUID" PUID) = true ∧ is_ok (envID "PGID" PGID) = true ∧ ∀ err, inr err ∉ walk dataDir.
Lemma dropPrivileges_spec dataDir PUID PGID p :
  wp (dropPrivileges walk dataDir PUID PGID) (λ r p',
    (r = None → dropped dataDir PUID PGID p p') ∧ ps_served p' = ps_served p ∧ (mayDrop dataDir PUID PGID p → r = None)) p.
Proof.
  unfold dropPrivileges. apply wp_bind, wp_gets. destruct (Z.eqb_spec (ps_euid p) 0) as [Hroot|Hroot]; cbn [negb].
  2: { apply wp_ret. split_and!; [by left|done|done]. }
  destruct (envID "PUID" PUID) as [uid|e] eqn:Eu; [|apply wp_ret; split_and!; [done|done|]; intros (_ & Hu & _); by rewrite Eu in Hu].
  destruct (envID "PGID" PGID) as [gid|e] eqn:Eg; [|apply wp_ret; split_and!; [done|done|]; intros (_ & _ & Hg & _); by rewrite Eg in Hg].
  destruct (Z.eqb_spec uid 0) as [->|Hu]; [apply wp_ret; split_and!; [by right; left|done|done]|].
  apply wp_bind, wp_syscall.
  { intros e p1 (? & ? & ? & ? & ? & ?) Hn. apply wp_ret. split_and!; [done|done|]. intros (Hf & _). by destruct (Hn Hf). }
  intros p1 (E1 & E2 & E3 & E4 & E5 & E6). apply wp_bind, wp_bind, wp_chownAll.
  { intros e p2 (F1 & F2 & F3 & F4 & F5) Hbad. apply wp_ret, wp_ret. split_and!; [done|congruence|]. intros (Hf & _ & _ & Hno).
    destruct (Hbad (E6 Hf) ltac:(congruence)) as [err Herr]. by apply Hno in Herr. }
  intros p2 (F1 & F2 & F3 & F4 & F5) Hown _. apply wp_ret. unfold Setgroups, Setgid, Setuid. apply wp_bind, wp_syscall.
  { intros e p3 (G1 & G2 & G3 & G4 & G5 & G6) Hn. apply wp_ret. split_and!; [done|congruence|]. intros (Hf & _).
    destruct (Hn (F5 (E6 Hf))) as [_ Hne]. congruence. }
  intros p3 (G1 & G2 & G3 & G4 & G5 & G6). apply wp_bind, wp_syscall.
  { intros e p4 (I1 & I2 & I3 & I4 & I5 & I6) Hn. cbn in *. apply wp_ret. split_and!; [done|congruence|]. intros (Hf & _).
    destruct (Hn (G6 (F5 (E6 Hf)))) as [_ Hne]. congruence. }
  intros p4 (I1 & I2 & I3 & I4 & I5 & I6). cbn in *. apply wp_syscall.
  { intros e p5 (J1 & J2 & J3 & J4 & J5 & J6) Hn. cbn in *. split_and!; [done|congruence|]. intros (Hf & _).
    destruct (Hn (I6 (G6 (F5 (E6 Hf))))) as [_ Hne]. congruence. }
  intros p5 (J1 & J2 & J3 & J4 & J5 & J6). cbn in *. split_and!; [|congruence|done]. intros _. right; right. exists uid, gid.
  cbn. split_and!; [done|done|done|done|congruence|congruence|congruence|]. intros path Hin. rewrite J4, I4, G4. by apply Hown.
Qed.

(** The hub does not run as root by accident. Whichever system call fails: when the process was started as
    root, the hub serves only if PUID is 0, or after every file of the data folder was handed to the chosen user
    and the process gave up its supplementary groups, its group and its user, in an order in which the kernel allows it.
    With valid IDs, a readable data folder and no failing call it does serve. *)
Theorem privileges_dropped (dataDir PUID PGID : string) (ran : option string) (p : process) :
  let '(r, p') := serve walk dataDir PUID PGID ran p in
  (ps_served p' = ps_served p
   ∨ ps_served p' = ps_served p ++ [ps_euid p'] ∧ r = ran
     ∧ (ps_euid p = 0 → envID "PUID" PUID = Ok 0
        ∨ ∃ uid gid, envID "PUID" PUID = Ok uid ∧ envID "PGID" PGID = Ok gid ∧ uid ≠ 0
            ∧ ps_euid p' = uid ∧ ps_egid p' = gid ∧ ps_groups p' = []
            ∧ ∀ path, inl path ∈ walk dataDir → ps_owner p' !! path = Some (uid, gid)))
  ∧ (mayDrop dataDir PUID PGID p → ps_served p' = ps_served p ++ [ps_euid p'] ∧ r = ran).
Proof.
  unfold serve. apply wp_let, wp_bind. eapply wp_mono; [apply dropPrivileges_spec|]. intros [e|] p1 (Hd & Hserved & Hmay).
  - apply wp_ret. split; [by left|]. intros Hm. by specialize (Hmay Hm).
  - apply wp_bind, wp_modify, wp_ret. cbn. rewrite Hserved. split; [right; split_and!; [done|done|]|by intros _].
    intros Hroot. destruct (Hd eq_refl) as [[? _]|[[? _]|(uid & gid & ? & ? & ? & ? & ? & ? & ? & ?)]]; [done|by left|right].
    exists uid, gid. by split_and!.
Qed.

(** ** Tokens from the command line *)
Definition tokenStored (tok : string) (expires : Z) (m m' : mach) : Prop :=
  ∃ row, m_db m' = set_enroll_tokens (enroll_tokens (m_db m) ++ [row]) (m_db m)
    ∧ er_token_hash row = hashToken tok ∧ er_expires_at row = unix expires.
Lemma hubCreateEnrollToken_spec opened ttl m :
  wp (hubCreateEnrollToken opened ttl) (λ r m', match r with
    | Ok (tok, expires, _) => tokenStored tok expires m m'
    | Err _ => m_db m' = m_db m
    end) m.
Proof.
  unfold hubCreateEnrollToken. destruct opened as [key|e]; [|by apply wp_ret].
  apply wp_bind. unfold randomToken. apply wp_bind, wp_randRead. intros b m1 E1. apply wp_ret, wp_bind, wp_timeNow. intros m2 E2.
  apply wp_bind. unfold CreateEnrollToken. apply wp_bind, wp_timeNow. intros m3 E3. apply wp_sql.
  - intros m4. destruct (existsWhere _ _); cbn; intros E4; apply wp_ret; [congruence|].
    eexists. rewrite E4, E3, E2, E1. by split_and!.
  - intros m4 E4. apply wp_ret. congruence.
Qed.

(** A token the command prints enrolls agents, and only it: the command adds one token to the database, whose
    hash is stored and not the token, and until it expires an agent that presents it is accepted. *)
Theorem token_enrolls (opened : result string string) (ttl : Z) (m m' m2 : mach) (tok key : string) (expires : Z)
    (Hrun : hubCreateEnrollToken opened ttl m = (Ok (tok, expires, key), m'))
    (Hlater : m_db m2 = m_db m') (Hnow : unix (timeNow m2).1 < unix expires) (Hf : noFaults m2) :
  (ValidEnrollToken (hashToken tok) m2).1 = Ok true ∧ tokenStored tok expires m m'.
Proof.
  pose proof (wp_run _ _ _ _ _ (hubCreateEnrollToken_spec opened ttl m) Hrun) as Hs. cbn in Hs. split; [|exact Hs].
  destruct Hs as (row & Hdb & Hh & He).
  assert (Hv : wp (ValidEnrollToken (hashToken tok)) (λ r _, r = Ok true) m2); [|exact Hv].
  unfold ValidEnrollToken. apply wp_bind, wp_timeNow_full. intros m3 E3 Hnf. apply wp_query_cases; [|by intros m4 _ Hbad; destruct (Hbad (Hnf Hf))].
  intros m4 _ _. f_equal. apply Nat.ltb_lt, countWhere_pos. exists row. rewrite E3, Hlater, Hdb.
  replace (enroll_tokens (set_enroll_tokens _ _)) with (enroll_tokens (m_db m) ++ [row]) by (by destruct (m_db m)).
  split; [apply elem_of_app; right; by left|].
  rewrite Hh, He, String.eqb_refl. cbn. lia.
Qed.
End privileges_props.

(** *** Witness *)
Definition demoMach : mach := mkMach (freshStore 0) (mkEnv 0 [] [] ["random"]).
Lemma token_enrolls_witness : (@ValidEnrollToken (@hashToken demoLib "random") (@hubCreateEnrollToken demoLib (Ok "key") (hours 1) demoMach).2).1 = Ok true.
Proof.
  apply (@token_enrolls demoLib (Ok "key") (hours 1) demoMach (@hubCreateEnrollToken demoLib (Ok "key") (hours 1) demoMach).2
    (@hubCreateEnrollToken demoLib (Ok "key") (hours 1) demoMach).2 "random" "key" (hours 1)); vm_compute; reflexivity.
Defined.
