(* ===== verification/Events.v ===== *)
(** * The event stream of a browser ([handleEvents] of [internal/hub/broker.go])

    A round of the stream's loop: what is published meanwhile, which ready case of the [select] is taken, and
    whether writing to the browser works. *)
From Stdlib Require Import ZArith Lia Ascii String.
From S2P Require Import Prelude GoStrings Float64 Library Store StoreInv Protocol Hub Auth AuthProps Maintenance.
From stdpp Require Import base gmap strings list.
Local Open Scope string_scope.
Local Open Scope list_scope.
Local Open Scope Z_scope.
Local Open Scope lotse_scope.

Inductive pick : Type := Message | Ping | Canceled.
Record round := mkRound {
  rd_published : list (string * json);   (* events published while the loop waits *)
  rd_pick : pick;
  rd_writes : bool;                      (* the write and the flush succeed *)
}.
Definition connectedFrame : string := ": connected" +:+ newlineStr +:+ newlineStr.
Definition pingFrame : string := ": ping" +:+ newlineStr +:+ newlineStr.

Section events.
Context `{Lib} `{Marshal}.
Implicit Types (h : hub) (ch : nat) (rs : list round).

(** Receiving from the stream's channel; [None] when nothing waits. *)
Definition receive ch : M hub (option string) := mstate (λ h,
  match h_subs h !! ch with
  | Some (msg :: q) => (Some msg, with_subs (<[ch := q]> (h_subs h)) h)
  | _ => (None, h)
  end).
Definition publishAll (l : list (string * json)) : M hub unit := λ h,
  (tt, fold_left (λ h e, (publish e.1 e.2 h).2) l h).
(** The loop: what is written to the browser. *)
Fixpoint stream ch rs : M hub (list string) :=
  match rs with
  | [] => mret []
  | r :: rest =>
    publishAll (rd_published r);;
    match rd_pick r with
    | Canceled => mret []
    | Ping => if rd_writes r then out ← stream ch rest; mret (pingFrame :: out) else mret []
    | Message =>
      m ← receive ch;
      match m with
      | None => stream ch rest                      (* nothing to receive: the select waits on *)
      | Some msg => if rd_writes r then out ← stream ch rest; mret (msg :: out) else mret []
      end
    end
  end.
(** [ch] is the new channel. *)
Definition handleEvents ch (connects : bool) rs (s : Session) : M hub (list string) :=
  k ← track s RoleViewer;
  subscribe ch;;
  out ← (if negb connects then mret [] else out ← stream ch rs; mret (connectedFrame :: out));
  unsubscribe ch;;
  untrack k;;
  mret out.
End events.

Section stream.
Context `{Lib} `{Marshal}.
Implicit Types (h : hub) (ch : nat) (rs : list round).

(** What a published event looks like on the stream. *)
Definition frame (e : string * json) : string :=
  "event: " +:+ e.1 +:+ newlineStr +:+ "data: " +:+ marshal e.2 +:+ newlineStr +:+ newlineStr.
Definition framesOf rs : list string := map frame (concat (map rd_published rs)).
(** Never more than the channel holds waits for the browser. *)
Fixpoint keepsUp (waiting : nat) rs : Prop :=
  match rs with
  | [] => True
  | r :: rest =>
    let waiting' := (waiting + length (rd_published r))%nat in
    (waiting' ≤ subCapacity)%nat ∧ keepsUp (waiting' - match rd_pick r with Message => 1 | _ => 0 end)%nat rest
  end.
(** The messages among what was written. *)
Definition messages (out : list string) : list string := filter (λ f, f ≠ pingFrame) out.

Definition onlySubs h h' : Prop := h' = with_subs (h_subs h') h.
#[local] Instance onlySubs_preorder : PreOrder onlySubs.
Proof. split; unfold onlySubs; [by intros []|]. intros h1 h2 h3 E12 E23. rewrite E23, E12. by destruct h1. Qed.
Lemma publish_subs e d h : onlySubs h (publish e d h).2
  ∧ h_subs (publish e d h).2 = offer subCapacity (frame (e, d)) <$> h_subs h.
Proof.
  unfold publish, mmodify, onlySubs, frame. cbn. destruct (decide (h_subs h = ∅)) as [E|E]; [|done].
  split; [by destruct h|]. by rewrite E, fmap_empty.
Qed.
Definition offerAll (l : list (string * json)) (q : list string) : list string :=
  fold_left (λ q e, offer subCapacity (frame e) q) l q.
Lemma publishAll_subs l h : onlySubs h (publishAll l h).2 ∧ h_subs (publishAll l h).2 = offerAll l <$> h_subs h.
Proof.
  unfold publishAll. cbn [snd]. revert h. induction l as [|e l IH]; intros h; cbn [fold_left].
  - split; [by destruct h|]. unfold offerAll. cbn. by rewrite map_fmap_id.
  - destruct (publish_subs e.1 e.2 h) as [Ho Hs]. destruct (IH (publish e.1 e.2 h).2) as [Ho' Hs'].
    split; [by etrans|]. rewrite Hs', Hs, <-map_fmap_compose. destruct e. done.
Qed.
Lemma offerAll_spec l q : ∃ acc, offerAll l q = q ++ acc ∧ acc `sublist_of` map frame l
  ∧ ((length q + length l ≤ subCapacity)%nat → acc = map frame l).
Proof.
  unfold offerAll. revert q. induction l as [|e l IH]; intros q; cbn [fold_left map].
  - exists []. rewrite app_nil_r. by split_and!.
  - destruct (IH (offer subCapacity (frame e) q)) as (acc & Hq & Hsub & Hall). unfold offer in *.
    destruct (Nat.ltb_spec (length q) subCapacity) as [Hlt|Hge].
    + exists (frame e :: acc). rewrite Hq, <-app_assoc. split_and!; [done|by constructor|].
      intros Hlen. f_equal. apply Hall. rewrite length_app. cbn in *. lia.
    + exists acc. split_and!; [done|by constructor|]. cbn. lia.
Qed.
Lemma receive_spec ch h q : h_subs h !! ch = Some q →
  match q with
  | [] => receive ch h = (None, h)
  | msg :: q' => receive ch h = (Some msg, with_subs (<[ch := q']> (h_subs h)) h)
  end.
Proof. intros E. unfold receive, mstate. rewrite E. by destruct q. Qed.

(** How many messages wait after the rounds. *)
Fixpoint backlog (waiting : nat) rs : nat :=
  match rs with
  | [] => waiting
  | r :: rest => backlog (waiting + length (rd_published r) - match rd_pick r with Message => 1 | _ => 0 end) rest
  end.
(** The browser stays: no write fails, and the stream is not canceled. *)
Definition healthy (r : round) : Prop := rd_writes r = true ∧ rd_pick r ≠ Canceled.

Lemma messages_ping out : messages (pingFrame :: out) = messages out.
Proof. unfold messages. by rewrite filter_cons_False by (intros Hn; by apply Hn). Qed.
Lemma messages_frame f out : f ≠ pingFrame → messages (f :: out) = f :: messages out.
Proof. intros Hf. unfold messages. by rewrite filter_cons_True. Qed.
Definition isFrame (f : string) : Prop := f ≠ pingFrame.
Lemma frame_isFrame e : isFrame (frame e).
Proof. unfold isFrame, frame, pingFrame. discriminate. Qed.
Lemma offerAll_frames l q : Forall isFrame q → Forall isFrame (offerAll l q).
Proof.
  intros Hq. destruct (offerAll_spec l q) as (acc & -> & Hsub & _). apply Forall_app. split; [done|].
  apply Forall_forall. intros f Hf. apply (elem_of_sublist _ _ _ Hf) in Hsub.
  apply list_elem_of_fmap in Hsub as (e & -> & _). apply frame_isFrame.
Qed.
(** What the loop keeps of the rest of the hub. *)
Definition streamPost ch rs (q : list string) h (out : list string) h' : Prop :=
  onlySubs h h' ∧ dom (h_subs h') = dom (h_subs h)
  ∧ messages out `sublist_of` q ++ framesOf rs
  ∧ (keepsUp (length q) rs → messages out `prefix_of` q ++ framesOf rs)
  ∧ (keepsUp (length q) rs → Forall healthy rs →
       ∃ q', h_subs h' !! ch = Some q' ∧ messages out ++ q' = q ++ framesOf rs ∧ length q' = backlog (length q) rs).
Lemma framesOf_cons r rs : framesOf (r :: rs) = map frame (rd_published r) ++ framesOf rs.
Proof. unfold framesOf. cbn. by rewrite map_app. Qed.
(** A round that sends [p], leaving [q2] of what waited. *)
Lemma streamPost_round ch r rs q acc p q2 out h h1 h2 :
  offerAll (rd_published r) q = q ++ acc → acc `sublist_of` map frame (rd_published r) →
  ((length q + length (rd_published r) ≤ subCapacity)%nat → acc = map frame (rd_published r)) →
  q ++ acc = messages p ++ q2 → length (messages p) = match rd_pick r with Message => 1%nat | _ => 0%nat end ∨ (q2 = [] ∧ messages p = []) →
  onlySubs h h1 → dom (h_subs h1) = dom (h_subs h) →
  streamPost ch rs q2 h1 out h2 → streamPost ch (r :: rs) q h (p ++ out) h2.
Proof.
  intros Hoff Hacc Hall Hp Hlen Ho Hd (Ho2 & Hd2 & Hsub & Hpre & Hex).
  assert (Hm : messages (p ++ out) = messages p ++ messages out) by apply filter_app.
  assert (Hall' : keepsUp (length q) (r :: rs) → acc = map frame (rd_published r) ∧ keepsUp (length q2) rs
    ∧ length q2 = (length q + length (rd_published r) - match rd_pick r with Message => 1 | _ => 0 end)%nat).
  { intros [Hle Hk]. rewrite (Hall Hle) in *. split; [done|]. apply (f_equal length) in Hp. rewrite !length_app, length_map in Hp.
    assert (E : length q2 = (length q + length (rd_published r) - match rd_pick r with Message => 1 | _ => 0 end)%nat); [|by rewrite E].
    destruct Hlen as [Hlen|[-> Hz]]; [lia|]. rewrite Hz in Hp. cbn in *. lia. }
  split_and!; [by etrans|congruence|..].
  - rewrite Hm, framesOf_cons, app_assoc. etrans; [apply sublist_app; [done|exact Hsub]|]. rewrite app_assoc, <-Hp.
    apply sublist_app; [|done]. by apply sublist_app.
  - intros Hk. destruct (Hall' Hk) as (-> & Hk' & _). rewrite Hm, framesOf_cons, app_assoc, Hp, <-app_assoc. by apply prefix_app, Hpre.
  - intros Hk Hh. destruct (Hall' Hk) as (-> & Hk' & Hlen'). apply Forall_cons_1 in Hh as [_ Hh]. destruct (Hex Hk' Hh) as (q' & Hq' & He & Hb).
    exists q'. split; [done|]. rewrite Hm, framesOf_cons, <-app_assoc, He, !app_assoc, Hp. split; [done|]. cbn [backlog]. by rewrite <-Hlen'.
Qed.
Lemma stream_spec ch rs q h : h_subs h !! ch = Some q → Forall isFrame q →
  wp (stream ch rs) (streamPost ch rs q h) h.
Proof.
  revert q h. induction rs as [|r rs IH]; intros q h Hq Hf.
  { apply wp_ret. split_and!; [done|done|apply sublist_nil_l|intros _; by exists (q ++ framesOf [])|].
    intros _ _. exists q. unfold framesOf. cbn. by rewrite app_nil_r. }
  cbn [stream]. apply wp_bind. unfold wp at 1. destruct (publishAll_subs (rd_published r) h) as [Ho Hs].
  destruct (publishAll (rd_published r) h) as [[] h1]. cbn [fst snd] in *.
  assert (Hq1 : h_subs h1 !! ch = Some (offerAll (rd_published r) q)) by (by rewrite Hs, lookup_fmap, Hq).
  assert (Hd1 : dom (h_subs h1) = dom (h_subs h)) by (by rewrite Hs, dom_fmap_L).
  pose proof (offerAll_frames (rd_published r) q Hf) as Hf1.
  destruct (offerAll_spec (rd_published r) q) as (acc & Hoff & Hacc & Hall). rewrite Hoff in Hq1, Hf1.
  assert (Hend : ∀ h2, onlySubs h h2 → dom (h_subs h2) = dom (h_subs h) → ¬ healthy r → streamPost ch (r :: rs) q h [] h2).
  { intros h2 ?? Hn. split_and!; [done|done|apply sublist_nil_l|intros _; by eexists|]. intros _ Hh. by apply Forall_cons_1 in Hh as [? _]. }
  destruct (rd_pick r) eqn:Epick.
  - pose proof (receive_spec ch h1 _ Hq1) as Hr. apply wp_bind. unfold wp at 1.
    remember (q ++ acc) as q1 eqn:Eq. destruct q1 as [|msg q2]; rewrite Hr; cbn [fst snd].
    + eapply wp_mono; [by apply IH|]. intros out h2 Hpost.
      apply (streamPost_round ch r rs q acc [] [] out h h1); rewrite <-?Eq; auto.
    + apply Forall_cons_1 in Hf1 as [Hmsg Hf1]. set (h1' := with_subs _ h1).
      assert (Ho1 : onlySubs h h1') by (etrans; [exact Ho|]; unfold onlySubs; by destruct h1).
      assert (Hd1' : dom (h_subs h1') = dom (h_subs h)).
      { cbn. rewrite dom_insert_lookup_L; [done|by eexists]. }
      destruct (rd_writes r) eqn:Ew; [|apply wp_ret, Hend; [done..|intros [? _]; congruence]].
      apply wp_bind. eapply wp_mono; [apply (IH q2 h1'); [cbn; by rewrite lookup_insert_eq|done]|]. intros out h2 Hpost. apply wp_ret.
      apply (streamPost_round ch r rs q acc [msg] q2 out h h1'); rewrite <-?Eq, ?Epick, ?messages_frame by done; auto.
  - destruct (rd_writes r) eqn:Ew; [|apply wp_ret, Hend; [done..|intros [? _]; congruence]].
    apply wp_bind. eapply wp_mono; [by apply (IH (q ++ acc) h1)|]. intros out h2 Hpost. apply wp_ret.
    apply (streamPost_round ch r rs q acc [pingFrame] (q ++ acc) out h h1); rewrite ?Epick, ?messages_ping; auto.
  - apply wp_ret, Hend; [done..|]. intros [_ ?]. congruence.
Qed.

Lemma viewersChanged_kept : steps (both (frames h_subs) (frames h_conns)) viewersChanged.
Proof. unfold viewersChanged, broadcastIntervalLocked, emit. repeat step1; by apply steps_modify. Qed.
Lemma untrack_tracked (l : list sessionConn) (c : sessionConn) : c_key c = nextConn l →
  deleteWhere (λ x, c_key x =? nextConn l)%nat (c :: l) = l.
Proof.
  intros Hc. unfold deleteWhere. cbn [List.filter]. rewrite Hc, Nat.eqb_refl. cbn [negb].
  assert (Hlt : Forall (λ x, (c_key x < nextConn l)%nat) l).
  { apply Forall_forall. unfold nextConn. clear. induction l as [|y l IH]; [by intros x Hx%not_elem_of_nil|]. cbn.
    intros x [->|Hx]%elem_of_cons; [lia|]. specialize (IH x Hx). lia. }
  clear Hc. revert Hlt. generalize (nextConn l). intros m. induction 1 as [|y k Hy _ IH]; [done|]. cbn [List.filter].
  rewrite (proj2 (Nat.eqb_neq _ _)) by lia. cbn [negb]. by rewrite IH.
Qed.

(** What the stream gives a browser, depending on whether its first write reaches it. *)
Definition streamed (connects : bool) rs (out : list string) : Prop :=
  if connects then
    ∃ msgs, out = connectedFrame :: msgs
      ∧ messages msgs `sublist_of` framesOf rs
      ∧ (keepsUp 0 rs → messages msgs `prefix_of` framesOf rs)
      ∧ (keepsUp 0 rs → Forall healthy rs → ∃ waiting, messages msgs ++ waiting = framesOf rs ∧ length waiting = backlog 0 rs)
  else out = [].
Lemma streamed_ok ch connects rs h : h_subs h !! ch = Some [] →
  wp (if negb connects then mret [] else out ← stream ch rs; mret (connectedFrame :: out))
     (λ out h', onlySubs h h' ∧ dom (h_subs h') = dom (h_subs h) ∧ streamed connects rs out) h.
Proof.
  intros Hq. destruct connects; cbn [negb]; [|by apply wp_ret]. apply wp_bind.
  eapply wp_mono; [apply (stream_spec ch rs []); [done|constructor]|]. intros msgs h' (Ho & Hd & Hsub & Hpre & Hex).
  apply wp_ret. split_and!; [done|done|]. exists msgs. split_and!; [done..|]. intros Hk Hh.
  destruct (Hex Hk Hh) as (q & _ & ? & ?). by exists q.
Qed.

(** C37. A browser sees the events in order, each once. Whatever is published while a stream is open and
    however fast the browser reads: it gets frames of published events in the order they were published, never
    one twice. While no more than 64 wait, it misses none: what it got is the beginning of what was published,
    and as long as the browser stays, the frames it has not got are exactly the waiting ones. However the
    stream ends, at the first write to a browser that is gone already, at a later one or canceled, it leaves
    no connection and no subscriber behind. *)
Theorem stream_exact (ch : nat) (connects : bool) (rs : list round) (s : Session) (h : hub) (Hfresh : h_subs h !! ch = None) :
  let '(out, h') := handleEvents ch connects rs s h in
  streamed connects rs out ∧ h_conns h' = h_conns h ∧ dom (h_subs h') = dom (h_subs h).
Proof.
  apply wp_let. unfold handleEvents. apply wp_bind. unfold track, wp at 1. cbn [fst snd].
  unfold subscribe. apply wp_bind, wp_bind, wp_modify. set (h1 := with_subs _ _).
  eapply wp_steps; [apply viewersChanged_kept|]. intros _ h2 [Hs2 Hc2].
  apply wp_bind. eapply wp_mono; [apply (streamed_ok ch connects rs); by rewrite Hs2; cbn; rewrite lookup_insert_eq|].
  intros out h3 (Ho & Hd & Hout). unfold unsubscribe. apply wp_bind, wp_bind, wp_modify.
  eapply wp_steps; [apply viewersChanged_kept|]. intros _ h4 [Hs4 Hc4]. apply wp_bind, wp_modify, wp_ret.
  split_and!; [done| |].
  - cbn. rewrite Hc4. cbn. rewrite Ho. cbn. rewrite Hc2. cbn. by apply untrack_tracked.
  - cbn. rewrite Hs4. cbn. rewrite dom_delete_L, Hd, Hs2. cbn. rewrite dom_insert_L. apply not_elem_of_dom in Hfresh.
    by rewrite difference_union_distr_l_L, difference_diag_L, union_empty_l_L, difference_disjoint_L by (by apply disjoint_singleton_r).
Qed.
End stream.

(** *** Witness: two events, a ping between them *)
Definition demoRounds : list round :=
  [mkRound [("systems", JNull)] Message true; mkRound [] Ping true; mkRound [("alerts", JNull)] Message true].
Lemma stream_exact_witness :
  (@handleEvents (λ _, "{}") 3 true demoRounds demoSession demoHub).1
    = [connectedFrame; @frame (λ _, "{}") ("systems", JNull); pingFrame; @frame (λ _, "{}") ("alerts", JNull)]
  ∧ (∀ connects, h_conns (@handleEvents (λ _, "{}") 3 connects demoRounds demoSession demoHub).2 = h_conns demoHub).
Proof.
  split; [by vm_compute|]. intros connects.
  pose proof (@stream_exact (λ _, "{}") 3 connects demoRounds demoSession demoHub ltac:(reflexivity)) as He.
  destruct (handleEvents _ _ _ _ _) as [out h']. by destruct He as (_ & Hc & _).
Defined.
