(* ===== verification/Host.v ===== *)
(** * The machine an agent runs on

    Files and folders by path, and the calls of package [os] the agent makes. Every call may
    fail: [ho_faults] says which of the next ones do, and how many bytes a failing write still
    writes. What the agent does to the machine beyond its files (commands, signals, answers) is the
    trace of events. Paths are Unix paths. *)
From Stdlib Require Import ZArith Lia Ascii String.
From S2P Require Import Prelude GoStrings Library Version Paths.
From stdpp Require Import base gmap strings list sorting.
Local Open Scope string_scope.
Local Open Scope list_scope.
Local Open Scope Z_scope.
Local Open Scope lotse_scope.

Inductive goos : Type := Linux | Darwin | Windows.
#[export] Instance goos_eq_dec : EqDecision goos.
Proof. solve_decision. Defined.
Definition GOOS (o : goos) : string := match o with Linux => "linux" | Darwin => "darwin" | Windows => "windows" end.

(** [errors.Is(err, fs.ErrNotExist)] is the only distinction the code makes. *)
Inductive osErr : Type := ENotExist (msg : string) | EOther (msg : string).
Definition osMsg (e : osErr) : string := match e with ENotExist m | EOther m => m end.
Definition isNotExist (e : osErr) : bool := match e with ENotExist _ => true | EOther _ => false end.
Abbreviation ores A := (result osErr A).

(** What the machine sees of the agent. *)
Inductive hevent : Type :=
| HExec (cmd : list string)                     (* a program was started *)
| HAfter (d : Z) (cmd : list string)            (* a timer was set to start it *)
| HSignal (pid : Z) (signal : string)           (* a process was signaled *)
| HService (action name : string)               (* the Windows service manager was asked *)
| HWake (macs : list string) (broadcast : string) (* a magic packet was sent *)
| HReply (ok : bool) (err : string)             (* an answer to the hub *)
| HServe (what : string)                        (* a program of a session channel: shell, sftp or script *)
| HResize (cols rows : Z)                       (* the terminal got another size *)
| HStop (what : string)                         (* it was ended *)
| HReject (reason : string)                     (* a channel was refused *)
| HRestart (exe : string).                      (* the agent starts over from this binary *)
#[export] Instance hevent_eq_dec : EqDecision hevent.
Proof. solve_decision. Defined.

Record host := mkHost {
  ho_files : gmap string string;     (* regular files: contents by path *)
  ho_dirs : gmap string bool;        (* folders: whether only the owner has access *)
  ho_faults : list (option nat);     (* of the next calls: [Some n] fails, a write after [n] bytes *)
  ho_rand : list string;             (* what the random generator gives next *)
  ho_trace : list hevent;
}.
Definition with_files f h := mkHost f (ho_dirs h) (ho_faults h) (ho_rand h) (ho_trace h).
Definition with_dirs d h := mkHost (ho_files h) d (ho_faults h) (ho_rand h) (ho_trace h).
Definition with_faults l h := mkHost (ho_files h) (ho_dirs h) l (ho_rand h) (ho_trace h).
Definition with_rand l h := mkHost (ho_files h) (ho_dirs h) (ho_faults h) l (ho_trace h).
Definition with_trace t h := mkHost (ho_files h) (ho_dirs h) (ho_faults h) (ho_rand h) t.
Definition emit (e : hevent) : M host unit := mmodify (λ h, with_trace (ho_trace h ++ [e]) h).
(** Whether the next call fails. *)
Definition fault : M host (option nat) := mstate (λ h,
  match ho_faults h with [] => (None, h) | f :: rest => (f, with_faults rest h) end).
Definition randSeed : M host string := mstate (λ h,
  match ho_rand h with [] => ("", h) | s :: rest => (s, with_rand rest h) end).

Definition ioError : osErr := EOther "input/output error".
Definition noSuchFile : osErr := ENotExist "no such file or directory".

(** The names in a folder, in order. *)
Definition inDir (d p : string) : bool := String.eqb (Dir p) d && negb (String.eqb p d).
Definition strLe (x y : string) : Prop := String.compare x y ≠ Gt.
#[export] Instance strLe_dec x y : Decision (strLe x y).
Proof. unfold strLe. solve_decision. Defined.
Definition dirEntries (h : host) (d : string) : list string :=
  merge_sort strLe (map Base (selectWhere (inDir d) ((map_to_list (ho_files h)).*1 ++ (map_to_list (ho_dirs h)).*1))).

Definition osReadFile (p : string) : M host (ores string) :=
  f ← fault;
  match f with
  | Some _ => mret (Err ioError)
  | None => fs ← mgets ho_files; mret (match fs !! p with Some c => Ok c | None => Err noSuchFile end)
  end.
(** [os.WriteFile]: a failing write leaves a part of the data. *)
Definition osWriteFile (p data : string) : M host (ores unit) :=
  f ← fault;
  match f with
  | Some n => _ ← mmodify (λ h, with_files (<[p := substring 0 n data]> (ho_files h)) h); mret (Err ioError)
  | None => _ ← mmodify (λ h, with_files (<[p := data]> (ho_files h)) h); mret (Ok tt)
  end.
Definition osRename (p q : string) : M host (ores unit) :=
  f ← fault;
  match f with
  | Some _ => mret (Err ioError)
  | None => mstate (λ h,
      match ho_files h !! p with
      | Some c => (Ok tt, with_files (<[q := c]> (delete p (ho_files h))) h)
      | None => (Err noSuchFile, h)
      end)
  end.
(** [os.Remove]: a file, or an empty folder. *)
Definition osRemove (p : string) : M host (ores unit) :=
  f ← fault;
  match f with
  | Some _ => mret (Err ioError)
  | None => mstate (λ h,
      match ho_files h !! p, ho_dirs h !! p with
      | Some _, _ => (Ok tt, with_files (delete p (ho_files h)) h)
      | None, Some _ =>
        match dirEntries h p with
        | [] => (Ok tt, with_dirs (delete p (ho_dirs h)) h)
        | _ => (Err (EOther "directory not empty"), h)
        end
      | None, None => (Err noSuchFile, h)
      end)
  end.
(** [os.MkdirAll(dir, 0o700)]: an existing folder keeps its permissions. *)
Definition osMkdirAll (d : string) : M host (ores unit) :=
  f ← fault;
  match f with
  | Some _ => mret (Err ioError)
  | None => mstate (λ h,
      match ho_files h !! d, ho_dirs h !! d with
      | Some _, _ => (Err (EOther "not a directory"), h)
      | None, Some _ => (Ok tt, h)
      | None, None => (Ok tt, with_dirs (<[d := true]> (ho_dirs h)) h)
      end)
  end.
Definition osReadDir (d : string) : M host (ores (list string)) :=
  f ← fault;
  match f with
  | Some _ => mret (Err ioError)
  | None => h ← mget;
      mret (match ho_dirs h !! d with Some _ => Ok (dirEntries h d) | None => Err noSuchFile end)
  end.
(** [restrictDir]: only the owner may enter. *)
Definition restrictDir (d : string) : M host (ores unit) :=
  f ← fault;
  match f with
  | Some _ => mret (Err ioError)
  | None => mstate (λ h,
      match ho_dirs h !! d with
      | Some _ => (Ok tt, with_dirs (<[d := true]> (ho_dirs h)) h)
      | None => (Err noSuchFile, h)
      end)
  end.

(** ** Lemmas *)
(** Files other than those of [l] are as before, and nothing was reported. *)
Definition filesKept (l : list string) (h h' : host) : Prop :=
  (∀ p, p ∉ l → ho_files h' !! p = ho_files h !! p) ∧ ho_trace h' = ho_trace h.
#[export] Instance filesKept_preorder l : PreOrder (filesKept l).
Proof.
  split; [done|]. intros h1 h2 h3 [Hf Ht] [Hf' Ht']. split; [|congruence]. intros p Hp. by rewrite Hf', Hf.
Qed.
Definition dirsKept (h h' : host) : Prop := ho_dirs h' = ho_dirs h.
#[export] Instance dirsKept_preorder : PreOrder dirsKept.
Proof. split; unfold dirsKept; [done|intros h1 h2 h3; congruence]. Qed.

(** A call uses up a fault bit, then does its work or fails; without faults left it works. *)
Definition sameButFaults (h h' : host) : Prop :=
  ∃ l, h' = with_faults l h ∧ (ho_faults h = [] → l = []).
Lemma wp_fault (Q : option nat → host → Prop) h :
  (∀ h', sameButFaults h h' → Q None h') → (∀ n h', ho_faults h ≠ [] → sameButFaults h h' → Q (Some n) h') → wp fault Q h.
Proof.
  intros HN HS. unfold fault, wp, mstate. destruct h as [fs ds [|[n|] l] r t]; cbn.
  - apply HN. by exists [].
  - apply HS; [done|]. by exists l.
  - apply HN. by exists l.
Qed.
Lemma sameButFaults_spec h h' : sameButFaults h h' →
  ho_files h' = ho_files h ∧ ho_dirs h' = ho_dirs h ∧ ho_rand h' = ho_rand h ∧ ho_trace h' = ho_trace h
  ∧ (ho_faults h = [] → ho_faults h' = []).
Proof. intros (l & -> & Hl). by split_and!. Qed.
Lemma sameButFaults_filesKept l h h' : sameButFaults h h' → filesKept l h h'.
Proof. intros (Ef & _ & _ & Et & _)%sameButFaults_spec. split; [intros; by rewrite Ef|done]. Qed.
Lemma sameButFaults_dirsKept h h' : sameButFaults h h' → dirsKept h h'.
Proof. by intros (_ & Ed & _)%sameButFaults_spec. Qed.
Lemma sameButFaults_dirEntries h h' d : sameButFaults h h' → dirEntries h' d = dirEntries h d.
Proof. intros (Ef & Ed & _)%sameButFaults_spec. unfold dirEntries. by rewrite Ef, Ed. Qed.
Lemma sameButFaults_trans h1 h2 h3 : sameButFaults h1 h2 → sameButFaults h2 h3 → sameButFaults h1 h3.
Proof. intros (l & -> & Hl) (l' & -> & Hl'). exists l'. split; [done|]. cbn in Hl'. auto. Qed.
Lemma elem_of_map_keys {V} (m : gmap string V) p : p ∈ (map_to_list m).*1 ↔ is_Some (m !! p).
Proof.
  rewrite list_elem_of_fmap. split.
  - intros ([q v] & -> & Hx%elem_of_map_to_list). by exists v.
  - intros [v Hv]. exists (p, v). split; [done|]. by apply elem_of_map_to_list.
Qed.
(** A folder without entries. *)
Lemma dirEntries_nil h d :
  dirEntries h d = [] ↔ ∀ p, is_Some (ho_files h !! p) ∨ is_Some (ho_dirs h !! p) → inDir d p = false.
Proof.
  unfold dirEntries. set (l := _ ++ _).
  assert (Hl : ∀ p, p ∈ l ↔ is_Some (ho_files h !! p) ∨ is_Some (ho_dirs h !! p)).
  { intros p. unfold l. by rewrite elem_of_app, !elem_of_map_keys. }
  setoid_rewrite <-Hl. clearbody l. split.
  - intros E p Hp. apply not_true_is_false. intros Hin.
    assert (Hb : Base p ∈ merge_sort strLe (map Base (selectWhere (inDir d) l))).
    { rewrite merge_sort_Permutation. apply list_elem_of_fmap. exists p. split; [done|]. by apply elem_of_selectWhere. }
    rewrite E in Hb. by apply not_elem_of_nil in Hb.
  - intros Hno. replace (selectWhere (inDir d) l) with (@nil string); [done|].
    destruct (selectWhere (inDir d) l) as [|q k] eqn:E; [done|].
    assert (Hq : q ∈ selectWhere (inDir d) l) by (rewrite E; constructor). apply elem_of_selectWhere in Hq as [Hq Hi].
    by rewrite Hno in Hi.
Qed.
Lemma dirEntries_delete h d p : dirEntries h d = [] → dirEntries (with_dirs (delete p (ho_dirs h)) h) d = [].
Proof.
  rewrite !dirEntries_nil. cbn. intros Hno q Hq. apply Hno. destruct Hq as [|[x Hx]]; [by left|right].
  apply lookup_delete_Some in Hx as [_ ->]. eauto.
Qed.
Lemma filesKept_mono l l' h h' : l ⊆ l' → filesKept l h h' → filesKept l' h h'.
Proof. intros Hl [Hf Ht]. split; [|done]. intros p Hp. apply Hf. set_solver. Qed.
(** Changing one file, after a call. *)
Lemma filesKept_insert l p c h h' : filesKept l h h' → p ∈ l → filesKept l h (with_files (<[p := c]> (ho_files h')) h').
Proof. intros [Hf Ht] Hp. split; [|done]. intros q Hq. cbn. rewrite lookup_insert_ne by set_solver. auto. Qed.
Lemma filesKept_delete l p h h' : filesKept l h h' → p ∈ l → filesKept l h (with_files (delete p (ho_files h')) h').
Proof. intros [Hf Ht] Hp. split; [|done]. intros q Hq. cbn. rewrite lookup_delete_ne by set_solver. auto. Qed.
Lemma filesKept_move l p q c h h' : filesKept l h h' → p ∈ l → q ∈ l →
  filesKept l h (with_files (<[q := c]> (delete p (ho_files h'))) h').
Proof.
  intros [Hf Ht] Hp Hq. split; [|done]. intros x Hx. cbn. rewrite lookup_insert_ne, lookup_delete_ne by set_solver. auto.
Qed.
Lemma filesKept_dirs l d h h' : filesKept l h h' → filesKept l h (with_dirs d h').
Proof. done. Qed.
Create HintDb host discriminated.
#[export] Hint Resolve sameButFaults_filesKept sameButFaults_dirsKept filesKept_insert filesKept_delete filesKept_move : host.

Section wp_os.
Implicit Types (p q d : string) (h : host).
Lemma wp_osReadFile p (Q : ores string → host → Prop) h :
  (∀ e h', sameButFaults h h' → (ho_faults h = [] → e = noSuchFile ∧ ho_files h !! p = None) →
     (isNotExist e = true → ho_files h !! p = None) → Q (Err e) h') →
  (∀ c h', sameButFaults h h' → ho_files h !! p = Some c → Q (Ok c) h') →
  wp (osReadFile p) Q h.
Proof.
  intros HE HO. unfold osReadFile. apply wp_bind, wp_fault.
  - intros h' Hs. apply wp_bind, wp_gets, wp_ret. pose proof (sameButFaults_spec _ _ Hs) as (-> & _).
    destruct (ho_files h !! p) eqn:E; [by apply HO|by apply HE].
  - intros n h' Hf Hs. apply wp_ret, HE; [done|done|by intros].
Qed.
Lemma wp_osWriteFile p data (Q : ores unit → host → Prop) h :
  (∀ n h', sameButFaults h h' → ho_faults h ≠ [] → Q (Err ioError) (with_files (<[p := substring 0 n data]> (ho_files h')) h')) →
  (∀ h', sameButFaults h h' → Q (Ok tt) (with_files (<[p := data]> (ho_files h')) h')) →
  wp (osWriteFile p data) Q h.
Proof.
  intros HE HO. unfold osWriteFile. apply wp_bind, wp_fault.
  - intros h' Hs. apply wp_bind, wp_modify, wp_ret. by apply HO.
  - intros n h' Hf Hs. apply wp_bind, wp_modify, wp_ret. by apply HE.
Qed.
Lemma wp_osRename p q (Q : ores unit → host → Prop) h :
  (∀ e h', sameButFaults h h' → (ho_faults h = [] → ho_files h !! p = None) → Q (Err e) h') →
  (∀ c h', sameButFaults h h' → ho_files h !! p = Some c →
     Q (Ok tt) (with_files (<[q := c]> (delete p (ho_files h'))) h')) →
  wp (osRename p q) Q h.
Proof.
  intros HE HO. unfold osRename. apply wp_bind, wp_fault.
  - intros h' Hs. unfold wp, mstate. pose proof (sameButFaults_spec _ _ Hs) as (E & _). rewrite E.
    destruct (ho_files h !! p) eqn:Ep; cbn; [rewrite <-E; by eapply HO|by apply HE].
  - intros n h' Hf Hs. apply wp_ret, HE; [done|by intros].
Qed.
(** Removing: at most the file or the folder [p] goes. *)
Lemma wp_osRemove p (Q : ores unit → host → Prop) h :
  (∀ e h', sameButFaults h h' → (isNotExist e = true → ho_files h !! p = None) →
     (ho_faults h = [] → ho_files h !! p = None) → Q (Err e) h') →
  (∀ h', sameButFaults h h' → is_Some (ho_files h !! p) → Q (Ok tt) (with_files (delete p (ho_files h')) h')) →
  (∀ h', sameButFaults h h' → ho_files h !! p = None → dirEntries h' p = [] → Q (Ok tt) (with_dirs (delete p (ho_dirs h')) h')) →
  wp (osRemove p) Q h.
Proof.
  intros HE HF HD. unfold osRemove. apply wp_bind, wp_fault.
  - intros h' Hs. unfold wp, mstate. pose proof (sameButFaults_spec _ _ Hs) as (E & Ed & _). rewrite E, Ed.
    destruct (ho_files h !! p) eqn:Ep; cbn; [rewrite <-E; by apply HF|].
    destruct (ho_dirs h !! p); [|by apply HE]. destruct (dirEntries h' p) eqn:Ee; cbn; [rewrite <-Ed; by apply HD|by apply HE].
  - intros n h' Hf Hs. apply wp_ret, HE; [done|done|by intros].
Qed.
Lemma wp_osMkdirAll d (Q : ores unit → host → Prop) h :
  (∀ e h', sameButFaults h h' → Q (Err e) h') →
  (∀ h', sameButFaults h h' → is_Some (ho_dirs h !! d) → Q (Ok tt) h') →
  (∀ h', sameButFaults h h' → ho_dirs h !! d = None → Q (Ok tt) (with_dirs (<[d := true]> (ho_dirs h')) h')) →
  wp (osMkdirAll d) Q h.
Proof.
  intros HE HO HN. unfold osMkdirAll. apply wp_bind, wp_fault.
  - intros h' Hs. unfold wp, mstate. pose proof (sameButFaults_spec _ _ Hs) as (E & Ed & _). rewrite E, Ed.
    destruct (ho_files h !! d); [by apply HE|]. destruct (ho_dirs h !! d) eqn:Edd; cbn; [by apply HO|rewrite <-Ed; by apply HN].
  - intros n h' Hf Hs. by apply wp_ret, HE.
Qed.
Lemma wp_osReadDir d (Q : ores (list string) → host → Prop) h :
  (∀ e h', sameButFaults h h' → (isNotExist e = true → ho_dirs h !! d = None) → Q (Err e) h') →
  (∀ h', sameButFaults h h' → is_Some (ho_dirs h !! d) → Q (Ok (dirEntries h' d)) h') →
  wp (osReadDir d) Q h.
Proof.
  intros HE HO. unfold osReadDir. apply wp_bind, wp_fault.
  - intros h' Hs. apply wp_bind, wp_get, wp_ret. pose proof (sameButFaults_spec _ _ Hs) as (_ & Ed & _).
    destruct (ho_dirs h' !! d) eqn:E; [apply HO; [done|by rewrite <-Ed, E]|apply HE; [done|by rewrite <-Ed, E]].
  - intros n h' Hf Hs. by apply wp_ret, HE.
Qed.
Lemma wp_restrictDir d (Q : ores unit → host → Prop) h :
  (∀ e h', sameButFaults h h' → Q (Err e) h') →
  (∀ h', sameButFaults h h' → is_Some (ho_dirs h !! d) → Q (Ok tt) (with_dirs (<[d := true]> (ho_dirs h')) h')) →
  wp (restrictDir d) Q h.
Proof.
  intros HE HO. unfold restrictDir. apply wp_bind, wp_fault.
  - intros h' Hs. unfold wp, mstate. pose proof (sameButFaults_spec _ _ Hs) as (_ & Ed & _). rewrite Ed.
    destruct (ho_dirs h !! d) eqn:E; cbn; [rewrite <-Ed; by apply HO|by apply HE].
  - intros n h' Hf Hs. by apply wp_ret, HE.
Qed.
End wp_os.

(** ** On a working machine *)
Lemma osReadFile_run p (h : host) : ho_faults h = [] →
  osReadFile p h = (match ho_files h !! p with Some c => Ok c | None => Err noSuchFile end, h).
Proof. intros Hf. unfold osReadFile, fault, mbind, M_bind, mstate. by rewrite Hf. Qed.
Lemma osWriteFile_run p data (h : host) : ho_faults h = [] →
  osWriteFile p data h = (Ok tt, with_files (<[p := data]> (ho_files h)) h).
Proof. intros Hf. unfold osWriteFile, fault, mbind, M_bind, mstate. by rewrite Hf. Qed.
Lemma osRename_run p q c (h : host) : ho_faults h = [] → ho_files h !! p = Some c →
  osRename p q h = (Ok tt, with_files (<[q := c]> (delete p (ho_files h))) h).
Proof. intros Hf Hc. unfold osRename, fault, mbind, M_bind, mstate. rewrite Hf. cbn. by rewrite Hc. Qed.
