(* ===== verification/AgentConfig.v ===== *)
(** * The agent's configuration and key ([internal/agent/config.go], [internal/sshkey/sshkey.go])

    The file the agent reads at start and rewrites once enrolled, the folder it lives in, and the
    private key next to it. *)
From Stdlib Require Import ZArith Lia Ascii String.
From S2P Require Import Prelude GoStrings Library Version Paths Update Protocol Hub Host.
From stdpp Require Import base gmap strings list sorting.
Local Open Scope string_scope.
Local Open Scope list_scope.
Local Open Scope Z_scope.
Local Open Scope lotse_scope.

(** ** Keys

    [golang.org/x/crypto/ssh]: keys are their wire format. *)
Class Ssh := {
  (** [ssh.ParseAuthorizedKey]: the algorithm and the key. *)
  sshParseAuthorizedKey : string → option (string * string);
  (** [ssh.ParsePrivateKey]: the signer, named by its public key. *)
  ParsePrivateKey : string → option string;
  (** [ed25519.GenerateKey] with a seed, its PEM file and its public key. *)
  keyPEM : string → string;
  keyPublic : string → string;
}.
(** A key that was written is read back. *)
Class SshLaws `{Ssh} := parse_keyPEM : ∀ seed, ParsePrivateKey (keyPEM seed) = Some (keyPublic seed).

Section sshkey.
Context `{Ssh}.
Definition LoadOrCreate (path : string) : M host (result string string) :=
  data ← osReadFile path;
  match data with
  | Ok data => mret (match ParsePrivateKey data with Some k => Ok k | None => Err "ssh: no key found" end)
  | Err e =>
    if negb (isNotExist e) then mret (Err (osMsg e)) else
    seed ← randSeed;
    d ← osMkdirAll (Dir path);
    match d with
    | Err e => mret (Err (osMsg e))
    | Ok _ =>
      let tmp := path +:+ ".tmp" in
      w ← osWriteFile tmp (keyPEM seed);
      match w with
      | Err e => mret (Err (osMsg e))
      | Ok _ =>
        r ← osRename tmp path;
        match r with Err e => mret (Err (osMsg e)) | Ok _ => mret (Ok (keyPublic seed)) end
      end
    end
  end.
Definition KeyAlgoED25519 : string := "ssh-ed25519".
Definition ParseAuthorizedKey (s : string) : result string string :=
  match sshParseAuthorizedKey (TrimSpace s) with
  | None => Err "ssh: no key found"
  | Some (algo, key) => if negb (String.eqb algo KeyAlgoED25519) then Err "key must be ssh-ed25519" else Ok key
  end.
End sshkey.

(** ** Configuration *)
Record Config := mkConfig {
  cf_HubURL : string;
  cf_HubKey : string;
  cf_Token : string;
  cf_AllowShell : bool;
  cf_DisableUpdates : bool;
  cf_path : string;
}.
Definition with_Token (t : string) (c : Config) : Config :=
  mkConfig (cf_HubURL c) (cf_HubKey c) t (cf_AllowShell c) (cf_DisableUpdates c) (cf_path c).
Definition with_DisableUpdates (b : bool) (c : Config) : Config :=
  mkConfig (cf_HubURL c) (cf_HubKey c) (cf_Token c) (cf_AllowShell c) b (cf_path c).
(** Its JSON; empty tokens and [false] for updates are left out. *)
Definition configJSON (c : Config) : json :=
  JObj ([("hub_url", JStr (cf_HubURL c)); ("hub_key", JStr (cf_HubKey c))]
        ++ (if String.eqb (cf_Token c) "" then [] else [("token", JStr (cf_Token c))])
        ++ [("allow_shell", JBool (cf_AllowShell c))]
        ++ (if cf_DisableUpdates c then [("disable_updates", JBool true)] else [])).

Definition DefaultConfigPath (os : goos) (ProgramData : string) : string :=
  let dir := match os with
             | Windows => pathJoin [if String.eqb ProgramData "" then "C:\ProgramData" else ProgramData; AgentName]
             | Darwin => pathJoin ["/Library/Application Support"; AgentName]
             | Linux => pathJoin ["/etc"; AgentName]
             end in
  pathJoin [dir; "agent.json"].
Definition KeyPath (c : Config) : string := pathJoin [Dir (cf_path c); "agent_ed25519"].
Definition ownFiles (c : Config) : list string :=
  let name := Base (cf_path c) in
  let key := Base (KeyPath c) in
  [name; name +:+ ".tmp"; key; key +:+ ".tmp"; "agent.log"; "agent.log.1"].

Section config.
Context `{Lib} `{Ssh} `{Marshal}.
(** [json.Unmarshal] into a new config with the path set. *)
Context `{!Unmarshal Config}.

Definition Validate (c : Config) : result string unit :=
  let bad := Err ("hub URL must look like http(s)://host:port, got " +:+ Quote (cf_HubURL c)) in
  match urlParse (cf_HubURL c) with
  | None => bad
  | Some u =>
    if negb (String.eqb (url_Scheme u) "http") && negb (String.eqb (url_Scheme u) "https") || String.eqb (url_Host u) ""
    then bad else
    match ParseAuthorizedKey (cf_HubKey c) with
    | Err e => Err ("invalid hub key: " +:+ e)
    | Ok _ => Ok tt
    end
  end.
Definition with_path (p : string) (c : Config) : Config :=
  mkConfig (cf_HubURL c) (cf_HubKey c) (cf_Token c) (cf_AllowShell c) (cf_DisableUpdates c) p.
Definition LoadConfig (path : string) : M host (result string Config) :=
  data ← osReadFile path;
  match data with
  | Err e => mret (Err (osMsg e))
  | Ok data =>
    let '(c, ok) := (unmarshal data : Config * bool) in
    if negb ok then mret (Err ("parse " +:+ path)) else
    let c := with_path path c in
    mret (match Validate c with Err e => Err e | Ok _ => Ok c end)
  end.
Definition NewConfig (path hubURL hubKey token : string) (allowShell : bool) : result string Config :=
  let c := mkConfig hubURL hubKey token allowShell false path in
  match Validate c with Err e => Err e | Ok _ => Ok c end.

(** Whether the folder holds nothing but the agent's own files. *)
Definition DedicatedDir (c : Config) : M host (ores bool) :=
  entries ← osReadDir (Dir (cf_path c));
  match entries with
  | Err e => mret (if isNotExist e then Ok true else Err e)
  | Ok entries => mret (Ok (forallb (λ e, existsb (String.eqb e) (ownFiles c)) entries))
  end.
(** The last part of [Save]: a complete file replaces the old one. *)
Definition writeConfig (c : Config) : M host (ores unit) :=
  let data := marshal (configJSON c) +:+ NL in
  let tmp := cf_path c +:+ ".tmp" in
  w ← osWriteFile tmp data;
  match w with Err e => mret (Err e) | Ok _ => osRename tmp (cf_path c) end.
Definition Save (c : Config) : M host (ores unit) :=
  let dir := Dir (cf_path c) in
  d ← osMkdirAll dir;
  match d with
  | Err e => mret (Err e)
  | Ok _ =>
    dedicated ← DedicatedDir c;
    match dedicated with
    | Err e => mret (Err e)
    | Ok dedicated =>
      r ← (if (dedicated : bool) then restrictDir dir else mret (Ok tt));
      match r with
      | Err e => mret (Err (EOther ("restrict permissions on " +:+ dir +:+ ": " +:+ osMsg e)))
      | Ok _ => writeConfig c
      end
    end
  end.

(** The loop of [PurgeConfig] over the agent's files. *)
Fixpoint removeAll (paths : list string) : M host (ores unit) :=
  match paths with
  | [] => mret (Ok tt)
  | p :: rest =>
    r ← osRemove p;
    match r with
    | Err e => if isNotExist e then removeAll rest else mret (Err e)
    | Ok _ => removeAll rest
    end
  end.
Definition ownPaths (path : string) : list string :=
  map (λ name, pathJoin [Dir path; name]) (ownFiles (mkConfig "" "" "" false false path)).
Definition PurgeConfig (path : string) : M host (ores unit) :=
  let dir := Dir path in
  r ← removeAll (ownPaths path);
  match r with
  | Err e => mret (Err e)
  | Ok _ =>
    d ← osRemove dir;
    match d with
    | Ok _ => mret (Ok tt)
    | Err e =>
      if isNotExist e then mret (Ok tt) else
      entries ← osReadDir dir;
      mret (match entries with
            | Ok (_ :: _) => Ok tt        (* other files live there *)
            | _ => Err e
            end)
    end
  end.

(** ** Properties *)
Implicit Types (c : Config) (h : host).
Lemma append_neq p s : s ≠ "" → p +:+ s ≠ p.
Proof.
  intros Hs. induction p as [|a p IH]; [done|]. rewrite append_cons. intros [=]. done.
Qed.
Lemma tmp_neq c : cf_path c +:+ ".tmp" ≠ cf_path c.
Proof. by apply append_neq. Qed.
Lemma wp_writeConfig c (Q : ores unit → host → Prop) h :
  (∀ e h', filesKept [cf_path c +:+ ".tmp"] h h' → dirsKept h h' → Q (Err e) h') →
  (∀ h', filesKept [cf_path c; cf_path c +:+ ".tmp"] h h' → dirsKept h h' →
     ho_files h' !! cf_path c = Some (marshal (configJSON c) +:+ NL) → Q (Ok tt) h') →
  wp (writeConfig c) Q h.
Proof.
  intros HE HO. set (tmp := cf_path c +:+ ".tmp"). unfold writeConfig. apply wp_bind, wp_osWriteFile.
  - intros n h1 Hs _. apply wp_ret, HE; [eauto 6 using list_elem_of_here with host|by apply (sameButFaults_dirsKept h h1)].
  - intros h1 Hs. set (h1' := with_files _ h1).
    assert (Hk : ∀ l, tmp ∈ l → filesKept l h h1') by eauto with host.
    assert (Hd : dirsKept h h1') by (by apply (sameButFaults_dirsKept h h1)). apply wp_osRename.
    + intros e h2 Hs2 _. apply HE; (etrans; [|eauto with host]); [apply Hk; set_solver|exact Hd].
    + intros x h2 Hs2 Hx. cbn in Hx. rewrite lookup_insert_eq in Hx. injection Hx as <-. apply HO.
      * apply filesKept_move; [|set_solver|set_solver]. etrans; [|by apply sameButFaults_filesKept]. apply Hk. set_solver.
      * etrans; [exact Hd|]. by apply (sameButFaults_dirsKept h1' h2).
      * cbn. by rewrite lookup_insert_eq.
Qed.
(** The folder is tightened only when it was new or held nothing else. *)
Definition dirSpared c h h' : Prop :=
  let dir := Dir (cf_path c) in
  (∀ d, d ≠ dir → ho_dirs h' !! d = ho_dirs h !! d)
  ∧ (ho_dirs h' !! dir ≠ ho_dirs h !! dir →
     ho_dirs h !! dir = None ∨ ∀ name, name ∈ dirEntries h dir → name ∈ ownFiles c).
Definition savePost c h (r : ores unit) h' : Prop :=
  filesKept [cf_path c; cf_path c +:+ ".tmp"] h h' ∧ dirSpared c h h'
  ∧ match r with
    | Ok _ => ho_files h' !! cf_path c = Some (marshal (configJSON c) +:+ NL)
    | Err _ => ho_files h' !! cf_path c = ho_files h !! cf_path c
    end.

Lemma dedicated_own c h :
  forallb (λ e, existsb (String.eqb e) (ownFiles c)) (dirEntries h (Dir (cf_path c))) = true →
  ∀ name, name ∈ dirEntries h (Dir (cf_path c)) → name ∈ ownFiles c.
Proof.
  rewrite forallb_forall. intros Hall name Hn%list_elem_of_In. specialize (Hall name Hn).
  apply existsb_exists in Hall as (x & Hx & ->%String.eqb_eq). by apply list_elem_of_In.
Qed.
Lemma savePost_err c h h' e : filesKept [] h h' → dirSpared c h h' → savePost c h (Err e) h'.
Proof.
  intros Hf Hd. split_and!; [|done|apply Hf; set_solver].
  eapply filesKept_mono; [|done]. set_solver.
Qed.
Lemma wp_writeConfig_save c h h1 : filesKept [] h h1 → dirSpared c h h1 → wp (writeConfig c) (savePost c h) h1.
Proof.
  intros Hf [Hd Hs]. assert (Hk : ∀ l, filesKept l h h1) by (intros; eapply filesKept_mono; [|done]; set_solver).
  apply wp_writeConfig.
  - intros e h2 Hf2 Hd2. split_and!; [etrans; [apply Hk|]; eapply filesKept_mono; [|done]; set_solver| |].
    + split; unfold dirsKept in Hd2; rewrite Hd2; [exact Hd|exact Hs].
    + destruct Hf2 as [Hf2 _]. rewrite Hf2; [apply Hf; set_solver|]. intros Hin%list_elem_of_singleton. symmetry in Hin. by apply tmp_neq in Hin.
  - intros h2 Hf2 Hd2 Hc. split_and!; [by etrans; [apply Hk|]| |done].
    split; unfold dirsKept in Hd2; rewrite Hd2; [exact Hd|exact Hs].
Qed.
(** From the check of the folder on; [h1] has the folder. *)
Lemma wp_save_rest c h h1 :
  filesKept [] h h1 → dirSpared c h h1 → (ho_dirs h !! Dir (cf_path c) = None ∨ ho_dirs h1 = ho_dirs h) →
  wp (dedicated ← DedicatedDir c;
      match dedicated with
      | Err e => mret (Err e)
      | Ok dedicated =>
        r ← (if (dedicated : bool) then restrictDir (Dir (cf_path c)) else mret (Ok tt));
        match r with
        | Err e => mret (Err (EOther ("restrict permissions on " +:+ Dir (cf_path c) +:+ ": " +:+ osMsg e)))
        | Ok _ => writeConfig c
        end
      end) (savePost c h) h1.
Proof.
  intros Hf Hd Hnew. assert (Hend : ∀ h2, filesKept [] h h2 ∧ dirSpared c h h2 → ∀ e, savePost c h (Err e) h2)
    by (intros h2 [??] e; by apply savePost_err).
  assert (Hs2 : ∀ h2, sameButFaults h1 h2 → filesKept [] h h2 ∧ dirSpared c h h2).
  { intros h2 Hs. split; [etrans; eauto with host|]. pose proof (sameButFaults_dirsKept _ _ Hs) as E. unfold dirsKept in E.
    destruct Hd as [Hd1 Hd2]. split; rewrite E; auto. }
  assert (Htight : ∀ h2, sameButFaults h1 h2 →
    (is_Some (ho_dirs h1 !! Dir (cf_path c)) → ∀ name, name ∈ dirEntries h1 (Dir (cf_path c)) → name ∈ ownFiles c) →
    wp (r ← restrictDir (Dir (cf_path c));
        match r with
        | Err e => mret (Err (EOther ("restrict permissions on " +:+ Dir (cf_path c) +:+ ": " +:+ osMsg e)))
        | Ok _ => writeConfig c
        end) (savePost c h) h2).
  { intros h2 Hs Hown. destruct (Hs2 h2 Hs) as [Hf2 Hd2]. apply wp_bind, wp_restrictDir.
    - intros e h3 Hs3. apply wp_ret. apply savePost_err; [etrans; eauto with host|].
      pose proof (sameButFaults_dirsKept _ _ Hs3) as E. unfold dirsKept in E. destruct Hd2 as [Ha Hb]. split; rewrite E; auto.
    - intros h3 Hs3 Hex. rewrite (sameButFaults_dirsKept _ _ Hs) in Hex. apply wp_writeConfig_save; [change (filesKept [] h h3); etrans; eauto with host|].
      pose proof (sameButFaults_dirsKept _ _ Hs3) as E. unfold dirsKept in E. destruct Hd2 as [Ha Hb]. split.
      + intros d Hne. cbn. rewrite lookup_insert_ne by done. rewrite E. auto.
      + intros _. destruct Hnew as [Hn|Hn]; [by left|right]. intros name Hname. apply Hown; [done|].
        unfold dirEntries in *. destruct Hf as [Hfl _]. rewrite Hn. replace (ho_files h1) with (ho_files h); [done|].
        apply map_eq. intros p. symmetry. apply Hfl. set_solver. }
  unfold DedicatedDir. apply wp_bind, wp_bind, wp_osReadDir.
  - intros e h2 Hs Hne. apply wp_ret. destruct (isNotExist e) eqn:Ee.
    + apply Htight; [done|]. rewrite (Hne eq_refl). by intros [].
    + apply wp_ret. by apply Hend, Hs2.
  - intros h2 Hs _. apply wp_ret. rewrite (sameButFaults_dirEntries _ _ _ Hs). destruct (forallb _ _) eqn:Eall.
    + apply Htight; [done|]. intros _. by apply dedicated_own.
    + apply wp_bind, wp_ret, wp_writeConfig_save; by apply Hs2.
Qed.

Lemma wp_Save c h : wp (Save c) (savePost c h) h.
Proof.
  unfold Save. apply wp_bind, wp_osMkdirAll.
  - intros e h1 Hs. apply wp_ret, savePost_err; eauto with host.
    split; rewrite (sameButFaults_dirsKept _ _ Hs); done.
  - intros h1 Hs _. apply wp_save_rest; [eauto with host| |right; by apply sameButFaults_dirsKept].
    split; rewrite (sameButFaults_dirsKept _ _ Hs); done.
  - intros h1 Hs Hnone. apply wp_save_rest; [by apply (sameButFaults_filesKept [] h h1)| |by left].
    pose proof (sameButFaults_dirsKept _ _ Hs) as E. unfold dirsKept in E. split; cbn.
    + intros d Hd. by rewrite lookup_insert_ne, E.
    + by left.
Qed.

(** Saving the configuration is atomic and spares a shared folder: whatever call fails, the
    configuration file holds the old contents or the complete new ones, no file but it and its temporary
    copy is touched, and the folder's permissions change only when it is new or holds nothing but
    the agent's own files. *)
Theorem save_atomic (c : Config) (h : host) : let '(r, h') := Save c h in savePost c h r h'.
Proof. apply wp_let, wp_Save. Qed.

(** ** Purging *)
(** No folder outside [l] is touched. *)
Definition dirsKeptBut (l : list string) (h h' : host) : Prop := ∀ d, d ∉ l → ho_dirs h' !! d = ho_dirs h !! d.
#[local] Instance dirsKeptBut_preorder l : PreOrder (dirsKeptBut l).
Proof. split; [done|]. intros h1 h2 h3 H12 H23 d Hd. by rewrite H23, H12. Qed.
Definition removes (l : list string) := both (filesKept l) (dirsKeptBut l).
Lemma removes_same l h h' : sameButFaults h h' → removes l h h'.
Proof. intros Hs. split; [eauto with host|]. intros d _. by rewrite (sameButFaults_dirsKept _ _ Hs). Qed.
Lemma removes_mono l l' h h' : l ⊆ l' → removes l h h' → removes l' h h'.
Proof. intros Hl [Hf Hd]. split; [by eapply filesKept_mono|]. intros d Hn. apply Hd. set_solver. Qed.
#[local] Instance removes_preorder l : PreOrder (removes l).
Proof. unfold removes. apply _. Qed.
(** [os.Remove] of [p]: it is gone, or no file; or the call failed. *)
Lemma wp_osRemove_removes p (Q : ores unit → host → Prop) h :
  (∀ e h', removes [p] h h' → (isNotExist e = true → ho_files h' !! p = None) → Q (Err e) h') →
  (∀ h', removes [p] h h' → ho_files h' !! p = None → Q (Ok tt) h') →
  wp (osRemove p) Q h.
Proof.
  intros HE HO. apply wp_osRemove.
  - intros e h1 Hs Hne _. apply HE; [by apply removes_same|]. intros Hn. destruct (sameButFaults_spec _ _ Hs) as [-> _]. auto.
  - intros h1 Hs _. apply HO; [|cbn; by rewrite lookup_delete_eq]. destruct (removes_same [p] _ _ Hs) as [Hf Hd].
    split; [apply filesKept_delete; [done|set_solver]|done].
  - intros h1 Hs Hn _. destruct (removes_same [p] _ _ Hs) as [Hf Hd]. destruct (sameButFaults_spec _ _ Hs) as [Ef _].
    apply HO; [|cbn; by rewrite Ef]. split; [done|]. intros d Hd'. cbn. rewrite lookup_delete_ne by set_solver. by apply Hd.
Qed.
(** Of the paths of [l] each is gone, or is no file. *)
Lemma wp_removeAll l (Q : ores unit → host → Prop) h :
  (∀ e h', removes l h h' → Q (Err e) h') →
  (∀ h', removes l h h' → (∀ p, p ∈ l → ho_files h' !! p = None) → Q (Ok tt) h') →
  wp (removeAll l) Q h.
Proof.
  revert h Q. induction l as [|p l IH]; intros h Q HE HO; cbn [removeAll]; [apply wp_ret, HO; [done|set_solver]|].
  assert (Hnext : ∀ h1, removes [p] h h1 → ho_files h1 !! p = None → wp (removeAll l) Q h1).
  { intros h1 Hk Hnone. assert (Hk' : removes (p :: l) h h1) by (eapply removes_mono; [|done]; set_solver).
    apply IH.
    - intros e h2 Hk2. apply HE. etrans; [done|]. eapply removes_mono; [|done]. set_solver.
    - intros h2 Hk2 Hgone. apply HO; [etrans; [done|]; eapply removes_mono; [|done]; set_solver|].
      intros q Hq. destruct (decide (q ∈ l)) as [|Hni]; [auto|]. apply elem_of_cons in Hq as [->|]; [|done].
      destruct Hk2 as [[Hk2 _] _]. by rewrite Hk2. }
  apply wp_bind, wp_osRemove_removes.
  - intros e h1 Hk Hne. destruct (isNotExist e) eqn:Ee; [by apply Hnext; [done|apply Hne]|].
    apply wp_ret, HE. eapply removes_mono; [|done]. set_solver.
  - intros h1 Hk Hn. by apply Hnext.
Qed.

(** Purging removes the agent's own files and nothing else: no other file or folder is touched,
    success means that the configuration, the key and the log next to them are gone, and the
    folder goes only when nothing is left in it. *)
Theorem purge_own_files (path : string) (h : host)
    (Hdir : Dir path ∉ ownPaths path) (Hf : ho_files h !! Dir path = None) :
  let '(r, h') := PurgeConfig path h in
  filesKept (ownPaths path) h h' ∧ dirsKeptBut (Dir path :: ownPaths path) h h'
  ∧ (r = Ok tt → ∀ p, p ∈ ownPaths path → ho_files h' !! p = None)
  ∧ (ho_dirs h' !! Dir path ≠ ho_dirs h !! Dir path → dirEntries h' (Dir path) = []).
Proof.
  apply wp_let. unfold PurgeConfig.
  assert (Hd : ∀ h1, removes (ownPaths path) h h1 → dirsKeptBut (Dir path :: ownPaths path) h h1
    ∧ ho_dirs h1 !! Dir path = ho_dirs h !! Dir path).
  { intros h1 [_ Hk]. split; [intros d Hd; apply Hk; set_solver|by apply Hk]. }
  apply wp_bind, wp_removeAll; [intros e h1 Hk; destruct (Hd _ Hk); destruct Hk; apply wp_ret; split_and!; naive_solver|].
  intros h1 Hk Hgone. destruct (Hd _ Hk) as [Hd1 Hd2]. destruct Hk as [Hk1 Hk2].
  assert (Hsame : ∀ h2, sameButFaults h1 h2 → filesKept (ownPaths path) h h2 ∧ dirsKeptBut (Dir path :: ownPaths path) h h2
    ∧ (∀ p, p ∈ ownPaths path → ho_files h2 !! p = None) ∧ ho_dirs h2 !! Dir path = ho_dirs h !! Dir path).
  { intros h2 Hs. destruct (sameButFaults_spec _ _ Hs) as (Ef & Ed & _). split_and!; [etrans; eauto with host| |by rewrite Ef|congruence].
    intros d Hn. rewrite Ed. auto. }
  apply wp_bind, wp_osRemove.
  - intros e h2 Hs _ _. destruct (Hsame _ Hs) as (? & ? & ? & ?). destruct (isNotExist e); [by apply wp_ret|].
    apply wp_bind, wp_osReadDir.
    + intros e2 h3 Hs3 _. destruct (Hsame h3) as (? & ? & ? & ?); [by eapply sameButFaults_trans|]. by apply wp_ret.
    + intros h3 Hs3 _. destruct (Hsame h3) as (? & ? & ? & ?); [by eapply sameButFaults_trans|]. by apply wp_ret.
  - intros h2 Hs [x Hx]. destruct Hk1 as [Hk1 _]. rewrite (Hk1 _ Hdir), Hf in Hx. discriminate.
  - intros h2 Hs _ Hempty. destruct (Hsame _ Hs) as (? & Hdk & ? & ?). apply wp_ret. split_and!; [done| |done|].
    + intros d Hn. cbn. rewrite lookup_delete_ne by set_solver. by apply Hdk.
    + intros _. by apply dirEntries_delete.
Qed.
End config.

(** ** Keys: properties *)
Section keys.
Context `{Ssh} `{!SshLaws}.
Implicit Types (h : host).
(** What a successful call leaves in the file. *)
Definition keyWritten path (r : result string string) h : Prop :=
  ∀ k, r = Ok k → ∃ data, ho_files h !! path = Some data ∧ ParsePrivateKey data = Some k.
Lemma wp_LoadOrCreate path h : wp (LoadOrCreate path) (keyWritten path) h.
Proof.
  assert (Herr : ∀ e h1, keyWritten path (Err e) h1) by (intros ????; discriminate).
  unfold LoadOrCreate. apply wp_bind, wp_osReadFile.
  - intros e h1 _ _ _. destruct (negb (isNotExist e)); [by apply wp_ret|].
    apply wp_bind. eapply (wp_steps (λ _ _, True)); [done|]. intros seed h2 _.
    apply wp_bind. eapply (wp_steps (λ _ _, True)); [done|]. intros [[]|e2] h3 _; [|by apply wp_ret].
    apply wp_bind, wp_osWriteFile; [intros; by apply wp_ret|]. intros h4 _.
    apply wp_bind, wp_osRename; [intros; by apply wp_ret|]. intros c h5 _ Hc. cbn in Hc. rewrite lookup_insert_eq in Hc.
    injection Hc as <-. apply wp_ret. intros k [= <-]. exists (keyPEM seed). split; [cbn; apply lookup_insert_eq|apply parse_keyPEM].
  - intros c h1 Hs Hc. apply wp_ret. intros k Hk. exists c. destruct (sameButFaults_spec _ _ Hs) as [-> _]. split; [done|].
    by destruct (ParsePrivateKey c); simplify_eq.
Qed.

(** The agent keeps its identity: once a key was loaded or created, every later start that can read the file
    gets the same key; creating it writes the complete file before it gets its name. *)
Theorem identity_stable (path k : string) (h h1 h2 : host)
    (Hload : LoadOrCreate path h = (Ok k, h1)) (Hfile : ho_files h2 !! path = ho_files h1 !! path) (Hf : ho_faults h2 = []) :
  (LoadOrCreate path h2).1 = Ok k.
Proof.
  destruct (wp_run _ _ _ _ _ (wp_LoadOrCreate path h) Hload k eq_refl) as (data & Hd & Hp).
  unfold LoadOrCreate, osReadFile, fault, mbind, M_bind, mstate, mgets, mret, M_ret. rewrite Hf. cbn. by rewrite Hfile, Hd, Hp.
Qed.
End keys.

(** ** Witnesses *)
#[export] Instance demoSsh : Ssh := {|
  sshParseAuthorizedKey s := if String.eqb s "" then None else Some (KeyAlgoED25519, s);
  ParsePrivateKey s := Some s;
  keyPEM s := s;
  keyPublic s := s;
|}.
#[export] Instance demoSshLaws : SshLaws.
Proof. done. Qed.
Definition demoHostAt (files : gmap string string) : host := mkHost files {["/etc/lotse-agent" := true]} [] ["seed"] [].
Definition demoConfigPath : string := "/etc/lotse-agent/agent.json".
Lemma purge_own_files_witness :
  let h := demoHostAt {[demoConfigPath := "{}"; "/etc/hosts" := "x"]} in
  filesKept (ownPaths demoConfigPath) h (PurgeConfig demoConfigPath h).2
  ∧ ho_files (PurgeConfig demoConfigPath h).2 = {["/etc/hosts" := "x"]}.
Proof.
  intros h.
  assert (Hd : Dir demoConfigPath ∉ ownPaths demoConfigPath) by (apply (bool_decide_unpack _); vm_compute; exact I).
  pose proof (purge_own_files demoConfigPath h Hd eq_refl) as Hp. destruct (PurgeConfig demoConfigPath h) as [r h'] eqn:E.
  split; [apply Hp|]. vm_compute in E. injection E as _ <-. reflexivity.
Defined.
Lemma identity_stable_witness : (LoadOrCreate "/k" (LoadOrCreate "/k" (demoHostAt ∅)).2).1 = Ok "seed".
Proof. apply (identity_stable "/k" "seed" (demoHostAt ∅) (LoadOrCreate "/k" (demoHostAt ∅)).2); vm_compute; reflexivity. Defined.
