(* ===== verification/AgentState.v ===== *)
(** * The agent's state ([Agent] of [internal/agent/agent.go]) *)
From Stdlib Require Import ZArith Lia Ascii String.
From S2P Require Import Prelude GoStrings Library Version Paths Update Protocol Hub Host AgentConfig.
From stdpp Require Import base gmap strings list.
Local Open Scope string_scope.
Local Open Scope list_scope.
Local Open Scope Z_scope.
Local Open Scope lotse_scope.

Record agent := mkAgent {
  ag_cfg : Config;
  ag_sessions : Z;             (* open session channels *)
  ag_updating : bool;
  ag_intervals : option Z;     (* the channel of capacity one to the reporting loop *)
  ag_os : goos;                (* [runtime.GOOS] *)
  ag_arch : string;            (* [runtime.GOARCH] *)
  ag_Executable : string;
  ag_canRestart : bool;        (* [Restart] is set *)
  ag_version : string;         (* [version.Version] *)
  ag_host : host;
}.
Definition with_cfg c a := mkAgent c (ag_sessions a) (ag_updating a) (ag_intervals a) (ag_os a) (ag_arch a) (ag_Executable a) (ag_canRestart a) (ag_version a) (ag_host a).
Definition with_sessions n a := mkAgent (ag_cfg a) n (ag_updating a) (ag_intervals a) (ag_os a) (ag_arch a) (ag_Executable a) (ag_canRestart a) (ag_version a) (ag_host a).
Definition with_updating b a := mkAgent (ag_cfg a) (ag_sessions a) b (ag_intervals a) (ag_os a) (ag_arch a) (ag_Executable a) (ag_canRestart a) (ag_version a) (ag_host a).
Definition with_intervals i a := mkAgent (ag_cfg a) (ag_sessions a) (ag_updating a) i (ag_os a) (ag_arch a) (ag_Executable a) (ag_canRestart a) (ag_version a) (ag_host a).
Definition with_host h a := mkAgent (ag_cfg a) (ag_sessions a) (ag_updating a) (ag_intervals a) (ag_os a) (ag_arch a) (ag_Executable a) (ag_canRestart a) (ag_version a) h.
(** A call that concerns the machine only. *)
Definition onHost {A} (m : M host A) : M agent A := λ a,
  let '(x, h) := m (ag_host a) in (x, with_host h a).
(** An event on the machine. *)
Definition happen (e : hevent) : M agent unit := onHost (emit e).
Definition trace (a : agent) : list hevent := ho_trace (ag_host a).

Lemma wp_onHost {A} (m : M host A) (Q : A → agent → Prop) a :
  wp m (λ x h, Q x (with_host h a)) (ag_host a) → wp (onHost m) Q a.
Proof. unfold wp, onHost. by destruct (m (ag_host a)). Qed.
Lemma wp_happen e (Q : unit → agent → Prop) a :
  Q tt (with_host (with_trace (trace a ++ [e]) (ag_host a)) a) → wp (happen e) Q a.
Proof. done. Qed.
(** What the agent is allowed to do does not change while it runs. *)
Definition sameRights (a a' : agent) : Prop :=
  cf_AllowShell (ag_cfg a') = cf_AllowShell (ag_cfg a) ∧ cf_DisableUpdates (ag_cfg a') = cf_DisableUpdates (ag_cfg a).
#[export] Instance sameRights_preorder : PreOrder sameRights.
Proof. split; unfold sameRights; [done|intros a b c [??] [??]; split; congruence]. Qed.
