(* ===== verification/AgentUpdate.v ===== *)
(** * Installing an update ([internal/agent/update.go])

    The checks of the manifest, receiving the binary next to the installed one, checking that it
    is what was signed and that it runs, and swapping it in. *)
From Stdlib Require Import ZArith Lia Ascii String.
From S2P Require Import Prelude GoStrings Library Version Paths Web Update Protocol Hub Host AgentConfig AgentState.
From stdpp Require Import base gmap strings list.
Local Open Scope string_scope.
Local Open Scope list_scope.
Local Open Scope Z_scope.
Local Open Scope lotse_scope.

(** 200 MB. *)
Definition maxUpdateSize : Z := 200 * 2 ^ 20.
(** [encoding/hex.EncodeToString]. *)
Definition hexDigit (n : Z) : ascii := ascii_of (if n <? 10 then 48 + n else 87 + n).
Fixpoint hexEncode (s : string) : string :=
  match s with
  | EmptyString => EmptyString
  | String a r => let n := Z.of_nat (nat_of_ascii a) in String (hexDigit (n / 16)) (String (hexDigit (n mod 16)) (hexEncode r))
  end.
Example hexEncode_example : hexEncode (String (ascii_of 0) (String (ascii_of 171) "A")) = "00ab41".
Proof. reflexivity. Qed.

(** What the hub sends on the channel: the bytes that arrive, and whether the stream broke off
    with an error rather than ended. *)
Record stream := mkStream { sm_data : string; sm_broken : bool }.

Section install.
Context `{Lib}.
(** What a program with these contents prints when it is run with the argument "version". *)
Context (runVersion : string → option string).

(** How [os.CreateTemp] puts a name into a folder. *)
Definition joinPath (dir name : string) : string := if HasSuffix dir "/" then dir +:+ name else dir +:+ "/" +:+ name.
(** [os.CreateTemp(dir, pattern)]: the first free one of the names the generator proposes. *)
Fixpoint createTempIn (seeds : list string) (mk : string → string) (h : host) : ores string * host :=
  match seeds with
  | [] => (Err (EOther "file exists"), h)
  | s :: rest =>
    let p := mk s in
    match ho_files h !! p with
    | Some _ => createTempIn rest mk (with_rand rest h)
    | None => (Ok p, with_files (<[p := ""]> (ho_files h)) (with_rand rest h))
    end
  end.
Definition osCreateTemp (dir pre suf : string) : M host (ores string) :=
  f ← fault;
  match f with
  | Some _ => mret (Err ioError)
  | None => mstate (λ h, createTempIn (ho_rand h) (λ s, joinPath dir (pre +:+ s +:+ suf)) h)
  end.
(** Writing what arrives, at most [size] bytes, and closing the file: how much arrived. *)
Definition receive (tmp : string) (r : stream) (size : Z) : M host (ores string) :=
  let data := substring 0 (Z.to_nat size) (sm_data r) in
  w ← osWriteFile tmp data;
  match w with
  | Err e => mret (Err e)
  | Ok _ =>
    if (strLen data <? size) && sm_broken r then mret (Err (EOther "connection lost"))
    else c ← fault; mret (match c with Some _ => Err ioError | None => Ok data end)
  end.
(** [exec.Command(tmp, "version").Output()]. *)
Definition execVersion (tmp : string) : M host (option string) :=
  _ ← emit (HExec [tmp; "version"]);
  fs ← mgets ho_files;
  mret (c ← fs !! tmp; runVersion c).
(** The last part of [install]: on Windows the running binary has to move away first. *)
Definition swapIn (os : goos) (tmp exe : string) : M host (result string unit) :=
  match os with
  | Windows =>
    let old := exe +:+ ".old" in
    _ ← osRemove old;
    r1 ← osRename exe old;
    match r1 with
    | Err e => mret (Err (osMsg e))
    | Ok _ =>
      r2 ← osRename tmp exe;
      match r2 with
      | Err e => _ ← osRename old exe; mret (Err (osMsg e))
      | Ok _ => mret (Ok tt)
      end
    end
  | _ => r ← osRename tmp exe; mret (match r with Ok _ => Ok tt | Err e => Err (osMsg e) end)
  end.
(** What [install] does with the temporary file. *)
Definition installFrom (os : goos) (exe tmp : string) (r : stream) (m : Manifest) : M host (result string unit) :=
  data ← receive tmp r (mf_Size m);
  match data with
  | Err e => mret (Err ("receiving the update failed: " +:+ osMsg e))
  | Ok data =>
    if negb (strLen data =? mf_Size m) || negb (String.eqb (hexEncode (sha256 data)) (mf_SHA256 m))
    then mret (Err "the received binary does not match the signed checksum") else
    c ← fault;      (* os.Chmod *)
    match c with
    | Some _ => mret (Err (osMsg ioError))
    | None =>
      out ← execVersion tmp;
      match out with
      | None => mret (Err "the new binary does not run on this machine")
      | Some out =>
        if negb (Contains out (mf_Version m)) then mret (Err "the new binary does not run on this machine")
        else swapIn os tmp exe
      end
    end
  end.
Definition install (os : goos) (exe : string) (r : stream) (m : Manifest) : M host (result string unit) :=
  let suf := match os with Windows => ".exe" | _ => "" end in
  tmp ← osCreateTemp (Dir exe) ("." +:+ Base exe +:+ "-update-") suf;
  match tmp with
  | Err e => mret (Err ("cannot write next to " +:+ exe +:+ ": " +:+ osMsg e))
  | Ok tmp => res ← installFrom os exe tmp r m; _ ← osRemove tmp; mret res
  end.

(** [evalExecutable]: [os.Executable] and [filepath.EvalSymlinks]. *)
Context (evalExecutable : result string string).
Definition executable : M agent (result string string) :=
  a ← mget; mret (if negb (String.eqb (ag_Executable a) "") then Ok (ag_Executable a) else evalExecutable).
Definition cleanupUpdate : M agent unit :=
  exe ← executable;
  match exe with Ok exe => _ ← onHost (osRemove (exe +:+ ".old")); mret tt | Err _ => mret tt end.

(** The checks before the channel is accepted. *)
Definition checkUpdate (a : agent) (m : option Manifest) : result string Manifest :=
  if cf_DisableUpdates (ag_cfg a) then Err "updates are disabled on this machine (installed with --no-updates)" else
  match m with
  | None => Err "invalid update manifest"
  | Some m =>
    match Verify m with
    | Err e => Err e
    | Ok _ =>
      let want := AgentFile (GOOS (ag_os a)) (ag_arch a) in
      if negb (String.eqb (mf_File m) want) then Err ("the update is " +:+ mf_File m +:+ ", this machine needs " +:+ want)
      else if negb (Newer (mf_Version m) (ag_version a))
      then Err ("version " +:+ mf_Version m +:+ " is not newer than the installed " +:+ ag_version a)
      else if maxUpdateSize <? mf_Size m then Err "the update is too large"
      else if ag_updating a then Err "an update is already in progress"
      else Ok m
    end
  end.
(** [m]: the manifest in the channel's extra data; [accepts]: whether accepting the channel succeeds. *)
Definition handleUpdate (m : option Manifest) (accepts : bool) (r : stream) : M agent unit :=
  a ← mget;
  match checkUpdate a m with
  | Err msg => happen (HReject msg)
  | Ok m =>
    _ ← mmodify (with_updating true);
    exe ← executable;
    match exe with
    | Err e => _ ← happen (HReject ("cannot find the agent binary: " +:+ e)); mmodify (with_updating false)
    | Ok exe =>
      if negb accepts then mmodify (with_updating false) else
      res ← onHost (install (ag_os a) exe r m);
      match res with
      | Err e => _ ← happen (HReply false e); mmodify (with_updating false)
      | Ok _ =>
        _ ← happen (HReply true "");
        _ ← (if ag_canRestart a then happen (HRestart exe) else mret tt);
        mmodify (with_updating false)
      end
    end
  end.

(** ** Properties *)
Implicit Types (h : host) (a : agent).
Definition othersKept (l : list string) h h' : Prop := ∀ p, p ∉ l → ho_files h' !! p = ho_files h !! p.
#[local] Instance othersKept_preorder l : PreOrder (othersKept l).
Proof. split; [done|]. intros h1 h2 h3 H12 H23 p Hp. by rewrite H23, H12. Qed.
(** The binary is the one that was signed, and runs here. *)
Definition goodBinary (m : Manifest) (c : string) : Prop :=
  strLen c = mf_Size m ∧ hexEncode (sha256 c) = mf_SHA256 m
  ∧ ∃ out, runVersion c = Some out ∧ Contains out (mf_Version m) = true.
(** The installed binary is as before; on Windows a failed swap that cannot be undone leaves it beside. *)
Definition binaryKept (os : goos) (exe : string) h h' : Prop :=
  ho_files h' !! exe = ho_files h !! exe
  ∨ (os = Windows ∧ ho_files h' !! exe = None ∧ ho_files h' !! (exe +:+ ".old") = ho_files h !! exe).
Definition installPost (os : goos) (exe : string) (m : Manifest) h (r : result string unit) h' : Prop :=
  match r with
  | Ok _ => ∃ c, ho_files h' !! exe = Some c ∧ goodBinary m c
  | Err _ => binaryKept os exe h h'
  end.

Lemma length_joinPath dir name : (String.length dir + String.length name ≤ String.length (joinPath dir name))%nat.
Proof. unfold joinPath. destruct (HasSuffix dir "/"); rewrite !length_append; cbn; lia. Qed.
Lemma length_joinPath_mono dir n1 n2 : (String.length n1 < String.length n2)%nat →
  (String.length (joinPath dir n1) + String.length n2 = String.length (joinPath dir n2) + String.length n1)%nat.
Proof. unfold joinPath. destruct (HasSuffix dir "/"); rewrite !length_append; cbn; rewrite ?length_append; lia. Qed.
Lemma temp_longer exe s suf : exe = joinPath (Dir exe) (Base exe) →
  (String.length exe + 4 < String.length (joinPath (Dir exe) (("." +:+ Base exe +:+ "-update-") +:+ s +:+ suf)))%nat.
Proof.
  intros He. set (name := ("." +:+ Base exe +:+ "-update-") +:+ s +:+ suf).
  assert (Hn : (String.length (Base exe) + 9 ≤ String.length name)%nat) by (unfold name; rewrite !length_append; cbn; lia).
  pose proof (length_joinPath_mono (Dir exe) (Base exe) name ltac:(lia)) as Hl. rewrite <-He in Hl. lia.
Qed.

(** A call that leaves the files alone, and may use up a fault bit. *)
Lemma wp_skip_fault {B} (k : option nat → M host B) (Q : B → host → Prop) h :
  (∀ f h', ho_files h' = ho_files h → wp (k f) Q h') → wp (f ← fault; k f) Q h.
Proof.
  intros Hk. apply wp_bind, wp_fault; intros; apply Hk; by destruct (sameButFaults_spec h h').
Qed.
Lemma wp_createTempIn seeds mk h0 (Q : ores string → host → Prop) :
  (∀ e h', ho_files h' = ho_files h0 → Q (Err e) h') →
  (∀ s h', ho_files h0 !! mk s = None → ho_files h' = <[mk s := ""]> (ho_files h0) → Q (Ok (mk s)) h') →
  ∀ h, ho_files h = ho_files h0 → Q (createTempIn seeds mk h).1 (createTempIn seeds mk h).2.
Proof.
  intros HE HO. induction seeds as [|s rest IH]; intros h Hh; cbn; [by apply HE|].
  rewrite Hh. destruct (ho_files h0 !! mk s) eqn:E; cbn; [by apply IH|by apply HO].
Qed.
Lemma wp_osCreateTemp dir pre suf (Q : ores string → host → Prop) h :
  (∀ e h', ho_files h' = ho_files h → Q (Err e) h') →
  (∀ s h', let p := joinPath dir (pre +:+ s +:+ suf) in
     ho_files h !! p = None → ho_files h' = <[p := ""]> (ho_files h) → Q (Ok p) h') →
  wp (osCreateTemp dir pre suf) Q h.
Proof.
  intros HE HO. unfold osCreateTemp. apply wp_skip_fault. intros [n|] h1 E1; [by apply wp_ret, HE|].
  unfold wp, mstate. by apply (wp_createTempIn _ (λ s, joinPath dir (pre +:+ s +:+ suf)) h).
Qed.
Lemma wp_receive tmp r size (Q : ores string → host → Prop) h :
  (∀ e h', othersKept [tmp] h h' → Q (Err e) h') →
  (∀ data h', othersKept [tmp] h h' → ho_files h' !! tmp = Some data → Q (Ok data) h') →
  wp (receive tmp r size) Q h.
Proof.
  intros HE HO. unfold receive. set (data := substring _ _ _).
  assert (Hk : ∀ c h1 h2, sameButFaults h h1 → ho_files h2 = <[tmp := c]> (ho_files h1) → othersKept [tmp] h h2).
  { intros c h1 h2 Hs E p Hp. rewrite E, lookup_insert_ne by set_solver. by destruct (sameButFaults_spec _ _ Hs) as [-> _]. }
  apply wp_bind, wp_osWriteFile.
  - intros n h1 Hs _. apply wp_ret, HE, (Hk (substring 0 n data) h1 _ Hs). reflexivity.
  - intros h1 Hs. destruct (_ && _); [by apply wp_ret, HE, (Hk data h1 _ Hs)|]. apply wp_skip_fault. intros f h2 Ef. apply wp_ret.
    destruct f; [by apply HE, (Hk data h1 _ Hs)|]. apply HO; [by apply (Hk data h1 _ Hs)|]. rewrite Ef. cbn. apply lookup_insert_eq.
Qed.
(** Swapping in a file that is not the installed one. *)
Lemma wp_swapIn os tmp exe m c h0 h :
  tmp ≠ exe → tmp ≠ exe +:+ ".old" → ho_files h !! tmp = Some c → goodBinary m c → ho_files h !! exe = ho_files h0 !! exe →
  wp (swapIn os tmp exe) (installPost os exe m h0) h.
Proof.
  intros Hne Hno Hc Hg Hexe. assert (Hold : exe +:+ ".old" ≠ exe) by (by apply append_neq).
  assert (Hplain : os ≠ Windows → wp (r ← osRename tmp exe; mret (match r with Ok _ => Ok tt | Err e => Err (osMsg e) end))
    (installPost os exe m h0) h).
  { intros _. apply wp_bind, wp_osRename.
    - intros e h1 Hs _. apply wp_ret. left. by destruct (sameButFaults_spec _ _ Hs) as [-> _].
    - intros x h1 Hs Hx. apply wp_ret. exists c. split; [|done]. cbn. rewrite lookup_insert_eq. congruence. }
  unfold swapIn. destruct os; [by apply Hplain|by apply Hplain|clear Hplain].
  assert (Hrm : ∀ h1, (∀ p, p ≠ exe +:+ ".old" → ho_files h1 !! p = ho_files h !! p) →
    wp (r1 ← osRename exe (exe +:+ ".old");
        match r1 with
        | Err e => mret (Err (osMsg e))
        | Ok _ =>
          r2 ← osRename tmp exe;
          match r2 with Err e => _ ← osRename (exe +:+ ".old") exe; mret (Err (osMsg e)) | Ok _ => mret (Ok tt) end
        end) (installPost Windows exe m h0) h1).
  { intros h1 Hk. apply wp_bind, wp_osRename.
    { intros e h2 Hs _. apply wp_ret. left. destruct (sameButFaults_spec _ _ Hs) as [-> _]. by rewrite Hk. }
    intros b h2 Hs2 Hb. destruct (sameButFaults_spec _ _ Hs2) as [E2 _]. apply wp_bind, wp_osRename.
    - intros e h3 Hs3 _. destruct (sameButFaults_spec _ _ Hs3) as [E3 _]. apply wp_bind, wp_osRename.
      + intros e4 h4 Hs4 _. destruct (sameButFaults_spec _ _ Hs4) as [E4 _]. apply wp_ret. right. rewrite E4, E3. cbn. split_and!; [done| |].
        * rewrite lookup_insert_ne by done. apply lookup_delete_eq.
        * rewrite lookup_insert_eq. rewrite Hk in Hb by done. congruence.
      + intros x h4 Hs4 Hx. destruct (sameButFaults_spec _ _ Hs4) as [E4 _]. apply wp_ret. left. cbn. rewrite lookup_insert_eq.
        rewrite E3 in Hx. cbn in Hx. rewrite lookup_insert_eq in Hx. rewrite Hk in Hb by done. congruence.
    - intros x h3 Hs3 Hx. apply wp_ret. exists c. split; [|done]. cbn. rewrite lookup_insert_eq. cbn in Hx.
      rewrite lookup_insert_ne, lookup_delete_ne, E2, Hk in Hx by done. congruence. }
  apply wp_bind, wp_osRemove.
  - intros e h1 Hs _ _. apply Hrm. intros p _. by destruct (sameButFaults_spec _ _ Hs) as [-> _].
  - intros h1 Hs _. apply Hrm. intros p Hp. cbn. rewrite lookup_delete_ne by done. by destruct (sameButFaults_spec _ _ Hs) as [-> _].
  - intros h1 Hs _ _. apply Hrm. intros p _. cbn. by destruct (sameButFaults_spec _ _ Hs) as [-> _].
Qed.
Lemma wp_installFrom os exe tmp r m h0 h :
  tmp ≠ exe → tmp ≠ exe +:+ ".old" → ho_files h !! exe = ho_files h0 !! exe →
  wp (installFrom os exe tmp r m) (installPost os exe m h0) h.
Proof.
  intros Hne Hno Hexe. unfold installFrom.
  assert (Hkeep : ∀ e h1, othersKept [tmp] h h1 → installPost os exe m h0 (Err e) h1).
  { intros e h1 Hk. left. rewrite Hk; [done|set_solver]. }
  apply wp_bind, wp_receive; [intros e h1 Hk; by apply wp_ret, Hkeep|]. intros data h1 Hk Hd.
  destruct (negb _ || _) eqn:Ecs; [by apply wp_ret, Hkeep|]. apply orb_false_iff in Ecs as [Esz Esum].
  apply negb_false_iff, Z.eqb_eq in Esz. apply negb_false_iff, String.eqb_eq in Esum.
  apply wp_skip_fault. intros f h2 E2. assert (Hk2 : othersKept [tmp] h h2) by (intros p Hp; rewrite E2; auto).
  destruct f; [by apply wp_ret, Hkeep|]. unfold execVersion.
  apply wp_bind, wp_bind, wp_modify, wp_bind, wp_gets, wp_ret. cbn [ho_files with_trace]. rewrite E2, Hd. cbn.
  destruct (runVersion data) as [out|] eqn:Er; [|by apply wp_ret, Hkeep].
  destruct (Contains out (mf_Version m)) eqn:Ec; cbn [negb]; [|by apply wp_ret, Hkeep].
  eapply (wp_swapIn os tmp exe m data); cbn; [done|done|by rewrite E2|split_and!; eauto|].
  rewrite Hk2; [done|set_solver].
Qed.
Lemma installPost_files os exe m h0 r h h' :
  ho_files h' !! exe = ho_files h !! exe → ho_files h' !! (exe +:+ ".old") = ho_files h !! (exe +:+ ".old") →
  installPost os exe m h0 r h → installPost os exe m h0 r h'.
Proof. intros E1 E2. destruct r; unfold installPost, binaryKept; rewrite E1, ?E2; done. Qed.
Lemma wp_install os exe r m h :
  exe = joinPath (Dir exe) (Base exe) → wp (install os exe r m) (installPost os exe m h) h.
Proof.
  intros He. unfold install. set (suf := match os with Windows => ".exe" | _ => "" end).
  apply wp_bind, wp_osCreateTemp; [intros e h1 E1; apply wp_ret; left; by rewrite E1|].
  intros s h2 tmp _ E2. pose proof (temp_longer exe s suf He) as Hlen.
  assert (Hne : tmp ≠ exe) by (intros E; unfold tmp in E; rewrite E in Hlen; lia).
  assert (Hno : tmp ≠ exe +:+ ".old") by (intros E; unfold tmp in E; rewrite E, length_append in Hlen; cbn in Hlen; lia).
  apply wp_bind. eapply wp_mono; [apply (wp_installFrom os exe tmp r m h); [done|done|]; by rewrite E2, lookup_insert_ne|].
  intros res h3 Hp. apply wp_bind, wp_osRemove.
  - intros e h4 Hs _ _. apply wp_ret. eapply installPost_files; [..|exact Hp]; by destruct (sameButFaults_spec _ _ Hs) as [-> _].
  - intros h4 Hs _. apply wp_ret. eapply installPost_files; [..|exact Hp]; cbn; rewrite lookup_delete_ne by done;
      by destruct (sameButFaults_spec _ _ Hs) as [-> _].
  - intros h4 Hs _ _. apply wp_ret. eapply installPost_files; [..|exact Hp]; cbn; by destruct (sameButFaults_spec _ _ Hs) as [-> _].
Qed.

(** The update is one this machine accepts. *)
Definition acceptable a (m : Manifest) : Prop :=
  cf_DisableUpdates (ag_cfg a) = false ∧ Verify m = Ok tt ∧ mf_File m = AgentFile (GOOS (ag_os a)) (ag_arch a)
  ∧ Newer (mf_Version m) (ag_version a) = true ∧ mf_Size m ≤ maxUpdateSize ∧ ag_updating a = false.
Lemma checkUpdate_ok a m m' : checkUpdate a m = Ok m' → m = Some m' ∧ acceptable a m'.
Proof.
  unfold checkUpdate, acceptable. destruct (cf_DisableUpdates _); [done|]. destruct m as [m|]; [|done].
  destruct (Verify m) as [[]|] eqn:Hv; [|done]. destruct (String.eqb_spec (mf_File m) (AgentFile (GOOS (ag_os a)) (ag_arch a))); [|done].
  destruct (Newer _ _) eqn:?; [|done]. destruct (maxUpdateSize <? _) eqn:Hsz; [done|]. destruct (ag_updating a); [done|].
  cbn. intros [= <-]. apply Z.ltb_ge in Hsz. split_and!; auto.
Qed.

(** C8. Only a signed, newer release for this platform replaces the agent: whatever the hub sends, and
    whatever call fails, the installed binary stays as it was (on Windows, at worst, beside its
    place), or it is one that the release key signed for this platform, newer than the running version,
    of the signed size and checksum, which started here and reported its version. A machine that
    disabled updates keeps its binary, and no update stays marked as in progress. *)
Theorem update_safe (m : option Manifest) (accepts : bool) (r : stream) (a : agent) (exe : string)
    (Hexe : (executable a).1 = Ok exe) (Hpath : exe = joinPath (Dir exe) (Base exe)) :
  let '(_, a') := handleUpdate m accepts r a in
  ag_updating a' = ag_updating a
  ∧ (binaryKept (ag_os a) exe (ag_host a) (ag_host a')
     ∨ ∃ mf c, m = Some mf ∧ acceptable a mf ∧ goodBinary mf c ∧ ho_files (ag_host a') !! exe = Some c).
Proof.
  apply wp_let. unfold handleUpdate. apply wp_bind, wp_get. destruct (checkUpdate a m) as [mf|msg] eqn:Ec.
  2: { apply wp_happen. split; [done|]. by left; left. }
  apply checkUpdate_ok in Ec as [-> Hacc]. assert (Hu : ag_updating a = false) by apply Hacc. rewrite Hu.
  apply wp_bind, wp_modify, wp_bind, wp_bind, wp_get, wp_ret. cbn [ag_Executable with_updating].
  unfold executable, mbind, M_bind, mget, mret, M_ret in Hexe. cbn [fst] in Hexe. rewrite Hexe.
  destruct accepts; cbn [negb]; [|apply wp_modify; split; [done|]; by left; left].
  apply wp_bind, wp_onHost. eapply wp_mono; [by apply (wp_install (ag_os a) exe r mf)|]. cbn [ag_host with_updating].
  intros [[]|e] h1 Hp.
  - apply wp_bind, wp_happen, wp_bind. destruct Hp as (c & Hc & Hg).
    destruct (ag_canRestart a); [apply wp_happen|apply wp_ret]; apply wp_modify; (split; [done|]); right; exists mf, c; done.
  - apply wp_bind, wp_happen, wp_modify. split; [done|]. left. exact Hp.
Qed.
End install.

(** Witness: a release for this machine, whose signature the demo library accepts. *)
Definition demoManifest : Manifest := mkManifest (AgentFile "linux" "amd64") "2.0.0" 5 (hexEncode "2.0.0") (String.concat "" (repeat "12345678" 8)).
Definition demoUpdateLib : Lib := {|
  Quote := @Quote demoLib; sha256 := @sha256 demoLib; b64urlEncode := @b64urlEncode demoLib; b64urlDecode := @b64urlDecode demoLib;
  bcryptGenerate := @bcryptGenerate demoLib; bcryptCompare := @bcryptCompare demoLib; totpCode := @totpCode demoLib;
  totpGenerate := @totpGenerate demoLib; ParseAddr := @ParseAddr demoLib; ParseAddrPort := @ParseAddrPort demoLib;
  ParsePrefix := @ParsePrefix demoLib; addrString := @addrString demoLib; prefixString := @prefixString demoLib;
  b64Decode s := if String.eqb s (mf_Signature demoManifest) then Some s else Some (String.concat "" (repeat "12345678" 4));
  ed25519Verify _ _ _ := true; ParsePKIXPublicKey := @ParsePKIXPublicKey demoLib;
  ecdsaVerifyASN1 := @ecdsaVerifyASN1 demoLib; rsaVerifyPKCS1v15 := @rsaVerifyPKCS1v15 demoLib; urlParse := @urlParse demoLib;
  addrPortString := @addrPortString demoLib; ParseIP4 := @ParseIP4 demoLib; SplitHostPort := @SplitHostPort demoLib;
  netParseMAC := @netParseMAC demoLib; ParseCIDR4 := @ParseCIDR4 demoLib; ParseCIDRAddr := @ParseCIDRAddr demoLib;
  ip4String := @ip4String demoLib; rangeOrder := @rangeOrder demoLib;
|}.
Definition demoAgent : agent :=
  mkAgent (mkConfig "https://hub" "key" "" true false demoConfigPath) 0 false None Linux "amd64" "" true "1.0.0"
    (demoHostAt {["/usr/bin/lotse-agent" := "old"]}).
Lemma update_safe_witness :
  let a' := (@handleUpdate demoUpdateLib Some (Ok "/usr/bin/lotse-agent") (Some demoManifest) true (mkStream "2.0.0" false) demoAgent).2 in
  ho_files (ag_host a') !! "/usr/bin/lotse-agent" = Some "2.0.0" ∧ ag_updating a' = false.
Proof.
  intros a'. pose proof (@update_safe demoUpdateLib Some (Ok "/usr/bin/lotse-agent") (Some demoManifest) true (mkStream "2.0.0" false)
    demoAgent "/usr/bin/lotse-agent" eq_refl eq_refl) as Hu.
  assert (Hc : ho_files (ag_host a') !! "/usr/bin/lotse-agent" = Some "2.0.0") by (vm_compute; reflexivity).
  split; [exact Hc|]. unfold a'. destruct (handleUpdate _ _ _ _ _ _) as [? a1]. destruct Hu as [E _]. exact E.
Defined.
