(* ===== verification/Sign.v ===== *)
(** * Signing releases ([Sign] and [ReadManifest] of [internal/update/update.go], [cmd/sign/main.go]) *)
From Stdlib Require Import ZArith Lia Ascii String.
From S2P Require Import Prelude GoStrings Library Version Paths Update Protocol Hub Host AgentConfig AgentState AgentUpdate Maintenance.
From stdpp Require Import base gmap strings list.
Local Open Scope string_scope.
Local Open Scope list_scope.
Local Open Scope Z_scope.
Local Open Scope lotse_scope.

(** [crypto/ed25519] with the private key given by its seed, and [base64.StdEncoding]. *)
Class Signing := {
  ed25519Public : string → string;
  ed25519Sign : string → string → string;
  b64Encode : string → string;
}.
(** Documented behaviour: sizes, a signature verifies with the key's public key, and decoding
    undoes encoding. *)
Class SigningLaws `{Lib, Signing} := {
  public_size : ∀ seed, strLen (ed25519Public seed) = 32;
  signature_size : ∀ seed msg, strLen (ed25519Sign seed msg) = 64;
  sign_verify : ∀ seed msg, ed25519Verify (ed25519Public seed) msg (ed25519Sign seed msg) = true;
  decode_encode : ∀ s, b64Decode (b64Encode s) = Some s;
}.

Definition manifestJSON (m : Manifest) : json :=
  JObj [("file", JStr (mf_File m)); ("version", JStr (mf_Version m)); ("size", JInt (mf_Size m));
        ("sha256", JStr (mf_SHA256 m)); ("signature", JStr (mf_Signature m))].
Definition with_Signature (s : string) (m : Manifest) : Manifest :=
  mkManifest (mf_File m) (mf_Version m) (mf_Size m) (mf_SHA256 m) s.

Section sign.
Context `{Lib, Signing, Marshal} `{!Unmarshal Manifest}.

(** The manifest of a file, before it is signed. *)
Definition describe (path version c : string) : Manifest :=
  mkManifest (Base path) version (strLen c) (hexEncode (sha256 c)) "".
Definition signedManifest (path version seed c : string) : result string Manifest :=
  let m := describe path version c in
  match message m with
  | Err e => Err e
  | Ok msg => Ok (with_Signature (b64Encode (ed25519Sign seed msg)) m)
  end.
Definition Sign (path version seed : string) : M host (result string Manifest) :=
  data ← osReadFile path;
  mret (match data with Err e => Err (osMsg e) | Ok c => signedManifest path version seed c end).
(** The reason the decoder gives is not modelled; the text stands for it. *)
Definition ReadManifest (path : string) : M host (result string Manifest) :=
  data ← osReadFile path;
  mret (match data with
        | Err e => Err (osMsg e)
        | Ok c => let '(m, ok) := (unmarshal c : Manifest * bool) in if ok then Ok m else Err (path +:+ ": invalid JSON")
        end).
(** The loop of [run], with [marshal] for [json.MarshalIndent]: the first error ends it. *)
Fixpoint signAll (version seed : string) (paths : list string) : M host (option string) :=
  match paths with
  | [] => mret None
  | path :: rest =>
    m ← Sign path version seed;
    match m with
    | Err e => mret (Some e)
    | Ok m =>
      match Verify m with
      | Err e => mret (Some ("the signing key does not match update.TrustedKeys: " +:+ e))
      | Ok _ =>
        w ← osWriteFile (path +:+ ManifestExt) (marshal (manifestJSON m) +:+ NL);
        match w with Err e => mret (Some (osMsg e)) | Ok _ => signAll version seed rest end
      end
    end
  end.
Definition keyEnv : string := "LOTSE_SIGNING_KEY".
(** [run] without keygen: the flags, the environment variable and the files. *)
Definition run (version : string) (optional : bool) (env : string) (paths : list string) : M host (option string) :=
  let seed := TrimSpace env in
  if String.eqb seed "" then
    mret (if optional then None else Some ("set " +:+ keyEnv +:+ " to the base64 private key"))
  else if negb (IsRelease version) then
    mret (if optional then None else Some ("-version must be a release version like 1.2.3, got " +:+ Quote version))
  else match b64Decode seed with
  | Some raw =>
    if strLen raw =? 32 then signAll version raw paths
    else mret (Some (keyEnv +:+ " is not a base64 Ed25519 private key"))
  | None => mret (Some (keyEnv +:+ " is not a base64 Ed25519 private key"))
  end.
End sign.

Section sign_props.
Context `{Lib, Signing, !SigningLaws, Marshal} `{!Unmarshal Manifest}.
Implicit Types (h : host) (path version seed : string).

Lemma sigName_neq path : path +:+ ManifestExt ≠ path.
Proof. by apply append_neq. Qed.
Lemma sigName_inj p q : p +:+ ManifestExt = q +:+ ManifestExt → p = q.
Proof.
  revert q. induction p as [|a p IH]; intros [|b q]; [done| | |].
  - intros E. apply (f_equal String.length) in E. rewrite !length_append in E. cbn in E. lia.
  - intros E. apply (f_equal String.length) in E. rewrite !length_append in E. cbn in E. lia.
  - rewrite !append_cons. intros [= -> E]. f_equal. auto.
Qed.
(** A signature made with a trusted key is accepted. *)
Lemma Sign_Verify m msg seed : message m = Ok msg → b64Encode (ed25519Public seed) ∈ TrustedKeys →
  Verify (with_Signature (b64Encode (ed25519Sign seed msg)) m) = Ok tt.
Proof.
  intros Hm Ht. unfold Verify. change (message (with_Signature _ m)) with (message m). rewrite Hm. cbn [mf_Signature with_Signature].
  rewrite decode_encode, signature_size. cbn [negb Z.eqb Pos.eqb].
  rewrite (proj2 (existsb_exists _ _)); [done|]. exists (b64Encode (ed25519Public seed)). split; [by apply list_elem_of_In|].
  unfold keyAccepts. by rewrite decode_encode, public_size, sign_verify.
Qed.
(** The file can be signed: it has contents, and a name and a version that fit into a manifest. *)
Definition signable version h path : Prop :=
  ∃ c, ho_files h !! path = Some c ∧ is_ok (message (describe path version c)) = true.
(** Its signed manifest is next to it. *)
Definition signedAs version h h' path : Prop :=
  ∃ c m, ho_files h !! path = Some c ∧ (ReadManifest (path +:+ ManifestExt) h').1 = Ok m ∧ Verify m = Ok tt
    ∧ with_Signature "" m = describe path version c.
(** The JSON of a manifest of these files is read back. *)
Definition readsBack version seed h : Prop := ∀ path c m,
  ho_files h !! path = Some c → signedManifest path version seed c = Ok m →
  unmarshal (marshal (manifestJSON m) +:+ NL) = (m, true).
Lemma signAll_spec version seed paths h
    (Htrusted : b64Encode (ed25519Public seed) ∈ TrustedKeys)
    (Hjson : readsBack version seed h) :
  ho_faults h = [] → Forall (signable version h) paths → (∀ p q, p ∈ paths → q ∈ paths → p +:+ ManifestExt ≠ q) →
  let '(r, h') := signAll version seed paths h in
  r = None ∧ ho_faults h' = [] ∧ Forall (signedAs version h h') paths
  ∧ (∀ p, p ∉ map (λ q, q +:+ ManifestExt) paths → ho_files h' !! p = ho_files h !! p).
Proof.
  intros Hf Hsig Hsep. assert (Hjson' : ∀ path m, path ∈ paths → signable version h path → (∀ c, ho_files h !! path = Some c → signedManifest path version seed c = Ok m) →
    unmarshal (marshal (manifestJSON m) +:+ NL) = (m, true)).
  { intros path m _ (c & Hc & _) Hm. by eapply Hjson; [|apply Hm]. }
  clear Hjson. revert h Hf Hsig Hsep Hjson'. induction paths as [|path paths IH]; intros h Hf Hsig Hsep Hjson; cbn [signAll]; [by split_and!|].
  assert (Hsig0 := Hsig).
  apply Forall_cons_1 in Hsig as [(c & Hc & Hok) Hsig]. unfold mbind, M_bind, Sign, mbind, M_bind. rewrite osReadFile_run, Hc by done.
  cbn [mret M_ret]. unfold signedManifest. destruct (message (describe path version c)) as [msg|] eqn:Em; [|done]. clear Hok.
  set (m := with_Signature (b64Encode (ed25519Sign seed msg)) (describe path version c)).
  assert (Hv : Verify m = Ok tt) by (by apply Sign_Verify). rewrite Hv, osWriteFile_run by done.
  set (h1 := with_files _ h).
  assert (Hsep1 : ∀ p, p ∈ path :: paths → ho_files h1 !! p = ho_files h !! p).
  { intros p Hp. cbn. rewrite lookup_insert_ne; [done|]. apply Hsep; [by left|done]. }
  specialize (IH h1 Hf). destruct (signAll version seed paths h1) as [r h']. destruct IH as (-> & Hf' & Hall & Hrest).
  { rewrite Forall_forall in Hsig |- *. intros p Hp. destruct (Hsig p Hp) as (x & Hx & Hmsg). exists x. by rewrite Hsep1 by (by right). }
  { intros p q Hp Hq. apply Hsep; by right. }
  { intros p x Hp (y & Hy & Hmsg) Hx. rewrite Hsep1 in Hy by (by right). apply (Hjson p); [by right|by exists y|].
    intros z Hz. apply Hx. by rewrite Hsep1 by (by right). }
  split_and!; [done|done| |].
  - assert (Hall' : ∀ p, p ∈ paths → signedAs version h h' p).
    { rewrite Forall_forall in Hall. intros p Hp. destruct (Hall p Hp) as (x & m2 & Hx & ?). exists x, m2. by rewrite <-Hsep1 by (by right). }
    constructor; [|by apply Forall_forall]. destruct (decide (path ∈ paths)) as [Hin|Hni]; [by apply Hall'|].
    exists c, m. split_and!; [done| |done|done]. unfold ReadManifest, mbind, M_bind. rewrite osReadFile_run by done. cbn [fst mret M_ret].
    rewrite Hrest; [cbn; rewrite lookup_insert_eq, (Hjson path); [done|by left|by apply Forall_cons_1 in Hsig0 as [? _]|]; intros z Hz; simplify_eq; unfold signedManifest; by rewrite Em|]. intros (q & E & Hq)%list_elem_of_fmap. by apply sigName_inj in E as <-.
  - intros p Hp. cbn [map] in Hp. apply not_elem_of_cons in Hp as [Hne Hp]. rewrite (Hrest p Hp). cbn. by rewrite lookup_insert_ne.
Qed.

(** The tool on a working disk, with a private key whose public half is trusted, a release version and files that can be signed,
    when the JSON of their manifests is read back. *)
Lemma run_signs version env raw optional paths h :
  TrimSpace env ≠ "" → b64Decode (TrimSpace env) = Some raw → strLen raw = 32 → b64Encode (ed25519Public raw) ∈ TrustedKeys →
  IsRelease version = true → readsBack version raw h → ho_faults h = [] → Forall (signable version h) paths →
  (∀ p q, p ∈ paths → q ∈ paths → p +:+ ManifestExt ≠ q) →
  wp (run version optional env paths) (λ r h', r = None ∧ Forall (signedAs version h h') paths
    ∧ (∀ p, p ∉ map (λ q, q +:+ ManifestExt) paths → ho_files h' !! p = ho_files h !! p)) h.
Proof.
  intros Henv Hraw Hlen Htrusted Hver Hjson Hwork Hfiles Hsep. unfold run.
  rewrite (proj2 (String.eqb_neq _ _) Henv), Hver, Hraw, Hlen. cbn [negb Z.eqb Pos.eqb].
  pose proof (signAll_spec version raw paths h Htrusted Hjson Hwork Hfiles Hsep) as Hs. unfold wp.
  destruct (signAll version raw paths h) as [r h']. by destruct Hs as (? & _ & ? & ?).
Qed.

(** Whatever fails, and whatever key is set: a manifest file is only written for a manifest that verifies. *)
Definition onlyVerified (paths : list string) h h' : Prop :=
  ∀ p c, ho_files h' !! p = Some c → ho_files h !! p ≠ Some c →
    ∃ path m n, path ∈ paths ∧ p = path +:+ ManifestExt ∧ Verify m = Ok tt ∧ mf_File m = Base path
      ∧ (c = marshal (manifestJSON m) +:+ NL ∨ c = substring 0 n (marshal (manifestJSON m) +:+ NL)).
#[local] Instance onlyVerified_preorder paths : PreOrder (onlyVerified paths).
Proof.
  split; [intros h p c; by intros Hc Hn|]. intros h1 h2 h3 H12 H23 p c Hc Hn.
  destruct (decide (ho_files h2 !! p = Some c)) as [E|E]; [by apply H12|by apply H23].
Qed.
Lemma sameButFaults_onlyVerified paths h h' : sameButFaults h h' → onlyVerified paths h h'.
Proof. intros (E & _)%sameButFaults_spec p c. by rewrite E. Qed.
Lemma steps_signAll version seed paths : steps (onlyVerified paths) (signAll version seed paths).
Proof.
  assert (Hgen : ∀ l, l ⊆ paths → steps (onlyVerified paths) (signAll version seed l)); [|by apply Hgen].
  intros l. induction l as [|path l IH]; intros Hin h; [apply onlyVerified_preorder|].
  change (wp (signAll version seed (path :: l)) (λ _ h', onlyVerified paths h h') h). cbn [signAll]. unfold Sign.
  assert (Hl : l ⊆ paths) by (intros x Hx; apply Hin; by right). specialize (IH Hl).
  apply wp_bind, wp_bind, wp_osReadFile; [intros e h1 Hs _ _; apply wp_ret, wp_ret; by apply sameButFaults_onlyVerified|].
  intros c h1 Hs _. apply wp_ret. unfold signedManifest. destruct (message _) as [msg|e]; [|by apply wp_ret, sameButFaults_onlyVerified].
  set (m := with_Signature _ _). destruct (Verify m) as [[]|e] eqn:Ev; [|by apply wp_ret, sameButFaults_onlyVerified].
  assert (Hwrite : ∀ h2 d n, sameButFaults h1 h2 → d = marshal (manifestJSON m) +:+ NL ∨ d = substring 0 n (marshal (manifestJSON m) +:+ NL) →
    onlyVerified paths h (with_files (<[path +:+ ManifestExt := d]> (ho_files h2)) h2)).
  { intros h2 d n Hs2 Hd. etrans; [apply sameButFaults_onlyVerified; by eapply sameButFaults_trans|]. intros p x Hx Hn. cbn in Hx.
    apply lookup_insert_Some in Hx as [[<- <-]|[_ ?]]; [|done]. exists path, m, n. split_and!; [apply Hin; by left|done|done|done|done]. }
  apply wp_bind, wp_osWriteFile; [intros n h2 Hs2 _; apply wp_ret, (Hwrite _ _ n Hs2); by right|].
  intros h2 Hs2. eapply wp_steps; [exact IH|]. intros _ h3 Hrest. etrans; [apply (Hwrite h2 (marshal (manifestJSON m) +:+ NL) 0%nat Hs2); by left|exact Hrest].
Qed.
End sign_props.

(** *** For witnesses: encoding exchanges the trusted key and a key of 32 bytes *)
Definition key32 : string := "0123456789abcdef0123456789abcdef".
Definition trusted44 : string := "lITcC4wbtAxvFw8+vlnsF174FzVYVYm8Qgn9D+0aT64=".
Definition swapKeys (s : string) : string := if String.eqb s key32 then trusted44 else if String.eqb s trusted44 then key32 else s.
#[local] Instance demoSignLib : Lib := {|
  Quote := @Quote demoLib; sha256 := @sha256 demoLib; b64urlEncode := @b64urlEncode demoLib; b64urlDecode := @b64urlDecode demoLib;
  bcryptGenerate := @bcryptGenerate demoLib; bcryptCompare := @bcryptCompare demoLib; totpCode := @totpCode demoLib;
  totpGenerate := @totpGenerate demoLib; ParseAddr := @ParseAddr demoLib; ParseAddrPort := @ParseAddrPort demoLib;
  ParsePrefix := @ParsePrefix demoLib; addrString := @addrString demoLib; prefixString := @prefixString demoLib;
  b64Decode s := Some (swapKeys s); ed25519Verify _ _ sig := strLen sig =? 64;
  ParsePKIXPublicKey := @ParsePKIXPublicKey demoLib; ecdsaVerifyASN1 := @ecdsaVerifyASN1 demoLib;
  rsaVerifyPKCS1v15 := @rsaVerifyPKCS1v15 demoLib; urlParse := @urlParse demoLib; addrPortString := @addrPortString demoLib;
  ParseIP4 := @ParseIP4 demoLib; SplitHostPort := @SplitHostPort demoLib; netParseMAC := @netParseMAC demoLib;
  ParseCIDR4 := @ParseCIDR4 demoLib; ParseCIDRAddr := @ParseCIDRAddr demoLib; ip4String := @ip4String demoLib;
  rangeOrder := @rangeOrder demoLib;
|}.
#[local] Instance demoSigning : Signing := {|
  ed25519Public _ := key32; ed25519Sign _ _ := key32 +:+ key32; b64Encode := swapKeys |}.
#[local] Instance demoSigningLaws : SigningLaws.
Proof.
  split; [done|done|done|]. intros s. unfold b64Decode, b64Encode; cbn. unfold swapKeys. f_equal.
  destruct (String.eqb_spec s key32) as [->|Hk]; [done|]. destruct (String.eqb_spec s trusted44) as [->|Ht]; [done|].
  by rewrite (proj2 (String.eqb_neq _ _) Hk), (proj2 (String.eqb_neq _ _) Ht).
Qed.
Definition demoDist : host := mkHost {["/dist/lotse-agent-linux-amd64" := "binary"]} ∅ [] [] [].
