(* ===== verification/AgentServices.v ===== *)
(** * Services and power ([internal/agent/services*.go], [internal/agent/power.go])

    What the service managers print, and the commands the agent runs for the hub. The programs
    themselves are a function from command lines to what they print. *)
From Stdlib Require Import ZArith Lia Ascii String.
From S2P Require Import Prelude GoStrings Library Version Paths Web Update Protocol Hub Host AgentConfig AgentState.
From stdpp Require Import base gmap strings list sorting.
Local Open Scope string_scope.
Local Open Scope list_scope.
Local Open Scope Z_scope.
Local Open Scope lotse_scope.

(** ** Text *)
(** [strings.Fields]: the runs of other characters than white space; each round takes at least a byte. *)
Fixpoint fieldsOf (fuel : nat) (cur l : list Z) : list (list Z) :=
  match fuel, l with
  | S f, b :: rest =>
    match stripAny spaceSeqs l with
    | Some l' => (match cur with [] => [] | _ => [cur] end) ++ fieldsOf f [] l'
    | None => fieldsOf f (cur ++ [b]) rest
    end
  | _, _ => match cur with [] => [] | _ => [cur] end
  end.
Definition Fields (s : string) : list string := map stringOf (fieldsOf (S (String.length s)) [] (bytesOf s)).
(** [bufio.Scanner]: lines without their ends; it gives up at a line that does not fit its buffer. *)
Definition trimCR (s : string) : string := if HasSuffix s (String carriageReturn "") then substring 0 (String.length s - 1) s else s.
Fixpoint takeFitting (l : list string) : list string :=
  match l with
  | [] => []
  | s :: rest => if 65535 <? strLen s then [] else trimCR s :: takeFitting rest
  end.
Definition scanLines (s : string) : list string :=
  let l := Split newline s in
  takeFitting (if String.eqb (lastElem l) "" then removelast l else l).

Example Fields_example : Fields ("  a b" +:+ String (ascii_of 9) "c ") = ["a"; "b"; "c"] ∧ scanLines ("x" +:+ NL +:+ NL +:+ "y") = ["x"; ""; "y"].
Proof. split; reflexivity. Qed.

(** ** Lists of services *)
Record Service := mkService {
  se_Name : string;
  se_Description : string;
  se_State : string;
  se_Detail : string;
  se_StartType : string;
}.
Record ServiceList := mkServiceList { sl_Services : list Service; sl_Error : string }.
Definition with_StartType (t : string) (s : Service) : Service :=
  mkService (se_Name s) (se_Description s) (se_State s) (se_Detail s) t.

Definition systemdState (active sub : string) : string :=
  if existsb (String.eqb active) ["active"; "reloading"] then "running"
  else if String.eqb active "activating" then "starting"
  else if String.eqb active "deactivating" then "stopping"
  else if String.eqb active "failed" then "failed"
  else "stopped".
(** One line of [systemctl list-units]. *)
Definition unitLine (byName : gmap string Service) (line : string) : gmap string Service :=
  match Fields line with
  | name :: load :: active :: sub :: rest =>
    if String.eqb load "not-found" then byName else
    <[name := mkService name (GoStrings.Join " " rest) (systemdState active sub) (active +:+ " (" +:+ sub +:+ ")") ""]> byName
  | _ => byName
  end.
(** One line of [systemctl list-unit-files]. *)
Definition fileLine (byName : gmap string Service) (line : string) : gmap string Service :=
  match Fields line with
  | name :: start :: _ =>
    if Contains name "@." then byName else
    let s := default (mkService name "" "stopped" "inactive (dead)" "") (byName !! name) in
    <[name := with_StartType start s]> byName
  | _ => byName
  end.
Definition nameLe (a b : Service) : Prop := strLe (se_Name a) (se_Name b).
#[export] Instance nameLe_dec a b : Decision (nameLe a b).
Proof. unfold nameLe. apply _. Defined.
Definition parseSystemd (units files : string) : list Service :=
  let byName := foldl fileLine (foldl unitLine ∅ (scanLines units)) (scanLines files) in
  merge_sort nameLe (map_to_list byName).*2.

(** One line of [launchctl list]. *)
Definition launchdLine (line : string) : list Service :=
  match Fields line with
  | [pid; status; label] =>
    if negb (String.eqb pid "-") then [mkService label "" "running" ("pid " +:+ pid) ""]
    else if negb (String.eqb status "0") then [mkService label "" "failed" ("last exit status " +:+ status) ""]
    else [mkService label "" "stopped" "" ""]
  | _ => []
  end.
Definition parseLaunchd (out : string) : list Service :=
  merge_sort nameLe (flat_map launchdLine (tl (scanLines out))).

(** [golang.org/x/sys/windows/svc.State] and [mgr.Config]. *)
Inductive svcState : Type := Stopped | StartPending | StopPending | Running | ContinuePending | PausePending | Paused.
Inductive startKind : Type := StartBoot | StartSystem | StartAutomatic | StartManual | StartDisabled.
Record mgrConfig := mkMgrConfig { mc_DisplayName : string; mc_StartType : startKind; mc_DelayedAutoStart : bool }.
Definition windowsState (s : svcState) : string * string :=
  match s with
  | Running => ("running", "running")
  | StartPending => ("starting", "start pending")
  | StopPending => ("stopping", "stop pending")
  | Paused | PausePending | ContinuePending => ("running", "paused")
  | Stopped => ("stopped", "stopped")
  end.
Definition startType (c : mgrConfig) : string :=
  match mc_StartType c with
  | StartAutomatic => if mc_DelayedAutoStart c then "automatic (delayed)" else "automatic"
  | StartManual => "manual"
  | StartDisabled => "disabled"
  | StartBoot | StartSystem => "system"
  end.
(** The service control manager: the names, and for a service that opens its state and configuration. *)
Record scm := mkScm {
  scm_names : result string (list string);
  scm_open : string → option (option svcState * option mgrConfig);
}.
Definition windowsEntry (m : scm) (name : string) : list Service :=
  match scm_open m name with
  | None => []
  | Some (st, cfg) =>
    let '(state, detail) := match st with Some s => windowsState s | None => ("stopped", "") end in
    [mkService name (match cfg with Some c => mc_DisplayName c | None => "" end) state detail
       (match cfg with Some c => startType c | None => "" end)]
  end.
Definition listWindows (m : scm) : ServiceList :=
  match scm_names m with
  | Err e => mkServiceList [] e
  | Ok names => mkServiceList (merge_sort nameLe (flat_map (windowsEntry m) names)) ""
  end.

Section commands.
Context `{Lib}.
(** What a command prints, its error if it fails, and what it prints on standard error. *)
Context (run : list string → string * option string * string).
(** [exec.LookPath] and whether systemd runs this machine. *)
Context (LookPath : string → option string) (systemd : bool) (manager : scm).

Definition runServiceCommand (cmd : list string) : M host (string * option string) :=
  _ ← emit (HExec cmd);
  mret (match run cmd with
        | (out, None, _) => (out, None)
        | (out, Some e, stderr) =>
          let msg := TrimSpace stderr in
          (out, Some (if negb (String.eqb msg "") then msg else default "" (head cmd) +:+ ": " +:+ e))
        end).
Definition listSystemd : M host ServiceList :=
  if negb systemd then mret (mkServiceList [] "service management needs systemd") else
  '(units, err) ← runServiceCommand ["systemctl"; "list-units"; "--type=service"; "--all"; "--no-legend"; "--no-pager"; "--plain"];
  match err with
  | Some e => mret (mkServiceList [] e)
  | None =>
    '(files, _) ← runServiceCommand ["systemctl"; "list-unit-files"; "--type=service"; "--no-legend"; "--no-pager"];
    mret (mkServiceList (parseSystemd units files) "")
  end.
Definition listLaunchd : M host ServiceList :=
  '(out, err) ← runServiceCommand ["launchctl"; "list"];
  mret (match err with Some e => mkServiceList [] e | None => mkServiceList (parseLaunchd out) "" end).
Definition listServices (os : goos) : M host ServiceList :=
  match os with Linux => listSystemd | Darwin => listLaunchd | Windows => mret (listWindows manager) end.

(** ** Controlling services *)
Definition globBytes : list ascii := [ascii_of 0; ascii_of 13; ascii_of 10; "/"%char; "\"%char; "*"%char; "?"%char; "["%char; "]"%char].
Definition checkServiceAction (name action : string) (own : list string) : result string unit :=
  if negb (existsb (String.eqb action) ["start"; "stop"; "restart"]) then Err ("unknown action " +:+ Quote action)
  else if String.eqb name "" || (256 <? strLen name) || HasPrefix name "-" || ContainsAny name globBytes
  then Err "invalid service name"
  else if existsb (EqualFold name) own
  then Err "the agent cannot control its own service; reinstall or update it instead"
  else Ok tt.
Definition controlSystemd (name action : string) : M host (option string) :=
  match checkServiceAction name action [AgentName; AgentName +:+ ".service"] with
  | Err e => mret (Some e)
  | Ok _ =>
    let name := if negb (Contains name ".") then name +:+ ".service" else name in
    r ← runServiceCommand ["systemctl"; "--no-block"; action; "--"; name]; mret r.2
  end.
Definition controlLaunchd (name action : string) : M host (option string) :=
  match checkServiceAction name action [AgentName] with
  | Err e => mret (Some e)
  | Ok _ =>
    let target := "system/" +:+ name in
    r ← runServiceCommand
          (if String.eqb action "start" then ["launchctl"; "kickstart"; target]
           else if String.eqb action "restart" then ["launchctl"; "kickstart"; "-k"; target]
           else ["launchctl"; "kill"; "SIGTERM"; target]);
    mret r.2
  end.
(** Windows: [connect] is the error of reaching the manager, [stopErr] what stopping answers, with
    whether it says that the service was not running. A restart goes on in the background. *)
Context (connect : option string) (startErr : option string) (stopErr : option (string * bool)).
Definition controlWindows (name action : string) : M host (option string) :=
  match checkServiceAction name action [AgentName] with
  | Err e => mret (Some e)
  | Ok _ =>
    match connect with
    | Some e => mret (Some e)
    | None =>
      match scm_open manager name with
      | None => mret (Some "The specified service does not exist as an installed service.")
      | Some _ =>
        if String.eqb action "start" then _ ← emit (HService "start" name); mret startErr
        else if String.eqb action "stop" then _ ← emit (HService "stop" name); mret (fst <$> stopErr)
        else
          _ ← emit (HService "stop" name);
          match stopErr with
          | Some (e, false) => mret (Some e)
          | _ => _ ← emit (HService "start" name); mret None
          end
      end
    end
  end.
Definition controlService (os : goos) : string → string → M host (option string) :=
  match os with Linux => controlSystemd | Darwin => controlLaunchd | Windows => controlWindows end.

(** ** Power *)
Definition powerCandidates (os : goos) (reboot : bool) : list (list string) :=
  match os with
  | Linux =>
    (if systemd then [["systemctl"; if reboot then "reboot" else "poweroff"]] else [])
    ++ (if reboot then [["shutdown"; "-r"; "now"]; ["reboot"]] else [["shutdown"; "-h"; "now"]; ["poweroff"]])
  | Darwin => [["/sbin/shutdown"; if reboot then "-r" else "-h"; "now"]]
  | Windows => [["shutdown.exe"; if reboot then "/r" else "/s"; "/f"; "/t"; "5"; "/d"; "p:0:0"; "/c"; "Requested from Lotse"]]
  end.
(** The first candidate whose program is installed. *)
Fixpoint firstInstalled (l : list (list string)) : option (list string) :=
  match l with
  | [] => None
  | c :: rest =>
    match LookPath (default "" (head c)) with
    | Some p => Some (p :: tl c)
    | None => firstInstalled rest
    end
  end.
Definition powerCommand (os : goos) (action : string) : result string (list string) :=
  if negb (existsb (String.eqb action) ["reboot"; "shutdown"]) then Err ("unknown power action " +:+ Quote action) else
  match firstInstalled (powerCandidates os (String.eqb action "reboot")) with
  | Some c => Ok c
  | None => Err ("found no command to " +:+ action +:+ " this machine")
  end.

(** ** Properties: control *)
(** An event that asks for [action] on the service [target] and nothing else. *)
Inductive serviceEvent : goos → string → string → hevent → Prop :=
| event_systemd action target : serviceEvent Linux action target (HExec ["systemctl"; "--no-block"; action; "--"; target])
| event_kickstart target : serviceEvent Darwin "start" target (HExec ["launchctl"; "kickstart"; "system/" +:+ target])
| event_restart target : serviceEvent Darwin "restart" target (HExec ["launchctl"; "kickstart"; "-k"; "system/" +:+ target])
| event_kill target : serviceEvent Darwin "stop" target (HExec ["launchctl"; "kill"; "SIGTERM"; "system/" +:+ target])
| event_scm verb target : verb ∈ ["start"; "stop"] → serviceEvent Windows verb target (HService verb target)
| event_scm_restart verb target : verb ∈ ["start"; "stop"] → serviceEvent Windows "restart" target (HService verb target).
(** The name the agent's own service has, as the manager is asked for it. *)
Definition ownService (os : goos) : string := match os with Linux => AgentName +:+ ".service" | _ => AgentName end.
(** A name that can stand for one service only. *)
Definition plainService (target : string) : Prop :=
  target ≠ "" ∧ HasPrefix target "-" = false ∧ ContainsAny target globBytes = false.

Ltac fold_dot := change (46 =? 191) with false; change (46 =? 132) with false; change (46 =? 170) with false;
  rewrite ?andb_false_r; cbn [andb].
Lemma foldBytes_dot b r : foldBytes (b :: 46 :: r) = lowerZ b :: foldBytes (46 :: r).
Proof. destruct r; cbn [foldBytes]; fold_dot; done. Qed.
Lemma foldBytes_app_aux n l1 l2 : (length l1 ≤ n)%nat → foldBytes (l1 ++ 46 :: l2) = foldBytes l1 ++ foldBytes (46 :: l2).
Proof.
  revert l1. induction n as [|n IH]; intros l1 Hn; [by destruct l1; cbn in Hn; [|lia]|].
  destruct l1 as [|b [|c [|d l1]]]; cbn [app length] in *; [done|apply foldBytes_dot| |].
  - specialize (IH [c] ltac:(cbn; lia)). cbn [app] in IH.
    change (foldBytes (b :: c :: 46 :: l2)) with (if (b =? 197) && (c =? 191) then 115 :: foldBytes (46 :: l2)
      else if (b =? 226) && (c =? 132) && (46 =? 170) then 107 :: foldBytes l2 else lowerZ b :: foldBytes (c :: 46 :: l2)).
    change (foldBytes [b; c]) with (if (b =? 197) && (c =? 191) then [115] else lowerZ b :: foldBytes [c]).
    fold_dot. destruct (_ && _); [done|]. cbn [app]. by rewrite IH.
  - pose proof (IH (c :: d :: l1) ltac:(cbn; lia)) as E1. pose proof (IH (d :: l1) ltac:(cbn; lia)) as E2.
    pose proof (IH l1 ltac:(lia)) as E3. cbn [app] in E1, E2.
    change (foldBytes (b :: c :: d :: l1 ++ 46 :: l2)) with (if (b =? 197) && (c =? 191) then 115 :: foldBytes (d :: l1 ++ 46 :: l2)
      else if (b =? 226) && (c =? 132) && (d =? 170) then 107 :: foldBytes (l1 ++ 46 :: l2) else lowerZ b :: foldBytes (c :: d :: l1 ++ 46 :: l2)).
    change (foldBytes (b :: c :: d :: l1)) with (if (b =? 197) && (c =? 191) then 115 :: foldBytes (d :: l1)
      else if (b =? 226) && (c =? 132) && (d =? 170) then 107 :: foldBytes l1 else lowerZ b :: foldBytes (c :: d :: l1)).
    destruct (_ && _); [cbn [app]; by rewrite E2|]. destruct (_ && _); cbn [app]; [by rewrite E3|by rewrite E1].
Qed.
Lemma bytesOf_append s t : bytesOf (s +:+ t) = bytesOf s ++ bytesOf t.
Proof. induction s as [|a s IH]; [done|]. rewrite append_cons. unfold bytesOf in *. cbn. by rewrite IH. Qed.
Lemma EqualFold_service name t : EqualFold (name +:+ ".service") (t +:+ ".service") = EqualFold name t.
Proof.
  unfold EqualFold. rewrite !bytesOf_append. change (bytesOf ".service") with (46 :: bytesOf "service").
  rewrite !(foldBytes_app_aux _ _ _ (le_n _)). apply bool_decide_ext. split; [apply app_inv_tail|by intros ->].
Qed.
Lemma ContainsAny_append s t l : ContainsAny (s +:+ t) l = ContainsAny s l || ContainsAny t l.
Proof.
  unfold ContainsAny. induction l as [|c l IH]; [done|]. cbn. rewrite containsByte_append, IH.
  destruct (containsByte c s), (containsByte c t), (existsb (λ c, containsByte c s) l); done.
Qed.
Lemma HasPrefix_append s t p : s ≠ "" → String.length p = 1%nat → HasPrefix (s +:+ t) p = HasPrefix s p.
Proof.
  destruct s as [|a s]; [done|]. intros _. destruct p as [|x [|]]; try done. intros _. rewrite append_cons. unfold HasPrefix.
  cbn [String.prefix]. by destruct (ascii_dec x a), s, t.
Qed.

Definition validAction (action : string) : Prop := action ∈ ["start"; "stop"; "restart"].
Lemma checkServiceAction_ok name action own :
  checkServiceAction name action own = Ok tt →
  validAction action ∧ plainService name ∧ (strLen name ≤ 256) ∧ ∀ o, o ∈ own → EqualFold name o = false.
Proof.
  unfold checkServiceAction. destruct (existsb (String.eqb action) _) eqn:Ea; cbn [negb]; [|done].
  destruct (_ || _) eqn:Eb; [done|]. destruct (existsb (EqualFold name) own) eqn:Eo; [done|]. intros _.
  apply orb_false_iff in Eb as [[[E1%String.eqb_neq E2%Z.ltb_ge]%orb_false_iff E3]%orb_false_iff E4].
  split; [|split; [by split_and!|split; [done|]]].
  - apply existsb_exists in Ea as (x & Hx & ->%String.eqb_eq). by apply list_elem_of_In.
  - intros o Ho. apply not_true_is_false. intros Ht. apply not_true_iff_false in Eo. apply Eo, existsb_exists.
    exists o. split; [by apply list_elem_of_In|done].
Qed.

(** What a call appended to the trace. *)
Definition emitted (h h' : host) (l : list hevent) : Prop := ho_trace h' = ho_trace h ++ l ∧ ho_files h' = ho_files h.
Definition serviceSafe (os : goos) (action : string) (h : host) (_ : option string) (h' : host) : Prop :=
  ∃ l, emitted h h' l ∧ ∀ e, e ∈ l → ∃ target, serviceEvent os action target e
    ∧ validAction action ∧ plainService target ∧ EqualFold target (ownService os) = false.
Lemma serviceSafe_none os action h r : serviceSafe os action h r h.
Proof. exists []. split; [split; [by rewrite app_nil_r|done]|set_solver]. Qed.
Lemma wp_runService cmd (Q : string * option string → host → Prop) h :
  (∀ r, Q r (with_trace (ho_trace h ++ [HExec cmd]) h)) → wp (runServiceCommand cmd) Q h.
Proof. intros HQ. unfold runServiceCommand. apply wp_bind, wp_modify, wp_ret, HQ. Qed.
Lemma serviceSafe_one os action target e h r :
  serviceEvent os action target e → validAction action → plainService target → EqualFold target (ownService os) = false →
  serviceSafe os action h r (with_trace (ho_trace h ++ [e]) h).
Proof. intros He Ha Hp Ho. exists [e]. split; [done|]. intros x ->%list_elem_of_singleton. eauto. Qed.

(** Controlling a service touches that service only: the manager is asked for start, stop or
    restart of one plainly named unit, never a pattern, an option or a path, and never for the agent's own
    service, in whatever case it is written; any other request is refused without a command. *)
Theorem service_control_safe (os : goos) (name action : string) (h : host) :
  let '(r, h') := controlService os name action h in serviceSafe os action h r h'.
Proof.
  apply wp_let. destruct os; cbn [controlService].
  - unfold controlSystemd. destruct (checkServiceAction _ _ _) as [[]|e] eqn:Ec; [|apply wp_ret, serviceSafe_none].
    apply checkServiceAction_ok in Ec as (Ha & Hp & _ & Ho). apply wp_bind, wp_runService. intros r. apply wp_ret.
    eapply serviceSafe_one; [constructor|done|..].
    + destruct (Contains name "."); cbn [negb]; [done|]. destruct Hp as (Hne & Hd & Hg). split_and!.
      * destruct name; [done|]. by rewrite append_cons.
      * by rewrite HasPrefix_append.
      * rewrite ContainsAny_append, Hg. reflexivity.
    + destruct (Contains name "."); cbn [negb]; [apply Ho; set_solver|]. unfold ownService. rewrite EqualFold_service. apply Ho. set_solver.
  - unfold controlLaunchd. destruct (checkServiceAction _ _ _) as [[]|e] eqn:Ec; [|apply wp_ret, serviceSafe_none].
    apply checkServiceAction_ok in Ec as (Ha & Hp & _ & Ho). apply wp_bind, wp_runService. intros r. apply wp_ret.
    eapply serviceSafe_one; [|done|done|apply Ho; set_solver].
    pose proof Ha as Ha'. unfold validAction in Ha'. rewrite !elem_of_cons in Ha'. destruct Ha' as [->|[->|[->|[]%elem_of_nil]]]; constructor.
  - unfold controlWindows. destruct (checkServiceAction _ _ _) as [[]|e] eqn:Ec; [|apply wp_ret, serviceSafe_none].
    apply checkServiceAction_ok in Ec as (Ha & Hp & _ & Ho). assert (Hown : EqualFold name (ownService Windows) = false) by (apply Ho; set_solver).
    destruct connect; [apply wp_ret, serviceSafe_none|]. destruct (scm_open manager name); [|apply wp_ret, serviceSafe_none].
    assert (Hone : ∀ verb r, serviceEvent Windows action name (HService verb name) → serviceSafe Windows action h r (with_trace (ho_trace h ++ [HService verb name]) h)).
    { intros verb r Hv. by eapply serviceSafe_one. }
    assert (action = "start" ∨ action = "stop" ∨ action = "restart") as [-> | [-> | ->]] by (unfold validAction in Ha; set_solver); cbn [String.eqb Ascii.eqb Bool.eqb].
    { apply wp_bind, wp_modify, wp_ret, Hone. constructor. set_solver. }
    { apply wp_bind, wp_modify, wp_ret, Hone. constructor. set_solver. }
    apply wp_bind, wp_modify. destruct stopErr as [[e []]|]; [|apply wp_ret, Hone; constructor; set_solver|].
    all: apply wp_bind, wp_modify, wp_ret; exists [HService "stop" name; HService "start" name].
    all: (split; [split; [cbn; by rewrite <-app_assoc|done]|]); intros e0 He; exists name.
    all: (split; [|done]); rewrite !elem_of_cons in He; destruct He as [->|[->|[]%elem_of_nil]]; apply event_scm_restart; set_solver.
Qed.

(** ** Properties: lists *)
Definition validState (s : Service) : Prop := se_State s ∈ ["running"; "stopped"; "failed"; "starting"; "stopping"].
Definition keyed (m : gmap string Service) : Prop := ∀ k s, m !! k = Some s → se_Name s = k ∧ validState s.
Lemma systemdState_valid active sub : systemdState active sub ∈ ["running"; "stopped"; "failed"; "starting"; "stopping"].
Proof. unfold systemdState. repeat case_match; set_solver. Qed.
Lemma unitLine_keyed m line : keyed m → keyed (unitLine m line).
Proof.
  intros Hm. unfold unitLine. destruct (Fields line) as [|name [|load [|active [|sub rest]]]]; try done.
  destruct (String.eqb load "not-found"); [done|]. intros k s. rewrite lookup_insert_Some. intros [[<- <-]|[_ Hk]]; [|by apply Hm].
  split; [done|apply systemdState_valid].
Qed.
Lemma fileLine_keyed m line : keyed m → keyed (fileLine m line).
Proof.
  intros Hm. unfold fileLine. destruct (Fields line) as [|name [|start rest]]; try done.
  destruct (Contains name "@."); [done|]. intros k s. rewrite lookup_insert_Some. intros [[<- <-]|[_ Hk]]; [|by apply Hm].
  unfold validState. cbn. destruct (m !! name) as [s|] eqn:E; cbn; [by apply Hm|]. split; [done|set_solver].
Qed.
Lemma foldl_keyed (f : gmap string Service → string → gmap string Service) l m :
  (∀ m x, keyed m → keyed (f m x)) → keyed m → keyed (foldl f m l).
Proof. intros Hf. revert m. induction l as [|x l IH]; intros m Hm; cbn; [done|]. by apply IH, Hf. Qed.
Lemma launchdLine_valid line : Forall validState (launchdLine line).
Proof.
  unfold launchdLine. destruct (Fields line) as [|pid [|status [|label [|]]]]; try apply Forall_nil; try done.
  repeat case_match; apply Forall_singleton; unfold validState; cbn; set_solver.
Qed.
Lemma windowsEntry_valid name : Forall validState (windowsEntry manager name).
Proof.
  unfold windowsEntry. destruct (scm_open manager name) as [[st cfg]|]; [|by apply Forall_nil].
  destruct (match st with Some s => windowsState s | None => ("stopped", "") end) as [state detail] eqn:E.
  apply Forall_singleton. unfold validState. cbn. destruct st as [[]|]; cbn in E; simplify_eq; set_solver.
Qed.
Lemma Forall_flat_map' {A B} (P : B → Prop) (f : A → list B) l : (∀ x, Forall P (f x)) → Forall P (flat_map f l).
Proof. intros Hf. induction l as [|x l IH]; cbn; [done|]. by apply Forall_app. Qed.
#[local] Instance nameLe_total : Total nameLe.
Proof.
  intros a b. unfold nameLe, strLe. rewrite (cmp_anti _ string_cmp (se_Name a) (se_Name b)).
  destruct (String.compare _ _); cbn; [left|left|right]; done.
Qed.

(** C38. Lists of services are well formed: whatever the service manager prints, every entry has one of the five
    states the protocol knows, the entries are in the order of their names, and systemd's list, which
    merges two commands, names every unit once. *)
Theorem services_typed (os : goos) (h : host) :
  let '(l, _) := listServices os h in
  Forall validState (sl_Services l) ∧ Sorted nameLe (sl_Services l)
  ∧ (os = Linux → NoDup (map se_Name (sl_Services l))).
Proof.
  assert (Hempty : ∀ e, Forall validState (sl_Services (mkServiceList [] e)) ∧ Sorted nameLe (sl_Services (mkServiceList [] e))
    ∧ (os = Linux → NoDup (map se_Name (sl_Services (mkServiceList [] e))))).
  { intros e. cbn. split_and!; [done|constructor|constructor]. }
  assert (Hsort : ∀ l e, Forall validState l → os ≠ Linux →
    Forall validState (sl_Services (mkServiceList (merge_sort nameLe l) e)) ∧ Sorted nameLe (merge_sort nameLe l)
    ∧ (os = Linux → NoDup (map se_Name (merge_sort nameLe l)))).
  { intros l e Hl Hos. cbn. split_and!; [by rewrite merge_sort_Permutation|apply Sorted_merge_sort, _|done]. }
  apply wp_let. destruct os; cbn [listServices].
  - unfold listSystemd. destruct systemd; cbn [negb]; [|by apply wp_ret].
    apply wp_bind, wp_runService. intros [units [e|]]; [by apply wp_ret|].
    apply wp_bind, wp_runService. intros [files e]. apply wp_ret. cbn [sl_Services]. unfold parseSystemd.
    set (m := foldl fileLine _ _).
    assert (Hm : keyed m).
    { apply foldl_keyed; [apply fileLine_keyed|]. apply foldl_keyed; [apply unitLine_keyed|]. intros k s. by rewrite lookup_empty. }
    split_and!.
    + rewrite merge_sort_Permutation. apply Forall_fmap, Forall_forall. intros [k s] Hks%elem_of_map_to_list. by apply (Hm k s).
    + apply Sorted_merge_sort, _.
    + intros _. change (map se_Name (merge_sort nameLe (map_to_list m).*2)) with (se_Name <$> merge_sort nameLe (map_to_list m).*2).
      rewrite merge_sort_Permutation, <-list_fmap_compose. 
      replace ((se_Name ∘ snd) <$> map_to_list m) with (map_to_list m).*1; [apply NoDup_fst_map_to_list|].
      apply list_fmap_ext. intros i [k s] Hi%list_elem_of_lookup_2%elem_of_map_to_list. cbn. symmetry. by apply (Hm k s).
  - unfold listLaunchd. apply wp_bind, wp_runService. intros [out [e|]]; apply wp_ret; [by apply Hempty|].
    apply (Hsort _ ""); [|done]. apply Forall_flat_map', launchdLine_valid.
  - apply wp_ret. unfold listWindows. destruct (scm_names manager) as [names|e]; [|by apply Hempty].
    apply (Hsort _ ""); [|done]. apply Forall_flat_map', windowsEntry_valid.
Qed.
End commands.
