(* ===== verification/Processes.v ===== *)
(** * Processes ([internal/agent/collect/processes.go])

    The busiest processes, from two readings of their CPU time, and signals to processes. What the
    operating system answers about a process is a record of readings. *)
From Stdlib Require Import ZArith Lia Ascii String Floats.SpecFloat.
From S2P Require Import Prelude GoStrings Float64 Library Version Paths Web Update Protocol Hub Host AgentConfig AgentState Control.
From stdpp Require Import base gmap strings list sorting.
Local Open Scope string_scope.
Local Open Scope list_scope.
Local Open Scope Z_scope.
Local Open Scope lotse_scope.

(** What [gopsutil] reads of a process: [None] is an error. *)
Record reading := mkReading {
  rd_Pid : Z;
  rd_before : option (f64 * f64);     (* user and system time, first and second sample *)
  rd_after : option (f64 * f64);
  rd_RSS : option Z;
  rd_Name : string;
  rd_Username : string;
  rd_CreateTime : option Z;
  rd_Cmdline : option string;
}.

(** [cmp.Compare] on floats: NaN is below everything. *)
Definition isNaN (x : f64) : bool := match x with S754_nan => true | _ => false end.
Definition compareF (x y : f64) : Z :=
  if isNaN x then (if isNaN y then 0 else -1)
  else if isNaN y then 1
  else if flt x y then -1 else if flt y x then 1 else 0.
Definition compareZ (x y : Z) : Z := if x <? y then -1 else if y <? x then 1 else 0.
Definition busier (a b : reading * Process) : Z :=
  let c := compareF (pr_CPU b.2) (pr_CPU a.2) in
  if negb (c =? 0) then c else compareZ (pr_Mem b.2) (pr_Mem a.2).
Definition busierLe (a b : reading * Process) : Prop := busier a b <= 0.
#[export] Instance busierLe_dec a b : Decision (busierLe a b).
Proof. unfold busierLe. apply _. Defined.

(** The CPU share between the samples, in percent of the whole machine. *)
Definition cpuShare (prev now elapsed cores : f64) : f64 :=
  fmax fzero (fmul (fdiv (fdiv (fsub now prev) elapsed) cores) (ofInt 100)).
(** A process that was there at both samples. *)
Definition measure (elapsed cores : f64) (r : reading) : list (reading * Process) :=
  match rd_before r, rd_after r with
  | Some (u0, s0), Some (u1, s1) =>
    [(r, mkProcess (rd_Pid r) "" "" (cpuShare (fadd u0 s0) (fadd u1 s1) elapsed cores) (default 0 (rd_RSS r)) 0 "")]
  | _, _ => []
  end.

(** A long command line is cut before a character, and marked. *)
Fixpoint cutPoint (b : list Z) (n : nat) : nat :=
  match n with
  | O => O
  | S m => if RuneStart (nth n b 0) then n else cutPoint b m
  end.
Definition ellipsis : list Z := [226; 128; 166].
Definition shorten (cmd : string) : string :=
  if 300 <? strLen cmd then stringOf (take (cutPoint (bytesOf cmd) 300) (bytesOf cmd) ++ ellipsis) else cmd.
Definition describe (withCommands : bool) (e : reading * Process) : Process :=
  let '(r, p) := e in
  mkProcess (pr_PID p) (rd_Name r) (rd_Username r) (pr_CPU p) (pr_Mem p)
    (match rd_CreateTime r with Some ms => ms /! 1000 | None => 0 end)
    (if withCommands then match rd_Cmdline r with Some cmd => shorten cmd | None => "" end else "").
(** [procs]: the processes, [None] when they cannot be listed. *)
Definition Processes (procs : option (list reading)) (elapsed cores : f64) (limit : Z) (withCommands : bool) : option ProcessList :=
  procs ← procs;
  let l := merge_sort busierLe (flat_map (measure elapsed cores) procs) in
  Some (mkProcessList (map (describe withCommands) (if limit <? Z.of_nat (length l) then take (Z.to_nat limit) l else l)) (Z.of_nat (length l))).

(** ** Signals: [signaled] is the error of the call *)
Definition Signal (os : goos) (getpid : Z) (signaled : Z → option string) (pid : Z) (signal : string) : M host (option string) :=
  if pid <=? 1 then mret (Some "refusing to signal PID 0 or 1")
  else if pid =? getpid then mret (Some "refusing to stop the agent itself")
  else if String.eqb signal "kill" then _ ← emit (HSignal pid "kill"); mret (signaled pid)
  else if String.eqb signal "terminate" then
    _ ← emit (HSignal pid (match os with Windows => "kill" | _ => "terminate" end)); mret (signaled pid)
  else mret (Some "unknown signal").

(** ** Properties *)
#[local] Instance busierLe_total : Total busierLe.
Proof.
  intros a b. unfold busierLe, busier, compareF, compareZ.
  destruct (isNaN (pr_CPU a.2)), (isNaN (pr_CPU b.2)); cbn; try lia.
  all: try (destruct (flt (pr_CPU b.2) (pr_CPU a.2)); cbn; [lia|]; destruct (flt (pr_CPU a.2) (pr_CPU b.2)); cbn; [lia|]).
  all: destruct (Z.ltb_spec (pr_Mem b.2) (pr_Mem a.2)), (Z.ltb_spec (pr_Mem a.2) (pr_Mem b.2)); lia.
Qed.
Lemma cutPoint_spec b n : (cutPoint b n ≤ n)%nat ∧ (cutPoint b n = 0%nat ∨ RuneStart (nth (cutPoint b n) b 0) = true).
Proof.
  induction n as [|n [IH1 IH2]]; cbn [cutPoint]; [auto|].
  destruct (RuneStart (nth (S n) b 0)) eqn:E; [auto|]. split; [lia|done].
Qed.
(** What is shown of a command line: all of it, or its beginning up to a character's start. *)
Definition shownAs (cmd shown : string) : Prop :=
  (shown = cmd ∧ strLen cmd <= 300)
  ∨ (∃ n, (n ≤ 300)%nat ∧ bytesOf shown = take n (bytesOf cmd) ++ ellipsis ∧ (n = 0%nat ∨ RuneStart (nth n (bytesOf cmd) 0) = true)).
Lemma shorten_shownAs cmd : shownAs cmd (shorten cmd).
Proof.
  unfold shorten, shownAs. destruct (300 <? strLen cmd) eqn:E; bool_hyps; [right|left; split; [done|lia]].
  exists (cutPoint (bytesOf cmd) 300). destruct (cutPoint_spec (bytesOf cmd) 300) as [Hle Hs]. split_and!; [done| |done].
  apply bytesOf_stringOf, Forall_app. split; [apply Forall_take, bytesOf_isByte|]. repeat constructor; lia.
Qed.

(** The process list shows the busiest processes and hides command lines unless asked: at most
    [limit] entries, each of a process that was there at both samples, in descending order of CPU
    and then memory, with the number of all such processes; a command line is only there when
    asked for, and then whole or cut at a character. *)
Theorem processes_busiest (procs : list reading) (elapsed cores : f64) (limit : Z) (withCommands : bool) (Hlimit : 0 <= limit) :
  let measured := flat_map (measure elapsed cores) procs in
  ∃ l sorted, Processes (Some procs) elapsed cores limit withCommands = Some l
    ∧ sorted ≡ₚ measured ∧ Sorted busierLe sorted
    ∧ pl_Processes l = map (describe withCommands) (take (Z.to_nat limit) sorted)
    ∧ Z.of_nat (length (pl_Processes l)) <= limit ∧ pl_Total l = Z.of_nat (length measured)
    ∧ Forall (λ p, pr_Command p = "" ∨ withCommands = true
        ∧ ∃ r cmd, r ∈ procs ∧ rd_Pid r = pr_PID p ∧ rd_Cmdline r = Some cmd ∧ shownAs cmd (pr_Command p)) (pl_Processes l).
Proof.
  intros measured. set (sorted := merge_sort busierLe measured).
  assert (Hp : sorted ≡ₚ measured) by apply merge_sort_Permutation.
  assert (Htake : (if limit <? Z.of_nat (length sorted) then take (Z.to_nat limit) sorted else sorted) = take (Z.to_nat limit) sorted).
  { destruct (Z.ltb_spec limit (Z.of_nat (length sorted))); [done|]. symmetry. apply take_ge. lia. }
  eexists _, sorted. split; [reflexivity|]. cbn [pl_Processes pl_Total]. fold measured. fold sorted. rewrite Htake. split_and!.
  - done.
  - apply Sorted_merge_sort, _.
  - done.
  - rewrite length_map, length_take. lia.
  - by rewrite Hp.
  - apply Forall_fmap, Forall_forall. intros [r p] Hin.
    assert (Hm : (r, p) ∈ measured) by (rewrite <-Hp; by apply (subseteq_take (Z.to_nat limit))).
    unfold measured in Hm. apply list_elem_of_In, in_flat_map in Hm as (r' & Hr' & Hm). unfold measure in Hm.
    destruct (rd_before r') as [[u0 s0]|]; [|done]. destruct (rd_after r') as [[u1 s1]|]; [|done].
    destruct Hm as [[= <- <-]|[]]. unfold compose, describe. cbn.
    destruct withCommands; [|by left]. destruct (rd_Cmdline r') as [cmd|] eqn:Ec; [|by left].
    right. split; [done|]. exists r', cmd. split_and!; [by apply list_elem_of_In|done|done|apply shorten_shownAs].
Qed.

(** Signals reach no process but the one named, and neither init nor the agent. *)
Lemma Signal_spec os getpid signaled pid signal h :
  let '(r, h') := Signal os getpid signaled pid signal h in
  h' = h ∨ (1 < pid ∧ pid ≠ getpid ∧ ∃ s, s ∈ ["kill"; "terminate"] ∧ h' = with_trace (ho_trace h ++ [HSignal pid s]) h).
Proof.
  apply wp_let. unfold Signal. destruct (Z.leb_spec pid 1); [by apply wp_ret; left|].
  destruct (Z.eqb_spec pid getpid); [by apply wp_ret; left|].
  destruct (String.eqb signal "kill"); [apply wp_bind, wp_modify, wp_ret; right; split_and!; [done|done|]; exists "kill"; set_solver|].
  destruct (String.eqb signal "terminate"); [|by apply wp_ret; left].
  apply wp_bind, wp_modify, wp_ret. right. split_and!; [done|done|]. destruct os; eexists; (split; [|reflexivity]); set_solver.
Qed.

Lemma processes_busiest_witness :
  let rd pid u cmd := mkReading pid (Some (fzero, fzero)) (Some (ofInt u, fzero)) (Some 10) "p" "root" None (Some cmd) in
  ∃ l, Processes (Some [rd 7 1 "a"; rd 8 3 "b"; rd 9 2 "c"]) (ofInt 1) (ofInt 4) 2 true = Some l
    ∧ Z.of_nat (length (pl_Processes l)) <= 2 ∧ map pr_PID (pl_Processes l) = [8; 9].
Proof.
  intros rd. destruct (processes_busiest [rd 7 1 "a"; rd 8 3 "b"; rd 9 2 "c"] (ofInt 1) (ofInt 4) 2 true) as (l & sorted & Hl & _ & _ & _ & Hn & _); [lia|].
  exists l. split; [exact Hl|]. split; [exact Hn|]. revert Hl. vm_compute. intros [= <-]. reflexivity.
Defined.
