(* ===== verification/Agent.v ===== *)
(** * The agent's link to the hub ([internal/agent/agent.go])

    Greeting the hub, answering its requests, reporting metrics, and connecting again. *)
From Stdlib Require Import ZArith Lia Ascii String.
From S2P Require Import Prelude GoStrings Float64 Library Version Paths Web Update Wol Protocol Hub Host AgentConfig AgentState AgentUpdate AgentServices Control Processes.
From stdpp Require Import base gmap strings list relations.
Local Open Scope string_scope.
Local Open Scope list_scope.
Local Open Scope Z_scope.
Local Open Scope lotse_scope.

Definition minBackoff : Z := seconds 1.
Definition maxBackoff : Z := minutes 1.
Definition requestTimeout : Z := seconds 15.

(** What this agent may do, as it tells the hub. *)
Definition features (c : Config) : list string :=
  [FeatureWake] ++ (if cf_AllowShell c then [FeatureShell] else []) ++ (if negb (cf_DisableUpdates c) then [FeatureUpdate] else []).
(** Seconds between reports, as a duration. *)
Definition clampInterval (secs : Z) : Z :=
  let secs := if secs <=? 0 then 60 else secs in
  seconds (Z.min (Z.max secs 1) 3600).

(** ** Greeting *)
Record HelloReply := mkHelloReply { hr_OK : bool; hr_Error : string; hr_Interval : Z }.
(** What comes of sending a request: an error, or whether it was granted, with the payload. *)
Inductive sent (A : Type) : Type := SendErr (e : string) | Replied (ok : bool) (payload : A).
Arguments SendErr {A} e.
Arguments Replied {A} ok payload.

Section agent.
Context `{Lib} `{Ssh} `{Marshal}.
(** [websocket.Dial] takes the URL that [net/url] puts together. *)
Context (urlPath : string → string) (urlString : string → string → string → string).
(** The machine: programs, the service manager, the process table, the network. *)
Context (run : list string → string * option string * string) (LookPath : string → option string) (systemd : bool).
Context (manager : scm) (connect startErr : option string) (stopErr : option (string * bool)).
Context (procs : option (list reading)) (elapsed cores : f64) (getpid : Z) (signaled : Z → option string).
Context (ifaces : option (list string)) (dial : bool) (sentPackets : list bool).

Definition wsURL (c : Config) : string :=
  match urlParse (cf_HubURL c) with
  | Some u => urlString (if String.eqb (url_Scheme u) "https" then "wss" else "ws") (url_Host u)
                (TrimSuffix (urlPath (cf_HubURL c)) "/" +:+ "/api/agent/connect")
  | None => ""
  end.
(** [handshake]: only the pinned hub key may authenticate. *)
Definition hubKeyAccepted (hubKey key : string) : bool := String.eqb key hubKey.
(** The greeting. *)
Definition helloMsg (info : SystemInfo) (a : agent) : Hello :=
  mkHello ProtocolVersion (ag_version a) (cf_Token (ag_cfg a)) info (features (ag_cfg a)).
(** What the agent makes of the hub's answer. *)
Definition hello (answer : sent HelloReply) : M agent (result string Z) :=
  match answer with
  | SendErr e => mret (Err ("hello: " +:+ e))
  | Replied ok reply =>
    if negb ok || negb (hr_OK reply)
    then mret (Err ("hub refused this agent: " +:+ (if String.eqb (hr_Error reply) "" then "rejected" else hr_Error reply)))
    else
      a ← mget;
      _ ← (if negb (String.eqb (cf_Token (ag_cfg a)) "") then
             _ ← mmodify (λ a, with_cfg (with_Token "" (ag_cfg a)) a);
             a ← mget; _ ← onHost (Save (ag_cfg a)); mret tt
           else mret tt);
      mret (Ok (clampInterval (hr_Interval reply)))
  end.

(** ** Requests of the hub; [None] is a payload that is not the JSON expected *)
Inductive hubRequest : Type :=
| RProcesses (limit : Z)
| RSignal (msg : option (Z * string))
| RPower (msg : option string)
| RServices
| RService (msg : option (string * string))
| RWake (msg : option (list string * string))
| RInterval (msg : option Z)
| ROther (type : string).
Definition remoteControlOff : string := "is disabled on this machine (install the agent with --allow-shell)".
(** What a reply carries: nothing but the refusal, nothing but the consent, or a list or the outcome of an action. *)
Inductive payload : Type := PRefused | PNone | PProcesses (l : ProcessList) | PServices (l : ServiceList) | PAction (err : string).
Definition replyAction (err : string) : M agent payload :=
  _ ← happen (HReply (String.eqb err "") err); mret (PAction err).
Definition refuse : M agent payload := _ ← happen (HReply false ""); mret PRefused.
Definition grant (p : payload) : M agent payload := _ ← happen (HReply true ""); mret p.
(** The error message of an action, or the reason why it is off. *)
Definition ifAllowed (what : string) (act : M host (option string)) : M agent string :=
  a ← mget;
  if negb (cf_AllowShell (ag_cfg a)) then mret (what +:+ " " +:+ remoteControlOff)
  else r ← onHost act; mret (default "" r).
Definition handleRequest (req : hubRequest) : M agent payload :=
  a ← mget;
  match req with
  | RProcesses limit =>
    match Processes procs elapsed cores (Z.min (Z.max limit 1) 100) (cf_AllowShell (ag_cfg a)) with
    | None => refuse
    | Some l => grant (PProcesses l)
    end
  | RSignal None => refuse
  | RSignal (Some (pid, signal)) =>
    err ← ifAllowed "stopping processes" (Signal (ag_os a) getpid signaled pid signal); replyAction err
  | RPower None => refuse
  | RPower (Some action) =>
    if negb (cf_AllowShell (ag_cfg a)) then replyAction ("rebooting and shutting down " +:+ remoteControlOff) else
    match powerCommand LookPath systemd (ag_os a) action with
    | Err e => replyAction e
    | Ok cmd => p ← replyAction ""; _ ← happen (HAfter (seconds 1) cmd); mret p
    end
  | RServices => l ← onHost (listServices run systemd manager (ag_os a)); grant (PServices l)
  | RService None => refuse
  | RService (Some (name, action)) =>
    err ← ifAllowed "controlling services" (controlService run manager connect startErr stopErr (ag_os a) name action); replyAction err
  | RWake None => refuse
  | RWake (Some (macs, broadcast)) =>
    if negb (IsLocalBroadcast broadcast ifaces) then refuse else
    let '(packets, ok) := wolSend macs broadcast dial sentPackets in
    _ ← (match packets with [] => mret tt | _ => happen (HWake macs broadcast) end);
    if (ok : bool) then grant PNone else refuse
  | RInterval None => refuse
  | RInterval (Some secs) =>
    if secs <=? 0 then refuse else
    _ ← mmodify (with_intervals None);                     (* keep only the newest value *)
    _ ← mmodify (with_intervals (Some (clampInterval secs)));
    grant PNone
  | ROther _ => refuse
  end.

(** What the timer of a power action runs; its error is only logged. *)
Definition powerDue (cmd : list string) : M agent (option string) :=
  _ ← happen (HExec cmd); mret (run cmd).1.2.

(** ** Reporting

    [sends] are the outcomes of the sends, [waits] what ends each pause. The result is the number
    of samples sent, the interval at the end, and the error that ended it ([None] while it goes on). *)
Inductive pause : Type := Tick | NewInterval (d : Z) | LinkClosed.
Fixpoint report (interval : Z) (l : list (sent unit * pause)) : nat * Z * option string :=
  match l with
  | [] => (0%nat, interval, None)
  | (SendErr e, _) :: _ => (1%nat, interval, Some ("send metrics: " +:+ e))
  | (Replied false _, _) :: _ => (1%nat, interval, Some "hub rejected metrics")
  | (Replied true _, p) :: rest =>
    match p with
    | LinkClosed => (1%nat, interval, Some "connection closed")
    | Tick => let '(n, i, e) := report interval rest in (S n, i, e)
    | NewInterval d => let '(n, i, e) := report d rest in (S n, i, e)
    end
  end.

(** ** One connection

    [dialed] and [shaken] are the errors of dialing and of the SSH handshake, if any; the requests and channels the hub
    sends meanwhile are served by [handleRequest] and [AgentShell.handleChannel]. The result is whether the hub
    accepted the agent, and the error; [None] while the connection goes on. *)
Definition session (dialed shaken : option string) (answer : sent HelloReply) (l : list (sent unit * pause)) :
    M agent (bool * option string) :=
  match dialed with
  | Some e => mret (false, Some ("dial: " +:+ e))
  | None =>
    match shaken with
    | Some e => mret (false, Some ("ssh handshake failed (does the hub key in the config match the hub?): " +:+ e))
    | None =>
      r ← hello answer;
      mret (match r with
            | Err e => (false, Some e)
            | Ok interval => (true, (report interval l).2)
            end)
    end
  end.
(** [New]: the hub's key and the agent's, or the error. *)
Definition newAgent (cfg : Config) : M host (result string (string * string)) :=
  match ParseAuthorizedKey (cf_HubKey cfg) with
  | Err e => mret (Err ("hub key: " +:+ e))
  | Ok hubKey =>
    k ← LoadOrCreate (KeyPath cfg);
    mret (match k with Err e => Err ("agent key: " +:+ e) | Ok key => Ok (hubKey, key) end)
  end.
(** A connection counts as established exactly when the hub accepted the greeting. *)
Lemma session_connected dialed shaken answer l a :
  (session dialed shaken answer l a).1.1 = true ↔
  dialed = None ∧ shaken = None ∧ ∃ reply, answer = Replied true reply ∧ hr_OK reply = true.
Proof.
  unfold session. destruct dialed as [e|]; [cbn; split; [done|by intros []]|].
  destruct shaken as [e|]; [cbn; split; [done|by intros (_ & ? & _)]|].
  unfold mbind, M_bind, hello. destruct answer as [e|ok reply]; [cbn; split; [done|by intros (_ & _ & ? & ? & _)]|].
  destruct ok, (hr_OK reply) eqn:E; cbn [negb orb]; [|cbn; split; [done|intros (_ & _ & r & [= <-] & ?); congruence]..].
  unfold mbind, M_bind, mget. destruct (negb _); cbn; [destruct (onHost _ _)|]; cbn; (split; [intros _; by eauto|done]).
Qed.
End agent.

(** ** Connecting again

    One round of [Run]: a session that ended, what the random generator gave, and when the next one starts. *)
Record attempt := mkAttempt {
  at_connected : bool;
  at_lasted : Z;          (* how long the session lasted *)
  at_err : string;
  at_rand : Z;
}.
Record runState := mkRunState {
  rn_now : Z;             (* when the session starts *)
  rn_backoff : Z;
  rn_lastErr : string;
  rn_lastLogged : Z;
  rn_logged : list (Z * string);
}.
Definition runRound (o : attempt) (s : runState) : runState :=
  let now := rn_now s + at_lasted o in
  let lastErr := if at_connected o then "" else rn_lastErr s in
  let backoff := if at_connected o && (minutes 1 <? at_lasted o) then minBackoff else rn_backoff s in
  let log := negb (String.eqb (at_err o) lastErr) || (minutes 10 <? now - rn_lastLogged s) in
  let wait := backoff + at_rand o mod (backoff /! 2 + 1) in
  mkRunState (now + wait) (Z.min (backoff * 2) maxBackoff)
    (if log then at_err o else lastErr) (if log then now else rn_lastLogged s)
    (if log then rn_logged s ++ [(now, at_err o)] else rn_logged s).
(** The state before the [n]-th session. *)
Fixpoint Run (env : nat → attempt) (n : nat) (s : runState) : runState :=
  match n with O => s | S k => runRound (env k) (Run env k s) end.
Definition startRun (now : Z) : runState := mkRunState now minBackoff "" zeroTime [].

(** ** Properties: connecting again *)
Definition goodBackoff (s : runState) : Prop := minBackoff <= rn_backoff s <= maxBackoff.
Lemma runRound_spec o s : goodBackoff s → 0 <= at_lasted o →
  goodBackoff (runRound o s)
  ∧ rn_now s + at_lasted o + seconds 1 <= rn_now (runRound o s) <= rn_now s + at_lasted o + seconds 90.
Proof.
  unfold goodBackoff, runRound. cbn [rn_backoff rn_now]. set (b := if _ && _ then _ else _). intros Hb Hl.
  assert (Hb' : minBackoff <= b <= maxBackoff) by (unfold b; destruct (_ && _); [unfold minBackoff, maxBackoff, minutes, seconds, nsec; lia|done]).
  clearbody b. assert (H2 : b /! 2 = b / 2) by (apply Z.quot_div_nonneg; unfold minBackoff, seconds, nsec in *; lia). rewrite H2.
  assert (Hq : 0 <= b / 2 <= seconds 30).
  { split; [apply Z.div_pos; unfold minBackoff, seconds, nsec in *; lia|]. apply Z.div_le_upper_bound; [lia|].
    unfold maxBackoff, minutes, seconds, nsec in *. lia. }
  pose proof (Z.mod_pos_bound (at_rand o) (b / 2 + 1) ltac:(lia)) as Hr.
  unfold minBackoff, maxBackoff, minutes, seconds, nsec in *. lia.
Qed.
Lemma Run_progress env n t0 : (∀ k, 0 <= at_lasted (env k)) →
  goodBackoff (Run env n (startRun t0)) ∧ t0 + Z.of_nat n * seconds 1 <= rn_now (Run env n (startRun t0)).
Proof.
  intros Hl. induction n as [|n [IH1 IH2]]; cbn [Run].
  - split; [unfold goodBackoff; cbn; unfold minBackoff, maxBackoff, minutes, seconds, nsec; lia|cbn; lia].
  - destruct (runRound_spec (env n) _ IH1 (Hl n)) as [Hg [Hlo _]]. split; [done|]. specialize (Hl n). unfold seconds, nsec in *. lia.
Qed.
(** The first [n] with a decidable property. *)
Lemma least_nat (P : nat → Prop) `{!∀ n, Decision (P n)} n : P n → ∃ m, P m ∧ ∀ k, (k < m)%nat → ¬ P k.
Proof.
  induction n as [n IH] using lt_wf_ind. intros Hn. destruct (decide (Exists P (seq 0 n))) as [He|He].
  - apply Exists_exists in He as (k & [_ Hk]%elem_of_seq & Pk). by apply (IH k).
  - exists n. split; [done|]. intros k Hk Pk. apply He, Exists_exists. exists k. split; [apply elem_of_seq; lia|done].
Qed.

