(* ===== verification/AgentCommand.v ===== *)
(** * The agent's command line ([cmd/agent/main.go])

    The log file that rotates itself, the start of the service, installing and removing it. The service manager
    (package [service], outside the repository) is reached through [mcall]: what is asked of it is the trace
    [mg_calls], what it answers is given in the state. *)
From Stdlib Require Import ZArith Lia Ascii String.
From S2P Require Import Prelude GoStrings Library Version Paths Update Protocol Hub Host AgentConfig Agent.
From stdpp Require Import base gmap strings list.
Local Open Scope string_scope.
Local Open Scope list_scope.
Local Open Scope Z_scope.
Local Open Scope lotse_scope.

(** ** The log file *)
Definition maxLogSize : Z := 5 * 2 ^ 20.
Record logFile := mkLogFile { lf_path : string; lf_open : bool; lf_size : Z }.

(** [os.Stat]: the size. *)
Definition osSize (p : string) : M host (ores Z) :=
  f ← fault;
  match f with
  | Some _ => mret (Err ioError)
  | None => fs ← mgets ho_files; mret (match fs !! p with Some c => Ok (strLen c) | None => Err noSuchFile end)
  end.
(** [os.OpenFile] with O_CREATE, O_WRONLY and O_APPEND. *)
Definition osOpenAppend (p : string) : M host (ores unit) :=
  f ← fault;
  match f with
  | Some _ => mret (Err ioError)
  | None => _ ← mmodify (λ h, with_files (<[p := default "" (ho_files h !! p)]> (ho_files h)) h); mret (Ok tt)
  end.
(** Writing at the end of the file: how much was written. *)
Definition osAppend (p data : string) : M host (Z * option osErr) :=
  f ← fault;
  let written := match f with Some n => substring 0 n data | None => data end in
  _ ← mmodify (λ h, with_files (<[p := default "" (ho_files h !! p) +:+ written]> (ho_files h)) h);
  mret (strLen written, match f with Some _ => Some ioError | None => None end).

Definition open (l : logFile) : M host (result osErr logFile) :=
  r ← osOpenAppend (lf_path l);
  match r with
  | Err e => mret (Err e)
  | Ok _ =>
    st ← osSize (lf_path l);
    mret (Ok (mkLogFile (lf_path l) true (match st with Ok n => n | Err _ => lf_size l end)))
  end.
Definition openLogFile (path : string) : M host (result osErr logFile) :=
  st ← osSize path;
  _ ← (match st with
       | Ok n => if maxLogSize <? n then _ ← osRename path (path +:+ ".1"); mret tt else mret tt
       | Err _ => mret tt
       end);
  open (mkLogFile path false 0).
(** Where the log goes: [None] is standard error. [interactive] is [service.Interactive]. *)
Definition newLogger (os : goos) (interactive : bool) (cfgPath : string) : M host (option logFile) :=
  match os with
  | Linux => mret None
  | _ =>
    if interactive then mret None else
    f ← openLogFile (match os with
                     | Darwin => pathJoin ["/Library/Logs"; AgentName +:+ ".log"]
                     | _ => pathJoin [Dir cfgPath; "agent.log"]
                     end);
    mret (match f with Ok l => Some l | Err _ => None end)
  end.
(** [Write]: the file afterwards, and the bytes written or the error. *)
Definition closedErr : osErr := EOther "file already closed".
Definition logWrite (l : logFile) (p : string) : M host (logFile * (Z * option osErr)) :=
  r ← (if maxLogSize <? lf_size l + strLen p then
         _ ← osRename (lf_path l) (lf_path l +:+ ".1");
         o ← open (mkLogFile (lf_path l) false (lf_size l));
         mret (match o with Ok l' => inr l' | Err e => inl e end)
       else mret (inr l));
  match r with
  | inl e => mret (mkLogFile (lf_path l) false (lf_size l), (0, Some e))
  | inr l' =>
    if negb (lf_open l') then mret (l', (0, Some closedErr)) else
    '(n, e) ← osAppend (lf_path l') p;
    mret (mkLogFile (lf_path l') true (lf_size l' + n), (n, e))
  end.
Fixpoint logAll (l : logFile) (ps : list string) : M host (logFile * list (Z * option osErr)) :=
  match ps with
  | [] => mret (l, [])
  | p :: rest => '(l', r) ← logWrite l p; '(l'', rs) ← logAll l' rest; mret (l'', r :: rs)
  end.

Section log.
Implicit Types (h : host) (l : logFile) (p : string).
(** What is in the two files. *)
Definition content (path : string) h : string := default "" (ho_files h !! path).
Definition logText (path : string) h : string := content (path +:+ ".1") h +:+ content path h.

(** The log is a tail of everything that was written, and no less than the last 5 MB of it. *)
Record logInv (path : string) (history : string) l h : Prop := {
  li_path : lf_path l = path;
  li_open : lf_open l = true;
  li_file : is_Some (ho_files h !! path);
  li_size : lf_size l = strLen (content path h);
  li_work : ho_faults h = [];
  li_tail : ∃ lost, history = lost +:+ logText path h ∧ (lost = "" ∨ maxLogSize < strLen (logText path h));
}.
Lemma dot1_neq path : path +:+ ".1" ≠ path.
Proof. by apply append_neq. Qed.
Lemma osAppend_run p data h : ho_faults h = [] →
  osAppend p data h = ((strLen data, None), with_files (<[p := content p h +:+ data]> (ho_files h)) h).
Proof. intros Hf. unfold osAppend, fault, mbind, M_bind, mstate. by rewrite Hf. Qed.
Lemma open_run l h : ho_faults h = [] →
  open l h = (Ok (mkLogFile (lf_path l) true (strLen (content (lf_path l) h))),
              with_files (<[lf_path l := content (lf_path l) h]> (ho_files h)) h).
Proof.
  intros Hf. unfold open, osOpenAppend, osSize, fault, mbind, M_bind, mstate. rewrite Hf. cbn. rewrite Hf. cbn.
  by rewrite lookup_insert_eq.
Qed.
(** The log moved aside, and a new one begun. *)
Definition rotated (path : string) h : host :=
  with_files (<[path := ""]> (<[path +:+ ".1" := content path h]> (delete path (ho_files h)))) h.
Lemma rotated_content path h : content path (rotated path h) = "" ∧ content (path +:+ ".1") (rotated path h) = content path h
  ∧ filesKept [path; path +:+ ".1"] h (rotated path h).
Proof.
  pose proof (dot1_neq path) as Hne. unfold content, rotated. cbn. rewrite lookup_insert_eq. split_and!; [done| |].
  - by rewrite lookup_insert_ne, lookup_insert_eq by done.
  - split; [|done]. intros q Hq. cbn. rewrite !lookup_insert_ne, lookup_delete_ne by set_solver. done.
Qed.
Lemma rotate_run path h size : ho_faults h = [] → is_Some (ho_files h !! path) →
  (_ ← osRename path (path +:+ ".1"); open (mkLogFile path false size)) h = (Ok (mkLogFile path true 0), rotated path h).
Proof.
  intros Hf [c Hc]. unfold mbind, M_bind. rewrite (osRename_run _ _ _ _ Hf Hc). rewrite open_run by done. cbn [lf_path].
  assert (E : content path (with_files (<[path +:+ ".1" := c]> (delete path (ho_files h))) h) = "").
  { unfold content. cbn. by rewrite lookup_insert_ne, lookup_delete_eq by apply dot1_neq. }
  rewrite E. unfold rotated, content. by rewrite Hc.
Qed.
Lemma content_append path p h : content path (with_files (<[path := content path h +:+ p]> (ho_files h)) h) = content path h +:+ p
  ∧ content (path +:+ ".1") (with_files (<[path := content path h +:+ p]> (ho_files h)) h) = content (path +:+ ".1") h.
Proof.
  pose proof (dot1_neq path) as Hne. split; unfold content; cbn; [by rewrite lookup_insert_eq|].
  by rewrite lookup_insert_ne by (intros E; by rewrite <-E in Hne).
Qed.
Lemma filesKept_append path p h : filesKept [path; path +:+ ".1"] h (with_files (<[path := p]> (ho_files h)) h).
Proof. apply filesKept_insert; [done|]. by left. Qed.
Lemma logWrite_inv path history l p h : logInv path history l h →
  let '(l', r, h') := logWrite l p h in
  logInv path (history +:+ p) l' h' ∧ r = (strLen p, None) ∧ filesKept [path; path +:+ ".1"] h h'
  ∧ strLen (content path h') ≤ Z.max maxLogSize (strLen p).
Proof.
  intros [Hp Ho Hfile Hsize Hwork (lost & Htail & Hlost)]. unfold logWrite, mbind, M_bind.
  pose proof (strLen_nonneg (content (path +:+ ".1") h)) as Hn1. destruct (Z.ltb_spec maxLogSize (lf_size l + strLen p)) as [Hbig|Hsmall].
  - pose proof (rotate_run path h (lf_size l) Hwork Hfile) as Hr. unfold mbind, M_bind in Hr. rewrite Hp.
    destruct (osRename path (path +:+ ".1") h) as [? h1]. rewrite Hr. cbn [lf_open lf_path lf_size negb mret M_ret fst snd].
    rewrite osAppend_run by done. destruct (rotated_content path h) as (E1 & E2 & Hk).
    destruct (content_append path p (rotated path h)) as [E3 E4]. set (h2 := with_files _ (rotated path h)) in *. rewrite E1, append_nil in E3.
    assert (Et : logText path h2 = content path h +:+ p) by (unfold logText; by rewrite E3, E4, E2).
    unfold mret, M_ret. rewrite E3. split_and!; [|done|etrans; [exact Hk|apply filesKept_append]|lia].
    split; cbn; [done|done|by rewrite lookup_insert_eq|by rewrite E3|done|].
    exists (lost +:+ content (path +:+ ".1") h). rewrite Et. split; [|right; rewrite strLen_append; lia].
    rewrite Htail. unfold logText. by rewrite !append_assoc.
  - cbn [mret M_ret]. rewrite Ho. cbn [negb]. rewrite Hp, osAppend_run by done.
    destruct (content_append path p h) as [E3 E4]. set (h2 := with_files _ h) in *.
    assert (Et : logText path h2 = logText path h +:+ p) by (unfold logText; by rewrite E3, E4, append_assoc).
    unfold mret, M_ret. rewrite E3. split_and!; [|done|apply filesKept_append|rewrite strLen_append; lia].
    split; cbn; [done|done|by rewrite lookup_insert_eq|rewrite E3, strLen_append; lia|done|].
    exists lost. rewrite Et, Htail, append_assoc. split; [done|]. destruct Hlost as [->|?]; [by left|right]. rewrite strLen_append.
    pose proof (strLen_nonneg p). lia.
Qed.
Lemma openLogFile_inv path h : ho_faults h = [] →
  let '(r, h') := openLogFile path h in
  ∃ l, r = Ok l ∧ logInv path (logText path h) l h' ∧ filesKept [path; path +:+ ".1"] h h' ∧ strLen (content path h') ≤ maxLogSize.
Proof.
  intros Hf. unfold openLogFile.
  assert (Est : ∀ n, osSize path h = (n, h) → n = match ho_files h !! path with Some c => Ok (strLen c) | None => Err noSuchFile end).
  { intros n. unfold osSize, fault, mbind, M_bind, mstate. rewrite Hf. cbn. by intros [= <-]. }
  assert (Est2 : osSize path h = (match ho_files h !! path with Some c => Ok (strLen c) | None => Err noSuchFile end, h)).
  { unfold osSize, fault, mbind, M_bind, mstate. by rewrite Hf. } clear Est.
  unfold mbind at 1, M_bind at 1. rewrite Est2.
  assert (Hplain : strLen (content path h) ≤ maxLogSize →
    let '(r, h') := open (mkLogFile path false 0) h in
    ∃ l, r = Ok l ∧ logInv path (logText path h) l h' ∧ filesKept [path; path +:+ ".1"] h h' ∧ strLen (content path h') ≤ maxLogSize).
  { intros Hle. rewrite open_run by done. cbn [lf_path]. destruct (content_append path "" h) as [E3 E4]. rewrite append_nil_r in E3, E4.
    eexists. split; [done|]. split_and!; [|apply filesKept_append|by rewrite E3].
    split; cbn; [done|done|by rewrite lookup_insert_eq|by rewrite E3|done|]. exists "". unfold logText. rewrite E3, E4. auto. }
  destruct (ho_files h !! path) as [c|] eqn:Ec.
  - destruct (Z.ltb_spec maxLogSize (strLen c)) as [Hbig|Hsmall]; [|apply Hplain; unfold content; by rewrite Ec].
    assert (Hc : content path h = c) by (unfold content; by rewrite Ec).
    pose proof (rotate_run path h 0 Hf (ex_intro _ c Ec)) as Hr. unfold mbind, M_bind in Hr |- *.
    destruct (osRename path (path +:+ ".1") h) as [? h1]. cbn [mret M_ret]. rewrite Hr. destruct (rotated_content path h) as (E1 & E2 & Hk).
    eexists. split; [done|]. split_and!; [|done|rewrite E1; by vm_compute].
    split; cbn; [done|done|by rewrite lookup_insert_eq|by rewrite E1|done|]. exists (content (path +:+ ".1") h). unfold logText.
    rewrite E1, E2, append_nil_r, Hc. split; [done|by right].
  - apply Hplain. unfold content. rewrite Ec. by vm_compute.
Qed.

Lemma logAll_inv path history l ps h : logInv path history l h →
  let '(l', rs, h') := logAll l ps h in
  logInv path (history +:+ foldr String.append "" ps) l' h' ∧ rs = map (λ p, (strLen p, None)) ps
  ∧ filesKept [path; path +:+ ".1"] h h'
  ∧ (strLen (content path h) ≤ maxLogSize → Forall (λ p, strLen p ≤ maxLogSize) ps → strLen (content path h') ≤ maxLogSize).
Proof.
  revert history l h. induction ps as [|p ps IH]; intros history l h Hinv; cbn [logAll map foldr].
  - cbn. by rewrite append_nil_r.
  - unfold mbind, M_bind. pose proof (logWrite_inv path history l p h Hinv) as Hw. destruct (logWrite l p h) as [[l1 r1] h1].
    destruct Hw as (Hinv1 & -> & Hk1 & Hle1). specialize (IH _ l1 h1 Hinv1). destruct (logAll l1 ps h1) as [[l2 rs] h2].
    destruct IH as (Hinv2 & -> & Hk2 & Hb). change (String.append p ?x) with (p +:+ x). rewrite append_assoc. cbn.
    split_and!; [done|done|by etrans|]. intros _ [Hp Hps]%Forall_cons_1. apply Hb; [lia|done].
Qed.

(** The agent's log keeps the end of what was logged in bounded space. On a working disk: from any
    earlier log, after opening and any sequence of writes, every write was complete; the log and its
    predecessor together are the end of everything ever written, all of it or more than the last
    5 MB; the current file never exceeds 5 MB, unless a single write does; and no other file is touched. *)
Theorem log_keeps_tail (path : string) (ps : list string) (h : host) (Hwork : ho_faults h = []) :
  let '(r, h0) := openLogFile path h in
  ∃ l, r = Ok l ∧
    let '(l', rs, h') := logAll l ps h0 in
    rs = map (λ p, (strLen p, None)) ps
    ∧ (∃ lost, logText path h +:+ foldr String.append "" ps = lost +:+ logText path h' ∧ (lost = "" ∨ maxLogSize < strLen (logText path h')))
    ∧ (Forall (λ p, strLen p ≤ maxLogSize) ps → strLen (content path h') ≤ maxLogSize)
    ∧ filesKept [path; path +:+ ".1"] h h'.
Proof.
  pose proof (openLogFile_inv path h Hwork) as Ho. destruct (openLogFile path h) as [r h0].
  destruct Ho as (l & -> & Hinv & Hk & Hle). exists l. split; [done|].
  pose proof (logAll_inv path _ l ps h0 Hinv) as Ha. destruct (logAll l ps h0) as [[l' rs] h'].
  destruct Ha as (Hinv' & -> & Hk' & Hb). split_and!; [done|apply (li_tail _ _ _ _ Hinv')|by apply Hb|by etrans].
Qed.
End log.

Lemma log_keeps_tail_witness :
  let h := mkHost {["/agent.log" := "old "]} ∅ [] [] [] in
  ∃ l, (openLogFile "/agent.log" h).1 = Ok l ∧ content "/agent.log" (logAll l ["a"; "b"] (openLogFile "/agent.log" h).2).2 = "old ab".
Proof.
  intros h. pose proof (log_keeps_tail "/agent.log" ["a"; "b"] h eq_refl) as Hl.
  destruct (openLogFile "/agent.log" h) as [r h0] eqn:E. destruct Hl as (l & -> & _). exists l. split; [done|].
  vm_compute in E. injection E as <- <-. reflexivity.
Defined.

(** ** The service *)
Record serviceCfg := mkServiceCfg {
  sc_Name : string; sc_DisplayName : string; sc_Description : string; sc_Arguments : list string;
  sc_Option : list (string * string);
}.
Inductive mcall : Type :=
| CNew (c : serviceCfg)     (* [service.New] *)
| CStatus | CStop | CUninstall | CInstall | CStart
| CRun                                         (* [service.Run] *)
| CAgent (c : Config) (hubKey key : string).   (* [agent.Run], started by the service *)
(** An answer of the service manager: success, or an error and whether it is [ErrNotInstalled]. *)
Inductive manswer : Type := MOk | MErr (notInstalled : bool) (msg : string).
Definition isErr (a : manswer) : option string := match a with MOk => None | MErr _ msg => Some msg end.
Definition isNotInstalled (a : manswer) : bool := match a with MErr b _ => b | MOk => false end.
Record machine := mkMachine { mg_host : host; mg_calls : list mcall; mg_answers : list manswer }.
Definition onMachine {A} (m : M host A) : M machine A := λ s,
  let '(a, h) := m (mg_host s) in (a, mkMachine h (mg_calls s) (mg_answers s)).
Definition ask (c : mcall) : M machine manswer := mstate (λ s,
  (default MOk (head (mg_answers s)), mkMachine (mg_host s) (mg_calls s ++ [c]) (tail (mg_answers s)))).

Definition requireAdmin (os : goos) (admin : bool) : option string :=
  if admin then None
  else Some (match os with
             | Windows => "this command must run in an elevated (Administrator) PowerShell"
             | _ => "this command must run as root (use sudo)"
             end).
(** The unit for systemd, line by line. *)
Definition systemdUnit : string := String.concat "" (map (λ l, l +:+ NL)
  ["[Unit]"; "Description={{Description}}"; "ConditionFileIsExecutable={{Path | cmdEscape}}";
   "After=network-online.target"; "Wants=network-online.target"; "";
   "[Service]"; "ExecStart={{Path | cmdEscape}}{{range Arguments}} {{. | cmd}}{{end}}"; "Restart=always"; "RestartSec=5"; "";
   "[Install]"; "WantedBy=multi-user.target"]).
Definition serviceConfig (cfgPath : string) : serviceCfg :=
  mkServiceCfg AgentName "Lotse Agent" "Reports system metrics to the Lotse hub." ["run"; "--config"; cfgPath]
    [("SystemdScript", systemdUnit); ("RunAtLoad", "true"); ("KeepAlive", "true");
     ("OnFailure", "restart"); ("OnFailureDelayDuration", "5s")].

Section commands.
Context `{Lib} `{Ssh} `{Marshal} `{!Unmarshal Config}.
(** [program.Start]: the configuration, the hub's key and the agent's that the link runs with, or the error. *)
Definition programStart (cfgPath : string) : M host (result string (Config * string * string)) :=
  cfg ← LoadConfig cfgPath;
  match cfg with
  | Err e => mret (Err e)
  | Ok cfg =>
    a ← newAgent cfg;
    mret (match a with Err e => Err e | Ok (hubKey, key) => Ok (cfg, hubKey, key) end)
  end.
(** The flags, after parsing. *)
Record installFlags := mkInstallFlags {
  fl_hub : string; fl_key : string; fl_token : string; fl_allowShell : bool; fl_noUpdates : bool; fl_config : string;
}.
(** From the service on: replace what is there, install and start. *)
Definition installService (cfgPath : string) : M machine (option string) :=
  n ← ask (CNew (serviceConfig cfgPath));
  match isErr n with
  | Some e => mret (Some e)
  | None =>
    st ← ask CStatus;
    gone ← (if isNotInstalled st then mret None else
            _ ← ask CStop;
            u ← ask CUninstall;
            mret (match isErr u, isErr st with Some e, None => Some ("remove previous service: " +:+ e) | _, _ => None end));
    match gone with
    | Some e => mret (Some e)
    | None =>
      i ← ask CInstall;
      match isErr i with
      | Some e => mret (Some ("install service: " +:+ e))
      | None =>
        r ← ask CStart;
        mret (match isErr r with Some e => Some ("start service: " +:+ e) | None => None end)
      end
    end
  end.
(** The agent's key, or the error. *)
Definition cmdInstall (os : goos) (ProgramData : string) (admin : bool) (f : installFlags) : M machine (result string string) :=
  match requireAdmin os admin with
  | Some e => mret (Err e)
  | None =>
    match NewConfig (fl_config f) (fl_hub f) (fl_key f) (fl_token f) (fl_allowShell f) with
    | Err e => mret (Err e)
    | Ok cfg =>
      d ← onMachine (DedicatedDir cfg);
      match d with
      | Err e => mret (Err (osMsg e))
      | Ok false => mret (Err (Dir (cf_path cfg) +:+ " holds other files; give the agent's config a folder of its own, e.g. "
                               +:+ DefaultConfigPath os ProgramData))
      | Ok true =>
        let cfg := with_DisableUpdates (fl_noUpdates f) cfg in
        s ← onMachine (Save cfg);
        match s with
        | Err e => mret (Err ("write config: " +:+ osMsg e))
        | Ok _ =>
          k ← onMachine (LoadOrCreate (KeyPath cfg));
          match k with
          | Err e => mret (Err ("create agent key: " +:+ e))
          | Ok key =>
            e ← installService (fl_config f);
            mret (match e with Some e => Err e | None => Ok key end)
          end
        end
      end
    end
  end.
Definition cmdUninstall (os : goos) (admin purge : bool) (cfgPath : string) : M machine (option string) :=
  match requireAdmin os admin with
  | Some e => mret (Some e)
  | None =>
    n ← ask (CNew (serviceConfig cfgPath));
    match isErr n with
    | Some e => mret (Some e)
    | None =>
      _ ← ask CStop;
      u ← ask CUninstall;
      gone ← (match isErr u with
              | None => mret None
              | Some e => st ← ask CStatus; mret (if isNotInstalled st then None else Some ("remove service: " +:+ e))
              end);
      match gone with
      | Some e => mret (Some e)
      | None =>
        if purge then r ← onMachine (PurgeConfig cfgPath); mret (match r with Err e => Some (osMsg e) | Ok _ => None end)
        else mret None
      end
    end
  end.
End commands.

Section command_props.
Context `{Lib} `{Ssh} `{!SshLaws} `{Marshal} `{!Unmarshal Config}.
Implicit Types (h : host) (s : machine) (c : Config) (f : installFlags).

Lemma wp_onMachine {A} (m : M host A) (Q : A → machine → Prop) s :
  wp m (λ a h, Q a (mkMachine h (mg_calls s) (mg_answers s))) (mg_host s) → wp (onMachine m) Q s.
Proof. unfold wp, onMachine. by destruct (m (mg_host s)). Qed.
Lemma wp_ask call (Q : manswer → machine → Prop) s :
  (∀ a l, Q a (mkMachine (mg_host s) (mg_calls s ++ [call]) l)) → wp (ask call) Q s.
Proof. intros HQ. apply HQ. Qed.

(** What the service manager is asked by a successful installation. *)
Definition installScript (cfgPath : string) (l : list mcall) : Prop :=
  ∃ replaced, (replaced = [] ∨ replaced = [CStop; CUninstall])
    ∧ l = [CNew (serviceConfig cfgPath); CStatus] ++ replaced ++ [CInstall; CStart].
Lemma wp_installService cfgPath (Q : option string → machine → Prop) s :
  (∀ e l a, l ≠ [] → (e = None → installScript cfgPath l) → Q e (mkMachine (mg_host s) (mg_calls s ++ l) a)) →
  wp (installService cfgPath) Q s.
Proof.
  intros HQ. unfold installService. apply wp_bind, wp_ask. intros a0 l0. destruct (isErr a0); [by apply wp_ret, HQ|].
  apply wp_bind, wp_ask. intros st l1. cbn [mg_host mg_calls]. rewrite <-app_assoc.
  assert (Hrest : ∀ replaced l2, replaced = [] ∨ replaced = [CStop; CUninstall] →
    wp (i ← ask CInstall;
        match isErr i with
        | Some e => mret (Some ("install service: " +:+ e))
        | None => r ← ask CStart; mret (match isErr r with Some e => Some ("start service: " +:+ e) | None => None end)
        end) Q (mkMachine (mg_host s) (mg_calls s ++ [CNew (serviceConfig cfgPath); CStatus] ++ replaced) l2)).
  { intros replaced l2 Hr. apply wp_bind, wp_ask. intros i l3. cbn [mg_host mg_calls]. rewrite <-app_assoc.
    destruct (isErr i); [by apply wp_ret, HQ|]. apply wp_bind, wp_ask. intros r l4. cbn [mg_host mg_calls]. rewrite <-!app_assoc.
    apply wp_ret, HQ; [done|]. intros _. by exists replaced. }
  apply wp_bind. destruct (isNotInstalled st); [apply wp_ret; apply (Hrest []); by left|].
  apply wp_bind, wp_ask. intros a2 l2. apply wp_bind, wp_ask. intros u l3. cbn [mg_host mg_calls]. rewrite <-!app_assoc. apply wp_ret.
  destruct (isErr u), (isErr st); first [by apply (Hrest [CStop; CUninstall]); right | by apply wp_ret, HQ].
Qed.
Lemma steps_LoadOrCreate path : steps (filesKept [path; path +:+ ".tmp"]) (LoadOrCreate path).
Proof.
  unfold LoadOrCreate. set (l := [path; path +:+ ".tmp"]). intros h. change (wp (LoadOrCreate path) (λ _ h', filesKept l h h') h). unfold LoadOrCreate.
  apply wp_bind, wp_osReadFile; [|intros c h1 Hs _; apply wp_ret; eauto with host].
  intros e h1 Hs _ _. destruct (negb (isNotExist e)); [apply wp_ret; eauto with host|].
  apply wp_bind. eapply (wp_steps (filesKept l)); [intros h2; unfold randSeed, mstate; by destruct (ho_rand h2)|]. intros seed h2 Hk2.
  assert (Hk : filesKept l h h2) by (etrans; eauto with host). clear Hk2 Hs.
  assert (Hwrite : ∀ h3, filesKept l h h3 → wp (w ← osWriteFile (path +:+ ".tmp") (keyPEM seed);
      match w with
      | Err e => mret (Err (osMsg e))
      | Ok _ => r ← osRename (path +:+ ".tmp") path; match r with Err e => mret (Err (osMsg e)) | Ok _ => mret (Ok (keyPublic seed)) end
      end) (λ _ h', filesKept l h h') h3).
  { intros h3 Hk3. assert (Htmp : path +:+ ".tmp" ∈ l) by (by right; left). apply wp_bind, wp_osWriteFile.
    - intros n h4 Hs _. apply wp_ret. apply filesKept_insert; [etrans; eauto with host|done].
    - intros h4 Hs. assert (Hk4 : filesKept l h (with_files (<[path +:+ ".tmp" := keyPEM seed]> (ho_files h4)) h4))
        by (apply filesKept_insert; [etrans; eauto with host|done]).
      apply wp_bind, wp_osRename; [intros e2 h5 Hs5 _; apply wp_ret; etrans; eauto with host|].
      intros x h5 Hs5 _. apply wp_ret. apply filesKept_move; [etrans; eauto with host|done|by left]. }
  apply wp_bind, wp_osMkdirAll; [intros e2 h3 Hs; apply wp_ret; etrans; eauto with host|..].
  - intros h3 Hs _. apply Hwrite. etrans; eauto with host.
  - intros h3 Hs _. apply Hwrite. apply filesKept_dirs. etrans; eauto with host.
Qed.
(** The folder of the configuration is new or the agent's own. *)
Definition ownFolder c h : Prop :=
  ho_dirs h !! Dir (cf_path c) = None ∨ ∀ name, name ∈ dirEntries h (Dir (cf_path c)) → name ∈ ownFiles c.
Lemma wp_DedicatedDir c (Q : ores bool → host → Prop) h :
  (∀ r h', sameButFaults h h' → (r = Ok true → ownFolder c h) → Q r h') → wp (DedicatedDir c) Q h.
Proof.
  intros HQ. unfold DedicatedDir. apply wp_bind, wp_osReadDir.
  - intros e h1 Hs Hne. apply wp_ret, HQ; [done|]. destruct (isNotExist e) eqn:E; [intros _; left; by apply Hne|done].
  - intros h1 Hs _. apply wp_ret, HQ; [done|]. intros Hall. right. rewrite <-(sameButFaults_dirEntries _ _ _ Hs).
    apply dedicated_own. by injection Hall.
Qed.
Definition installConfig f : Config :=
  mkConfig (fl_hub f) (fl_key f) (fl_token f) (fl_allowShell f) (fl_noUpdates f) (fl_config f).
Definition installPaths f : list string :=
  [fl_config f; fl_config f +:+ ".tmp"; KeyPath (installConfig f); KeyPath (installConfig f) +:+ ".tmp"].
(** The JSON of a configuration is read back; the path is not part of it. *)
Definition configReadsBack c : Prop := unmarshal (marshal (configJSON c) +:+ NL) = (with_path "" c, true).
Lemma programStart_ok c h data key : Validate c = Ok tt → configReadsBack c → ho_faults h = [] →
  ho_files h !! cf_path c = Some (marshal (configJSON c) +:+ NL) →
  ho_files h !! KeyPath c = Some data → ParsePrivateKey data = Some key →
  ∃ hubKey, (programStart (cf_path c) h).1 = Ok (c, hubKey, key).
Proof.
  intros Hv Hj Hf Hc Hd Hp.
  assert (Hload : LoadConfig (cf_path c) h = (Ok c, h)).
  { unfold LoadConfig, mbind, M_bind. rewrite osReadFile_run, Hc by done. unfold configReadsBack in Hj. rewrite Hj. cbn [negb].
    replace (with_path (cf_path c) (with_path "" c)) with c by (by destruct c). by rewrite Hv. }
  assert (Hkey : ∃ hubKey, ParseAuthorizedKey (cf_HubKey c) = Ok hubKey).
  { unfold Validate in Hv. destruct (urlParse _); [|done]. case_match; [done|]. destruct (ParseAuthorizedKey _); [eauto|done]. }
  destruct Hkey as [hubKey Hkey]. exists hubKey.
  unfold programStart, mbind, M_bind. rewrite Hload. unfold newAgent. rewrite Hkey. unfold LoadOrCreate, mbind, M_bind.
  rewrite osReadFile_run, Hd by done. by rewrite Hp.
Qed.
(** When the service manager is asked for anything: everything the service needs is there, and the
    service starts with the configuration and the key. *)
Definition prepared (admin : bool) f h h' : Prop :=
  let c := installConfig f in
  admin = true ∧ Validate c = Ok tt ∧ ownFolder c h
  ∧ ho_files h' !! fl_config f = Some (marshal (configJSON c) +:+ NL)
  ∧ (∃ data key, ho_files h' !! KeyPath c = Some data ∧ ParsePrivateKey data = Some key)
  ∧ (configReadsBack c → ∀ h2, ho_files h2 = ho_files h' → ho_faults h2 = [] →
     ∃ hubKey key, (programStart (fl_config f) h2).1 = Ok (c, hubKey, key)).
Definition installPost (admin : bool) f s (r : result string string) s' : Prop :=
  ∃ l, mg_calls s' = mg_calls s ++ l ∧ filesKept (installPaths f) (mg_host s) (mg_host s')
    ∧ (l ≠ [] → prepared admin f (mg_host s) (mg_host s'))
    ∧ (is_ok r = true → installScript (fl_config f) l).
Lemma installPost_early admin f s e h : filesKept (installPaths f) (mg_host s) h →
  installPost admin f s (Err e) (mkMachine h (mg_calls s) (mg_answers s)).
Proof. intros Hk. exists []. by rewrite app_nil_r. Qed.

Lemma wp_cmdInstall os ProgramData admin f s : fl_config f ∉ [KeyPath (installConfig f); KeyPath (installConfig f) +:+ ".tmp"] →
  wp (cmdInstall os ProgramData admin f) (installPost admin f s) s.
Proof.
  intros Hname. unfold cmdInstall.
  assert (Hearly : ∀ e, installPost admin f s (Err e) s) by (intros e; destruct s; by apply installPost_early).
  destruct (requireAdmin os admin) eqn:Eadmin; [by apply wp_ret|].
  assert (Hadmin : admin = true) by (by destruct admin). clear Eadmin. unfold NewConfig.
  change (Validate (mkConfig (fl_hub f) (fl_key f) (fl_token f) (fl_allowShell f) false (fl_config f))) with (Validate (installConfig f)).
  destruct (Validate (installConfig f)) as [[]|e] eqn:Ev; [|by apply wp_ret].
  set (c0 := mkConfig _ _ _ _ false _). apply wp_bind, wp_onMachine, wp_DedicatedDir. intros d h1 Hs Hown.
  assert (Hk1 : filesKept (installPaths f) (mg_host s) h1) by eauto with host.
  destruct d as [[]|e]; [|by apply wp_ret, installPost_early..]. specialize (Hown eq_refl).
  change (with_DisableUpdates (fl_noUpdates f) c0) with (installConfig f).
  apply wp_bind, wp_onMachine. cbn [mg_host mg_calls mg_answers]. eapply wp_mono; [apply wp_Save|]. intros r h2 (Hf2 & _ & Hr).
  assert (Hk2 : filesKept (installPaths f) (mg_host s) h2).
  { etrans; [exact Hk1|]. eapply filesKept_mono; [|exact Hf2]. unfold installPaths. intros x. rewrite !elem_of_cons. tauto. }
  destruct r as [[]|e]; [|by apply wp_ret, installPost_early].
  apply wp_bind, wp_onMachine. cbn [mg_host mg_calls mg_answers].
  pose proof (wp_LoadOrCreate (KeyPath (installConfig f)) h2) as Hkw.
  assert (Hst : wp (LoadOrCreate (KeyPath (installConfig f))) (λ _ h', filesKept [KeyPath (installConfig f); KeyPath (installConfig f) +:+ ".tmp"] h2 h') h2)
    by apply steps_LoadOrCreate.
  eapply wp_mono; [exact (wp_and _ _ _ _ Hkw Hst)|].
  intros k h3 [Hkey Hf3].
  assert (Hk3 : filesKept (installPaths f) (mg_host s) h3).
  { etrans; [exact Hk2|]. eapply filesKept_mono; [|exact Hf3]. unfold installPaths. intros x. rewrite !elem_of_cons. tauto. }
  destruct k as [k|e]; [|by apply wp_ret, installPost_early]. destruct (Hkey k eq_refl) as (data & Hd & Hp).
  assert (Hcfg : ho_files h3 !! fl_config f = Some (marshal (configJSON (installConfig f)) +:+ NL)) by (destruct Hf3 as [Hf3 _]; by rewrite Hf3).
  apply wp_bind, wp_installService. intros e l a Hl Hscript. apply wp_ret. exists l. cbn [mg_calls mg_host].
  split_and!; [done|done| |by destruct e; auto]. intros _. split_and!; [done|done|exact Hown|exact Hcfg|by exists data, k|].
  intros Hj h4 E4 F4. destruct (programStart_ok (installConfig f) h4 data k) as [hubKey Hs4]; try (done || by rewrite E4). by exists hubKey, k.
Qed.

(** Installing the agent is safe and complete. Without administrator rights, with an invalid hub
    address or key, or when the configuration's folder holds anyone else's files, the service manager is
    asked for nothing; it is asked only once the configuration file holds exactly what the flags say and a
    readable key exists, so that the service, when nothing fails, starts with them; no file but these two (and their temporary copies) is touched; and
    success means the service was installed, to run with this configuration, and started, after
    an existing one was stopped and removed. *)
Theorem install_sound (os : goos) (ProgramData : string) (admin : bool) (f : installFlags) (s : machine)
    (Hname : fl_config f ∉ [KeyPath (installConfig f); KeyPath (installConfig f) +:+ ".tmp"]) :
  let '(r, s') := cmdInstall os ProgramData admin f s in installPost admin f s r s'.
Proof. by apply wp_let, wp_cmdInstall. Qed.

(** ** Removing *)
(** Removing the agent leaves nothing behind and nothing broken. Without administrator rights nothing happens. The
    agent's files go only with the purge flag, and only after the service was removed, or the service manager said
    there is none; then no file or folder but the agent's own is touched, and success means that the configuration, the
    key and the log next to them are gone. *)
Theorem uninstall_clean (os : goos) (admin purge : bool) (path : string) (s : machine)
    (Hdir : Dir path ∉ ownPaths path) (Hf : ho_files (mg_host s) !! Dir path = None) :
  let '(r, s') := cmdUninstall os admin purge path s in
  let removed := ∃ l, mg_calls s' = mg_calls s ++ l ∧ [CNew (serviceConfig path); CStop; CUninstall] `prefix_of` l in
  (admin = false → s' = s ∧ is_Some r)
  ∧ (mg_host s' ≠ mg_host s → purge = true ∧ removed)
  ∧ filesKept (ownPaths path) (mg_host s) (mg_host s') ∧ dirsKeptBut (Dir path :: ownPaths path) (mg_host s) (mg_host s')
  ∧ (r = None → removed ∧ (purge = true → ∀ p, p ∈ ownPaths path → ho_files (mg_host s') !! p = None)).
Proof.
  apply wp_let. unfold cmdUninstall. destruct (requireAdmin os admin) as [e|] eqn:Eadmin.
  { apply wp_ret. split_and!; [done|done|done|done|done]. }
  assert (Hadmin : admin = false → False) by (by destruct admin). clear Eadmin.
  apply wp_bind, wp_ask. intros n l0. destruct (isErr n) as [e|]; [apply wp_ret; split_and!; (done || by intros ?%Hadmin)|].
  apply wp_bind, wp_ask. intros a1 l1. apply wp_bind, wp_ask. intros u l2. cbn [mg_host mg_calls]. rewrite <-!app_assoc. cbn [app].
  assert (Hrest : ∀ l a, [CNew (serviceConfig path); CStop; CUninstall] `prefix_of` l →
    wp (if purge then r ← onMachine (PurgeConfig path); mret (match r with Err e => Some (osMsg e) | Ok _ => None end) else mret None)
      (λ r s', let removed := ∃ l, mg_calls s' = mg_calls s ++ l ∧ [CNew (serviceConfig path); CStop; CUninstall] `prefix_of` l in
        (admin = false → s' = s ∧ is_Some r) ∧ (mg_host s' ≠ mg_host s → purge = true ∧ removed)
        ∧ filesKept (ownPaths path) (mg_host s) (mg_host s') ∧ dirsKeptBut (Dir path :: ownPaths path) (mg_host s) (mg_host s')
        ∧ (r = None → removed ∧ (purge = true → ∀ p, p ∈ ownPaths path → ho_files (mg_host s') !! p = None)))
      (mkMachine (mg_host s) (mg_calls s ++ l) a)).
  { intros l a Hl. destruct purge; [|apply wp_ret; split_and!; [by intros ?%Hadmin|done|done|done|intros _; split; [by exists l|done]]].
    apply wp_bind, wp_onMachine. pose proof (purge_own_files path (mg_host s) Hdir Hf) as Hp.
    unfold wp. cbn [mg_host]. destruct (PurgeConfig path (mg_host s)) as [r h']. destruct Hp as (Hk & Hd & Hgone & _). cbn.
    split_and!; [by intros ?%Hadmin|intros _; split; [done|by exists l]|done|done|].
    intros Hr. split; [by exists l|]. intros _. apply Hgone. by destruct r as [[]|]. }
  apply wp_bind. destruct (isErr u) as [e|]; [|apply wp_ret, Hrest; by exists []].
  apply wp_bind, wp_ask. intros st l3. cbn [mg_host mg_calls]. rewrite <-app_assoc. cbn [app]. apply wp_ret.
  destruct (isNotInstalled st); [apply Hrest; by exists [CStatus]|]. apply wp_ret. split_and!; (done || by intros ?%Hadmin).
Qed.
End command_props.

(** *** Witnesses *)
Definition demoFlags : installFlags := mkInstallFlags "https://hub.example" "ssh-ed25519 key" "token" true false demoConfigPath.
Definition demoMachine : machine := mkMachine (mkHost {["/etc/hosts" := "x"]} ∅ [] ["seed"] []) [] [MOk; MErr true "not installed"].
Lemma install_sound_witness :
  let '(r, s') := @cmdInstall demoLib demoSsh (λ _, "{}") Linux "" true demoFlags demoMachine in
  r = Ok "seed" ∧ installScript demoConfigPath (mg_calls s')
  ∧ ∃ hubKey key, (@programStart demoLib demoSsh (λ _, (with_path "" (installConfig demoFlags), true)) demoConfigPath (mg_host s')).1
      = Ok (installConfig demoFlags, hubKey, key).
Proof.
  assert (Hn : demoConfigPath ∉ [KeyPath (installConfig demoFlags); KeyPath (installConfig demoFlags) +:+ ".tmp"])
    by (apply (bool_decide_unpack _); vm_compute; exact I).
  pose proof (@install_sound demoLib demoSsh demoSshLaws (λ _, "{}") (λ _, (with_path "" (installConfig demoFlags), true)) Linux "" true demoFlags demoMachine Hn) as Hi.
  destruct (cmdInstall _ _ _ _ _) as [r s'] eqn:E.
  assert (Hr : r = Ok "seed") by (vm_compute in E; by injection E as <- _).
  destruct Hi as (l & Hc & _ & Hprep & Hok). split; [done|]. assert (Hs : installScript demoConfigPath l) by (apply Hok; by rewrite Hr).
  split; [by rewrite Hc|]. destruct Hprep as (_ & _ & _ & _ & _ & Hstart); [by destruct Hs as (? & _ & ->)|].
  apply Hstart; [reflexivity|reflexivity|]. vm_compute in E. by injection E as _ <-.
Defined.
Lemma uninstall_clean_witness :
  let s := mkMachine (demoHostAt {[demoConfigPath := "{}"; "/etc/hosts" := "x"]}) [] [] in
  let '(r, s') := cmdUninstall Linux true true demoConfigPath s in
  r = None ∧ filesKept (ownPaths demoConfigPath) (mg_host s) (mg_host s').
Proof.
  intros s. assert (Hd : Dir demoConfigPath ∉ ownPaths demoConfigPath) by (apply (bool_decide_unpack _); vm_compute; exact I).
  pose proof (uninstall_clean Linux true true demoConfigPath s Hd eq_refl) as Hu.
  destruct (cmdUninstall _ _ _ _ _) as [r s'] eqn:E. split; [vm_compute in E; by injection E as <- _|].
  by destruct Hu as (_ & _ & Hk & _).
Defined.
(** On macOS the log is not in the folder of the configuration: purging, which is to delete the log, leaves it. *)
Lemma macos_log_survives_purge :
  let path := DefaultConfigPath Darwin "" in
  let h := (newLogger Darwin false path (demoHostAt {[path := "{}"]})).2 in
  let '(r, h') := PurgeConfig path h in
  r = Ok tt ∧ is_Some (ho_files h' !! "/Library/Logs/lotse-agent.log").
Proof. vm_compute. eauto. Qed.
