(* ===== verification/AgentShell.v ===== *)
(** * Sessions on a machine ([internal/agent/shell.go], [script.go], [sftp.go])

    The channels the hub opens: terminals, file transfers and scripts on session channels, and
    signed updates. A session channel runs one program. *)
From Stdlib Require Import ZArith Lia Ascii String.
From S2P Require Import Prelude GoStrings Float64 Library Version Paths Web Update Protocol Hub Host AgentConfig AgentState AgentUpdate.
From stdpp Require Import base gmap strings list.
Local Open Scope string_scope.
Local Open Scope list_scope.
Local Open Scope Z_scope.
Local Open Scope lotse_scope.

Definition maxSessions : Z := 16.
Record PtyRequest := mkPtyRequest { pt_Term : string; pt_Columns : Z; pt_Rows : Z }.
Record ScriptMsg := mkScriptMsg { sc_Shell : string; sc_Script : string; sc_Timeout : Z }.

(** A size a terminal can have, or the default. *)
Definition dim (v def : Z) : Z := if (v =? 0) || (1000 <? v) then def else v.

(** ** The environment of a shell *)
(** [os.Getenv] in a list of entries KEY=value: the first one counts. *)
Fixpoint getenv (environ : list string) (k : string) : string :=
  match environ with
  | [] => ""
  | kv :: rest => if HasPrefix kv (k +:+ "=") then TrimPrefix kv (k +:+ "=") else getenv rest k
  end.
(** [lookPath]: [exec.LookPath]; [runnable]: a file that is no folder and executable. *)
Definition shellCommand (os : goos) (environ : list string) (lookPath : string → option string) (runnable : string → bool) : string * list string :=
  match os with
  | Windows =>
    match lookPath "pwsh.exe" with
    | Some p => (p, ["-NoLogo"])
    | None =>
      match lookPath "powershell.exe" with
      | Some p => (p, ["-NoLogo"])
      | None => let c := getenv environ "ComSpec" in if negb (String.eqb c "") then (c, []) else ("cmd.exe", [])
      end
    end
  | _ =>
    let shell := getenv environ "SHELL" in
    let candidates := match os with
                      | Darwin => [shell; "/bin/zsh"; "/bin/bash"; "/bin/sh"]
                      | _ => [shell; "/bin/bash"; "/bin/zsh"; "/bin/sh"]
                      end in
    match List.find (λ c, negb (String.eqb c "") && runnable c) candidates with
    | Some c => (c, ["-l"])
    | None => ("/bin/sh", ["-l"])
    end
  end.
(** [home]: the user's home folder; [isDir]: whether a folder is there. *)
Definition homeDir (os : goos) (environ : list string) (home : option string) (isDir : string → bool) : string :=
  let fallback := match os with Windows => getenv environ "SystemDrive" +:+ "\" | _ => "/" end in
  match home with
  | Some d => if negb (String.eqb d "") && isDir d then d else fallback
  | None => fallback
  end.
(** What is set, whatever the agent's own environment says. *)
Definition shellVars (environ : list string) (term shellPath home : string) (user : option string) : list (string * string) :=
  [("TERM", term); ("SHELL", shellPath); ("HOME", home)]
  ++ (match user with Some u => [("USER", u); ("LOGNAME", u)] | None => [] end)
  ++ (if String.eqb (getenv environ "PATH") "" then [("PATH", "/usr/local/sbin:/usr/local/bin:/usr/sbin:/usr/bin:/sbin:/bin")] else [])
  ++ (if String.eqb (getenv environ "LANG") "" then [("LANG", "C.UTF-8")] else []).
(** An entry that sets [k]. *)
Definition sets (k kv : string) : bool := HasPrefix kv (k +:+ "=").
Definition shellEnv (os : goos) (environ : list string) (term shellPath home : string) (user : option string) : list string :=
  let term := if String.eqb term "" then "xterm-256color" else term in
  match os with
  | Windows => environ
  | _ =>
    let vars := shellVars environ term shellPath home user in
    List.filter (λ kv, negb (existsb (λ v, sets v.1 kv) vars)) environ ++ map (λ v, v.1 +:+ "=" +:+ v.2) vars
  end.

(** ** One session channel *)
Inductive sessionReq : Type :=
| PtyReq (p : option PtyRequest)
| WindowChange (w : option (Z * Z))
| ShellReq (startErr : option string)    (* the error of starting the shell *)
| Subsystem (name : option string)
| ScriptReq (msg : option ScriptMsg)
| OtherReq (type : string).
Record sessionState := mkSessionState {
  ss_pty : option PtyRequest;
  ss_shell : bool;                       (* a shell was started *)
  ss_script : bool;                      (* a script was *)
  ss_started : bool;
}.
Definition reply (ok : bool) : M agent unit := happen (HReply ok "").
(** [false] ends the session. *)
Definition serveReq (req : sessionReq) (s : sessionState) : M agent (sessionState * bool) :=
  match req with
  | PtyReq p =>
    match p with
    | Some p => if ss_started s then _ ← reply false; mret (s, true)
                else _ ← reply true; mret (mkSessionState (Some p) (ss_shell s) (ss_script s) (ss_started s), true)
    | None => _ ← reply false; mret (s, true)
    end
  | WindowChange w =>
    _ ← (match w with
         | Some (cols, rows) => if ss_shell s then happen (HResize (dim cols 80) (dim rows 24)) else mret tt
         | None => mret tt
         end);
    _ ← reply true; mret (s, true)
  | ShellReq startErr =>
    match ss_started s, ss_pty s with
    | false, Some p =>
      match startErr with
      | Some e => _ ← reply false; mret (s, false)
      | None =>
        _ ← happen (HResize (dim (pt_Columns p) 80) (dim (pt_Rows p) 24));
        _ ← happen (HServe "shell");
        _ ← reply true; mret (mkSessionState (ss_pty s) true (ss_script s) true, true)
      end
    | _, _ => _ ← reply false; mret (s, true)
    end
  | Subsystem name =>
    if ss_started s || negb (bool_decide (name = Some "sftp")) then _ ← reply false; mret (s, true)
    else _ ← happen (HServe "sftp"); _ ← reply true; mret (mkSessionState (ss_pty s) (ss_shell s) (ss_script s) true, true)
  | ScriptReq msg =>
    match msg with
    | Some m => if ss_started s then _ ← reply false; mret (s, true)
                else _ ← happen (HServe "script"); _ ← reply true; mret (mkSessionState (ss_pty s) (ss_shell s) true true, true)
    | None => _ ← reply false; mret (s, true)
    end
  | OtherReq _ => _ ← reply false; mret (s, true)
  end.
(** What is left running when the channel is gone is ended. *)
Definition endSession (s : sessionState) : M agent unit :=
  _ ← (if ss_shell s then happen (HStop "shell") else mret tt);
  if ss_script s then happen (HStop "script") else mret tt.
Fixpoint serveSession (reqs : list sessionReq) (s : sessionState) : M agent unit :=
  match reqs with
  | [] => endSession s
  | r :: rest =>
    '(s', more) ← serveReq r s;
    if (more : bool) then serveSession rest s' else mret tt
  end.
Definition newSession : sessionState := mkSessionState None false false false.

(** ** A shell's end

    [run] and [kill] may end a shell at the same time; [closePTY] closes the terminal once. *)
Definition shellStatus (exitCode : option Z) (failed : bool) : Z :=
  match exitCode with
  | Some c => Z.max c 0
  | None => if failed then 1 else 0
  end.
Record shellProc := mkShellProc {
  sp_exited : bool;          (* [Wait] returned *)
  sp_done : bool;            (* [closeOnce] was used *)
  sp_closes : nat;           (* how often the terminal was closed *)
  sp_kills : nat;
}.
Definition closePTY (s : shellProc) : shellProc :=
  if sp_done s then s else mkShellProc (sp_exited s) true (S (sp_closes s)) (sp_kills s).
Inductive shellStep : shellProc → shellProc → Prop :=
| shell_exit s : shellStep s (mkShellProc true (sp_done s) (sp_closes s) (sp_kills s))
| shell_kill s : sp_exited s = false → shellStep s (mkShellProc (sp_exited s) (sp_done s) (sp_closes s) (S (sp_kills s)))
| shell_close s : shellStep s (closePTY s).
Lemma closed_once s : rtc shellStep (mkShellProc false false 0 0) s → sp_closes s = (if sp_done s then 1 else 0)%nat.
Proof.
  intros Hr. remember (mkShellProc false false 0 0) as s0 eqn:E. assert (H0 : sp_closes s0 = (if sp_done s0 then 1 else 0)%nat) by (by subst).
  clear E. induction Hr as [|a b c Hab _ IH]; [done|]. apply IH. destruct Hab as [s|s Hs|s]; cbn; [done|done|].
  unfold closePTY. destruct (sp_done s) eqn:Ed; [by rewrite Ed|]. cbn. by rewrite H0.
Qed.

(** ** Channels *)
Inductive channel : Type :=
| SessionChannel (accepts : bool) (reqs : list sessionReq)
| UpdateChannel (m : option Manifest) (accepts : bool) (data : stream)
| OtherChannel (type : string).
Section channels.
Context `{Lib} (runVersion : string → option string) (evalExecutable : result string string).
(** A channel from its opening to its end; concurrent ones are in [slotStep] below. *)
Definition handleChannel (c : channel) : M agent unit :=
  match c with
  | UpdateChannel m accepts data => handleUpdate runVersion evalExecutable m accepts data
  | OtherChannel _ => happen (HReject "unsupported channel type")
  | SessionChannel accepts reqs =>
    a ← mget;
    if negb (cf_AllowShell (ag_cfg a))
    then happen (HReject "remote shell is disabled on this machine; reinstall the agent with --allow-shell to enable it") else
    _ ← mmodify (λ a, with_sessions (ag_sessions a + 1) a);
    n ← mgets ag_sessions;
    if maxSessions <? n
    then _ ← mmodify (λ a, with_sessions (ag_sessions a - 1) a); happen (HReject "too many open sessions")
    else if negb accepts then mmodify (λ a, with_sessions (ag_sessions a - 1) a)
    else _ ← serveSession reqs newSession; mmodify (λ a, with_sessions (ag_sessions a - 1) a)
  end.
End channels.

(** ** The session counter under concurrency

    [a.sessions.Add] is atomic; a channel is counted before it is decided whether it may run, and until [serveSession] returns,
    which cancels a script without waiting for its processes to die. *)
Record slots := mkSlots {
  sl_counter : Z;
  sl_deciding : list Z;      (* what [Add(1)] returned to the channels that are not decided yet *)
  sl_running : Z;            (* the channels that [serveSession] serves *)
}.
Inductive slotStep : slots → slots → Prop :=
| slot_add s : slotStep s (mkSlots (sl_counter s + 1) (sl_counter s + 1 :: sl_deciding s) (sl_running s))
| slot_refuse s l1 n l2 : sl_deciding s = l1 ++ n :: l2 → maxSessions < n →
    slotStep s (mkSlots (sl_counter s - 1) (l1 ++ l2) (sl_running s))
| slot_fail s l1 n l2 : sl_deciding s = l1 ++ n :: l2 → n <= maxSessions →
    slotStep s (mkSlots (sl_counter s - 1) (l1 ++ l2) (sl_running s))
| slot_run s l1 n l2 : sl_deciding s = l1 ++ n :: l2 → n <= maxSessions →
    slotStep s (mkSlots (sl_counter s) (l1 ++ l2) (sl_running s + 1))
| slot_done s : 0 < sl_running s → slotStep s (mkSlots (sl_counter s - 1) (sl_deciding s) (sl_running s - 1)).

(** ** Scripts *)
Definition defaultScriptTimeout : Z := minutes 5.
Definition maxScriptTimeout : Z := hours 24.
Definition exitTimeout : Z := 124.
(** The time a script gets; the product wraps around. *)
Definition scriptTimeout (secs : Z) : Z :=
  let t := wrap64 (secs * nsec) in
  Z.min (if t <=? 0 then defaultScriptTimeout else t) maxScriptTimeout.
(** [strings.ReplaceAll(s, CR LF, LF)] and back. *)
Fixpoint toLF (s : string) : string :=
  match s with
  | String a ((String b r) as t) => if Ascii.eqb a carriageReturn && Ascii.eqb b newline then String newline (toLF r) else String a (toLF t)
  | _ => s
  end.
Definition toCRLF (s : string) : string := replaceByte newline (String carriageReturn NL) s.
Definition psPrologue : string :=
  stringOf [239; 187; 191] +:+ "[Console]::OutputEncoding = [Text.Encoding]::UTF8" +:+ String carriageReturn NL.

Section scripts.
Context `{Lib}.
Context (environ : list string) (LookPath : string → option string) (durationString : Z → string).
(** How a program ends: [ex_deadline] when the time limit stopped it, [ex_code] its exit code, [None] when it
    did not start, negative when a signal killed it. *)
Record execResult := mkExecResult { ex_output : string; ex_deadline : bool; ex_code : option Z; ex_err : string }.
Context (exec : list string → Z → execResult).

Definition writeScript (dir name content : string) : M host (string * option string) :=
  let p := pathJoin [dir; name] in
  w ← osWriteFile p content; mret (p, match w with Ok _ => None | Err e => Some (osMsg e) end).
(** The interpreter, its arguments, and the error. *)
Definition scriptCommand (os : goos) (shell dir script : string) : M host (result string (list string)) :=
  let windows := match os with Windows => true | _ => false end in
  let finish interp args (r : string * option string) :=
    match r.2 with None => Ok (interp :: args ++ [r.1]) | Some e => Err e end in
  if existsb (String.eqb shell) ["sh"; "bash"] then
    if windows then mret (Err (shell +:+ " scripts need Linux or macOS")) else
    match (if String.eqb shell "bash" then LookPath "bash" else Some "/bin/sh") with
    | None => mret (Err "bash is not installed on this machine")
    | Some interp => r ← writeScript dir "script.sh" script; mret (finish interp [] r)
    end
  else if String.eqb shell "powershell" then
    let names := if windows then ["pwsh.exe"; "powershell.exe"] else ["pwsh"] in
    let script := if windows then psPrologue +:+ script else script in
    match head (omap LookPath names) with
    | None => mret (Err "PowerShell is not installed on this machine")
    | Some interp =>
      r ← writeScript dir "script.ps1" script;
      mret (finish interp ["-NoLogo"; "-NoProfile"; "-NonInteractive"; "-ExecutionPolicy"; "Bypass"; "-File"] r)
    end
  else if String.eqb shell "cmd" then
    if negb windows then mret (Err "cmd scripts need Windows") else
    let comspec := getenv environ "ComSpec" in
    r ← writeScript dir "script.cmd" (toCRLF (toLF script));
    mret (finish (if String.eqb comspec "" then "cmd.exe" else comspec) ["/d"; "/c"] r)
  else mret (Err ("unknown shell " +:+ Quote shell)).

(** [os.MkdirTemp]: a new folder for the owner alone, under the first free one of the names the generator
    proposes. *)
Fixpoint tempDirIn (seeds : list string) (pre : string) (h : host) : ores string * host :=
  match seeds with
  | [] => (Err (EOther "file exists"), h)
  | s :: rest =>
    let d := "/tmp/" +:+ pre +:+ s in
    match ho_dirs h !! d with
    | Some _ => tempDirIn rest pre (with_rand rest h)
    | None => (Ok d, with_dirs (<[d := true]> (ho_dirs h)) (with_rand rest h))
    end
  end.
Definition osMkdirTemp (pre : string) : M host (ores string) :=
  f ← fault;
  match f with
  | Some _ => mret (Err ioError)
  | None => mstate (λ h, tempDirIn (ho_rand h) pre h)
  end.
(** [os.RemoveAll]: the folder and what is in it; a failing call leaves it. *)
Definition osRemoveAll (d : string) : M host unit :=
  f ← fault;
  match f with
  | Some _ => mret tt
  | None => mmodify (λ h, with_dirs (delete d (ho_dirs h)) (with_files (filter (λ kv, inDir d kv.1 = false) (ho_files h)) h))
  end.
(** The exit status of a program that was run, and what is appended to its output. *)
Definition scriptStatus (timeout : Z) (x : execResult) : Z * string :=
  if ex_deadline x then (exitTimeout, NL +:+ "[stopped: the time limit of " +:+ durationString timeout +:+ " was reached]" +:+ NL) else
  match ex_code x with
  | None => (127, "cannot run the script: " +:+ ex_err x +:+ NL)
  | Some c => (if c <? 0 then 255 else c, "")
  end.
(** Exit status and output. *)
Definition runScript (os : goos) (msg : ScriptMsg) : M host (Z * string) :=
  let timeout := scriptTimeout (sc_Timeout msg) in
  dir ← osMkdirTemp (AgentName +:+ "-script-");
  match dir with
  | Err e => mret (1, "cannot create a temporary directory: " +:+ osMsg e +:+ NL)
  | Ok dir =>
    out ← (r ← restrictDir dir;
           match r with
           | Err e => mret (1, "cannot create a temporary directory: " +:+ osMsg e +:+ NL)
           | Ok _ =>
             cmd ← scriptCommand os (sc_Shell msg) dir (sc_Script msg);
             match cmd with
             | Err e => mret (127, e +:+ NL)
             | Ok cmd =>
               _ ← emit (HExec cmd);
               let x := exec cmd timeout in
               let '(status, more) := scriptStatus timeout x in
               mret (status, ex_output x +:+ more)
             end
           end);
    _ ← osRemoveAll dir; mret out
  end.
End scripts.

(** ** Properties *)
(** The counter counts, and the limit holds in every interleaving. *)
Definition slotInv (s : slots) : Prop :=
  sl_counter s = Z.of_nat (length (sl_deciding s)) + sl_running s ∧ 0 <= sl_running s
  ∧ sl_running s + Z.of_nat (countWhere (λ n, n <=? maxSessions) (sl_deciding s)) <= maxSessions.
Lemma countWhere_app {A} (p : A → bool) l1 l2 : countWhere p (l1 ++ l2) = (countWhere p l1 + countWhere p l2)%nat.
Proof. unfold countWhere. by rewrite List.filter_app, length_app. Qed.
Lemma countWhere_le {A} (p : A → bool) l : (countWhere p l ≤ length l)%nat.
Proof. induction l as [|x l IH]; [done|]. rewrite countWhere_cons. cbn. destruct (p x); lia. Qed.
Lemma slotStep_inv s s' : slotStep s s' → slotInv s → slotInv s'.
Proof.
  intros Hs (Hc & Hr & Hl). destruct Hs as [s|s l1 n l2 Hd Hn|s l1 n l2 Hd Hn|s l1 n l2 Hd Hn|s Hp]; unfold slotInv; cbn [sl_counter sl_deciding sl_running].
  - cbn [length]. rewrite countWhere_cons. cbn beta. pose proof (countWhere_le (λ n, n <=? maxSessions) (sl_deciding s)).
    destruct (Z.leb_spec (sl_counter s + 1) maxSessions); split_and!; lia.
  - rewrite Hd in Hc, Hl. rewrite length_app in Hc |- *. rewrite countWhere_app in Hl |- *. rewrite countWhere_cons in Hl. cbn [length] in Hc. cbn beta in Hl.
    destruct (Z.leb_spec n maxSessions); split_and!; lia.
  - rewrite Hd in Hc, Hl. rewrite length_app in Hc |- *. rewrite countWhere_app in Hl |- *. rewrite countWhere_cons in Hl. cbn [length] in Hc. cbn beta in Hl.
    destruct (Z.leb_spec n maxSessions); split_and!; lia.
  - rewrite Hd in Hc, Hl. rewrite length_app in Hc |- *. rewrite countWhere_app in Hl |- *. rewrite countWhere_cons in Hl. cbn [length] in Hc. cbn beta in Hl.
    destruct (Z.leb_spec n maxSessions); [split_and!; lia|lia].
  - split_and!; lia.
Qed.

Lemma slotSteps_inv s s' : rtc slotStep s s' → slotInv s → slotInv s'.
Proof. induction 1 as [|a b c Hab _ IH]; [done|]. intros Ha. apply IH. by eapply slotStep_inv. Qed.
Lemma slotInv_init : slotInv (mkSlots 0 [] 0).
Proof. split; [reflexivity|]. split; [reflexivity|vm_compute; discriminate]. Qed.

(** C29. At most sixteen sessions: however the channels of all links interleave, no more than 16 session channels are served at
    once on a machine, and the counter is exactly the number of channels that are served or being
    decided, so that none is lost: with no channel open it is zero again. (A channel is served until [serveSession]
    returns; the processes of a script it canceled may take a moment longer to die.) *)
Theorem session_limit (s : slots) (Hreach : rtc slotStep (mkSlots 0 [] 0) s) :
  sl_running s <= maxSessions ∧ sl_counter s = Z.of_nat (length (sl_deciding s)) + sl_running s ∧ 0 <= sl_running s.
Proof.
  assert (Hi : slotInv s) by (eapply slotSteps_inv; [exact Hreach|apply slotInv_init]).
  destruct Hi as (Hc & Hr & Hl). pose proof (countWhere_le (λ n, n <=? maxSessions) (sl_deciding s)). split_and!; lia.
Qed.
Lemma session_limit_witness : ∃ s, rtc slotStep (mkSlots 0 [] 0) s ∧ sl_running s = 1 ∧ sl_running s <= maxSessions.
Proof.
  assert (Hr : rtc slotStep (mkSlots 0 [] 0) (mkSlots 1 [] 1)).
  { eapply rtc_l; [apply slot_add|]. eapply rtc_l; [|apply rtc_refl].
    apply (slot_run (mkSlots 1 [1] 0) [] 1 []); [reflexivity|vm_compute; discriminate]. }
  exists (mkSlots 1 [] 1). split; [exact Hr|]. split; [reflexivity|]. apply (session_limit _ Hr).
Defined.

(** ** Scripts: properties *)
Lemma scriptTimeout_bounds secs : 0 < scriptTimeout secs <= maxScriptTimeout.
Proof.
  unfold scriptTimeout. destruct (wrap64 (secs * nsec) <=? 0) eqn:E; bool_hyps;
    unfold defaultScriptTimeout, maxScriptTimeout, hours, minutes, seconds, nsec in *; lia.
Qed.
(** Line ends: every LF gets one CR. *)
Example toCRLF_example :
  toCRLF (toLF ("a" +:+ NL +:+ "b" +:+ String carriageReturn NL)) = "a" +:+ String carriageReturn NL +:+ "b" +:+ String carriageReturn NL.
Proof. reflexivity. Qed.

Section scriptProps.
Context `{Lib} (environ : list string) (LookPath : string → option string) (durationString : Z → string).
Context (exec : list string → Z → execResult).
Implicit Types (h : host).
(** Names of temporary folders. *)
Definition tempName (seed : string) : string := "/tmp/" +:+ (AgentName +:+ "-script-") +:+ seed.
Lemma tempDirIn_spec seeds h0 (Q : ores string → host → Prop) :
  (∀ e h', ho_files h' = ho_files h0 → ho_dirs h' = ho_dirs h0 → ho_faults h' = ho_faults h0 → ho_trace h' = ho_trace h0 → Q (Err e) h') →
  (∀ s h', s ∈ seeds → ho_dirs h0 !! tempName s = None → ho_files h' = ho_files h0 → ho_faults h' = ho_faults h0 → ho_trace h' = ho_trace h0 →
     ho_dirs h' = <[tempName s := true]> (ho_dirs h0) → Q (Ok (tempName s)) h') →
  ∀ h, ho_files h = ho_files h0 → ho_dirs h = ho_dirs h0 → ho_faults h = ho_faults h0 → ho_trace h = ho_trace h0 →
    Q (tempDirIn seeds (AgentName +:+ "-script-") h).1 (tempDirIn seeds (AgentName +:+ "-script-") h).2.
Proof.
  intros HE. induction seeds as [|s rest IH]; intros HO h Ef Ed Efa Et; cbn [tempDirIn]; [by apply HE|].
  change ("/tmp/" +:+ (AgentName +:+ "-script-") +:+ s) with (tempName s). rewrite Ed.
  destruct (ho_dirs h0 !! tempName s) eqn:E; cbn.
  - apply IH; [|done..]. intros s' h' Hs'. apply HO. by constructor.
  - apply (HO s); [constructor|done|done|done|done|]. cbn. by rewrite ?Ed.
Qed.
(** Only files of the folder [d] are touched. *)
Definition within (d : string) h h' : Prop :=
  (∀ p, inDir d p = false → ho_files h' !! p = ho_files h !! p) ∧ ho_dirs h' = ho_dirs h
  ∧ (ho_faults h = [] → ho_faults h' = []).
#[local] Instance within_preorder d : PreOrder (within d).
Proof.
  split; [done|]. intros h1 h2 h3 (F1 & D1 & N1) (F2 & D2 & N2). split_and!; [|congruence|auto].
  intros p Hp. by rewrite F2, F1.
Qed.
Lemma within_same d h h' : sameButFaults h h' → within d h h'.
Proof. intros (Ef & Ed & _ & _ & N)%sameButFaults_spec. split_and!; [by rewrite Ef|done|done]. Qed.
Lemma inDir_join seed name : containsByte slash seed = false → plainElem name → inDir (tempName seed) (pathJoin [tempName seed; name]) = true.
Proof.
  intros Hs Hn. set (x := (AgentName +:+ "-script-") +:+ seed).
  assert (Hl : Forall plainElem ["tmp"; x]).
  { repeat constructor; done. }
  change (tempName seed) with (rootPath ["tmp"; x]). rewrite pathJoin_rootPath by done. unfold inDir.
  rewrite Dir_rootPath, String.eqb_refl by done. cbn [andb]. apply negb_true_iff, String.eqb_neq.
  rewrite rootPath_snoc by done. by apply append_neq.
Qed.
Lemma within_write d p c h h' : inDir d p = true → sameButFaults h h' → within d h (with_files (<[p := c]> (ho_files h')) h').
Proof.
  intros Hp Hs. destruct (within_same d _ _ Hs) as (F & D & N). split_and!; [|done|done].
  intros q Hq. cbn. rewrite lookup_insert_ne by congruence. auto.
Qed.
Lemma steps_writeScript seed name c : containsByte slash seed = false → plainElem name →
  steps (within (tempName seed)) (writeScript (tempName seed) name c).
Proof.
  intros Hs Hn h. unfold writeScript. pose proof (inDir_join seed name Hs Hn) as Hi.
  set (m := _ ← _; _). apply (wp_run m (λ _ h', within (tempName seed) h h') h (m h).1); [|apply surjective_pairing]. unfold m.
  apply wp_bind, wp_osWriteFile.
  - intros n h1 Hs1 _. apply wp_ret. by apply within_write.
  - intros h1 Hs1. apply wp_ret. by apply within_write.
Qed.
Lemma steps_scriptCommand os shell seed script : containsByte slash seed = false →
  steps (within (tempName seed)) (scriptCommand environ LookPath os shell (tempName seed) script).
Proof.
  intros Hs. assert (Hw : ∀ name c, name ∈ ["script.sh"; "script.ps1"; "script.cmd"] →
    steps (within (tempName seed)) (writeScript (tempName seed) name c)).
  { intros name c Hn. apply steps_writeScript; [done|]. rewrite !elem_of_cons in Hn.
    destruct Hn as [->|[->|[->|[]%elem_of_nil]]]; by split_and!. }
  unfold scriptCommand. repeat first [apply Hw; set_solver | step1].
Qed.
Lemma steps_emit_within d e : steps (within d) (emit e).
Proof. done. Qed.

(** What comes of a script: it could not be prepared, or it ran within its time limit. *)
Definition scriptOutcome (msg : ScriptMsg) (r : Z * string) : Prop :=
  r.1 = 1 ∨ r.1 = 127
  ∨ ∃ cmd timeout, 0 < timeout <= maxScriptTimeout
      ∧ r = ((scriptStatus durationString timeout (exec cmd timeout)).1,
             ex_output (exec cmd timeout) +:+ (scriptStatus durationString timeout (exec cmd timeout)).2).
Definition scriptPost (msg : ScriptMsg) h (r : Z * string) h' : Prop :=
  scriptOutcome msg r
  ∧ ((ho_files h' = ho_files h ∧ ho_dirs h' = ho_dirs h)
     ∨ (∃ d, ho_dirs h !! d = None ∧ ho_dirs h' = <[d := true]> (ho_dirs h) ∧ ho_faults h ≠ []
          ∧ ∀ p, inDir d p = false → ho_files h' !! p = ho_files h !! p)).
(** Removing the folder undoes what was done within it. *)
Lemma wp_cleanup d h h1 h2 msg r :
  ho_dirs h !! d = None → ho_dirs h1 = <[d := true]> (ho_dirs h) → ho_files h1 = ho_files h →
  (∀ p, is_Some (ho_files h !! p) → inDir d p = false) → (ho_faults h = [] → ho_faults h1 = []) →
  within d h1 h2 → scriptOutcome msg r → wp (_ ← osRemoveAll d; mret r) (scriptPost msg h) h2.
Proof.
  intros Hd Ed Ef Hin N1 (F2 & D2 & N2) Ho. apply wp_bind. unfold osRemoveAll. apply wp_bind, wp_fault.
  - intros h3 Hs. destruct (sameButFaults_spec _ _ Hs) as (Ef3 & Ed3 & _). apply wp_modify, wp_ret. split; [done|]. left. cbn. split.
    + apply map_eq. intros p. rewrite Ef3, map_lookup_filter. destruct (inDir d p) eqn:E.
      * destruct (ho_files h !! p) eqn:Ep; [by rewrite Hin in E|]. destruct (ho_files h2 !! p); [|done]. cbn.
        by rewrite option_guard_False by congruence.
      * rewrite F2, Ef by done. destruct (ho_files h !! p); [|done]. cbn. by rewrite option_guard_True.
    + rewrite Ed3, D2, Ed. by apply delete_insert_id.
  - intros n h3 Hne Hs. destruct (sameButFaults_spec _ _ Hs) as (Ef3 & Ed3 & _). apply wp_ret, wp_ret. split; [done|]. right. exists d.
    split_and!; [done|congruence|auto|]. intros p Hp. rewrite Ef3, F2, Ef; done.
Qed.

(** A script leaves nothing behind: its folder, which only the agent's user can enter, is removed in every case (unless
    removing it fails, and then nothing outside it is touched), so the machine's files are as before apart from what the
    script itself did; it runs for at most a day, whatever timeout was asked for, and its status is that of the program,
    124 at the time limit, 255 after a signal, and 1 or 127 when it could not be prepared or started. *)
Theorem script_leaves_nothing (os : goos) (msg : ScriptMsg) (h : host)
    (Hseeds : ∀ s, s ∈ ho_rand h → containsByte slash s = false)
    (Hfs : ∀ p d, is_Some (ho_files h !! p) → inDir d p = true → is_Some (ho_dirs h !! d)) :
  let '(r, h') := runScript environ LookPath durationString exec os msg h in scriptPost msg h r h'.
Proof.
  apply wp_let. unfold runScript, osMkdirTemp. apply wp_bind, wp_bind, wp_fault.
  2: { intros n h1 _ Hs. destruct (sameButFaults_spec _ _ Hs) as (Ef & Ed & _). apply wp_ret, wp_ret. split; [by left|left; done]. }
  intros h1 Hs. destruct (sameButFaults_spec _ _ Hs) as (Ef & Ed & Er & Et & N). unfold wp at 1, mstate. cbn beta.
  apply (tempDirIn_spec _ h1); [intros e h2 E1 E2 _ _; apply wp_ret; split; [by left|left; split; congruence]| |done..].
  intros s h2 Hseed Hnew E1 E2 _ E3. rewrite Er in Hseed. rewrite Ed in Hnew, E3. rewrite Ef in E1. specialize (Hseeds s Hseed).
  set (d := tempName s) in *.
  assert (Hin : ∀ p, is_Some (ho_files h !! p) → inDir d p = false).
  { intros p Hp. apply not_true_is_false. intros Hi. destruct (Hfs p d Hp Hi) as [x Hx]. congruence. }
  assert (Hend : ∀ r h3, within d h2 h3 → scriptOutcome msg r → wp (_ ← osRemoveAll d; mret r) (scriptPost msg h) h3).
  { intros r h3 Hw Ho. eapply wp_cleanup; [exact Hnew|exact E3|exact E1|exact Hin| |exact Hw|exact Ho]. rewrite E2. exact N. }
  apply wp_bind, wp_bind, wp_restrictDir; [intros e h3 Hs3; apply wp_ret, Hend; [by apply within_same|by left]|].
  intros h3 Hs3 _. assert (Hw3 : within d h2 (with_dirs (<[d := true]> (ho_dirs h3)) h3)).
  { destruct (within_same d _ _ Hs3) as (F & D & N3). split_and!; [done| |done]. cbn. rewrite D, E3. by rewrite insert_insert_eq. }
  apply wp_bind. eapply wp_steps; [by apply steps_scriptCommand|]. intros [cmd|e] h4 Hw4.
  - apply wp_bind, wp_modify. destruct (scriptStatus _ _ _) as [status more] eqn:Est. apply wp_ret, Hend.
    + etrans; [exact Hw3|]. etrans; [exact Hw4|]. done.
    + right; right. exists cmd, (scriptTimeout (sc_Timeout msg)). split; [apply scriptTimeout_bounds|]. by rewrite Est.
  - apply wp_ret, Hend; [by etrans|]. right; by left.
Qed.
End scriptProps.
Lemma script_leaves_nothing_witness :
  let h := mkHost {["/etc/hosts" := "x"]} {["/etc" := false; "/tmp" := false]} [] ["123"] [] in
  let exec := λ _ _, mkExecResult "hi" false (Some 3) "" in
  let '(r, h') := @runScript demoLib [] Some (λ _, "") exec Linux (mkScriptMsg "sh" "exit 3" 60) h in
  r = (3, "hi") ∧ ho_files h' = ho_files h ∧ scriptPost (λ _, "") exec (mkScriptMsg "sh" "exit 3" 60) h r h'.
Proof.
  intros h exec. pose proof (@script_leaves_nothing demoLib [] Some (λ _, "") exec Linux (mkScriptMsg "sh" "exit 3" 60) h) as Hs.
  assert (Hc : (@runScript demoLib [] Some (λ _, "") exec Linux (mkScriptMsg "sh" "exit 3" 60) h).1 = (3, "hi")
    ∧ ho_files (@runScript demoLib [] Some (λ _, "") exec Linux (mkScriptMsg "sh" "exit 3" 60) h).2 = ho_files h) by (split; vm_compute; reflexivity).
  destruct (runScript _ _ _ _ _ _ h) as [r h']. destruct Hc as [E1 E2]. split; [exact E1|]. split; [exact E2|]. apply Hs.
  - intros s ->%list_elem_of_singleton. reflexivity.
  - intros p d [c Hc] Hi. cbn in Hc. apply lookup_singleton_Some in Hc as [<- _]. unfold inDir in Hi. apply andb_true_iff in Hi as [Hi _].
    apply String.eqb_eq in Hi. subst d. vm_compute. by exists false.
Defined.

(** ** The environment: properties *)
Lemma sets_own k1 k2 v : containsByte "=" k1 = false → containsByte "=" k2 = false →
  sets k1 (k2 +:+ "=" +:+ v) = String.eqb k1 k2.
Proof.
  unfold sets, HasPrefix. revert k2. induction k1 as [|a k1 IH]; intros k2 H1 H2.
  - destruct k2 as [|b k2]; [destruct v; reflexivity|]. cbn in H2. apply orb_false_iff in H2 as [H2 _]. rewrite append_cons.
    change ("" +:+ "=") with "=". cbn [String.prefix]. destruct (ascii_dec "=" b) as [<-|]; [by rewrite Ascii.eqb_refl in H2|done].
  - cbn in H1. apply orb_false_iff in H1 as [Ha H1]. destruct k2 as [|b k2]; [rewrite append_cons|rewrite !append_cons; cbn [String.prefix]].
    + change ("" +:+ "=" +:+ v) with (String "=" v). cbn [String.prefix]. destruct (ascii_dec a "=") as [->|]; [by rewrite Ascii.eqb_refl in Ha|done].
    + cbn in H2. apply orb_false_iff in H2 as [_ H2]. cbn [String.eqb].
      destruct (ascii_dec a b) as [->|Hn]; [rewrite Ascii.eqb_refl; by apply IH|]. by apply Ascii.eqb_neq in Hn as ->.
Qed.
Lemma shellVars_keys environ term path home user :
  let vars := shellVars environ term path home user in
  NoDup vars.*1 ∧ Forall (λ k, containsByte "=" k = false) vars.*1.
Proof.
  cbn zeta. unfold shellVars. destruct user, (String.eqb (getenv environ "PATH") ""), (String.eqb (getenv environ "LANG") ""); cbn;
    (split; [apply (bool_decide_unpack _); vm_compute; exact I|by repeat constructor]).
Qed.
Lemma negb_existsb {A} (p : A → bool) l : forallb (λ x, negb (p x)) l = negb (existsb p l).
Proof. induction l as [|x l IH]; [done|]. cbn. by rewrite IH, negb_orb. Qed.
Lemma filter_none {A} (p : A → bool) l : (∀ x, x ∈ l → p x = false) → List.filter p l = [].
Proof.
  induction l as [|x l IH]; intros Hno; [done|]. cbn. rewrite (Hno x) by constructor. apply IH. intros y Hy. apply Hno. by constructor.
Qed.
(** The entries for a key among the variables that are set. *)
Lemma filter_vars vars k v : NoDup vars.*1 → Forall (λ k, containsByte "=" k = false) vars.*1 → (k, v) ∈ vars →
  List.filter (sets k) (map (λ x, x.1 +:+ "=" +:+ x.2) vars) = [k +:+ "=" +:+ v].
Proof.
  induction vars as [|[k' v'] vars IH]; intros Hn Hf Hin; [by apply not_elem_of_nil in Hin|]. cbn [map List.filter fst snd fmap list_fmap] in *.
  apply NoDup_cons in Hn as [Hk Hn]. inversion Hf as [|? ? Hk' Hf']; subst.
  apply elem_of_cons in Hin as [[= -> ->]|Hin].
  - rewrite sets_own, String.eqb_refl by done. f_equal. clear IH Hn.
    induction vars as [|[k2 v2] vars IH]; [done|]. cbn [map List.filter fst snd fmap list_fmap] in *. inversion Hf' as [|? ? Hk2 Hf2]; subst.
    rewrite sets_own by done. destruct (String.eqb_spec k' k2) as [->|]; [set_solver|].
    apply IH; [set_solver|constructor; done|done].
  - rewrite sets_own; [|rewrite Forall_forall in Hf'; apply Hf', list_elem_of_fmap; by exists (k, v)|done].
    destruct (String.eqb_spec k k') as [->|]; [|by apply IH].
    exfalso. apply Hk, list_elem_of_fmap. by exists (k', v).
Qed.

(** The shell's environment is well defined: every variable the agent sets appears exactly once, with the agent's
    value, whatever its own environment said; every other entry is passed on, in the same order. *)
Theorem shell_env_spec (os : goos) (environ : list string) (term path home : string) (user : option string) (Hos : os ≠ Windows) :
  let vars := shellVars environ (if String.eqb term "" then "xterm-256color" else term) path home user in
  let env := shellEnv os environ term path home user in
  (∀ k v, (k, v) ∈ vars → List.filter (sets k) env = [k +:+ "=" +:+ v])
  ∧ env = List.filter (λ kv, forallb (λ v, negb (sets v.1 kv)) vars) environ ++ map (λ v, v.1 +:+ "=" +:+ v.2) vars.
Proof.
  intros vars env. destruct (shellVars_keys environ (if String.eqb term "" then "xterm-256color" else term) path home user) as [Hn Hf].
  fold vars in Hn, Hf. pose proof (λ kv, negb_existsb (λ v, sets v.1 kv) vars) as Hneg.
  assert (Henv : env = List.filter (λ kv, forallb (λ v, negb (sets v.1 kv)) vars) environ ++ map (λ v, v.1 +:+ "=" +:+ v.2) vars).
  { rewrite (List.filter_ext _ _ Hneg). by destruct os. }
  split; [|done]. intros k v Hkv. rewrite Henv, List.filter_app, (filter_vars vars k v) by done.
  replace (List.filter (sets k) _) with (@nil string); [done|]. symmetry. apply filter_none. intros kv Hin.
  apply list_elem_of_In, filter_In in Hin as [_ Hin]. rewrite forallb_forall in Hin.
  by apply negb_true_iff, (Hin (k, v)), list_elem_of_In.
Qed.
Lemma shell_env_spec_witness :
  shellEnv Linux ["TERM=dumb"; "FOO=1"; "PATH=/bin"; "LANG=C"] "" "/bin/sh" "/root" None = ["FOO=1"; "PATH=/bin"; "LANG=C"; "TERM=xterm-256color"; "SHELL=/bin/sh"; "HOME=/root"]
  ∧ List.filter (sets "TERM") (shellEnv Linux ["TERM=dumb"; "FOO=1"; "PATH=/bin"; "LANG=C"] "" "/bin/sh" "/root" None) = ["TERM=xterm-256color"].
Proof.
  split; [reflexivity|].
  destruct (shell_env_spec Linux ["TERM=dumb"; "FOO=1"; "PATH=/bin"; "LANG=C"] "" "/bin/sh" "/root" None) as [Hs _]; [discriminate|].
  apply (Hs "TERM" "xterm-256color"). constructor.
Defined.
