(* ===== verification/AgentProps.v ===== *)
(** * Properties of the agent: remote control is opt-in, one program for a channel, the token is forgotten *)
From Stdlib Require Import ZArith Lia Ascii String.
From S2P Require Import Prelude GoStrings Float64 Library Version Paths Web Update Wol Protocol Hub Host AgentConfig AgentState AgentUpdate AgentServices Processes Agent AgentShell.
From stdpp Require Import base gmap strings list relations.
Local Open Scope string_scope.
Local Open Scope list_scope.
Local Open Scope Z_scope.
Local Open Scope lotse_scope.

(** ** What operations append to the trace *)
Section appends.
Context (P : hevent → Prop).
Definition happends (h h' : host) : Prop := ∃ l, ho_trace h' = ho_trace h ++ l ∧ Forall P l.
#[export] Instance happends_preorder : PreOrder happends.
Proof.
  split; [intros h; exists []; split; [by rewrite app_nil_r|done]|]. intros h1 h2 h3 (l & E & Hl) (l' & E' & Hl'). exists (l ++ l').
  rewrite E', E, app_assoc. split; [done|]. by apply Forall_app.
Qed.
(** The agent's rights stay, and the trace grows by events in [P]. *)
Definition appends (a a' : agent) : Prop := happends (ag_host a) (ag_host a') ∧ sameRights a a'.
#[export] Instance appends_preorder : PreOrder appends.
Proof. split; [intros a; split; reflexivity|]. intros a b c [H1 H2] [H3 H4]. split; by etrans. Qed.

Lemma happends_same h h' : ho_trace h' = ho_trace h → happends h h'.
Proof. intros E. exists []. split; [by rewrite E, app_nil_r|done]. Qed.
Lemma steps_emit e : P e → steps happends (emit e).
Proof. intros Hp h. exists [e]. split; [done|by apply Forall_singleton]. Qed.
Lemma steps_happen e : P e → steps appends (happen e).
Proof. intros Hp a. split; [by apply steps_emit|done]. Qed.
Lemma steps_onHost {A} (m : M host A) : steps happends m → steps appends (onHost m).
Proof. intros Hm a. specialize (Hm (ag_host a)). unfold onHost. destruct (m (ag_host a)). split; [done|done]. Qed.
(** The calls of [os] append nothing. *)
Lemma steps_quiet {A} (f : host → A * host) : (∀ h, ho_trace (f h).2 = ho_trace h) → steps happends (mstate f).
Proof. intros Hf h. apply happends_same, Hf. Qed.
Lemma steps_fault : steps happends fault.
Proof. apply steps_quiet. intros h. by destruct (ho_faults h). Qed.
Lemma steps_hmodify f : (∀ h, ho_trace (f h) = ho_trace h) → steps happends (mmodify f).
Proof. intros Hf h. apply happends_same, Hf. Qed.
End appends.
#[export] Hint Resolve steps_fault : steps.
#[export] Hint Extern 1 (steps (happends _) (mstate _)) => (apply steps_quiet; intros ?; repeat case_match; done) : steps.
#[export] Hint Extern 1 (steps (happends _) (mmodify _)) => (apply steps_hmodify; done) : steps.

Section quiet.
Context (P : hevent → Prop).
Lemma steps_osReadFile p : steps (happends P) (osReadFile p). Proof. unfold osReadFile. go_steps. Qed.
Lemma steps_osWriteFile p d : steps (happends P) (osWriteFile p d). Proof. unfold osWriteFile. go_steps. Qed.
Lemma steps_osRename p q : steps (happends P) (osRename p q). Proof. unfold osRename. go_steps. Qed.
Lemma steps_osRemove p : steps (happends P) (osRemove p). Proof. unfold osRemove. go_steps. Qed.
Lemma steps_osMkdirAll p : steps (happends P) (osMkdirAll p). Proof. unfold osMkdirAll. go_steps. Qed.
Lemma steps_osReadDir p : steps (happends P) (osReadDir p). Proof. unfold osReadDir. go_steps. Qed.
Lemma steps_restrictDir p : steps (happends P) (restrictDir p). Proof. unfold restrictDir. go_steps. Qed.
End quiet.
#[export] Hint Resolve steps_osReadFile steps_osWriteFile steps_osRename steps_osRemove steps_osMkdirAll steps_osReadDir steps_restrictDir : steps.

(** ** Everything the hub can make an agent do *)
(** The machine around the agent, at one moment. *)
Record world := mkWorld {
  w_run : list string → string * option string * string;
  w_LookPath : string → option string;
  w_systemd : bool;
  w_manager : scm;
  w_connect : option string;
  w_startErr : option string;
  w_stopErr : option (string * bool);
  w_procs : option (list reading);
  w_elapsed : f64;
  w_cores : f64;
  w_getpid : Z;
  w_signaled : Z → option string;
  w_ifaces : option (list string);
  w_dial : bool;
  w_sent : list bool;
  w_runVersion : string → option string;
  w_executable : result string string;
}.

Section props.
Context `{Lib} `{Marshal}.
Implicit Types (a : agent) (w : world).
Definition request w (req : hubRequest) : M agent payload :=
  handleRequest (w_run w) (w_LookPath w) (w_systemd w) (w_manager w) (w_connect w) (w_startErr w) (w_stopErr w)
    (w_procs w) (w_elapsed w) (w_cores w) (w_getpid w) (w_signaled w) (w_ifaces w) (w_dial w) (w_sent w) req.
(** The hub answered a greeting, sent a request, or opened a channel. *)
Inductive agentStep : agent → agent → Prop :=
| step_hello answer a : agentStep a (hello answer a).2
| step_request w req a : agentStep a (request w req a).2
| step_channel w c a : agentStep a (handleChannel (w_runVersion w) (w_executable w) c a).2.

(** The commands that only look. *)
Definition listingCommands : list (list string) := [
  ["systemctl"; "list-units"; "--type=service"; "--all"; "--no-legend"; "--no-pager"; "--plain"];
  ["systemctl"; "list-unit-files"; "--type=service"; "--no-legend"; "--no-pager"];
  ["launchctl"; "list"]].
(** What may happen on a machine whose owner did not allow remote control: answers, magic packets, looking at
    services, and signed updates unless they are off too. *)
Definition harmless (updates : bool) (e : hevent) : Prop :=
  match e with
  | HReply _ _ | HReject _ | HWake _ _ => True
  | HExec cmd => cmd ∈ listingCommands ∨ (updates = true ∧ ∃ tmp, cmd = [tmp; "version"])
  | HRestart _ => updates = true
  | HAfter _ _ | HSignal _ _ | HService _ _ | HServe _ | HResize _ _ | HStop _ => False
  end.
Definition quietFor a := appends (harmless (negb (cf_DisableUpdates (ag_cfg a)))).

Lemma steps_runService P run cmd : P (HExec cmd) → steps (happends P) (runServiceCommand run cmd).
Proof. intros Hp. unfold runServiceCommand. apply steps_bind; [apply _|by apply steps_emit|]. intros []. apply steps_ret, _. Qed.
Lemma steps_listServices b run systemd manager os : steps (happends (harmless b)) (listServices run systemd manager os).
Proof.
  assert (Hl : ∀ cmd, cmd ∈ listingCommands → steps (happends (harmless b)) (runServiceCommand run cmd)).
  { intros cmd Hc. apply steps_runService. by left. }
  destruct os; cbn [listServices]; unfold listSystemd, listLaunchd; go_steps; apply Hl; set_solver.
Qed.
Lemma steps_reply b ok e : steps (appends (harmless b)) (happen (HReply ok e)).
Proof. by apply steps_happen. Qed.
Lemma steps_reject b r : steps (appends (harmless b)) (happen (HReject r)).
Proof. by apply steps_happen. Qed.
#[local] Hint Resolve steps_reply steps_reject : steps.
Lemma wp_ifAllowed what act (Q : string → agent → Prop) a :
  cf_AllowShell (ag_cfg a) = false → Q (what +:+ " " +:+ remoteControlOff) a → wp (ifAllowed what act) Q a.
Proof. intros Ha HQ. unfold ifAllowed. apply wp_bind, wp_get. by rewrite Ha. Qed.
Lemma steps_agentOnly b (f : agent → agent) :
  (∀ a, ag_host (f a) = ag_host a ∧ ag_cfg (f a) = ag_cfg a) → steps (appends (harmless b)) (mmodify f).
Proof.
  intros Hf a. destruct (Hf a) as [Eh Ec]. split; unfold mmodify; cbn; [by apply happends_same; rewrite Eh|].
  split; by rewrite Ec.
Qed.
#[local] Hint Extern 1 (steps (appends _) (mmodify _)) => (apply steps_agentOnly; done) : steps.
#[local] Hint Extern 1 (steps (appends _) refuse) => (unfold refuse; go_steps) : steps.
#[local] Hint Extern 1 (steps (appends _) (grant _)) => (unfold grant; go_steps) : steps.
#[local] Hint Extern 1 (steps (appends _) (replyAction _)) => (unfold replyAction; go_steps) : steps.
Lemma request_harmless w req a b : cf_AllowShell (ag_cfg a) = false → appends (harmless b) a (request w req a).2.
Proof.
  intros Ha. apply (wp_run (request w req) (λ _ a', appends (harmless b) a a') a (request w req a).1); [|apply surjective_pairing].
  assert (Hgo : ∀ (m : M agent payload), steps (appends (harmless b)) m → wp m (λ _ a', appends (harmless b) a a') a).
  { intros m Hm. by eapply wp_steps. }
  unfold request, handleRequest. apply wp_bind, wp_get. destruct req as [limit|[[pid sig]|]|[action|]| |[[name action]|]|[[macs bc]|]|[secs|]|t].
  - apply Hgo. go_steps.
  - apply wp_bind, wp_ifAllowed; [done|]. apply Hgo. go_steps.
  - apply Hgo. go_steps.
  - rewrite Ha. cbn [negb]. apply Hgo. go_steps.
  - apply Hgo. go_steps.
  - apply Hgo. apply steps_bind; [apply _|apply steps_onHost, steps_listServices|]. intros l. go_steps.
  - apply wp_bind, wp_ifAllowed; [done|]. apply Hgo. go_steps.
  - apply Hgo. go_steps.
  - apply Hgo. destruct (negb _); [go_steps|]. destruct (wolSend _ _ _ _) as [packets ok].
    apply steps_bind; [apply _|destruct packets; [go_steps|by apply steps_happen]|]. intros []. go_steps.
  - apply Hgo. go_steps.
  - apply Hgo. go_steps.
  - apply Hgo. go_steps.
  - apply Hgo. go_steps.
Qed.

(** *** Updates *)
Lemma steps_install runVersion os exe r m : steps (happends (harmless true)) (install runVersion os exe r m).
Proof.
  unfold install, osCreateTemp, installFrom, receive, execVersion, swapIn.
  assert (Hv : ∀ tmp, steps (happends (harmless true)) (emit (HExec [tmp; "version"]))).
  { intros tmp. apply steps_emit. right. eauto. }
  assert (Ht : ∀ mk, steps (happends (harmless true)) (mstate (λ h, createTempIn (ho_rand h) mk h))).
  { intros mk. apply steps_quiet. intros h. generalize (ho_rand h) as l. intros l. revert h.
    induction l as [|s l IH]; intros h; cbn; [done|]. destruct (ho_files h !! mk s); [by rewrite IH|done]. }
  repeat first [apply Hv | apply Ht | progress go_steps].
Qed.
Lemma update_harmless runVersion ev m accepts r a :
  appends (harmless (negb (cf_DisableUpdates (ag_cfg a)))) a (handleUpdate runVersion ev m accepts r a).2.
Proof.
  set (u := handleUpdate runVersion ev m accepts r).
  refine (wp_run u (λ _ a', appends (harmless (negb (cf_DisableUpdates (ag_cfg a)))) a a') a (u a).1 (u a).2 _ (surjective_pairing _)).
  unfold u, handleUpdate. apply wp_bind, wp_get. destruct (checkUpdate a m) as [mf|msg] eqn:Ec; [|by eapply wp_steps; [apply steps_reject|]].
  apply checkUpdate_ok in Ec as [_ Hacc]. destruct Hacc as [-> _]. cbn [negb].
  eapply wp_steps; [|by intros]. pose proof (λ os exe, steps_install runVersion os exe r mf) as Hi.
  assert (Hr : ∀ exe, steps (appends (harmless true)) (happen (HRestart exe))) by (intros; by apply steps_happen).
  unfold executable. repeat first [apply Hr | apply steps_onHost, Hi | progress go_steps].
Qed.
Lemma steps_Save P c : steps (happends P) (Save c).
Proof. unfold Save, DedicatedDir, writeConfig. go_steps. Qed.
Lemma steps_hello b answer : steps (appends (harmless b)) (hello answer).
Proof.
  unfold hello. assert (Ht : steps (appends (harmless b)) (mmodify (λ a, with_cfg (with_Token "" (ag_cfg a)) a))).
  { intros a. split; [by apply happends_same|done]. }
  repeat first [exact Ht | apply steps_onHost, steps_Save | progress go_steps].
Qed.
Lemma agentStep_harmless a a' b : agentStep a a' → cf_AllowShell (ag_cfg a) = false →
  b = negb (cf_DisableUpdates (ag_cfg a)) → appends (harmless b) a a'.
Proof.
  intros Hs Ha ->. destruct Hs as [answer a|w req a|w c a]; [apply steps_hello|by apply request_harmless|].
  destruct c as [accepts reqs|m accepts data|t]; cbn [handleChannel]; [|apply update_harmless|by apply steps_reject].
  unfold mbind, M_bind, mget. rewrite Ha. cbn [negb]. apply steps_reject.
Qed.

(** C7. Remote control is opt-in: on a machine whose owner did not allow it, nothing the hub does, in any
    number of requests and channels, starts a shell, a file transfer or a script, signals a process, controls a service, reboots
    the machine or runs any command but those that list services; only signed updates and, where they
    are disabled too, not even those. The hub cannot change the setting. *)
Theorem remote_control_optin (a a' : agent) (Hoff : cf_AllowShell (ag_cfg a) = false) (Hsteps : rtc agentStep a a') :
  (∃ l, trace a' = trace a ++ l ∧ Forall (harmless (negb (cf_DisableUpdates (ag_cfg a)))) l) ∧ sameRights a a'.
Proof.
  remember (negb (cf_DisableUpdates (ag_cfg a))) as b eqn:Hb.
  change (appends (harmless b) a a'). revert Hb. induction Hsteps as [a|a1 a2 a3 H12 _ IH]; intros Hb; [reflexivity|].
  pose proof (agentStep_harmless _ _ b H12 Hoff Hb) as Hap. destruct (proj2 Hap) as [E1 E2].
  etrans; [exact Hap|]. apply IH; [congruence|by rewrite E2].
Qed.

(** ** One program for a channel *)
Definition isServe (e : hevent) : bool := match e with HServe _ => true | _ => false end.
(** What a session channel may do. *)
Definition ofSession (e : hevent) : Prop :=
  match e with HReply _ _ | HResize _ _ | HServe _ | HStop _ => True | _ => False end.
Definition goodSession (s : sessionState) : Prop :=
  (ss_shell s = true → ss_started s = true) ∧ (ss_script s = true → ss_started s = true).
(** The rest of a session: [l] is what happens. *)
Definition sessionPost (s : sessionState) (l : list hevent) : Prop :=
  (countWhere isServe l ≤ if ss_started s then 0 else 1)%nat ∧ Forall ofSession l
  ∧ (ss_shell s = true ∨ HServe "shell" ∈ l → HStop "shell" ∈ l)
  ∧ (ss_script s = true ∨ HServe "script" ∈ l → HStop "script" ∈ l).
Definition append (l : list hevent) a : agent := with_host (with_trace (trace a ++ l) (ag_host a)) a.
Lemma append_app l1 l2 a : append l2 (append l1 a) = append (l1 ++ l2) a.
Proof. unfold append, trace, with_host, with_trace. cbn. by rewrite app_assoc. Qed.
Lemma append_nil_ a : append [] a = a.
Proof. unfold append, trace, with_host, with_trace. rewrite app_nil_r. by destruct a as [? ? ? ? ? ? ? ? ? []]. Qed.
Lemma wp_happen_append e (Q : unit → agent → Prop) l a : Q tt (append (l ++ [e]) a) → wp (happen e) Q (append l a).
Proof. rewrite <-append_app. done. Qed.
(** What one request does: no program is started, or the first one is. *)
Inductive reqEffect (s : sessionState) (l : list hevent) (s' : sessionState) (more : bool) : Prop :=
| eff_none : countWhere isServe l = 0%nat → Forall ofSession l →
    ss_shell s' = ss_shell s → ss_script s' = ss_script s → ss_started s' = ss_started s →
    (more = false → ss_started s = false) → reqEffect s l s' more
| eff_start : ss_started s = false → countWhere isServe l = 1%nat → Forall ofSession l → more = true → ss_started s' = true →
    (HServe "shell" ∈ l → ss_shell s' = true) → (HServe "script" ∈ l → ss_script s' = true) → reqEffect s l s' more.
Lemma wp_serveReq req s a (Q : sessionState * bool → agent → Prop) :
  (∀ l s' more, reqEffect s l s' more → Q (s', more) (append l a)) → wp (serveReq req s) Q a.
Proof.
  intros HQ. rewrite <-(append_nil_ a).
  assert (Hone : ∀ e s', ofSession e → isServe e = false → ss_shell s' = ss_shell s → ss_script s' = ss_script s →
    ss_started s' = ss_started s → Q (s', true) (append ([] ++ [e]) a)).
  { intros e s' He Hs E1 E2 E3. apply HQ, eff_none; [cbn; unfold countWhere; cbn; by rewrite Hs|by apply Forall_singleton|done..]. }
  assert (Hno : wp (_ ← reply false; mret (s, true)) Q (append [] a)) by (apply wp_bind, wp_happen_append, wp_ret; by apply Hone).
  destruct req as [[p|]|w|startErr|name|[m|]|t]; cbn [serveReq]; [..|exact Hno].
  - destruct (ss_started s); [exact Hno|]. apply wp_bind, wp_happen_append, wp_ret. by apply Hone.
  - exact Hno.
  - apply wp_bind. assert (Hr : wp (_ ← reply true; mret (s, true)) Q (append [] a)) by (apply wp_bind, wp_happen_append, wp_ret; by apply Hone).
    destruct w as [[cols rows]|]; [destruct (ss_shell s)|]; [|by apply wp_ret..].
    apply wp_happen_append, wp_bind, wp_happen_append, wp_ret, HQ, eff_none; [done|by repeat constructor|done..].
  - destruct (ss_started s) eqn:Es; [exact Hno|]. destruct (ss_pty s) as [p|]; [|exact Hno].
    destruct startErr as [e|].
    + apply wp_bind, wp_happen_append, wp_ret, HQ, eff_none; [done|by repeat constructor|done..].
    + apply wp_bind, wp_happen_append, wp_bind, wp_happen_append, wp_bind, wp_happen_append, wp_ret, HQ.
      apply eff_start; [done|done|by repeat constructor|done|done|done|]. cbn. set_solver.
  - destruct (ss_started s) eqn:Es; [exact Hno|]. cbn [orb]. destruct (negb _); [exact Hno|].
    apply wp_bind, wp_happen_append, wp_bind, wp_happen_append, wp_ret, HQ.
    apply eff_start; [done|done|by repeat constructor|done|done|cbn; set_solver|cbn; set_solver].
  - destruct (ss_started s) eqn:Es; [exact Hno|].
    apply wp_bind, wp_happen_append, wp_bind, wp_happen_append, wp_ret, HQ.
    apply eff_start; [done|done|by repeat constructor|done|done|cbn; set_solver|done].
  - exact Hno.
Qed.
Lemma no_serve l what : countWhere isServe l = 0%nat → HServe what ∉ l.
Proof. rewrite countWhere_zero. intros Hno Hin. by specialize (Hno _ Hin). Qed.
Lemma sessionPost_end s : goodSession s →
  sessionPost s ((if ss_shell s then [HStop "shell"] else []) ++ (if ss_script s then [HStop "script"] else [])).
Proof.
  intros _. unfold sessionPost. destruct (ss_shell s), (ss_script s), (ss_started s); cbn; split_and!;
    try (repeat constructor; lia); try (by repeat constructor); set_solver.
Qed.
Lemma sessionPost_step s l1 s' l2 : goodSession s → reqEffect s l1 s' true → sessionPost s' l2 → sessionPost s (l1 ++ l2).
Proof.
  intros [G1 G2] He (Hn & Hf & Hsh & Hsc). unfold sessionPost. rewrite countWhere_app, Forall_app. setoid_rewrite elem_of_app.
  destruct He as [E0 F E1 E2 E3 _|E0 E1 F _ E3 I1 I2].
  - pose proof (no_serve l1 "shell" E0) as N1. pose proof (no_serve l1 "script" E0) as N2. rewrite E3 in Hn. rewrite E1 in Hsh. rewrite E2 in Hsc.
    split_and!; [lia|done|done| |]; intros; right; [apply Hsh|apply Hsc]; naive_solver.
  - rewrite E3 in Hn. rewrite E0 in *. split_and!; [lia|done|done| |]; intros; right; [apply Hsh|apply Hsc]; naive_solver.
Qed.
Lemma wp_serveSession reqs s a : goodSession s →
  wp (serveSession reqs s) (λ _ a', ∃ l, a' = append l a ∧ sessionPost s l) a.
Proof.
  revert s a. induction reqs as [|r reqs IH]; intros s a Hg; cbn [serveSession].
  - unfold endSession. eapply (wp_mono _ (λ _ a', a' = append ((if ss_shell s then [HStop "shell"] else [])
      ++ (if ss_script s then [HStop "script"] else [])) a)); [|intros [] a' E; eexists; split; [exact E|by apply sessionPost_end]].
    cut (∀ b, b = append [] a → wp (_ ← (if ss_shell s then happen (HStop "shell") else mret tt);
      if ss_script s then happen (HStop "script") else mret tt) (λ _ a', a' = append ((if ss_shell s then [HStop "shell"] else [])
      ++ (if ss_script s then [HStop "script"] else [])) a) b); [intros Hc; apply Hc; by rewrite append_nil_|].
    intros b ->. apply wp_bind.
    destruct (ss_shell s); [apply wp_happen_append|apply wp_ret]; (destruct (ss_script s); [apply wp_happen_append|apply wp_ret]); done.
  - apply wp_bind, wp_serveReq. intros l s' more He. cbn. destruct more.
    + assert (Hg' : goodSession s').
      { destruct Hg as [G1 G2], He as [_ _ E1 E2 E3 _|_ _ _ _ E3 _ _]; split; rewrite E3; rewrite ?E1, ?E2; done. }
      eapply wp_mono; [by apply IH|]. intros [] a' (l2 & -> & Hp). exists (l ++ l2). split; [apply append_app|].
      by eapply sessionPost_step.
    + apply wp_ret. exists l. split; [done|]. destruct Hg as [G1 G2]. destruct He as [E0 F _ _ _ Hm|? ? ? E]; [|discriminate].
      unfold sessionPost. rewrite E0. rewrite (Hm eq_refl) in *.
      pose proof (no_serve l "shell" E0). pose proof (no_serve l "script" E0). split_and!; [lia|done|naive_solver..].
Qed.

(** A session channel runs at most one program, and what it started ends with it: whatever requests the hub sends on
    it, at most one of a shell, a file transfer and a script is started, a shell or script is stopped
    when the channel goes, and nothing else happens on the machine. *)
Theorem session_one_program (reqs : list sessionReq) (a : agent) :
  let '(_, a') := serveSession reqs newSession a in
  ∃ l, a' = append l a ∧ Forall ofSession l ∧ (countWhere isServe l ≤ 1)%nat
    ∧ (HServe "shell" ∈ l → HStop "shell" ∈ l) ∧ (HServe "script" ∈ l → HStop "script" ∈ l).
Proof.
  apply wp_let. eapply wp_mono; [by apply wp_serveSession|]. intros [] a' (l & -> & P1 & P2 & P3 & P4).
  exists l. split_and!; auto.
Qed.

(** ** The enrollment token *)
(** The configuration is only changed by forgetting the token. *)
Definition cfgKept (a a' : agent) : Prop := ag_cfg a' = ag_cfg a.
#[local] Instance cfgKept_preorder : PreOrder cfgKept.
Proof. split; unfold cfgKept; [done|intros x y z; congruence]. Qed.
Lemma steps_onHost_cfg {A} (m : M host A) : steps cfgKept (onHost m).
Proof. intros a. unfold cfgKept, onHost. by destruct (m (ag_host a)). Qed.
Lemma steps_happen_cfg e : steps cfgKept (happen e).
Proof. done. Qed.
#[local] Hint Resolve steps_onHost_cfg steps_happen_cfg : steps.
#[local] Hint Extern 1 (steps cfgKept (mmodify _)) => (apply steps_modify; done) : steps.
Lemma steps_request_cfg w req : steps cfgKept (request w req).
Proof. unfold request, handleRequest, refuse, grant, replyAction, ifAllowed. go_steps. Qed.
Lemma steps_serveSession_cfg reqs s : steps cfgKept (serveSession reqs s).
Proof.
  revert s. induction reqs as [|r reqs IH]; intros s; cbn [serveSession]; [unfold endSession; go_steps|].
  apply steps_bind; [apply _|destruct r; cbn [serveReq]; unfold reply; go_steps|]. intros [s' []]; [apply IH|go_steps].
Qed.
#[local] Hint Resolve steps_serveSession_cfg : steps.
Lemma steps_channel_cfg w c : steps cfgKept (handleChannel (w_runVersion w) (w_executable w) c).
Proof. destruct c; cbn [handleChannel]; unfold handleUpdate, executable; go_steps. Qed.
Definition forgets (a a' : agent) : Prop := ag_cfg a' = ag_cfg a ∨ ag_cfg a' = with_Token "" (ag_cfg a).
Lemma wp_hello answer a (Q : result string Z → agent → Prop) :
  (∀ e, Q (Err e) a) →
  (∀ secs a', forgets a a' → cf_Token (ag_cfg a') = "" →
     (cf_Token (ag_cfg a) = "" ∨ ∃ r, savePost (ag_cfg a') (ag_host a) r (ag_host a')) → Q (Ok (clampInterval secs)) a') →
  wp (hello answer) Q a.
Proof.
  intros HE HO. unfold hello. destruct answer as [e|ok reply]; [by apply wp_ret|].
  destruct (negb ok || _); [by apply wp_ret|]. apply wp_bind, wp_get.
  destruct (String.eqb_spec (cf_Token (ag_cfg a)) "") as [Et|Et]; cbn [negb]; apply wp_bind.
  - apply wp_ret, wp_ret, HO; [by left|done|by left].
  - apply wp_bind, wp_modify, wp_bind, wp_get, wp_bind, wp_onHost. eapply wp_mono; [apply wp_Save|].
    intros r h' Hp. apply wp_ret, wp_ret, HO; [by right|done|right; by exists r].
Qed.
Lemma agentStep_token a a' : agentStep a a' → cf_Token (ag_cfg a) = "" → cf_Token (ag_cfg a') = "".
Proof.
  intros [answer x|w req x|w c x] Ht.
  - apply (wp_run (hello answer) (λ _ a', cf_Token (ag_cfg a') = "") x (hello answer x).1); [|apply surjective_pairing].
    by apply wp_hello.
  - pose proof (steps_request_cfg w req x) as E. unfold cfgKept in E. by rewrite E.
  - pose proof (steps_channel_cfg w c x) as E. unfold cfgKept in E. by rewrite E.
Qed.
Lemma clampInterval_bounds secs : seconds 1 <= clampInterval secs <= seconds 3600.
Proof. unfold clampInterval, seconds, nsec. destruct (secs <=? 0); lia. Qed.

(** An enrolled agent forgets its token: once the hub accepted it, it never sends an enrollment token
    again, whatever happens afterwards, so a system deleted on the hub does not come back by itself;
    the configuration on disk is the one without the token or, when it cannot be written, still complete. The
    interval between reports is between a second and an hour, whatever the hub asks for. *)
Theorem token_forgotten (answer : sent HelloReply) (a a1 a2 : agent) (d : Z) (info : SystemInfo)
    (Hhello : hello answer a = (Ok d, a1)) (Hsteps : rtc agentStep a1 a2) :
  he_Token (helloMsg info a2) = "" ∧ seconds 1 <= d <= seconds 3600
  ∧ (cf_Token (ag_cfg a) = "" ∨ ∃ r, savePost (with_Token "" (ag_cfg a)) (ag_host a) r (ag_host a1)).
Proof.
  set (post := λ (r : result string Z) a1, ∀ d, r = Ok d → cf_Token (ag_cfg a1) = "" ∧ seconds 1 <= d <= seconds 3600
    ∧ (cf_Token (ag_cfg a) = "" ∨ ∃ r, savePost (with_Token "" (ag_cfg a)) (ag_host a) r (ag_host a1))).
  assert (Hp : post (Ok d) a1).
  { refine (wp_run (hello answer) post a (Ok d) a1 _ Hhello). apply wp_hello; [intros e d' [=]|].
    intros secs a' Hf Ht Hs d' [= <-]. split_and!; [done|apply clampInterval_bounds..|].
    destruct Hs as [Hs|[r Hs]]; [by left|]. destruct Hf as [E|E]; [left; by rewrite <-E|right; exists r; by rewrite <-E]. }
  destruct (Hp d eq_refl) as (Ht & Hd & Hs). split; [|done]. cbn. clear Hhello Hp post Hs Hd.
  induction Hsteps as [|x y z Hxy _ IH]; [done|]. apply IH. by eapply agentStep_token.
Qed.
End props.

(** ** Witnesses *)
Definition demoOffAgent : agent := with_cfg (mkConfig "https://hub" "key" "token" false false demoConfigPath) demoAgent.
#[export] Instance demoAgentMarshal : Marshal := λ _, "{}".
Definition demoWorld : world :=
  mkWorld (λ _, ("", None, "")) Some true (mkScm (Ok []) (λ _, None)) None None None (Some []) (ofInt 1) (ofInt 1) 5 (λ _, None) None false []
    (λ _, None) (Err "").
Lemma remote_control_optin_witness :
  ∃ a', rtc (@agentStep demoLib demoAgentMarshal) demoOffAgent a' ∧ a' ≠ demoOffAgent
    ∧ ∃ l, trace a' = trace demoOffAgent ++ l ∧ Forall (harmless true) l.
Proof.
  assert (Hr : rtc (@agentStep demoLib demoAgentMarshal) demoOffAgent (@request demoLib demoWorld (RPower (Some "reboot")) demoOffAgent).2).
  { eapply rtc_l; [apply (step_request demoWorld (RPower (Some "reboot")))|apply rtc_refl]. }
  eexists. split; [exact Hr|]. split; [vm_compute; discriminate|].
  apply (@remote_control_optin demoLib demoAgentMarshal demoOffAgent _ eq_refl Hr).
Defined.
Lemma token_forgotten_witness :
  ∃ a1, @hello demoAgentMarshal (Replied true (mkHelloReply true "" 5)) demoOffAgent = (Ok (seconds 5), a1)
    ∧ he_Token (helloMsg (mkSystemInfo "" "" "" "" "" "" "" 1 1 []) a1) = "".
Proof.
  eexists. split; [vm_compute; reflexivity|].
  eapply (@token_forgotten demoLib demoAgentMarshal (Replied true (mkHelloReply true "" 5)) demoOffAgent _ _ (seconds 5));
    [vm_compute; reflexivity|apply rtc_refl].
Defined.
