(* ===== verification/Collect.v ===== *)
(** * Collecting metrics ([internal/agent/collect/{collect,docker,filters,fsprobe,battery_*}.go])

    What the operating system and the container runtime answer are readings; the collector keeps the
    previous ones and turns counters into rates. *)
From Stdlib Require Import ZArith Lia Ascii String Floats.SpecFloat.
From S2P Require Import Prelude GoStrings Float64 Library Version Paths Web Update Protocol Hub Host AgentShell.
From stdpp Require Import base gmap strings list sorting relations.
Local Open Scope string_scope.
Local Open Scope list_scope.
Local Open Scope Z_scope.
Local Open Scope lotse_scope.

(** ** Numbers *)
Definition wrapU64 (z : Z) : Z := z mod (2 * two63).
(** [Duration.Seconds]. *)
Definition durationSeconds (d : Z) : f64 := fadd (ofInt (d /! nsec)) (fdiv (ofInt (Z.rem d nsec)) (ofInt nsec)).
(** [time.Time.UnixMilli]. *)
Definition unixMilli (t : Z) : Z := t / 1000000.

(** ** Filters *)
Record partition := mkPartition { pa_Device : string; pa_Mountpoint : string; pa_Fstype : string }.
Definition skipFSTypes : list string :=
  ["tmpfs"; "devtmpfs"; "squashfs"; "overlay"; "iso9660"; "ramfs"; "nsfs"; "fuse.snapfuse"; "devfs"; "autofs"; "nullfs"].
Definition keepFilesystem (os : goos) (p : partition) : bool :=
  if existsb (String.eqb (pa_Fstype p)) skipFSTypes then false else
  match os with
  | Darwin => String.eqb (pa_Mountpoint p) "/" || HasPrefix (pa_Mountpoint p) "/Volumes/"
  | Linux => negb (HasPrefix (pa_Mountpoint p) "/snap/") && negb (HasPrefix (pa_Mountpoint p) "/boot")
  | Windows => true
  end.
Definition virtualIfPrefixes : list string :=
  ["lo"; "docker"; "veth"; "br-"; "virbr"; "vmnet"; "vboxnet"; "cni"; "flannel"; "cali"; "kube";
   "tun"; "tap"; "wg"; "tailscale"; "zt"; "utun"; "awdl"; "llw"; "bridge"; "anpi"; "ap1"; "gif"; "stf";
   "Loopback"; "vEthernet"; "isatap"; "Teredo"; "Local Area Connection*"].
Definition virtualInterface (name : string) : bool := existsb (HasPrefix name) virtualIfPrefixes.
Definition stackedDiskPrefixes : list string := ["loop"; "ram"; "zram"; "dm-"; "md"; "sr"; "fd"; "nbd"].
(** [sysBlock]: whether the disk is listed in /sys/block. *)
Definition physicalDisk (os : goos) (sysBlock : string → bool) (name : string) : bool :=
  match os with
  | Linux => negb (existsb (HasPrefix name) stackedDiskPrefixes) && sysBlock name
  | _ => true
  end.

(** ** Counters and rates *)
Record cpuTimes := mkCpuTimes {
  cp_User : f64; cp_System : f64; cp_Idle : f64; cp_Nice : f64; cp_Iowait : f64;
  cp_Irq : f64; cp_Softirq : f64; cp_Steal : f64; cp_Guest : f64; cp_GuestNice : f64;
}.
Definition cpuTotal (os : goos) (t : cpuTimes) : f64 :=
  let sum := fadd (fadd (fadd (fadd (fadd (fadd (fadd (cp_User t) (cp_System t)) (cp_Idle t)) (cp_Nice t)) (cp_Iowait t))
               (cp_Irq t)) (cp_Softirq t)) (cp_Steal t) in
  match os with Linux => sum | _ => fadd sum (fadd (cp_Guest t) (cp_GuestNice t)) end.
Definition cpuBusy (os : goos) (a b : cpuTimes) : f64 :=
  let ta := cpuTotal os a in
  let tb := cpuTotal os b in
  let busyA := fsub (fsub ta (cp_Idle a)) (cp_Iowait a) in
  let busyB := fsub (fsub tb (cp_Idle b)) (cp_Iowait b) in
  if fle tb ta || fle busyB busyA then fzero
  else fmin (ofInt 100) (fmul (fdiv (fsub busyB busyA) (fsub tb ta)) (ofInt 100)).
Definition rate (prev cur : Z) (secs : f64) : f64 :=
  if cur <? prev then fzero else fdiv (ofInt (cur - prev)) secs.
Record counters := mkCounters { cn_a : Z; cn_b : Z }.
(** The sums over the interfaces or disks that count; an error gives zeros. *)
Definition sumCounters (keep : string → bool) (stats : option (list (string * (Z * Z)))) : counters :=
  match stats with
  | None => mkCounters 0 0
  | Some l => foldl (λ c s, if keep s.1 then mkCounters (wrapU64 (cn_a c + s.2.1)) (wrapU64 (cn_b c + s.2.2)) else c) (mkCounters 0 0) l
  end.
Definition netCounters (stats : option (list (string * (Z * Z)))) : counters := sumCounters (λ n, negb (virtualInterface n)) stats.
Definition diskCounters (os : goos) (sysBlock : string → bool) (stats : option (list (string * (Z * Z)))) : counters :=
  sumCounters (physicalDisk os sysBlock) stats.

(** ** Filesystems *)
Definition maxFilesystems : nat := 32.
Record usage := mkUsage { us_Total : Z; us_Free : Z }.
Definition primaryMount (os : goos) (SystemDrive : string) : string :=
  match os with
  | Windows => if negb (String.eqb SystemDrive "") then
                 (if HasSuffix SystemDrive "\" then substring 0 (String.length SystemDrive - 1) SystemDrive else SystemDrive)
               else "C:"
  | _ => "/"
  end.
(** The stable sort that puts the primary mount first. *)
Definition primaryFirst (primary : string) (parts : list partition) : list partition :=
  selectWhere (λ p, String.eqb (pa_Mountpoint p) primary) parts ++ deleteWhere (λ p, String.eqb (pa_Mountpoint p) primary) parts.
(** The loop: what was seen, the mounts asked for, and the list. *)
Record fsAcc := mkFsAcc { fa_seen : gset string; fa_mounts : list string; fa_out : list Filesystem }.
Definition apfsKey (u : usage) : string := "apfs:" +:+ itoa (us_Total u) +:+ ":" +:+ itoa (us_Free u).
Definition fsEntry (p : partition) (u : usage) : Filesystem :=
  mkFilesystem (pa_Mountpoint p) (pa_Device p) (pa_Fstype p) (if us_Free u <? us_Total u then us_Total u - us_Free u else 0) (us_Total u).
Definition fsStep (os : goos) (usageOf : string → option usage) (acc : fsAcc) (p : partition) : fsAcc :=
  if String.eqb (pa_Mountpoint p) "" || bool_decide (pa_Device p ∈ fa_seen acc) || negb (keepFilesystem os p) then acc else
  let mounts := pa_Mountpoint p :: fa_mounts acc in
  match usageOf (pa_Mountpoint p) with
  | None => mkFsAcc (fa_seen acc) mounts (fa_out acc)
  | Some u =>
    if us_Total u =? 0 then mkFsAcc (fa_seen acc) mounts (fa_out acc) else
    match os with
    | Darwin =>
      if bool_decide (apfsKey u ∈ fa_seen acc) then mkFsAcc (fa_seen acc) mounts (fa_out acc)
      else mkFsAcc ({[pa_Device p]} ∪ ({[apfsKey u]} ∪ fa_seen acc)) mounts (fa_out acc ++ [fsEntry p u])
    | _ => mkFsAcc ({[pa_Device p]} ∪ fa_seen acc) mounts (fa_out acc ++ [fsEntry p u])
    end
  end.
(** The primary mount first, then by name. *)
Definition mountLess (primary : string) (a b : Filesystem) : bool :=
  let pa := String.eqb (fs_Mount a) primary in
  let pb := String.eqb (fs_Mount b) primary in
  if negb (eqb pa pb) then pa else match String.compare (fs_Mount a) (fs_Mount b) with Lt => true | _ => false end.
Definition mountLe (primary : string) (a b : Filesystem) : Prop := mountLess primary b a = false.
#[export] Instance mountLe_dec primary a b : Decision (mountLe primary a b).
Proof. unfold mountLe. apply _. Defined.
Definition fsLoop (os : goos) (primary : string) (parts : list partition) (usageOf : string → option usage) : fsAcc :=
  foldl (fsStep os usageOf) (mkFsAcc ∅ [] []) (primaryFirst primary parts).
(** The list, and the mounts whose usage stays cached. *)
Definition filesystems (os : goos) (primary : string) (parts : list partition) (usageOf : string → option usage) : list Filesystem * list string :=
  let acc := fsLoop os primary parts usageOf in
  (take maxFilesystems (merge_sort (mountLe primary) (fa_out acc)), fa_mounts acc).

(** ** Containers *)
Definition maxContainers : nat := 64.
Record containerCounters := mkContainerCounters { cc_cpu : Z; cc_system : Z; cc_rx : Z; cc_tx : Z }.
Record docker := mkDocker {
  dk_client : option string;                        (* the socket, once found *)
  dk_lastProbe : Z;
  dk_prev : gmap string containerCounters;
  dk_prevTime : Z;
}.
Definition newDocker : docker := mkDocker None zeroTime ∅ zeroTime.
(** The sockets that are tried: DOCKER_HOST, Docker, Podman, and the user's Docker Desktop. *)
Definition dockerSockets (DOCKER_HOST : string) (home : option string) : list string :=
  (if HasPrefix DOCKER_HOST "unix://" then [TrimPrefix DOCKER_HOST "unix://"] else [])
  ++ ["/var/run/docker.sock"; "/run/podman/podman.sock"]
  ++ match home with Some h => [pathJoin [h; ".docker/run/docker.sock"]] | None => [] end.
Definition available (os : goos) (now : Z) (sockets : list string) (isSocket : string → bool) : M docker bool :=
  d ← mget;
  match os with
  | Windows => mret false
  | _ =>
    match dk_client d with
    | Some _ => mret true
    | None =>
      if timeSub now (dk_lastProbe d) <? minutes 1 then mret false else
      let found := List.find isSocket sockets in
      _ ← mmodify (λ d, mkDocker found now (dk_prev d) (dk_prevTime d));
      mret (bool_decide (is_Some found))
    end
  end.
Record dockerContainer := mkDockerContainer { dc_ID : string; dc_Names : list string; dc_Image : string; dc_State : string; dc_Status : string }.
Record dockerStats := mkDockerStats {
  ds_cpu : Z; ds_system : Z; ds_memUsage : Z; ds_memLimit : Z; ds_memStats : gmap string Z; ds_networks : list (Z * Z);
}.
Definition firstOr (s : list string) (def : string) : string := default def (head s).
Definition shortID (id : string) : string := if 12 <? strLen id then substring 0 12 id else id.
Definition statsCounters (s : dockerStats) : containerCounters :=
  foldl (λ c n, mkContainerCounters (cc_cpu c) (cc_system c) (wrapU64 (cc_rx c + n.1)) (wrapU64 (cc_tx c + n.2)))
    (mkContainerCounters (ds_cpu s) (ds_system s) 0 0) (ds_networks s).
(** A container without its numbers. *)
Definition idleContainer (c : dockerContainer) : Container :=
  mkContainer (shortID (dc_ID c)) (TrimPrefix (firstOr (dc_Names c) (dc_ID c)) "/") (dc_Image c) (dc_State c) (dc_Status c) fzero 0 0 fzero fzero.
Definition withStats (prev : option containerCounters) (elapsed : f64) (s : dockerStats) (ct : Container) : Container :=
  let cur := statsCounters s in
  let inactive := wrapU64 (default 0 (ds_memStats s !! "inactive_file") + default 0 (ds_memStats s !! "total_inactive_file")) in
  let '(cpu, rx, tx) :=
    match prev with
    | Some p =>
      if fgt elapsed fzero then
        ((if (cc_system p <? cc_system cur) && (cc_cpu p <=? cc_cpu cur)
          then fmul (fdiv (ofInt (cc_cpu cur - cc_cpu p)) (ofInt (cc_system cur - cc_system p))) (ofInt 100) else fzero),
         rate (cc_rx p) (cc_rx cur) elapsed, rate (cc_tx p) (cc_tx cur) elapsed)
      else (fzero, fzero, fzero)
    | None => (fzero, fzero, fzero)
    end in
  mkContainer (ct_ID ct) (ct_Name ct) (ct_Image ct) (ct_State ct) (ct_Status ct) cpu
    (ds_memUsage s - Z.min (ds_memUsage s) inactive) (ds_memLimit s) rx tx.
(** The answers of the API: the containers, or an error and whether it says that the runtime went away; and
    the numbers of a container. *)
Definition containers (os : goos) (now : Z) (sockets : list string) (isSocket : string → bool)
    (listed : result bool (list dockerContainer)) (stats : string → option dockerStats) : M docker (list Container) :=
  ok ← available os now sockets isSocket;
  if negb (ok : bool) then mret [] else
  match listed with
  | Err gone =>
    _ ← (if (gone : bool) then mmodify (λ d, mkDocker None (dk_lastProbe d) (dk_prev d) (dk_prevTime d)) else mret tt); mret []
  | Ok l =>
    let l := if (maxContainers <? length l)%nat then take maxContainers l else l in
    d ← mget;
    let elapsed := durationSeconds (timeSub now (dk_prevTime d)) in
    let statsOf c := if String.eqb (dc_State c) "running" then stats (dc_ID c) else None in
    let cur := foldl (λ m c, match statsOf c with Some s => <[dc_ID c := statsCounters s]> m | None => m end) ∅ l in
    _ ← mmodify (λ d, mkDocker (dk_client d) (dk_lastProbe d) cur now);
    mret (map (λ c, match statsOf c with
                    | Some s => withStats (dk_prev d !! dc_ID c) elapsed s (idleContainer c)
                    | None => idleContainer c
                    end) l)
  end.

(** ** Batteries *)
(** Linux: one folder below power_supply; a file is its trimmed contents, [parse] is [strconv.ParseFloat]. *)
Section battery.
Context (parse : string → option f64).
Record batAcc := mkBatAcc { ba_sum : f64; ba_weight : f64; ba_state : string }.
Definition positive (o : option f64) : option f64 := x ← o; if fgt x fzero then Some x else None.
Definition batteryStep (acc : batAcc) (read : string → string) : batAcc :=
  if negb (String.eqb (read "type") "Battery") || String.eqb (read "scope") "Device" || String.eqb (read "present") "0" then acc else
  match parse (read "capacity") with
  | None => acc
  | Some percent =>
    let w := default (ofInt 1) (match positive (parse (read "energy_full")) with
                                | Some f => Some f
                                | None => positive (parse (read "charge_full"))
                                end) in
    let state := if String.eqb (read "status") "Charging" then "charging"
                 else if String.eqb (read "status") "Discharging" then
                   (if negb (String.eqb (ba_state acc) "charging") then "discharging" else ba_state acc)
                 else ba_state acc in
    mkBatAcc (fadd (ba_sum acc) (fmul percent w)) (fadd (ba_weight acc) w) state
  end.
Definition batteryFrom (dirs : list (string → string)) : option Battery :=
  let acc := foldl batteryStep (mkBatAcc fzero fzero "idle") dirs in
  if SFeqb (ba_weight acc) fzero then None
  else Some (mkBattery (fmin (ofInt 100) (fdiv (ba_sum acc) (ba_weight acc))) (ba_state acc)).
End battery.
(** Windows: the fields of SYSTEM_POWER_STATUS; [None] when the call fails. *)
Definition batteryWindows (s : option (Z * Z * Z)) : option Battery :=
  '(acLine, flag, percent) ← s;
  if negb (Z.land flag 128 =? 0) || (flag =? 255) || (100 <? percent) then None else
  Some (mkBattery (ofInt percent)
    (if negb (Z.land flag 8 =? 0) then "charging" else if acLine =? 0 then "discharging" else "idle")).
(** macOS: the power sources; a flag or number that is missing is [None]. *)
Record powerSource := mkPowerSource {
  pw_internal : bool; pw_present : option bool; pw_current : option Z; pw_max : option Z; pw_charging : option bool; pw_acPower : bool;
}.
Record macAcc := mkMacAcc { ma_current : Z; ma_capacity : Z; ma_charging : bool; ma_external : bool }.
Definition macStep (acc : macAcc) (p : powerSource) : macAcc :=
  if negb (pw_internal p) || negb (default true (pw_present p)) then acc else
  let full := default 0 (pw_max p) in
  if full <=? 0 then acc else
  mkMacAcc (wrap64 (ma_current acc + default 0 (pw_current p))) (wrap64 (ma_capacity acc + full))
    (ma_charging acc || default false (pw_charging p)) (ma_external acc || pw_acPower p).
Definition batteryDarwin (sources : option (list powerSource)) : option Battery :=
  l ← sources;
  let acc := foldl macStep (mkMacAcc 0 0 false false) l in
  if ma_capacity acc =? 0 then None else
  Some (mkBattery (fmin (ofInt 100) (fmul (fdiv (ofInt (ma_current acc)) (ofInt (ma_capacity acc))) (ofInt 100)))
    (if ma_charging acc then "charging" else if ma_external acc then "idle" else "discharging")).

(** ** Slow filesystems: a call that hangs is not started again *)
Record fsProbe := mkFsProbe {
  fp_running : gset string;
  fp_usages : gmap string (option usage);
  fp_parts : list partition;
  fp_calls : list string;                      (* the goroutines that have not returned *)
}.
Definition usageKey (mount : string) : string := "usage:" +:+ mount.
(** The steps of [run], of the goroutines it starts, and of [forget]. *)
Inductive probeStep : fsProbe → fsProbe → Prop :=
| probe_busy p key : key ∈ fp_running p → probeStep p p
| probe_start p key : key ∉ fp_running p →
    probeStep p (mkFsProbe ({[key]} ∪ fp_running p) (fp_usages p) (fp_parts p) (key :: fp_calls p))
| probe_parts p parts l1 l2 : fp_calls p = l1 ++ "partitions" :: l2 →
    probeStep p (mkFsProbe (fp_running p ∖ {["partitions"]}) (fp_usages p) parts (l1 ++ l2))
| probe_usage p mount u l1 l2 : fp_calls p = l1 ++ usageKey mount :: l2 →
    probeStep p (mkFsProbe (fp_running p ∖ {[usageKey mount]}) (<[mount := u]> (fp_usages p)) (fp_parts p) (l1 ++ l2))
| probe_forget p (keep : list string) :
    probeStep p (mkFsProbe (fp_running p)
      (filter (λ mu, mu.1 ∈ keep ∨ usageKey mu.1 ∈ fp_running p) (fp_usages p)) (fp_parts p) (fp_calls p)).
Definition newFSProbe : fsProbe := mkFsProbe ∅ ∅ [] [].

(** ** A sample *)
Record readings := mkReadings {
  rg_now : Z;
  rg_cpu : option cpuTimes;
  rg_vm : option (Z * Z);                       (* total, available *)
  rg_swap : option (Z * Z);                     (* total, used *)
  rg_net : option (list (string * (Z * Z)));
  rg_disk : option (list (string * (Z * Z)));
  rg_load : option (f64 * f64 * f64);
  rg_uptime : Z;
  rg_battery : option Battery;
  rg_parts : list partition;
  rg_usage : string → option usage;
  rg_containers : list Container;
}.
Record collector := mkCollector { co_primary : string; co_prevTime : Z; co_prevCPU : option cpuTimes; co_prevNet : counters; co_prevDisk : counters }.
Definition Sample (os : goos) (sysBlock : string → bool) (r : readings) : M collector Metrics :=
  c ← mget;
  let elapsed := durationSeconds (timeSub (rg_now r) (co_prevTime c)) in
  let haveRates := negb (isZeroTime (co_prevTime c)) && fgt elapsed fzero in
  let cpu := match rg_cpu r, co_prevCPU c with Some t, Some p => cpuBusy os p t | _, _ => fzero end in
  let '(memTotal, memUsed) := match rg_vm r with Some (t, a) => (t, if a <? t then t - a else 0) | None => (0, 0) end in
  let '(swapTotal, swapUsed) := default (0, 0) (rg_swap r) in
  let fss := (filesystems os (co_primary c) (rg_parts r) (rg_usage r)).1 in
  let '(diskUsed, diskTotal) := match List.find (λ f, String.eqb (fs_Mount f) (co_primary c)) fss with
                                | Some f => (fs_Used f, fs_Total f) | None => (0, 0) end in
  let netNow := netCounters (rg_net r) in
  let diskNow := diskCounters os sysBlock (rg_disk r) in
  let rateOf prev cur := if haveRates then rate prev cur elapsed else fzero in
  let '(l1, l5, l15) := match os with Windows => (fzero, fzero, fzero) | _ => default (fzero, fzero, fzero) (rg_load r) end in
  _ ← mmodify (λ c, mkCollector (co_primary c) (rg_now r) (match rg_cpu r with Some t => Some t | None => co_prevCPU c end) netNow diskNow);
  mret (mkMetrics (unixMilli (rg_now r)) cpu memUsed memTotal swapUsed swapTotal diskUsed diskTotal
    (rateOf (cn_a (co_prevDisk c)) (cn_a diskNow)) (rateOf (cn_b (co_prevDisk c)) (cn_b diskNow))
    (rateOf (cn_a (co_prevNet c)) (cn_a netNow)) (rateOf (cn_b (co_prevNet c)) (cn_b netNow))
    l1 l5 l15 (rg_uptime r) (rg_battery r) fss (rg_containers r)).
(** [New]: the first sample sets the baselines. *)
Definition newCollector (os : goos) (SystemDrive : string) (sysBlock : string → bool) (r : readings) : collector :=
  (Sample os sysBlock r (mkCollector (primaryMount os SystemDrive) zeroTime None (mkCounters 0 0) (mkCounters 0 0))).2.

(** ** The machine's description *)
Record iface := mkIface { if_Name : string; if_Loopback : bool; if_MAC : option string; if_Addrs : list (string * bool) }.
(** Physical interfaces with an address that is not link-local; [if_MAC] is a 48-bit address. *)
Definition ifaceEntry (i : iface) : list NetInterface :=
  match if_MAC i with
  | Some mac =>
    if if_Loopback i || virtualInterface (if_Name i) then [] else
    match map fst (selectWhere (λ a, negb a.2) (if_Addrs i)) with
    | [] => []
    | cidrs => [mkNetInterface (if_Name i) mac cidrs]
    end
  | None => []
  end.
Definition interfaces (l : option (list iface)) : list NetInterface :=
  match l with None => [] | Some l => take 16 (flat_map ifaceEntry l) end.
(** [host]: name, platform, its version and kernel; [model] the CPU's. *)
Definition Info (os : goos) (arch : string) (host : option (string * string * string * string)) (hostname : string)
    (model : option string) (cores : Z) (memTotal : option Z) (ifaces : option (list iface)) : SystemInfo :=
  let '(name, platform, version, kernel) := default ("", "", "", "") host in
  mkSystemInfo (if String.eqb name "" then hostname else name) (GOOS os) platform version kernel arch
    (match model with Some m => TrimSpace m | None => "" end) cores (default 0 memTotal) (interfaces ifaces).

(** ** Properties: filesystems *)
Definition isPrimary (primary : string) (f : Filesystem) : bool := String.eqb (fs_Mount f) primary.
Definition mountCmp (primary : string) (a b : Filesystem) : comparison :=
  match isPrimary primary a, isPrimary primary b with
  | true, false => Lt | false, true => Gt | _, _ => String.compare (fs_Mount a) (fs_Mount b)
  end.
Lemma mountLe_cmp primary a b : mountLe primary a b ↔ mountCmp primary a b ≠ Gt.
Proof.
  unfold mountLe, mountLess, mountCmp, isPrimary.
  destruct (String.eqb (fs_Mount a) primary), (String.eqb (fs_Mount b) primary); cbn; try done.
  all: rewrite (cmp_anti _ string_cmp (fs_Mount a) (fs_Mount b)); destruct (String.compare _ _); cbn; done.
Qed.
#[local] Instance mountLe_total primary : Total (mountLe primary).
Proof.
  intros a b. unfold mountLe, mountLess.
  destruct (String.eqb (fs_Mount a) primary), (String.eqb (fs_Mount b) primary); cbn; auto.
  all: rewrite (cmp_anti _ string_cmp (fs_Mount a) (fs_Mount b)); destruct (String.compare _ _); cbn; auto.
Qed.
(** What the loop keeps: every entry has its own device, which is remembered. *)
Definition fsInv (usageOf : string → option usage) (acc : fsAcc) : Prop :=
  NoDup (map fs_Device (fa_out acc)) ∧ (∀ f, f ∈ fa_out acc → fs_Device f ∈ fa_seen acc)
  ∧ (∀ f, f ∈ fa_out acc → ∃ p u, usageOf (pa_Mountpoint p) = Some u ∧ us_Total u ≠ 0 ∧ f = fsEntry p u).
Lemma fsInv_add usageOf acc p u seen mounts :
  fsInv usageOf acc → pa_Device p ∉ fa_seen acc → fa_seen acc ⊆ seen → pa_Device p ∈ seen →
  usageOf (pa_Mountpoint p) = Some u → us_Total u ≠ 0 → fsInv usageOf (mkFsAcc seen mounts (fa_out acc ++ [fsEntry p u])).
Proof.
  intros (Hn & Hs & He) Hd Hsub Hin Hu Ht. unfold fsInv. cbn. split_and!.
  - rewrite map_app. apply NoDup_app. split_and!; [done| |apply NoDup_singleton].
    intros d Hdd. cbn. intros ->%list_elem_of_singleton. apply list_elem_of_fmap in Hdd as (f & E & Hf). apply Hd. rewrite E. auto.
  - intros f [Hf|Hf]%elem_of_app; [auto|]. apply list_elem_of_singleton in Hf as ->. done.
  - intros f [Hf|Hf]%elem_of_app; [auto|]. apply list_elem_of_singleton in Hf as ->. eauto.
Qed.
Lemma fsStep_inv os usageOf acc p : fsInv usageOf acc → fsInv usageOf (fsStep os usageOf acc p).
Proof.
  intros Hi. unfold fsStep. destruct (_ || _) eqn:E; [done|]. apply orb_false_iff in E as [[_ Hd%bool_decide_eq_false]%orb_false_iff _].
  destruct (usageOf (pa_Mountpoint p)) as [u|] eqn:Eu; [|done]. destruct (Z.eqb_spec (us_Total u) 0) as [|Ht]; [done|].
  destruct os; [apply fsInv_add; set_solver| |apply fsInv_add; set_solver].
  case_bool_decide; [done|]. apply fsInv_add; set_solver.
Qed.
Lemma fsLoop_inv os primary parts usageOf : fsInv usageOf (fsLoop os primary parts usageOf).
Proof.
  unfold fsLoop. assert (Hgen : ∀ l acc, fsInv usageOf acc → fsInv usageOf (foldl (fsStep os usageOf) acc l)).
  { induction l as [|p l IH]; intros acc Hi; cbn; [done|]. by apply IH, fsStep_inv. }
  apply Hgen. unfold fsInv. cbn. split_and!; [apply NoDup_nil_2|set_solver..].
Qed.
(** Entries stay. *)
Lemma fsStep_out os usageOf acc p f : f ∈ fa_out acc → f ∈ fa_out (fsStep os usageOf acc p).
Proof.
  intros Hf. unfold fsStep. repeat (case_match; try done); cbn; apply elem_of_app; by left.
Qed.
Lemma foldl_out os usageOf l acc f : f ∈ fa_out acc → f ∈ fa_out (foldl (fsStep os usageOf) acc l).
Proof. revert acc. induction l as [|p l IH]; intros acc Hf; cbn; [done|]. by apply IH, fsStep_out. Qed.
(** The first kept partition with that mount point gets an entry. *)
Lemma fsLoop_primary os usageOf u l l2 primary mounts :
  primary ≠ "" → usageOf primary = Some u → us_Total u ≠ 0 →
  Forall (λ p, pa_Mountpoint p = primary) l → Exists (λ p, keepFilesystem os p = true) l →
  ∃ f, f ∈ fa_out (foldl (fsStep os usageOf) (mkFsAcc ∅ mounts []) (l ++ l2)) ∧ fs_Mount f = primary.
Proof.
  intros Hp Hu Ht Hl Hex. revert mounts. induction Hl as [|p l Hm Hl IH]; intros mounts; [by apply Exists_nil in Hex|].
  cbn [app foldl]. destruct (keepFilesystem os p) eqn:Ek.
  - exists (fsEntry p u). split; [|done]. apply foldl_out. unfold fsStep. rewrite Ek, Hm. cbn [negb].
    destruct (String.eqb_spec primary ""); [done|]. cbn [fa_seen fa_out]. rewrite bool_decide_eq_false_2 by set_solver. cbn [orb].
    rewrite Hu. destruct (Z.eqb_spec (us_Total u) 0); [done|]. destruct os; cbn; set_solver.
  - assert (E : fsStep os usageOf (mkFsAcc ∅ mounts []) p = mkFsAcc ∅ mounts []).
    { unfold fsStep. rewrite Ek. cbn [negb]. by rewrite orb_true_r. }
    rewrite E. apply IH. apply Exists_cons in Hex as [Hk|Hex]; [congruence|done].
Qed.
Lemma Sorted_take {A} (R : A → A → Prop) n l : Sorted R l → Sorted R (take n l).
Proof.
  revert n. induction l as [|x l IH]; intros n Hs; [by rewrite take_nil|]. destruct n as [|n]; cbn; [constructor|].
  apply Sorted_inv in Hs as [Hs Hh]. constructor; [by apply IH|]. destruct l, n; cbn; try constructor. by inversion Hh.
Qed.
(** When one entry is the primary mount, the first one is. *)
Lemma Sorted_head_primary primary x rest f :
  Sorted (mountLe primary) (x :: rest) → f ∈ x :: rest → fs_Mount f = primary → fs_Mount x = primary.
Proof.
  revert x. induction rest as [|y rest IH]; intros x Hs Hf Hm.
  - by apply list_elem_of_singleton in Hf as <-.
  - apply elem_of_cons in Hf as [->|Hf]; [done|]. apply Sorted_inv in Hs as [Hs Hh]. specialize (IH y Hs Hf Hm).
    apply HdRel_inv in Hh as Hxy. unfold mountLe, mountLess in Hxy. rewrite IH, String.eqb_refl in Hxy.
    by destruct (String.eqb_spec (fs_Mount x) primary).
Qed.

(** The filesystem list is well formed: at most 32 entries, each device once, each with a size and no more used than
    that, in the order of their mount points after the primary one; and the primary filesystem, whose
    numbers become the system's, is never lost to another mount of its device or to the limit. *)
Theorem filesystems_spec (os : goos) (primary : string) (parts : list partition) (usageOf : string → option usage)
    (Hu : ∀ m u, usageOf m = Some u → 0 <= us_Free u ∧ 0 <= us_Total u) :
  let out := (filesystems os primary parts usageOf).1 in
  (length out ≤ 32)%nat ∧ NoDup (map fs_Device out) ∧ Sorted (mountLe primary) out
  ∧ Forall (λ f, 0 <= fs_Used f <= fs_Total f ∧ fs_Total f ≠ 0) out
  ∧ (∀ p u, p ∈ parts → pa_Mountpoint p = primary → primary ≠ "" → keepFilesystem os p = true →
       usageOf primary = Some u → us_Total u ≠ 0 → ∃ f rest, out = f :: rest ∧ fs_Mount f = primary).
Proof.
  intros out. unfold out, filesystems. cbn [fst]. set (acc := fsLoop os primary parts usageOf). set (l := merge_sort (mountLe primary) (fa_out acc)).
  destruct (fsLoop_inv os primary parts usageOf) as (Hn & _ & He). fold acc in Hn, He.
  assert (Hp : l ≡ₚ fa_out acc) by apply merge_sort_Permutation.
  assert (Hs : Sorted (mountLe primary) l) by apply Sorted_merge_sort, _.
  split_and!.
  - rewrite length_take. unfold maxFilesystems. lia.
  - rewrite <-firstn_map. eapply (sublist_NoDup _ (map fs_Device l)); [by rewrite Hp|apply sublist_take].
  - by apply Sorted_take.
  - apply Forall_take. rewrite Hp. apply Forall_forall. intros f Hf. destruct (He f Hf) as (p & u & Hpu & Ht & ->). destruct (Hu _ _ Hpu).
    cbn. destruct (Z.ltb_spec (us_Free u) (us_Total u)); lia.
  - intros p u Hin Hm Hne Hk Hus Ht.
    assert (Hex : ∃ f, f ∈ fa_out acc ∧ fs_Mount f = primary).
    { apply (fsLoop_primary os usageOf u); [done|done|done| |].
      - apply Forall_forall. intros q [_ Hq%String.eqb_eq]%elem_of_selectWhere. done.
      - apply Exists_exists. exists p. split; [|done]. apply elem_of_selectWhere. split; [done|]. by apply String.eqb_eq. }
    destruct Hex as (f & Hf & Hfm). rewrite <-Hp in Hf. destruct l as [|x rest]; [by apply not_elem_of_nil in Hf|].
    exists x, (take 31 rest). split; [done|]. apply (Sorted_head_primary primary x rest f); done.
Qed.
Lemma filesystems_spec_witness :
  let parts := [mkPartition "/dev/sdb1" "/data" "ext4"; mkPartition "/dev/sda1" "/srv" "ext4"; mkPartition "/dev/sda1" "/" "ext4"; mkPartition "tmpfs" "/run" "tmpfs"] in
  let usageOf := λ _, Some (mkUsage 100 40) in
  map fs_Mount (filesystems Linux "/" parts usageOf).1 = ["/"; "/data"] ∧ NoDup (map fs_Device (filesystems Linux "/" parts usageOf).1).
Proof.
  intros parts usageOf. split; [vm_compute; reflexivity|].
  apply (filesystems_spec Linux "/" parts usageOf). intros m u [= <-]. split; discriminate.
Defined.

(** ** Properties: slow filesystems *)
Definition probeInv (p : fsProbe) : Prop := NoDup (fp_calls p) ∧ ∀ k, k ∈ fp_calls p ↔ k ∈ fp_running p.
Lemma probe_return p key l1 l2 usages parts : probeInv p → fp_calls p = l1 ++ key :: l2 →
  probeInv (mkFsProbe (fp_running p ∖ {[key]}) usages parts (l1 ++ l2)).
Proof.
  intros [Hn Hk] E. rewrite E in Hn. apply NoDup_app in Hn as (H1 & H12 & H2). apply NoDup_cons in H2 as [Hk2 H2]. split; cbn.
  - apply NoDup_app. split_and!; [done| |done]. intros x Hx Hx2. apply (H12 x Hx). by constructor.
  - intros k. rewrite elem_of_difference, <-Hk, E, !elem_of_app, elem_of_cons, elem_of_singleton.
    assert (key ∉ l1) by (intros Hx; apply (H12 _ Hx); constructor). split; [|naive_solver].
    intros [Hx|Hx]; (split; [auto|]); intros ->; done.
Qed.
Lemma probeStep_inv p p' : probeStep p p' → probeInv p → probeInv p'.
Proof.
  intros Hs Hi. destruct Hs as [p key _|p key Hk|p parts l1 l2 E|p mount u l1 l2 E|p keep].
  - done.
  - destruct Hi as [Hn Hc]. split; cbn.
    + apply NoDup_cons. split; [by rewrite Hc|done].
    + intros k. rewrite elem_of_cons, elem_of_union, elem_of_singleton, Hc. done.
  - by apply probe_return.
  - by apply probe_return.
  - done.
Qed.

(** A filesystem that hangs is asked once: in every interleaving of samples and calls that return late, at most one
    call for each mount point (and one for the list) is under way, and a call is marked as running
    exactly while it is, so a mount that comes back is read again. *)
Theorem probe_single_flight (p : fsProbe) (Hreach : rtc probeStep newFSProbe p) :
  NoDup (fp_calls p) ∧ (∀ k, k ∈ fp_calls p ↔ k ∈ fp_running p).
Proof.
  assert (Hgen : ∀ q q', rtc probeStep q q' → probeInv q → probeInv q').
  { induction 1 as [|a b c Hab _ IH]; [done|]. intros Ha. apply IH. by eapply probeStep_inv. }
  apply (Hgen _ _ Hreach). split; cbn; [apply NoDup_nil_2|set_solver].
Qed.
Lemma probe_single_flight_witness :
  let p := mkFsProbe {["usage:/mnt"]} ∅ [] ["usage:/mnt"] in
  rtc probeStep newFSProbe p ∧ NoDup (fp_calls p).
Proof.
  intros p. assert (Hr : rtc probeStep newFSProbe p).
  { eapply rtc_l; [apply (probe_start newFSProbe "usage:/mnt"); set_solver|]. unfold newFSProbe. cbn. rewrite union_empty_r_L. apply rtc_refl. }
  split; [exact Hr|]. apply (probe_single_flight p Hr).
Defined.

(** ** Numbers: properties *)
Lemma SFcompare_anti x y : SFcompare y x = CompOpp <$> SFcompare x y.
Proof.
  destruct x as [[]|[]| |[] m1 e1], y as [[]|[]| |[] m2 e2]; try done; cbn.
  all: rewrite (Z.compare_antisym e1 e2); destruct (e1 ?= e2); cbn; try done.
  all: change (Pos.compare_cont Eq m2 m1) with (Pos.compare m2 m1); change (Pos.compare_cont Eq m1 m2) with (Pos.compare m1 m2).
  all: rewrite (Pos.compare_antisym m1 m2); by destruct (Pos.compare m1 m2).
Qed.
Lemma fmin_le x y : flt x (fmin x y) = false.
Proof.
  unfold fmin, flt. assert (Hr : ∀ x, SFltb x x = false).
  { intros z. unfold SFltb. pose proof (SFcompare_anti z z) as E. by destruct (SFcompare z z) as [[]|]. }
  assert (Ha : SFltb y x = true → SFltb x y = false).
  { unfold SFltb. rewrite (SFcompare_anti x y). by destruct (SFcompare x y) as [[]|]. }
  destruct x, y; try apply Hr; try done; destruct (SFltb _ _) eqn:E; auto.
Qed.
(** The busy share is never above 100 percent, nor is a battery's charge. *)
Lemma cpuBusy_max os a b : flt (ofInt 100) (cpuBusy os a b) = false.
Proof. unfold cpuBusy. destruct (_ || _); [reflexivity|apply fmin_le]. Qed.

(** Batteries: on every system the charge is never above 100 percent, and the state is one the protocol knows. *)
Definition batteryOk (b : Battery) : Prop :=
  flt (ofInt 100) (bt_Percent b) = false ∧ bt_State b ∈ ["charging"; "discharging"; "idle"].
Lemma batteryFrom_ok parse dirs b : batteryFrom parse dirs = Some b → batteryOk b.
Proof.
  unfold batteryFrom. assert (Hst : ∀ l acc, ba_state acc ∈ ["charging"; "discharging"; "idle"] →
    ba_state (foldl (batteryStep parse) acc l) ∈ ["charging"; "discharging"; "idle"]).
  { induction l as [|d l IH]; intros acc Ha; cbn; [done|]. apply IH. unfold batteryStep.
    destruct (_ || _); [done|]. destruct (parse (d "capacity")); [|done]. cbn. repeat case_match; set_solver. }
  destruct (SFeqb _ _); [done|]. intros <-%(inj Some). split; [apply fmin_le|apply Hst; set_solver].
Qed.
Lemma batteryDarwin_ok l b : batteryDarwin l = Some b → batteryOk b.
Proof.
  unfold batteryDarwin. destruct l as [l|]; [|done]. cbn [mbind option_bind]. destruct (_ =? 0); [done|]. intros <-%(inj Some).
  split; [apply fmin_le|]. cbn [bt_State]. repeat case_match; set_solver.
Qed.

(** ** Finding: an error while reading the counters makes the next rate a spike

    [netCounters] answers zeros when the counters cannot be read, and [Sample] keeps them as the
    baseline: the next sample reports every byte since the machine started as if it had just been sent. *)
Definition spikeReadings (now : Z) (net : option (list (string * (Z * Z)))) : readings :=
  mkReadings now None None None net None None 0 None [] (λ _, None) [].
Lemma counter_error_spike :
  let counters := Some [("eth0", (1000000000, 1000000000))] in
  let c0 := newCollector Linux "" (λ _, true) (spikeReadings (seconds 1000) counters) in
  let c1 := (Sample Linux (λ _, true) (spikeReadings (seconds 1001) None) c0).2 in
  let m := (Sample Linux (λ _, true) (spikeReadings (seconds 1002) counters) c1).1 in
  me_NetRx m = ofInt 1000000000.
Proof. vm_compute. reflexivity. Qed.
