(* ===== verification/HubStart.v ===== *)
(** * Starting and stopping the hub ([ConfigFromEnv], [openData], [New] and [Run] of [internal/hub/hub.go],
    [loadUpdates] and [openAgentBinary] of [agentupdate.go])

    The data of a hub on its machine: the files ([host]), and the database as [Migrations] sees it, with the
    tables as contents. *)
From Stdlib Require Import ZArith Lia Ascii String.
From S2P Require Import Prelude GoStrings Float64 Library Version Paths Migrations Store StoreTables StoreInv Metrics Update Proxy Protocol Hub Alerts State Gateway Runs Maintenance Host AgentConfig AgentState AgentUpdate AgentCommand Sign.
From stdpp Require Import base gmap strings list.
Local Open Scope string_scope.
Local Open Scope list_scope.
Local Open Scope Z_scope.
Local Open Scope lotse_scope.

(** ** Configuration *)
(** [Config] as the environment gives it; [Hub.Config] is the part the handlers use. *)
Record hubConfig := mkHubConfig {
  hc_Addr : string; hc_DataDir : string; hc_PublicURL : string; hc_AgentDir : string; hc_TrustedProxies : string;
}.
Definition ConfigFromEnv (getenv : string → string) : hubConfig :=
  let env key def := if negb (String.eqb (getenv key) "") then getenv key else def in
  mkHubConfig (env "HUB_ADDR" ":8090") (env "HUB_DATA_DIR" "./data") (TrimSuffix (getenv "HUB_URL") "/")
    (env "HUB_AGENT_DIR" "./dist/agents") (getenv "HUB_TRUSTED_PROXIES").

Record disk := mkDisk { dk_host : host; dk_db : dbFile (C := store) }.
Definition onFiles {A} (m : M host A) : M disk A := λ d,
  let '(a, h) := m (dk_host d) in (a, mkDisk h (dk_db d)).
Definition onDbFile {A} (m : M (dbFile (C := store)) A) : M disk A := λ d,
  let '(a, f) := m (dk_db d) in (a, mkDisk (dk_host d) f).
Definition with_updates (x : gmap string Manifest) (h : hub) : hub :=
  mkHub (h_m h) (h_cfg h) (h_limiter h) (h_totpUsed h) (h_challenges h) (h_conns h) (h_alerts h) (h_agents h) (h_states h) (h_runs h) (h_subs h) (h_live h) (h_idleTimer h) x (h_replies h) (h_trace h).

Section start.
Context `{Lib} `{Ssh} `{Marshal} `{!Unmarshal Manifest} `{!Unmarshal (list runTarget)}.
Context (migrations : list (store → string + store)) (targetsSummary : string → string).
(** [gzip.NewReader], up to its header; whether an error is [fs.ErrPermission]; the process's IDs; the
    text of an error of the database. *)
Context (gunzip : string → option string) (denied : string → bool) (uid gid : Z) (errorText : error → string).

Definition permissionHint (dir err : string) : string :=
  if negb (denied err) then err else
  err +:+ NL +:+ NL +:+ "The hub runs as user " +:+ itoa uid +:+ " and cannot write to " +:+ dir
  +:+ ". Either start the container as root (the image default), so it can take over the folder itself, or run on the host:"
  +:+ NL +:+ "  chown -R " +:+ itoa uid +:+ ":" +:+ itoa gid +:+ " <the folder mounted at " +:+ dir +:+ ">".
Definition hubKeyPath (c : hubConfig) : string := pathJoin [hc_DataDir c; "hub_ed25519"].
(** The tables and the hub's key, or the error. *)
Definition openData (c : hubConfig) : M disk (result string (store * string)) :=
  made ← onFiles (osMkdirAll (hc_DataDir c));
  match made with
  | Err e => mret (Err (permissionHint (hc_DataDir c) (osMsg e)))
  | Ok _ =>
    signer ← onFiles (LoadOrCreate (hubKeyPath c));
    match signer with
    | Err e => mret (Err (permissionHint (hc_DataDir c) ("hub key: " +:+ e)))
    | Ok key =>
      opened ← onDbFile (Open migrations);
      match opened with
      | Some e => mret (Err ("database: " +:+ e))
      | None => f ← mgets dk_db; mret (Ok (fi_contents f, key))
      end
    end
  end.

(** ** Signed agent updates *)
Definition openAgentBinary (dir name : string) : M host (result string string) :=
  let file := pathJoin [dir; name] in
  packed ← osReadFile (file +:+ ".gz");
  match packed with
  | Ok data => mret (match gunzip data with Some c => Ok c | None => Err "gzip: invalid header" end)
  | Err _ => plain ← osReadFile file; mret (match plain with Ok c => Ok c | Err e => Err (osMsg e) end)
  end.
Definition is_ok_manifest (m : Manifest) (base : string) : bool :=
  is_ok (Verify m) && String.eqb (mf_File m +:+ ManifestExt) base.
(** The loop of [loadUpdates] over the manifests: what each holds, and whether its binary is there. *)
Fixpoint readManifests (dir : string) (names : list string) : M host (list (string * option Manifest * bool)) :=
  match names with
  | [] => mret []
  | name :: rest =>
    m ← ReadManifest (pathJoin [dir; name]);
    entry ← (match m with
             | Err _ => mret (name, None, false)
             | Ok m => if is_ok_manifest m name
                       then bin ← openAgentBinary dir (mf_File m); mret (name, Some m, is_ok bin)
                       else mret (name, Some m, false)
             end);
    tail ← readManifests dir rest;
    mret (entry :: tail)
  end.
(** [filepath.Glob] of the manifests in a folder whose name is no pattern itself. *)
Definition manifestFiles (dir : string) : M host (list string) :=
  r ← osReadDir dir;
  mret (match r with Ok l => selectWhere (λ name, HasSuffix name ManifestExt) l | Err _ => [] end).
Definition loadAgentUpdates (dir : string) : M host (gmap string Manifest) :=
  names ← manifestFiles dir;
  files ← readManifests dir names;
  mret (loadUpdates files).

(** ** [New]: the hub and its key, or the error; the tables stay in the file. *)
Definition New (c : hubConfig) (e : env) : M disk (result string (hub * string)) :=
  match parseProxies (hc_TrustedProxies c) with
  | Err x => mret (Err ("HUB_TRUSTED_PROXIES: " +:+ x))
  | Ok proxies =>
    data ← openData c;
    match data with
    | Err x => mret (Err x)
    | Ok (tables, key) =>
      let h0 := newHub (Hub.mkConfig (hc_PublicURL c) proxies) ∅ (mkMach tables e) in
      let '(r1, h1) := loadAlerts h0 in
      match r1 with
      | Err x => mret (Err ("loading alerts: " +:+ errorText x))
      | Ok _ =>
        let '(r2, h2) := finishInterruptedRuns targetsSummary h1 in
        mmodify (λ d, mkDisk (dk_host d) (mkDbFile (fi_version (dk_db d)) (m_db (h_m h2)) (fi_faults (dk_db d))));;
        match r2 with
        | Err x => mret (Err ("closing interrupted script runs: " +:+ errorText x))
        | Ok _ => ups ← onFiles (loadAgentUpdates (hc_AgentDir c)); mret (Ok (with_updates ups h2, key))
        end
      end
    end
  end.

(** ** [Run], once the server listens *)
(** [stopRuns] cancels every run. What the runs, and the links in [waitAgents], still do until they end or the hub stops
    waiting for them is [waiting] below. *)
Definition stopRuns : M hub unit := mmodify (λ h, with_runs (cancelRun <$> h_runs h) h).
(** [failed] is the server's error, which ends [Run] at once. *)
Definition hubRun (order : gmap Z sysState → list Z) (failed : option string) (waiting : M hub unit) : M hub (option string) :=
  match failed with
  | Some e => mret (Some e)
  | None => stopRuns;; waiting;; flush order true;; mret None
  end.
End start.

(** ** A start is sound *)
Section start_props.
Context `{Lib} `{Ssh} `{!SshLaws} `{Marshal} `{!Unmarshal Manifest} `{!Unmarshal (list runTarget)}.
Context (migrations : list (store → string + store)) (targetsSummary : string → string).
Context (gunzip : string → option string) (denied : string → bool) (uid gid : Z) (errorText : error → string).
Implicit Types (h : host) (d : disk) (c : hubConfig).

Lemma wp_onFiles {A} (m : M host A) (Q : A → disk → Prop) d :
  wp m (λ a h, Q a (mkDisk h (dk_db d))) (dk_host d) → wp (onFiles m) Q d.
Proof. unfold wp, onFiles. by destruct (m (dk_host d)). Qed.
Lemma wp_onDbFile {A} (m : M dbFile A) (Q : A → disk → Prop) d :
  wp m (λ a f, Q a (mkDisk (dk_host d) f)) (dk_db d) → wp (onDbFile m) Q d.
Proof. unfold wp, onDbFile. by destruct (m (dk_db d)). Qed.

(** An update is offered with its manifest in the folder, validly signed and named after its file, and a binary. *)
Definition binaryThere (dir name : string) h : Prop :=
  let file := pathJoin [dir; name] in
  is_Some (ho_files h !! file) ∨ ∃ data, ho_files h !! (file +:+ ".gz") = Some data ∧ is_Some (gunzip data).
Definition offered (dir name : string) (m : Manifest) h : Prop :=
  Verify m = Ok tt ∧ mf_File m = name ∧ binaryThere dir name h
  ∧ ∃ data, ho_files h !! pathJoin [dir; name +:+ ManifestExt] = Some data ∧ unmarshal data = (m, true).
Lemma offered_same dir name m h h' : ho_files h' = ho_files h → offered dir name m h → offered dir name m h'.
Proof. unfold offered, binaryThere. by intros ->. Qed.

Lemma wp_openAgentBinary dir name (Q : result string string → host → Prop) h :
  (∀ r h', sameButFaults h h' → (is_ok r = true → binaryThere dir name h) → Q r h') → wp (openAgentBinary gunzip dir name) Q h.
Proof.
  intros HQ. unfold openAgentBinary. apply wp_bind, wp_osReadFile.
  - intros e h1 Hs _ _. apply wp_bind, wp_osReadFile.
    + intros e2 h2 Hs2 _ _. apply wp_ret, HQ; [by eapply sameButFaults_trans|done].
    + intros x h2 Hs2 Hx. apply wp_ret, HQ; [by eapply sameButFaults_trans|]. intros _. left.
      destruct (sameButFaults_spec _ _ Hs) as [<- _]. by rewrite Hx.
  - intros x h1 Hs Hx. apply wp_ret, HQ; [done|]. destruct (gunzip x) eqn:E; [|done]. intros _. right. by exists x.
Qed.
Lemma wp_ReadManifest path (Q : result string Manifest → host → Prop) h :
  (∀ r h', sameButFaults h h' → (∀ m, r = Ok m → ∃ data, ho_files h !! path = Some data ∧ unmarshal data = (m, true)) → Q r h') →
  wp (ReadManifest path) Q h.
Proof.
  intros HQ. unfold ReadManifest. apply wp_bind, wp_osReadFile; [intros e h1 Hs _ _; by apply wp_ret, HQ|].
  intros x h1 Hs Hx. apply wp_ret, HQ; [done|]. intros m. destruct (unmarshal x) as [m' []] eqn:E; [|done]. intros [= ->]. by exists x.
Qed.
(** Every entry that [loadUpdates] will take is a good one. *)
Definition goodEntry (dir : string) h (x : string * option Manifest * bool) : Prop :=
  ∀ m, x.1.2 = Some m → is_ok_manifest m x.1.1 = true → x.2 = true → offered dir (mf_File m) m h.
Lemma wp_readManifests dir names h :
  wp (readManifests gunzip dir names) (λ l h', sameButFaults h h' ∧ Forall (goodEntry dir h) l) h.
Proof.
  revert h. induction names as [|name names IH]; intros h; cbn [readManifests].
  { apply wp_ret. split; [by exists (ho_faults h); destruct h|constructor]. }
  apply wp_bind, wp_ReadManifest. intros r h1 Hs1 Hr. apply wp_bind.
  assert (Hnext : ∀ h2 x, sameButFaults h h2 → goodEntry dir h x →
    wp (tail ← readManifests gunzip dir names; mret (x :: tail)) (λ l h', sameButFaults h h' ∧ Forall (goodEntry dir h) l) h2).
  { intros h2 x Hs2 Hx. apply wp_bind. eapply wp_mono; [apply IH|]. intros l h3 [Hs3 Hl]. apply wp_ret.
    split; [by eapply sameButFaults_trans|]. constructor; [done|]. eapply Forall_impl; [exact Hl|]. intros y Hy m Hm Hok Hb.
    eapply offered_same; [symmetry; apply (sameButFaults_spec _ _ Hs2)|]. by apply Hy. }
  destruct r as [m|e]; [|by apply wp_ret, Hnext]. destruct (is_ok_manifest m name) eqn:Eok.
  - apply wp_bind, wp_openAgentBinary. intros b h2 Hs2 Hb. apply wp_ret, Hnext; [by eapply sameButFaults_trans|].
    intros m' [= <-] _ Hbin. cbn in Hbin. unfold is_ok_manifest in Eok. bool_hyps. destruct (Hr m eq_refl) as (data & Hd & Hu).
    destruct (sameButFaults_spec _ _ Hs1) as [Ef _].
    split_and!; [by destruct (Verify m) as [[]|]|done| |by subst name; exists data].
    specialize (Hb Hbin). unfold binaryThere in *. by rewrite <-Ef.
  - apply wp_ret, Hnext; [done|]. intros m' _ _ [=].
Qed.
Lemma loadUpdates_good dir h files : Forall (goodEntry dir h) files →
  ∀ name m, loadUpdates files !! name = Some m → offered dir name m h.
Proof.
  unfold loadUpdates. assert (Hfold : ∀ acc : gmap string Manifest, (∀ name m, acc !! name = Some m → offered dir name m h) → Forall (goodEntry dir h) files →
    ∀ name m, fold_left (λ acc f, let '(base, m, binary) := f in
      match m with
      | Some m => if match Verify m with Ok _ => true | Err _ => false end && String.eqb (mf_File m +:+ ManifestExt) base && (binary : bool)
                  then <[mf_File m := m]> acc else acc
      | None => acc
      end) files acc !! name = Some m → offered dir name m h).
  { induction files as [|[[base o] b] files IH]; intros acc Hacc Hall name m; cbn [fold_left]; [apply Hacc|].
    apply Forall_cons in Hall as [Hx Hall]. apply IH; [|done]. destruct o as [m0|]; [|done].
    destruct (_ && b) eqn:E; [|done]. intros n x Hn. apply lookup_insert_Some in Hn as [[<- <-]|[_ ?]]; [|by apply Hacc].
    apply andb_true_iff in E as [Ev Eb]. by apply Hx. }
  intros Hall. apply Hfold; [|done]. intros name m Hn. by rewrite lookup_empty in Hn.
Qed.
Lemma wp_loadAgentUpdates dir h :
  wp (loadAgentUpdates gunzip dir) (λ ups h', sameButFaults h h' ∧ ∀ name m, ups !! name = Some m → offered dir name m h') h.
Proof.
  unfold loadAgentUpdates, manifestFiles. apply wp_bind, wp_bind.
  eapply (wp_mono _ (λ _ h1, sameButFaults h h1)); [apply wp_osReadDir; intros; done|].
  intros r h1 Hs1. apply wp_ret, wp_bind. eapply wp_mono; [apply wp_readManifests|]. intros l h2 [Hs2 Hl]. apply wp_ret.
  split; [by eapply sameButFaults_trans|]. intros name m Hm. eapply offered_same; [apply (sameButFaults_spec _ _ Hs2)|].
  by eapply loadUpdates_good.
Qed.

(** *** The hub's key *)
Lemma wp_LoadOrCreate_existing path data h : ho_files h !! path = Some data →
  wp (LoadOrCreate path) (λ _ h', ho_files h' = ho_files h) h.
Proof.
  intros Hd. unfold LoadOrCreate. apply wp_bind, wp_osReadFile; [|intros x h1 Hs _; apply wp_ret; apply (sameButFaults_spec _ _ Hs)].
  intros e h1 Hs _ Hne. destruct (isNotExist e); [by rewrite Hne in Hd|]. apply wp_ret, (sameButFaults_spec _ _ Hs).
Qed.
Lemma LoadOrCreate_works path h : ho_faults h = [] → ho_files h !! Dir path = None →
  (∀ data, ho_files h !! path = Some data → is_Some (ParsePrivateKey data)) →
  is_ok (LoadOrCreate path h).1 = true ∧ ho_faults (LoadOrCreate path h).2 = [].
Proof.
  intros Hf Hdir Hkey. unfold LoadOrCreate, mbind, M_bind. rewrite osReadFile_run by done.
  destruct (ho_files h !! path) as [data|] eqn:E; [by destruct (Hkey data eq_refl) as [k ->]|].
  cbn [isNotExist noSuchFile negb]. destruct (randSeed h) as [seed h1] eqn:Er.
  assert (Hr : ho_files h1 = ho_files h ∧ ho_faults h1 = []) by (unfold randSeed, mstate in Er; destruct (ho_rand h); injection Er as _ <-; done).
  destruct Hr as [Ef1 Hf1]. unfold osMkdirAll, fault, mbind, M_bind, mstate. rewrite Hf1, Ef1, Hdir.
  assert (Hwrite : ∀ h2, ho_faults h2 = [] → wp (w ← osWriteFile (path +:+ ".tmp") (keyPEM seed);
      match w with
      | Err e => mret (Err (osMsg e))
      | Ok _ => r ← osRename (path +:+ ".tmp") path; match r with Err e => mret (Err (osMsg e)) | Ok _ => mret (Ok (keyPublic seed)) end
      end) (λ r h', is_ok r = true ∧ ho_faults h' = []) h2).
  { intros h2 Hf2. unfold wp, mbind, M_bind. rewrite osWriteFile_run by done. cbn beta iota. unfold osRename, fault, mbind, M_bind, mstate. cbn.
    rewrite Hf2. cbn. by rewrite lookup_insert_eq. }
  destruct (ho_dirs h1 !! Dir path); [exact (Hwrite h1 Hf1)|exact (Hwrite (with_dirs (<[Dir path:=true]> (ho_dirs h1)) h1) Hf1)].
Qed.

(** *** The database *)
Abbreviation tables h := (m_db (h_m h)).
Lemma wp_loadAlerts (x : hub) :
  wp loadAlerts (λ r x', tables x' = tables x ∧ (noFaults (h_m x) → r = Ok tt ∧ noFaults (h_m x'))) x.
Proof.
  unfold loadAlerts, AlertRules, ActiveAlerts. apply wp_bind, wp_db, wp_query_cases; [|intros m Hm Hn; by apply wp_ret].
  intros m1 Hm1 Hn1. apply wp_bind, wp_db, wp_query_cases; [|intros m Hm Hn; apply wp_ret; cbn in *; split; [congruence|by intros ?%Hn1]].
  intros m2 Hm2 Hn2. apply wp_bind, wp_modify, wp_ret. cbn in *. split; [congruence|auto].
Qed.
Definition finished (x : runRow) : Prop := is_Some (sn_FinishedAt (rr_run x)).
Lemma runs_set l (x : store) : script_runs (set_script_runs l x) = l.
Proof. by destruct x. Qed.
Lemma wp_interruptRuns recs (x : hub) :
  (∀ row, row ∈ script_runs (tables x) → finished row ∨ ∃ rec, rec ∈ recs ∧ sn_ID rec = rr_ID row) →
  wp (interruptRuns targetsSummary recs) (λ r x', (r = Ok tt → Forall finished (script_runs (tables x')))
    ∧ (noFaults (h_m x) → r = Ok tt)) x.
Proof.
  revert x. induction recs as [|rec recs IH]; intros x Hrows; cbn [interruptRuns].
  { apply wp_ret. split; [|done]. intros _. apply Forall_forall. intros row Hrow. destruct (Hrows row Hrow) as [?|(? & Hin & _)]; [done|].
    by apply not_elem_of_nil in Hin. }
  unfold FinishRun. apply wp_bind, wp_db, wp_sql_cases; [|intros m Hm Hn; by apply wp_ret].
  intros m Hm Hn. cbn [fst]. eapply wp_mono; [apply IH|].
  - cbn [h_m with_m]. rewrite Hm. cbn [snd]. rewrite runs_set. intros row. rewrite elem_of_updateWhere. intros (y & Hy & ->). destruct (rr_ID y =? sn_ID rec) eqn:E; [left; by eexists|].
    destruct (Hrows y Hy) as [?|(rec' & [->|Hin]%elem_of_cons & Hid)]; [by left| |right; by exists rec'].
    apply Z.eqb_neq in E. congruence.
  - intros r x' [Hok Hgo]. split; [done|]. intros Hf. apply Hgo. cbn. by apply Hn.
Qed.
Lemma wp_finishInterruptedRuns (x : hub) :
  wp (finishInterruptedRuns targetsSummary) (λ r x', (r = Ok tt → Forall finished (script_runs (tables x')))
    ∧ (noFaults (h_m x) → r = Ok tt)) x.
Proof.
  unfold finishInterruptedRuns, UnfinishedRuns. apply wp_bind, wp_db, wp_query_cases; [|intros m Hm Hn; by apply wp_ret].
  intros m Hm Hn. eapply wp_mono; [apply wp_interruptRuns|].
  - cbn. rewrite Hm. intros row Hrow. destruct (sn_FinishedAt (rr_run row)) eqn:E; [left; unfold finished; by rewrite E|].
    right. exists (rr_run row). split; [|done]. apply list_elem_of_fmap. exists row. split; [done|].
    apply elem_of_selectWhere. split; [done|]. by apply bool_decide_eq_true.
  - intros r x' [Hok Hgo]. split; [done|]. intros Hf. apply Hgo. cbn. by apply Hn.
Qed.

(** *** The whole start *)
Abbreviation keyFiles c := [hubKeyPath c; hubKeyPath c +:+ ".tmp"].
(** The key is in its file; one that was there is the same. *)
Definition keyOf c d (key : string) d' : Prop :=
  ∃ data, ho_files (dk_host d') !! hubKeyPath c = Some data ∧ ParsePrivateKey data = Some key
    ∧ ∀ data0, ho_files (dk_host d) !! hubKeyPath c = Some data0 → data = data0.
Definition disksWork c d : Prop :=
  ho_faults (dk_host d) = [] ∧ fi_faults (dk_db d) = []
  ∧ ho_files (dk_host d) !! hc_DataDir c = None ∧ ho_files (dk_host d) !! Dir (hubKeyPath c) = None
  ∧ (∀ data, ho_files (dk_host d) !! hubKeyPath c = Some data → is_Some (ParsePrivateKey data))
  ∧ is_Some (foldl applyNext (Some (fi_contents (dk_db d))) (drop (fi_version (dk_db d)) migrations)).
Definition dataPost c d (r : result string (store * string)) d' : Prop :=
  filesKept (keyFiles c) (dk_host d) (dk_host d')
  ∧ (∀ t key, r = Ok (t, key) → keyOf c d key d' ∧ fi_version (dk_db d') = length migrations ∧ fi_contents (dk_db d') = t)
  ∧ (disksWork c d → is_ok r = true).
Lemma wp_mkDataDir dir h : wp (osMkdirAll dir) (λ r h', ho_files h' = ho_files h ∧ ho_trace h' = ho_trace h
  ∧ (ho_faults h = [] → ho_faults h' = []) ∧ (ho_faults h = [] → ho_files h !! dir = None → is_ok r = true)) h.
Proof.
  unfold osMkdirAll. apply wp_bind, wp_fault.
  - intros h' (Ef & Ed & _ & Et & Ha)%sameButFaults_spec. unfold wp, mstate. rewrite Ef. destruct (ho_files h !! dir) eqn:E; [by split_and!|].
    destruct (ho_dirs h' !! dir); by split_and!.
  - intros n h' Hf (Ef & Ed & _ & Et & Ha)%sameButFaults_spec. apply wp_ret. by split_and!.
Qed.
Lemma wp_openData c d : (fi_version (dk_db d) ≤ length migrations)%nat →
  wp (openData migrations denied uid gid c) (dataPost c d) d.
Proof.
  intros Hv. destruct d as [h f]. unfold openData. apply wp_bind, wp_onFiles. eapply wp_mono; [apply wp_mkDataDir|].
  intros r h1 (Ef1 & Et1 & Ha1 & Hok1). cbn [dk_db dk_host] in *.
  assert (Hk1 : filesKept (keyFiles c) h h1) by (split; [intros; by rewrite Ef1|done]).
  destruct r as [u|e]; [|apply wp_ret; split_and!; [done|done|]; intros (Hf & _ & Hd & _); by specialize (Hok1 Hf Hd)].
  apply wp_bind, wp_onFiles. cbn [dk_db dk_host].
  pose proof (wp_LoadOrCreate (hubKeyPath c) h1) as Hkey. pose proof (steps_LoadOrCreate (hubKeyPath c) h1) as Hk2.
  assert (Hsame : ∀ data0, ho_files h !! hubKeyPath c = Some data0 → ho_files (LoadOrCreate (hubKeyPath c) h1).2 = ho_files h1).
  { intros data0 Hd0. rewrite <-Ef1 in Hd0. exact (wp_LoadOrCreate_existing _ _ _ Hd0). }
  assert (Hworks : disksWork c (mkDisk h f) → is_ok (LoadOrCreate (hubKeyPath c) h1).1 = true).
  { intros (Hf & _ & _ & Hd & Hgood & _). apply LoadOrCreate_works; rewrite ?Ef1; auto. }
  unfold wp in Hkey |- *. destruct (LoadOrCreate (hubKeyPath c) h1) as [k h2]. cbn [fst snd] in *.
  assert (Hk : filesKept (keyFiles c) h h2) by (etrans; [exact Hk1|exact Hk2]).
  destruct k as [key|e]; [|split_and!; [done|done|by intros Hw%Hworks]].
  destruct (Hkey key eq_refl) as (data & Hd & Hp).
  assert (Hkeyof : ∀ g, keyOf c (mkDisk h f) key (mkDisk h2 g)).
  { intros g. exists data. split_and!; [done|done|]. cbn. intros data0 Hd0. rewrite (Hsame _ Hd0), Ef1 in Hd. congruence. }
  apply wp_bind, wp_onDbFile. eapply wp_mono; [apply Open_ran|]. cbn [dk_db dk_host]. intros o f' [(n & (Hv' & Hn & Hc) & Hall) Hgo].
  destruct o as [e|]; [apply wp_ret; split_and!; [done|done|]; intros (_ & Hf & _ & _ & _ & Hm); by specialize (Hgo Hf Hm)|].
  apply wp_bind, wp_gets, wp_ret. split_and!; [done| |done]. intros t k' [= <- <-]. split_and!; [done| |done].
  cbn. rewrite length_drop in Hall. rewrite Hv', (Hall eq_refl). lia.
Qed.

Definition startPost c d (r : result string (hub * string)) d' : Prop :=
  filesKept (keyFiles c) (dk_host d) (dk_host d')
  ∧ ∀ x key, r = Ok (x, key) →
      keyOf c d key d'
      ∧ fi_version (dk_db d') = length migrations ∧ fi_contents (dk_db d') = tables x
      ∧ Forall finished (script_runs (tables x))
      ∧ ∀ name m, h_updates x !! name = Some m → offered (hc_AgentDir c) name m (dk_host d').

Definition startWorks c (e : env) d (r : result string (hub * string)) : Prop :=
  is_ok (parseProxies (hc_TrustedProxies c)) = true → disksWork c d → e_faults e = [] → is_ok r = true.
Lemma wp_New c e d : (fi_version (dk_db d) ≤ length migrations)%nat →
  wp (New migrations targetsSummary gunzip denied uid gid errorText c e) (λ r d', startPost c d r d' ∧ startWorks c e d r) d.
Proof.
  intros Hv. unfold startWorks, New. destruct (parseProxies _) as [proxies|x] eqn:Ep; [|apply wp_ret; by split].
  apply wp_bind. eapply wp_mono; [by apply wp_openData|]. intros r d1 (Hk & Hdata & Hworks).
  destruct r as [[t key]|x]; [|apply wp_ret; split; [split; [done|done]|by intros _ ?%Hworks]].
  destruct (Hdata t key eq_refl) as (Hkey & Hver & Ht). set (h0 := newHub _ _ _).
  pose proof (wp_loadAlerts h0) as Hl. unfold wp in Hl. destruct (loadAlerts h0) as [r1 h1]. cbn [fst snd] in Hl. destruct Hl as [Ht1 Hl].
  destruct r1 as [u1|x]; [|apply wp_ret; split; [split; [done|done]|]; intros _ _ Hf; by destruct (Hl Hf)].
  pose proof (wp_finishInterruptedRuns h1) as Hr. unfold wp in Hr. destruct (finishInterruptedRuns targetsSummary h1) as [r2 h2].
  cbn [fst snd] in Hr. destruct Hr as [Hfin Hr]. apply wp_bind, wp_modify.
  destruct r2 as [[]|x]; [|apply wp_ret; split; [split; [done|done]|]; intros _ _ Hf; destruct (Hl Hf) as [_ Hf1]; by specialize (Hr Hf1)].
  apply wp_bind, wp_onFiles. cbn [dk_db dk_host]. eapply wp_mono; [apply wp_loadAgentUpdates|]. intros ups h3 [Hs Hups]. apply wp_ret.
  split; [|done]. split; [etrans; [exact Hk|]; cbn; eauto with host|]. intros x k [= <- <-]. cbn [dk_db dk_host fi_version fi_contents].
  split_and!; [|done|done|by apply Hfin|done]. destruct Hkey as (data & Hd & Hp & Hsame). exists data. cbn.
  by destruct (sameButFaults_spec _ _ Hs) as [-> _].
Qed.
(** C25. A start of the hub is sound. When it succeeds, every migration has been applied; the hub has the
    key of its key file, which it creates only when there is none, so agents that pinned the key accept it after every
    restart; no script run is left unfinished; and only such updates are offered whose manifest in the folder has a valid
    signature and describes the file it is named after, and whose binary is there. No file but the key is touched. And when
    nothing fails, the proxies are valid and the key file, if there, holds a key, it does succeed. *)
Theorem start_sound (c : hubConfig) (e : env) (d : disk) (Hv : (fi_version (dk_db d) ≤ length migrations)%nat) :
  let '(r, d') := New migrations targetsSummary gunzip denied uid gid errorText c e d in
  startPost c d r d'
  ∧ (is_ok (parseProxies (hc_TrustedProxies c)) = true → disksWork c d → e_faults e = [] → is_ok r = true).
Proof. by apply wp_let, wp_New. Qed.
End start_props.

(** ** A clean stop loses nothing *)
Section stop_props.
Context `{Lib} `{Marshal} (formatPct formatNum : f64 → string).
Implicit Types (h : hub).
Abbreviation tables h := (m_db (h_m h)).

(** The systems stay the same ones. *)
Abbreviation sameSystems := (frames (λ d : store, map sy_ID (systems d))).
Lemma knownSystem_same id h h' : onHub sameSystems h h' → knownSystem id h → knownSystem id h'.
Proof.
  unfold onHub, frames, knownSystem, systemExists, existsWhere. intros E.
  assert (Hl : ∀ l l' : list System, map sy_ID l' = map sy_ID l → existsb (λ x, sy_ID x =? id) l = existsb (λ x, sy_ID x =? id) l').
  { induction l as [|x l IH]; intros [|y l'] El; try done. cbn in *. injection El as -> El. by rewrite (IH l' El). }
  intros Hk. by rewrite <-(Hl _ _ E).
Qed.
Lemma steps_flushState_systems id force : steps (onHub sameSystems) (flushState id force).
Proof.
  unfold flushState, writeBucket, InsertMetrics, UpdateLastSeen, putState. go_steps.
  all: try (by apply steps_modify).
  all: apply steps_db; go_steps.
  all: try (apply steps_timeNow; apply _).
  all: apply steps_sql; [apply _|intros db0].
  all: unfold insertMetric, updateSystems, frames.
  all: try (case_match; [done|by destruct db0]).
  all: destruct db0; cbn; apply map_updateWhere; by intros [].
Qed.

Definition saved (id : Z) h h' : Prop :=
  let st := stateAt id h in
  st_n (stateAt id h') = 0
  ∧ (st_n st ≠ 0 → metrics (tables h') !! (id, Res1, st_bucketTS st) = Some (average (st_sum st) (st_n st)))
  ∧ (∀ minute, isOpen st minute = false → metrics (tables h') !! (id, Res1, minute) = metrics (tables h) !! (id, Res1, minute)).
Definition untouched (id : Z) h h' : Prop :=
  h_states h' !! id = h_states h !! id ∧ ∀ minute, metrics (tables h') !! (id, Res1, minute) = metrics (tables h) !! (id, Res1, minute).
Lemma wp_flushState_force id h : noFaults (h_m h) → knownSystem id h →
  wp (flushState id true) (λ _ h', noFaults (h_m h') ∧ saved id h h' ∧ ∀ id', id' ≠ id → untouched id' h h') h.
Proof.
  intros Hn Hk. eapply wp_mono; [by apply flush_effect|]. cbn [negb andb]. rewrite orb_false_r. intros _ h' He.
  destruct (st_n (stateAt id h) =? 0) eqn:E.
  - destruct He as (Es & _ & Et & Hn'). apply Z.eqb_eq in E. unfold saved, untouched. rewrite Et, Es. unfold stateAt in *. rewrite Es.
    split_and!; [done|done|done|done|]. by intros.
  - apply Z.eqb_neq in E. pose proof (stateAt_put _ _ _ _ _ He) as Hst. destruct He as (Es & _ & Em & _ & Hn').
    split; [done|]. cbn [takeBucket fst snd storedRow mr_TS mr_Values] in *. split.
    + unfold saved. rewrite Hst, Em. cbn [st_n]. split_and!; [done|by rewrite lookup_insert_eq|].
      intros minute Ho. rewrite lookup_insert_ne; [done|]. intros [= <-]. unfold isOpen in Ho.
      rewrite Z.eqb_refl, andb_true_r in Ho. apply negb_false_iff, Z.eqb_eq in Ho. done.
    + intros id' Hne. unfold untouched. rewrite Es, Em. split; [by rewrite lookup_insert_ne|]. intros minute.
      rewrite lookup_insert_ne; [done|]. congruence.
Qed.
Lemma wp_flushAll_force ids h : NoDup ids → noFaults (h_m h) → (∀ id, id ∈ ids → knownSystem id h) →
  wp (flushAll ids true) (λ _ h', (∀ id, id ∈ ids → saved id h h') ∧ ∀ id, id ∉ ids → untouched id h h') h.
Proof.
  revert h. induction ids as [|x ids IH]; intros h Hnd Hn Hk; cbn [flushAll].
  { apply wp_ret. split; [by intros id Hin%not_elem_of_nil|done]. }
  apply NoDup_cons in Hnd as [Hx Hnd]. apply wp_bind.
  pose proof (steps_flushState_systems x true h) as Hsys. pose proof (wp_flushState_force x h Hn (Hk x ltac:(by left))) as Hf.
  unfold wp in Hf. unfold wp at 1. destruct (flushState x true h) as [u h1]. cbn [fst snd] in *. destruct Hf as (Hn1 & Hs1 & Ho1).
  eapply wp_mono; [apply IH; [done|done|]|].
  { intros id Hid. eapply knownSystem_same; [exact Hsys|]. apply Hk. by right. }
  intros _ h2 [Hs2 Ho2]. split.
  - intros id [->|Hid]%elem_of_cons.
    + destruct (Ho2 x Hx) as [Es Em], Hs1 as (S1 & S2 & S3). unfold saved. unfold stateAt at 1. rewrite Es. fold (stateAt x h1).
      split_and!; [done|intros Hnz; rewrite Em; auto|intros minute Hm; rewrite Em; auto].
    + assert (Hne : id ≠ x) by (by intros ->). destruct (Ho1 id Hne) as [Es Em], (Hs2 id Hid) as (S1 & S2 & S3).
      assert (Est : stateAt id h1 = stateAt id h) by (unfold stateAt; by rewrite Es). rewrite Est in S2, S3.
      split_and!; [done|done|]. intros minute Hm. by rewrite S3, Em.
  - intros id [Hne Hid]%not_elem_of_cons. destruct (Ho1 id Hne) as [Es Em], (Ho2 id Hid) as [Es2 Em2].
    split; [congruence|]. intros minute. by rewrite Em2, Em.
Qed.

(** *** The way to the stop
    What does not concern the samples of system [id]: anything but its samples and their storing. *)
Definition quiet (id : Z) h h' : Prop :=
  h_states h' !! id = h_states h !! id
  ∧ (∀ ts, metrics (tables h') !! (id, Res1, ts) = metrics (tables h) !! (id, Res1, ts))
  ∧ (knownSystem id h → knownSystem id h') ∧ (noFaults (h_m h) → noFaults (h_m h')).
#[local] Instance quiet_preorder id : PreOrder (quiet id).
Proof.
  split; unfold quiet; [intros h; by split_and!|].
  intros h1 h2 h3 (E1 & M1 & K1 & N1) (E2 & M2 & K2 & N2). split_and!; [congruence|intros; by rewrite M2|auto|auto].
Qed.
(** The hub stops while [l] is what the system has reported since [h0]: its link may end, now or later or not at all while the hub
    waits, buckets may be flushed, and other things may happen. *)
Inductive stopping (id : Z) (l : list (Z * Metrics)) h0 : hub → Prop :=
| stop_reports h : reports formatPct formatNum id l h0 h → stopping id l h0 h
| stop_unregister h ac h' : stopping id l h0 h → ac_id ac = id → unregister ac h = (tt, h') → stopping id l h0 h'
| stop_flush h force h' : stopping id l h0 h → flushState id force h = (tt, h') → stopping id l h0 h'
| stop_other h h' : stopping id l h0 h → quiet id h h' → stopping id l h0 h'.
(** Every minute with samples is in the bucket in progress or stored. *)
Record kept (id : Z) (l : list (Z * Metrics)) h : Prop := {
  kp_nf : noFaults (h_m h);
  kp_known : knownSystem id h;
  kp_open : st_n (stateAt id h) ≠ 0 →
    average (st_sum (stateAt id h)) (st_n (stateAt id h)) = averageOf (inMinute l (st_bucketTS (stateAt id h)));
  kp_closed : ∀ minute, inMinute l minute ≠ [] → isOpen (stateAt id h) minute = false →
    metrics (tables h) !! (id, Res1, minute) = Some (averageOf (inMinute l minute));
}.
Lemma tracked_kept id l h : tracked id l h → kept id l h.
Proof.
  intros Ht. split; [apply Ht|apply Ht|by apply tracked_row|]. intros minute Hm Ho. by apply (tr_closed _ _ _ Ht).
Qed.
Lemma kept_quiet id l h h' : quiet id h h' → kept id l h → kept id l h'.
Proof.
  intros (Es & Em & Hk & Hn) [N K O C]. assert (Est : stateAt id h' = stateAt id h) by (unfold stateAt; by rewrite Es).
  split; rewrite ?Est; auto. intros minute. rewrite Em. auto.
Qed.
Lemma kept_flush id l h : ∀ force, kept id l h → wp (flushState id force) (λ _ h', kept id l h') h.
Proof.
  intros force Hk. eapply wp_mono; [apply flush_effect; apply Hk|]. cbn zeta. intros [] h1 He. destruct (_ || _) eqn:Eb.
  - destruct He as (Es & _ & Et & Hn). eapply kept_quiet; [|exact Hk]. unfold quiet, knownSystem. rewrite Es, Et. by split_and!.
  - pose proof (stateAt_put _ _ _ _ _ He) as Hst. destruct He as (_ & _ & Em & Hk' & Hn'). apply orb_false_iff in Eb as [E0%Z.eqb_neq _].
    cbn [takeBucket fst snd storedRow mr_TS mr_Values] in *. split; [done|done|by rewrite Hst|]. intros minute Hm _. rewrite Em.
    destruct (decide (st_bucketTS (stateAt id h) = minute)) as [<-|Hne].
    + rewrite lookup_insert_eq. f_equal. by apply (kp_open _ _ _ Hk).
    + rewrite lookup_insert_ne by congruence. apply (kp_closed _ _ _ Hk); [done|]. unfold isOpen.
      by rewrite (proj2 (Z.eqb_neq _ _) Hne), andb_false_r.
Qed.
Lemma steps_timeNow_quiet id : steps (quiet id) (db timeNow).
Proof.
  intros h. unfold quiet, db, knownSystem. destruct h as [[d [t [|k ks] fs rs]] ? ? ? ? ? ? ? ? ? ? ? ? ? ? ?]; cbn; by split_and!.
Qed.
Lemma steps_publish_quiet id e d : steps (quiet id) (publish e d).
Proof. intros h. unfold publish, mmodify. cbn. by destruct (decide _). Qed.
Lemma steps_engine_quiet id f : steps (quiet id) (onEngine f).
Proof. by intros h. Qed.
#[local] Hint Resolve steps_timeNow_quiet steps_publish_quiet steps_engine_quiet : steps.
Lemma kept_unregister id l ac h : ac_id ac = id → kept id l h → wp (unregister ac) (λ _ h', kept id l h') h.
Proof.
  intros <- Hk. unfold unregister. apply wp_bind, wp_get. destruct (negb _); [by apply wp_ret|]. apply wp_bind, wp_modify.
  assert (Hk1 : kept (ac_id ac) l (with_agents (delete (ac_id ac) (h_agents h)) h)) by (eapply kept_quiet; [|exact Hk]; by split_and!).
  apply wp_bind. eapply (wp_mono _ (λ _ h', kept (ac_id ac) l h')).
  { destruct (h_states h !! ac_id ac); [by apply kept_flush|by apply wp_ret]. }
  intros _ h2 Hk2. eapply wp_steps; [|intros _ h3 Hq; by eapply kept_quiet; [exact Hq|]]. unfold agentOffline. go_steps.
Qed.
Lemma stopping_kept id l h0 h : justConnected id h0 → stopping id l h0 h → kept id l h.
Proof.
  intros Hnew. induction 1 as [h Hr|h ac h' _ IH Hid Hu|h force h' _ IH Hf|h h' _ IH Hq].
  - apply tracked_kept. by apply (reports_tracked _ _ _ _ _ _ Hr), justConnected_tracked.
  - exact (wp_run _ _ _ _ _ (kept_unregister id l ac h Hid IH) Hu).
  - exact (wp_run _ _ _ _ _ (kept_flush id l h force IH) Hf).
  - by eapply kept_quiet.
Qed.

End stop_props.

(** *** Witnesses: a first start, which creates the key and the tables; and a stop in the middle of a minute *)
Definition demoMigration : list (store → string + store) := [λ _, inr (freshStore 0)].
Definition demoHubConfig : hubConfig := ConfigFromEnv (λ key, if String.eqb key "HUB_DATA_DIR" then "/data" else "").
Definition demoNewDisk : disk := mkDisk (mkHost ∅ ∅ [] ["seed"] []) (mkDbFile 0 (freshStore 7) []).
Definition demoNew : M disk (result string (hub * string)) :=
  @New demoLib demoSsh (λ _, "") (λ _, (mkManifest "" "" 0 "" "", false)) (λ _, ([], false)) demoMigration (λ _, "") (λ _, None)
    (λ _, false) 0 0 (λ _, "") demoHubConfig (mkEnv 0 [] [] []).
Lemma start_sound_witness :
  let '(r, d') := demoNew demoNewDisk in
  is_ok r = true ∧ fi_version (dk_db d') = 1%nat ∧ ho_files (dk_host d') !! "/data/hub_ed25519" = Some "seed".
Proof.
  assert (Hv : (fi_version (dk_db demoNewDisk) ≤ length demoMigration)%nat) by (cbn; lia).
  pose proof (@start_sound demoLib demoSsh demoSshLaws (λ _, "") (λ _, (mkManifest "" "" 0 "" "", false)) (λ _, ([], false))
    demoMigration (λ _, "") (λ _, None) (λ _, false) 0 0 (λ _, "") demoHubConfig (mkEnv 0 [] [] []) demoNewDisk Hv) as Hs.
  fold demoNew in Hs. destruct (demoNew demoNewDisk) as [r d'] eqn:E. destruct Hs as [[_ Hpost] Hok].
  assert (Hr : is_ok r = true).
  { apply Hok; [reflexivity| |reflexivity]. split_and!; try reflexivity; [intros data Hd; by eexists|by eexists]. }
  split; [done|]. destruct r as [[x key]|]; [|done]. destruct (Hpost x key eq_refl) as (_ & Hver & _).
  split; [exact Hver|]. vm_compute in E. by injection E as _ _ <-.
Defined.
Lemma elem_of_map_keys_Z {A} (m : gmap Z A) x : x ∈ (map_to_list m).*1 ↔ is_Some (m !! x).
Proof.
  rewrite list_elem_of_fmap. split.
  - intros ([k st] & -> & Hk). apply elem_of_map_to_list in Hk. by eexists.
  - intros [st Hk]. exists (x, st). split; [done|]. by apply elem_of_map_to_list.
Qed.
(** The link ends while the hub waits. *)
Definition demoWaiting : M hub unit := @unregister demoMarsh (State.demoAgent 0).
