(* ===== verification/Wire.v ===== *)
(** * Messages on the wire ([internal/protocol])

    The remaining messages of the protocol with their JSON, and for every message the variable its
    receiver decodes it into. The texts are those of [JSON], so that what one side writes and
    what the other reads is settled byte by byte: a message arrives as it was sent, up to characters that are
    not valid UTF-8 ([cleanStr]), and the agent's [decodeRequest] and [protocol.Reply] work on bytes. *)
From Stdlib Require Import ZArith Lia Ascii String.
From S2P Require Import Prelude GoStrings Float64 Library Version Update Protocol JSON Hub Gateway Systems Control Host AgentConfig AgentState AgentServices Processes Agent AgentShell AgentProps Sign.
From stdpp Require Import base gmap strings list.
Local Open Scope string_scope.
Local Open Scope list_scope.
Local Open Scope Z_scope.
Local Open Scope lotse_scope.

(** ** The messages *)
Record ProcessQuery := mkProcessQuery { pq_Limit : Z }.
Record SignalMsg := mkSignalMsg { sg_PID : Z; sg_Signal : string }.
Record PowerMsg := mkPowerMsg { pw_Action : string }.
Record ServiceMsg := mkServiceMsg { sm_Name : string; sm_Action : string }.
Record WakeMsg := mkWakeMsg { wk_MACs : list string; wk_Broadcast : string }.
Record IntervalMsg := mkIntervalMsg { iv_Seconds : Z }.
Record UpdateResult := mkUpdateResult { ur_Error : string }.

Definition queryJSON (m : ProcessQuery) : json := JObj [("limit", JInt (pq_Limit m))].
Definition signalJSON (m : SignalMsg) : json := JObj [("pid", JInt (sg_PID m)); ("signal", JStr (sg_Signal m))].
Definition powerJSON (m : PowerMsg) : json := JObj [("action", JStr (pw_Action m))].
Definition serviceMsgJSON (m : ServiceMsg) : json := JObj [("name", JStr (sm_Name m)); ("action", JStr (sm_Action m))].
Definition wakeJSON (m : WakeMsg) : json := JObj [("macs", JArr (map JStr (wk_MACs m))); ("broadcast", JStr (wk_Broadcast m))].
Definition intervalJSON (m : IntervalMsg) : json := JObj [("seconds", JInt (iv_Seconds m))].
Definition actionJSON (m : ActionReply) : json := JObj (omitEmpty "error" (rp_Error m)).
Definition updateJSON (m : UpdateResult) : json := JObj (omitEmpty "error" (ur_Error m)).
Definition scriptJSON (m : ScriptMsg) : json :=
  JObj [("shell", JStr (sc_Shell m)); ("script", JStr (sc_Script m)); ("timeout", JInt (sc_Timeout m))].
Definition helloReplyJSON (m : HelloReply) : json := helloReply (hr_OK m) (hr_Error m) (hr_Interval m).
Definition helloJSON (m : Hello) : json :=
  JObj ([("protocol", JInt (he_Protocol m)); ("agent_version", JStr (he_AgentVersion m))] ++ omitEmpty "token" (he_Token m)
        ++ [("info", infoJSON (he_Info m))]
        ++ match he_Features m with [] => [] | l => [("features", JArr (map JStr l))] end).
Definition serviceJSON (s : Service) : json :=
  JObj ([("name", JStr (se_Name s))] ++ omitEmpty "description" (se_Description s) ++ [("state", JStr (se_State s))]
        ++ omitEmpty "detail" (se_Detail s) ++ omitEmpty "start_type" (se_StartType s)).
Definition serviceListJSON (l : ServiceList) : json :=
  JObj ([("services", JArr (map serviceJSON (sl_Services l)))] ++ omitEmpty "error" (sl_Error l)).

(** ** The variables they are read into: [int] has 64 bits *)
Definition decodeQuery : decoder ProcessQuery := decodeStruct [field "limit" pq_Limit (λ x _, mkProcessQuery x) (decodeInt 64)].
Definition decodeSignal : decoder SignalMsg := decodeStruct
  [field "pid" sg_PID (λ x m, mkSignalMsg x (sg_Signal m)) (decodeInt 32);
   field "signal" sg_Signal (λ x m, mkSignalMsg (sg_PID m) x) decodeString].
Definition decodePower : decoder PowerMsg := decodeStruct [field "action" pw_Action (λ x _, mkPowerMsg x) decodeString].
Definition decodeServiceMsg : decoder ServiceMsg := decodeStruct
  [field "name" sm_Name (λ x m, mkServiceMsg x (sm_Action m)) decodeString;
   field "action" sm_Action (λ x m, mkServiceMsg (sm_Name m) x) decodeString].
Definition decodeWake : decoder WakeMsg := decodeStruct
  [field "macs" wk_MACs (λ x m, mkWakeMsg x (wk_Broadcast m)) (decodeSlice "" decodeString);
   field "broadcast" wk_Broadcast (λ x m, mkWakeMsg (wk_MACs m) x) decodeString].
Definition decodeInterval : decoder IntervalMsg := decodeStruct [field "seconds" iv_Seconds (λ x _, mkIntervalMsg x) (decodeInt 64)].
Definition decodeAction : decoder ActionReply := decodeStruct [field "error" rp_Error (λ x _, mkActionReply x) decodeString].
Definition decodeUpdate : decoder UpdateResult := decodeStruct [field "error" ur_Error (λ x _, mkUpdateResult x) decodeString].
Definition decodeScript : decoder ScriptMsg := decodeStruct
  [field "shell" sc_Shell (λ x m, mkScriptMsg x (sc_Script m) (sc_Timeout m)) decodeString;
   field "script" sc_Script (λ x m, mkScriptMsg (sc_Shell m) x (sc_Timeout m)) decodeString;
   field "timeout" sc_Timeout (λ x m, mkScriptMsg (sc_Shell m) (sc_Script m) x) (decodeInt 64)].
Definition decodeHelloReply : decoder HelloReply := decodeStruct
  [field "ok" hr_OK (λ x m, mkHelloReply x (hr_Error m) (hr_Interval m)) decodeBool;
   field "error" hr_Error (λ x m, mkHelloReply (hr_OK m) x (hr_Interval m)) decodeString;
   field "interval" hr_Interval (λ x m, mkHelloReply (hr_OK m) (hr_Error m) x) (decodeInt 64)].
Definition decodeIface : decoder NetInterface := decodeStruct
  [field "name" ni_Name (λ x m, mkNetInterface x (ni_MAC m) (ni_Addrs m)) decodeString;
   field "mac" ni_MAC (λ x m, mkNetInterface (ni_Name m) x (ni_Addrs m)) decodeString;
   field "addrs" ni_Addrs (λ x m, mkNetInterface (ni_Name m) (ni_MAC m) x) (decodeSlice "" decodeString)].
Definition noIface : NetInterface := mkNetInterface "" "" [].
Definition noInfo : SystemInfo := mkSystemInfo "" "" "" "" "" "" "" 0 0 [].
Definition decodeInfo : decoder SystemInfo := decodeStruct
  [field "hostname" si_Hostname (λ x '(mkSystemInfo _ b c d e f g n m l), mkSystemInfo x b c d e f g n m l) decodeString;
   field "os" si_OS (λ x '(mkSystemInfo a _ c d e f g n m l), mkSystemInfo a x c d e f g n m l) decodeString;
   field "platform" si_Platform (λ x '(mkSystemInfo a b _ d e f g n m l), mkSystemInfo a b x d e f g n m l) decodeString;
   field "platform_version" si_PlatformVersion (λ x '(mkSystemInfo a b c _ e f g n m l), mkSystemInfo a b c x e f g n m l) decodeString;
   field "kernel" si_Kernel (λ x '(mkSystemInfo a b c d _ f g n m l), mkSystemInfo a b c d x f g n m l) decodeString;
   field "arch" si_Arch (λ x '(mkSystemInfo a b c d e _ g n m l), mkSystemInfo a b c d e x g n m l) decodeString;
   field "cpu_model" si_CPUModel (λ x '(mkSystemInfo a b c d e f _ n m l), mkSystemInfo a b c d e f x n m l) decodeString;
   field "cores" si_Cores (λ x '(mkSystemInfo a b c d e f g _ m l), mkSystemInfo a b c d e f g x m l) (decodeInt 64);
   field "mem_total" si_MemTotal (λ x '(mkSystemInfo a b c d e f g n _ l), mkSystemInfo a b c d e f g n x l) (decodeUint 64);
   field "interfaces" si_Interfaces (λ x '(mkSystemInfo a b c d e f g n m _), mkSystemInfo a b c d e f g n m x) (decodeSlice noIface decodeIface)].
Definition noHello : Hello := mkHello 0 "" "" noInfo [].
Definition decodeHello : decoder Hello := decodeStruct
  [field "protocol" he_Protocol (λ x '(mkHello _ b c d e), mkHello x b c d e) (decodeInt 64);
   field "agent_version" he_AgentVersion (λ x '(mkHello a _ c d e), mkHello a x c d e) decodeString;
   field "token" he_Token (λ x '(mkHello a b _ d e), mkHello a b x d e) decodeString;
   field "info" he_Info (λ x '(mkHello a b c _ e), mkHello a b c x e) decodeInfo;
   field "features" he_Features (λ x '(mkHello a b c d _), mkHello a b c d x) (decodeSlice "" decodeString)].
Definition decodeManifest : decoder Manifest := decodeStruct
  [field "file" mf_File (λ x '(mkManifest _ b c d e), mkManifest x b c d e) decodeString;
   field "version" mf_Version (λ x '(mkManifest a _ c d e), mkManifest a x c d e) decodeString;
   field "size" mf_Size (λ x '(mkManifest a b _ d e), mkManifest a b x d e) (decodeInt 64);
   field "sha256" mf_SHA256 (λ x '(mkManifest a b c _ e), mkManifest a b c x e) decodeString;
   field "signature" mf_Signature (λ x '(mkManifest a b c d _), mkManifest a b c d x) decodeString].
Definition decodeConfig : decoder Config := decodeStruct
  [field "hub_url" cf_HubURL (λ x '(mkConfig _ b c d e p), mkConfig x b c d e p) decodeString;
   field "hub_key" cf_HubKey (λ x '(mkConfig a _ c d e p), mkConfig a x c d e p) decodeString;
   field "token" cf_Token (λ x '(mkConfig a b _ d e p), mkConfig a b x d e p) decodeString;
   field "allow_shell" cf_AllowShell (λ x '(mkConfig a b c _ e p), mkConfig a b c x e p) decodeBool;
   field "disable_updates" cf_DisableUpdates (λ x '(mkConfig a b c d _ p), mkConfig a b c d x p) decodeBool].

#[export] Instance unmarshalQuery : Unmarshal ProcessQuery := unmarshalInto decodeQuery (mkProcessQuery 0).
#[export] Instance unmarshalSignal : Unmarshal SignalMsg := unmarshalInto decodeSignal (mkSignalMsg 0 "").
#[export] Instance unmarshalPower : Unmarshal PowerMsg := unmarshalInto decodePower (mkPowerMsg "").
#[export] Instance unmarshalServiceMsg : Unmarshal ServiceMsg := unmarshalInto decodeServiceMsg (mkServiceMsg "" "").
#[export] Instance unmarshalWake : Unmarshal WakeMsg := unmarshalInto decodeWake (mkWakeMsg [] "").
#[export] Instance unmarshalInterval : Unmarshal IntervalMsg := unmarshalInto decodeInterval (mkIntervalMsg 0).
#[export] Instance unmarshalAction : Unmarshal ActionReply := unmarshalInto decodeAction (mkActionReply "").
#[export] Instance unmarshalUpdate : Unmarshal UpdateResult := unmarshalInto decodeUpdate (mkUpdateResult "").
#[export] Instance unmarshalScript : Unmarshal ScriptMsg := unmarshalInto decodeScript (mkScriptMsg "" "" 0).
#[export] Instance unmarshalHelloReply : Unmarshal HelloReply := unmarshalInto decodeHelloReply (mkHelloReply false "" 0).
#[export] Instance unmarshalInfo : Unmarshal SystemInfo := unmarshalInto decodeInfo noInfo.
#[export] Instance unmarshalHello : Unmarshal Hello := unmarshalInto decodeHello noHello.
#[export] Instance unmarshalManifest : Unmarshal Manifest := unmarshalInto decodeManifest (mkManifest "" "" 0 "" "").
#[export] Instance unmarshalConfig : Unmarshal Config := unmarshalInto decodeConfig (mkConfig "" "" "" false false "").

(** ** The agent's side of a request *)
(** A payload that is not the JSON expected is [None]; a query that is not is read as far as it goes. *)
Definition decoded {A} `{!Unmarshal A} (payload : string) : option A :=
  let '(x, ok) := (unmarshal payload : A * bool) in if ok then Some x else None.
(** The switch of [handleRequests], on the type and the payload. *)
Definition decodeRequest (typ payload : string) : hubRequest :=
  if String.eqb typ ReqProcesses then RProcesses (pq_Limit (unmarshal payload : ProcessQuery * bool).1)
  else if String.eqb typ ReqSignal then RSignal ((λ m, (sg_PID m, sg_Signal m)) <$> decoded payload)
  else if String.eqb typ ReqPower then RPower (pw_Action <$> decoded payload)
  else if String.eqb typ ReqServices then RServices
  else if String.eqb typ ReqService then RService ((λ m, (sm_Name m, sm_Action m)) <$> decoded payload)
  else if String.eqb typ ReqWake then RWake ((λ m, (wk_MACs m, wk_Broadcast m)) <$> decoded payload)
  else if String.eqb typ ReqInterval then RInterval (iv_Seconds <$> decoded payload)
  else ROther typ.
Section serving.
Context `{Lib} `{FloatText}.
(** [protocol.RejectChannels]: the hub refuses every channel with this reason (1 is [ssh.Prohibited]). *)
Definition RejectChannels {C} (chans : list C) : list (C * (Z * string)) := map (λ ch, (ch, (1, "not supported"))) chans.
(** [protocol.Reply]: whether the request was granted, and the payload. *)
Definition replyOf (p : payload) : bool * string :=
  match p with
  | PRefused => (false, "")
  | PNone => (true, "")
  | PProcesses l => (true, jsonMarshal (processListJSON l))
  | PServices l => (true, jsonMarshal (serviceListJSON l))
  | PAction err => (String.eqb err "", jsonMarshal (actionJSON (mkActionReply err)))
  end.
(** One request as it comes over the link; there is an answer when the hub wants one. *)
Definition serveRequest (w : world) (typ : string) (wantReply : bool) (payload : string) : M agent (option (bool * string)) :=
  p ← request w (decodeRequest typ payload);
  mret (if wantReply then Some (replyOf p) else None).
End serving.

(** ** Messages arrive as they were sent *)
(** A text after its way through JSON. *)
Definition cleanStr (s : string) : string := stringOf (toValid (bytesOf s)).
Definition validStr (s : string) : bool := validUTF8 (bytesOf s).
Lemma cleanStr_valid s : validStr s = true → cleanStr s = s.
Proof. intros Hv. unfold cleanStr. rewrite toValid_valid; [apply stringOf_bytesOf|apply bytesOf_isByte|done]. Qed.
Definition fitsInt (bits n : Z) : Prop := - 2 ^ (bits - 1) ≤ n < 2 ^ (bits - 1).
Definition fitsUint (bits n : Z) : Prop := 0 ≤ n < 2 ^ bits.

Section values.
Context `{FloatText} `{!FloatTextLaws}.
Lemma decodeString_text s old : decodeString (valOf (JStr s)) old = (cleanStr s, true).
Proof. done. Qed.
Lemma decodeBool_text b old : decodeBool (valOf (JBool b)) old = (b, true).
Proof. done. Qed.
Lemma decodeInt_text bits n old : 1 ≤ bits → fitsInt bits n → decodeInt bits (valOf (JInt n)) old = (n, true).
Proof. intros Hb Hn. cbn [valOf decodeInt]. unfold intText. by rewrite stringOf_bytesOf, ParseInt_itoa. Qed.
Lemma decodeUint_text bits n old : fitsUint bits n → decodeUint bits (valOf (JInt n)) old = (n, true).
Proof.
  intros [Hlo Hn]. cbn [valOf decodeUint]. unfold intText. rewrite stringOf_bytesOf.
  assert (E : parseDigits (itoa n) = Some n) by (destruct n as [|p|p]; [done|apply parseDigits_pos|lia]). rewrite E.
  by rewrite (proj2 (Z.ltb_lt _ _)) by lia.
Qed.
Lemma decodeSlice_text {A} (zero : A) (dec : decoder A) (enc : A → json) (clean : A → A) l :
  (∀ x, x ∈ l → dec (valOf (enc x)) zero = (clean x, true)) → decodeSlice zero dec (valOf (JArr (map enc l))) [] = (map clean l, true).
Proof.
  intros Hx. cbn [valOf decodeSlice]. induction l as [|x l IH]; [done|]. cbn [map decodeElems head tail default from_option].
  rewrite Hx, IH by set_solver. done.
Qed.
Lemma decodeStrings_text l : decodeSlice "" decodeString (valOf (JArr (map JStr l))) [] = (map cleanStr l, true).
Proof. by apply decodeSlice_text. Qed.
Lemma valOf_object l : valOf (JObj l) = VObj (map (λ kx, (toValid (bytesOf (fst kx)), valOf (snd kx))) l).
Proof. done. Qed.
End values.

(** The members of an object whose values are decoded by known equations: the equations are found in
    the context, the field names are computed. *)
Ltac wire_values :=
  repeat match goal with
  | |- context [valOf (JStr ?s)] =>
    let E := fresh in pose proof (decodeString_text s) as E; generalize dependent (valOf (JStr s)); intros ? E
  | |- context [valOf (JBool ?b)] =>
    let E := fresh in pose proof (decodeBool_text b) as E; generalize dependent (valOf (JBool b)); intros ? E
  | H : fitsInt ?k ?n |- context [valOf (JInt ?n)] =>
    let E := fresh in assert (E := λ old, decodeInt_text k n old ltac:(lia) H); generalize dependent (valOf (JInt n)); intros ? E
  | H : fitsUint ?k ?n |- context [valOf (JInt ?n)] =>
    let E := fresh in assert (E := λ old, decodeUint_text k n old H); generalize dependent (valOf (JInt n)); intros ? E
  end.
Ltac wire_step :=
  match goal with
  | |- context [decodeMembers ?fs ((?k, ?v) :: ?ms) ?a] =>
    let i := eval vm_compute in (fieldIndex (map fst fs) k) in
    match i with
    | Some ?n => rewrite (decodeMembers_step fs n _ k v ms a ltac:(vm_compute; reflexivity) eq_refl)
    end
  end;
  cbn [snd field wk_MACs wk_Broadcast ni_Addrs si_Interfaces he_Info he_Features]; match goal with H : _ |- _ => rewrite H end.
Ltac wire_fields := unfold decodeStruct at 1; cbn [map fst snd app]; wire_values; repeat wire_step; cbn [decodeMembers andb].
(** The texts of an interface, of the information about a system and of a greeting. *)
Definition cleanIface (i : NetInterface) : NetInterface := mkNetInterface (cleanStr (ni_Name i)) (cleanStr (ni_MAC i)) (map cleanStr (ni_Addrs i)).
Definition cleanInfo (i : SystemInfo) : SystemInfo :=
  mkSystemInfo (cleanStr (si_Hostname i)) (cleanStr (si_OS i)) (cleanStr (si_Platform i)) (cleanStr (si_PlatformVersion i))
    (cleanStr (si_Kernel i)) (cleanStr (si_Arch i)) (cleanStr (si_CPUModel i)) (si_Cores i) (si_MemTotal i) (map cleanIface (si_Interfaces i)).
Definition cleanHello (m : Hello) : Hello :=
  mkHello (he_Protocol m) (cleanStr (he_AgentVersion m)) (cleanStr (he_Token m)) (cleanInfo (he_Info m)) (map cleanStr (he_Features m)).
Definition cleanConfig (c : Config) : Config :=
  mkConfig (cleanStr (cf_HubURL c)) (cleanStr (cf_HubKey c)) (cleanStr (cf_Token c)) (cf_AllowShell c) (cf_DisableUpdates c) "".
Definition cleanManifest (m : Manifest) : Manifest :=
  mkManifest (cleanStr (mf_File m)) (cleanStr (mf_Version m)) (mf_Size m) (cleanStr (mf_SHA256 m)) (cleanStr (mf_Signature m)).
(** The numbers of a greeting fit their types. *)
Definition helloFits (m : Hello) : Prop :=
  fitsInt 64 (he_Protocol m) ∧ fitsInt 64 (si_Cores (he_Info m)) ∧ fitsUint 64 (si_MemTotal (he_Info m)).

Section reading.
Context `{FloatText} `{!FloatTextLaws}.
Lemma query_read m old : fitsInt 64 (pq_Limit m) → decodeQuery (valOf (queryJSON m)) old = (m, true).
Proof. intros Hp. unfold queryJSON, decodeQuery. rewrite valOf_object. wire_fields. by destruct m. Qed.
Lemma signal_read m old : fitsInt 32 (sg_PID m) → decodeSignal (valOf (signalJSON m)) old = (mkSignalMsg (sg_PID m) (cleanStr (sg_Signal m)), true).
Proof. intros Hp. unfold signalJSON, decodeSignal. rewrite valOf_object. by wire_fields. Qed.
Lemma power_read m old : decodePower (valOf (powerJSON m)) old = (mkPowerMsg (cleanStr (pw_Action m)), true).
Proof. unfold powerJSON, decodePower. rewrite valOf_object. by wire_fields. Qed.
Lemma service_read m old : decodeServiceMsg (valOf (serviceMsgJSON m)) old = (mkServiceMsg (cleanStr (sm_Name m)) (cleanStr (sm_Action m)), true).
Proof. unfold serviceMsgJSON, decodeServiceMsg. rewrite valOf_object. by wire_fields. Qed.
Lemma wake_read m : decodeWake (valOf (wakeJSON m)) (mkWakeMsg [] "") = (mkWakeMsg (map cleanStr (wk_MACs m)) (cleanStr (wk_Broadcast m)), true).
Proof.
  unfold wakeJSON, decodeWake. rewrite valOf_object. pose proof (decodeStrings_text (wk_MACs m)). by wire_fields.
Qed.
Lemma interval_read m old : fitsInt 64 (iv_Seconds m) → decodeInterval (valOf (intervalJSON m)) old = (m, true).
Proof. intros Hp. unfold intervalJSON, decodeInterval. rewrite valOf_object. wire_fields. by destruct m. Qed.
Lemma action_read m : decodeAction (valOf (actionJSON m)) (mkActionReply "") = (mkActionReply (cleanStr (rp_Error m)), true).
Proof.
  unfold actionJSON, decodeAction, omitEmpty. rewrite valOf_object. destruct (String.eqb_spec (rp_Error m) "") as [->|]; [done|]. by wire_fields.
Qed.
Lemma update_read m : decodeUpdate (valOf (updateJSON m)) (mkUpdateResult "") = (mkUpdateResult (cleanStr (ur_Error m)), true).
Proof.
  unfold updateJSON, decodeUpdate, omitEmpty. rewrite valOf_object. destruct (String.eqb_spec (ur_Error m) "") as [->|]; [done|]. by wire_fields.
Qed.
Lemma script_read m old : fitsInt 64 (sc_Timeout m) →
  decodeScript (valOf (scriptJSON m)) old = (mkScriptMsg (cleanStr (sc_Shell m)) (cleanStr (sc_Script m)) (sc_Timeout m), true).
Proof. intros Hp. unfold scriptJSON, decodeScript. rewrite valOf_object. by wire_fields. Qed.
Lemma helloReply_read m : fitsInt 64 (hr_Interval m) →
  decodeHelloReply (valOf (helloReplyJSON m)) (mkHelloReply false "" 0) = (mkHelloReply (hr_OK m) (cleanStr (hr_Error m)) (hr_Interval m), true).
Proof.
  intros Hp. unfold helloReplyJSON, decodeHelloReply, helloReply. rewrite valOf_object.
  destruct (String.eqb_spec (hr_Error m) "") as [->|]; destruct (Z.eqb_spec (hr_Interval m) 0) as [->|]; by wire_fields.
Qed.
Lemma iface_read i : decodeIface (valOf (ifaceJSON i)) noIface = (cleanIface i, true).
Proof.
  unfold ifaceJSON, decodeIface, noIface. rewrite valOf_object. pose proof (decodeStrings_text (ni_Addrs i)). by wire_fields.
Qed.
Lemma info_read i : fitsInt 64 (si_Cores i) → fitsUint 64 (si_MemTotal i) → decodeInfo (valOf (infoJSON i)) noInfo = (cleanInfo i, true).
Proof.
  intros Hc Hm. unfold infoJSON, decodeInfo, noInfo. rewrite valOf_object.
  pose proof (decodeSlice_text noIface decodeIface ifaceJSON cleanIface (si_Interfaces i) (λ x _, iface_read x)) as Hi.
  unfold cleanInfo. destruct (si_Interfaces i) as [|x l]; cbn [map] in Hi; by wire_fields.
Qed.
Lemma hello_read m : helloFits m → decodeHello (valOf (helloJSON m)) noHello = (cleanHello m, true).
Proof.
  intros (Hp & Hc & Hm). unfold helloJSON, decodeHello, noHello, omitEmpty. rewrite valOf_object.
  pose proof (decodeStrings_text (he_Features m)) as Hf. pose proof (info_read _ Hc Hm) as Hi. unfold cleanHello.
  destruct (String.eqb_spec (he_Token m) "") as [->|]; destruct (he_Features m) as [|x l]; cbn [map] in Hf; by wire_fields.
Qed.
Lemma manifest_read m old : fitsInt 64 (mf_Size m) → decodeManifest (valOf (manifestJSON m)) old = (cleanManifest m, true).
Proof. intros Hs. unfold manifestJSON, decodeManifest. rewrite valOf_object. destruct old. by wire_fields. Qed.
Lemma config_read c : decodeConfig (valOf (configJSON c)) (mkConfig "" "" "" false false "") = (cleanConfig c, true).
Proof.
  unfold configJSON, decodeConfig, cleanConfig. rewrite valOf_object.
  destruct (String.eqb_spec (cf_Token c) "") as [->|]; destruct (cf_DisableUpdates c); by wire_fields.
Qed.
End reading.

(** ** What one side writes, the other reads *)
(** The type and the JSON of a request of the hub; [None] for one that no message stands for. *)
Definition encodeRequest (req : hubRequest) : option (string * json) :=
  match req with
  | RProcesses limit => Some (ReqProcesses, queryJSON (mkProcessQuery limit))
  | RSignal (Some (pid, signal)) => Some (ReqSignal, signalJSON (mkSignalMsg pid signal))
  | RPower (Some action) => Some (ReqPower, powerJSON (mkPowerMsg action))
  | RServices => Some (ReqServices, JObj [])
  | RService (Some (name, action)) => Some (ReqService, serviceMsgJSON (mkServiceMsg name action))
  | RWake (Some (macs, broadcast)) => Some (ReqWake, wakeJSON (mkWakeMsg macs broadcast))
  | RInterval (Some secs) => Some (ReqInterval, intervalJSON (mkIntervalMsg secs))
  | _ => None
  end.
Definition cleanRequest (req : hubRequest) : hubRequest :=
  match req with
  | RSignal m => RSignal ((λ x, (x.1, cleanStr x.2)) <$> m)
  | RPower m => RPower (cleanStr <$> m)
  | RService m => RService ((λ x, (cleanStr x.1, cleanStr x.2)) <$> m)
  | RWake m => RWake ((λ x, (map cleanStr x.1, cleanStr x.2)) <$> m)
  | _ => req
  end.
(** The numbers of a request fit their types. *)
Definition requestFits (req : hubRequest) : Prop :=
  match req with
  | RProcesses n => fitsInt 64 n
  | RSignal (Some (pid, _)) => fitsInt 32 pid
  | RInterval (Some n) => fitsInt 64 n
  | _ => True
  end.
(** Shallow, and without numbers that are not finite. *)
Definition plain (j : json) : Prop := depthOf j ≤ maxNestingDepth ∧ finiteIn j = true.
Lemma depths_bound {A} (f : A → Z) b l : 0 ≤ b → (∀ x, x ∈ l → f x ≤ b) → fold_right (λ x m, Z.max (f x) m) 0 l ≤ b.
Proof. intros Hb Hx. induction l as [|x l IH]; cbn [fold_right]; [done|]. pose proof (Hx x ltac:(left)). specialize (IH ltac:(set_solver)). lia. Qed.
Lemma strings_plain l : depthOf (JArr (map JStr l)) ≤ 1 ∧ finiteIn (JArr (map JStr l)) = true.
Proof.
  cbn [depthOf finiteIn]. split.
  - apply (Z.add_le_mono_l _ 0 1), depths_bound; [done|]. by intros x (s & -> & _)%list_elem_of_fmap.
  - apply forallb_forall. by intros x (s & <- & _)%in_map_iff.
Qed.
Lemma ifaces_plain l : depthOf (JArr (map ifaceJSON l)) ≤ 3 ∧ finiteIn (JArr (map ifaceJSON l)) = true.
Proof.
  cbn [depthOf finiteIn]. split.
  - apply (Z.add_le_mono_l _ 2 1), depths_bound; [done|]. intros x (i & -> & _)%list_elem_of_fmap. unfold ifaceJSON.
    destruct (strings_plain (ni_Addrs i)) as [Hd _]. cbn [depthOf fold_right snd] in *. lia.
  - apply forallb_forall. intros x (i & <- & _)%in_map_iff. destruct (strings_plain (ni_Addrs i)) as [_ Hf].
    unfold ifaceJSON. cbn [finiteIn forallb snd] in *. by rewrite Hf.
Qed.
Lemma info_plain i : depthOf (infoJSON i) ≤ 4 ∧ finiteIn (infoJSON i) = true.
Proof.
  destruct (ifaces_plain (si_Interfaces i)) as [Hd Hf]. unfold infoJSON.
  destruct (si_Interfaces i) as [|x l]; (split; [|done || (cbn [finiteIn forallb snd app] in *; by rewrite Hf)]); cbn [depthOf fold_right snd app] in *; lia.
Qed.
Lemma hello_plain m : plain (helloJSON m).
Proof.
  destruct (info_plain (he_Info m)) as [Hd Hf]. destruct (strings_plain (he_Features m)) as [Hd' Hf']. unfold plain, helloJSON, omitEmpty, maxNestingDepth.
  destruct (String.eqb _ ""), (he_Features m) as [|x l]; cbn [depthOf finiteIn fold_right forallb snd app map] in *; rewrite Hf, ?Hf'; split; try done; lia.
Qed.
Lemma request_plain req typ j : encodeRequest req = Some (typ, j) → plain j.
Proof.
  destruct req as [limit|[[pid sig]|]|[action|]| |[[name action]|]|[[macs bc]|]|[secs|]|t]; intros [= _ <-]; try done.
  destruct (strings_plain macs) as [Hd Hf]. unfold plain, wakeJSON, maxNestingDepth. cbn [depthOf finiteIn fold_right forallb snd wk_MACs wk_Broadcast] in *.
  rewrite Hf. split; [lia|done].
Qed.

Section arriving.
Context `{FloatText} `{!FloatTextLaws}.
Lemma marshal_read {A} (dec : decoder A) zero j x : plain j → dec (valOf j) zero = (x, true) → unmarshalInto dec zero (jsonMarshal j) = (x, true).
Proof.
  intros [Hd Hf] E. rewrite <-E, <-(append_nil_r (jsonMarshal j)). by apply unmarshal_text.
Qed.
Lemma marshalIndent_read {A} (dec : decoder A) zero j x : plain j → dec (valOf j) zero = (x, true) →
  unmarshalInto dec zero (jsonMarshalIndent j +:+ NL) = (x, true).
Proof. intros [Hd Hf] E. rewrite <-E. apply unmarshal_text; [apply indent_spaced|done..]. Qed.
Lemma request_read req typ j : encodeRequest req = Some (typ, j) → requestFits req → decodeRequest typ (jsonMarshal j) = cleanRequest req.
Proof.
  intros Henc Hfits. pose proof (request_plain req typ j Henc) as Hp.
  destruct req as [limit|[[pid sig]|]|[action|]| |[[name action]|]|[[macs bc]|]|[secs|]|t]; (injection Henc as <- <- || discriminate);
    unfold decodeRequest; cbn [String.eqb Ascii.eqb Bool.eqb ReqProcesses ReqSignal ReqPower ReqServices ReqService ReqWake ReqInterval]; unfold decoded, unmarshal.
  - by rewrite (marshal_read _ _ _ _ Hp (query_read (mkProcessQuery limit) _ Hfits) : unmarshalQuery _ = _).
  - by rewrite (marshal_read _ _ _ _ Hp (signal_read (mkSignalMsg pid sig) _ Hfits) : unmarshalSignal _ = _).
  - by rewrite (marshal_read _ _ _ _ Hp (power_read (mkPowerMsg action) _) : unmarshalPower _ = _).
  - done.
  - by rewrite (marshal_read _ _ _ _ Hp (service_read (mkServiceMsg name action) _) : unmarshalServiceMsg _ = _).
  - by rewrite (marshal_read _ _ _ _ Hp (wake_read (mkWakeMsg macs bc)) : unmarshalWake _ = _).
  - by rewrite (marshal_read _ _ _ _ Hp (interval_read (mkIntervalMsg secs) _ Hfits) : unmarshalInterval _ = _).
Qed.
Lemma greeting_read m : helloFits m → unmarshal (jsonMarshal (helloJSON m)) = (cleanHello m, true).
Proof. intros Hm. apply marshal_read; [apply hello_plain|by apply hello_read]. Qed.
Lemma greeting_answer_read m : fitsInt 64 (hr_Interval m) →
  unmarshal (jsonMarshal (helloReplyJSON m)) = (mkHelloReply (hr_OK m) (cleanStr (hr_Error m)) (hr_Interval m), true).
Proof.
  intros Hm. apply marshal_read; [|by apply helloReply_read]. unfold helloReplyJSON, helloReply. by destruct (String.eqb _ ""), (_ =? 0).
Qed.
Lemma outcome_read err : unmarshal (jsonMarshal (actionJSON (mkActionReply err))) = (mkActionReply (cleanStr err), true).
Proof. apply marshal_read; [|apply (action_read (mkActionReply err))]. unfold actionJSON, omitEmpty. by destruct (String.eqb _ ""). Qed.
Lemma update_answer_read err : unmarshal (jsonMarshal (updateJSON (mkUpdateResult err))) = (mkUpdateResult (cleanStr err), true).
Proof. apply marshal_read; [|apply (update_read (mkUpdateResult err))]. unfold updateJSON, omitEmpty. by destruct (String.eqb _ ""). Qed.
Lemma script_sent_read m : fitsInt 64 (sc_Timeout m) →
  unmarshal (jsonMarshal (scriptJSON m)) = (mkScriptMsg (cleanStr (sc_Shell m)) (cleanStr (sc_Script m)) (sc_Timeout m), true).
Proof. intros Hm. by apply marshal_read; [|apply script_read]. Qed.
Lemma manifest_sent_read m : fitsInt 64 (mf_Size m) → unmarshal (jsonMarshal (manifestJSON m)) = (cleanManifest m, true).
Proof. intros Hm. by apply marshal_read; [|apply manifest_read]. Qed.
Lemma manifest_file_read m : fitsInt 64 (mf_Size m) → unmarshal (jsonMarshalIndent (manifestJSON m) +:+ NL) = (cleanManifest m, true).
Proof. intros Hm. by apply marshalIndent_read; [|apply manifest_read]. Qed.
Lemma config_file_read c : unmarshal (jsonMarshalIndent (configJSON c) +:+ NL) = (cleanConfig c, true).
Proof.
  apply marshalIndent_read; [|apply config_read]. unfold configJSON. by destruct (String.eqb _ ""), (cf_DisableUpdates c).
Qed.

(** C15. Messages arrive as they were sent. Whatever the hub asks an agent for, the agent decodes the bytes of the
    JSON to the same request; and so arrive the agent's greeting and the hub's answer to it, the
    outcome of an action, a script and the manifest of an update; the configuration and the manifests of the release
    tool are read back from their indented files. Numbers must fit their types, and texts are unchanged up to bytes that
    are not valid UTF-8, which JSON replaces by U+FFFD. *)
Theorem messages_arrive :
  (∀ req typ j, encodeRequest req = Some (typ, j) → requestFits req → decodeRequest typ (jsonMarshal j) = cleanRequest req)
  ∧ (∀ m, helloFits m → unmarshal (jsonMarshal (helloJSON m)) = (cleanHello m, true))
  ∧ (∀ m, fitsInt 64 (hr_Interval m) →
       unmarshal (jsonMarshal (helloReplyJSON m)) = (mkHelloReply (hr_OK m) (cleanStr (hr_Error m)) (hr_Interval m), true))
  ∧ (∀ err, unmarshal (jsonMarshal (actionJSON (mkActionReply err))) = (mkActionReply (cleanStr err), true))
  ∧ (∀ m, fitsInt 64 (sc_Timeout m) →
       unmarshal (jsonMarshal (scriptJSON m)) = (mkScriptMsg (cleanStr (sc_Shell m)) (cleanStr (sc_Script m)) (sc_Timeout m), true))
  ∧ (∀ m, fitsInt 64 (mf_Size m) → unmarshal (jsonMarshal (manifestJSON m)) = (cleanManifest m, true)
       ∧ unmarshal (jsonMarshalIndent (manifestJSON m) +:+ NL) = (cleanManifest m, true))
  ∧ (∀ c, unmarshal (jsonMarshalIndent (configJSON c) +:+ NL) = (cleanConfig c, true))
  ∧ (∀ s, validStr s = true → cleanStr s = s).
Proof.
  split_and!; eauto using request_read, greeting_read, greeting_answer_read, outcome_read, script_sent_read, manifest_sent_read, manifest_file_read,
    config_file_read, cleanStr_valid.
Qed.
End arriving.

(** *** Witness: a greeting, with numbers written as zero *)
#[export] Instance demoFloatText : FloatText := λ _, "0".
#[export] Instance demoFloatLaws : FloatTextLaws.
Proof. intros f _. apply (plainDigits_number false [48]). split; [done|by left]. Qed.
Lemma messages_arrive_witness :
  let m := mkHello 1 "1.2.0" "to<ken" (mkSystemInfo "büro" "linux" "" "" "" "amd64" "" 8 (2 ^ 35) [mkNetInterface "eth0" "02:00:00:00:00:01" ["10.0.0.2/24"]]) ["wake"] in
  unmarshal (jsonMarshal (helloJSON m)) = (m, true).
Proof.
  intros m. destruct messages_arrive as (_ & Hh & _). rewrite (Hh m); [vm_compute; reflexivity|]. split_and!; vm_compute; (done || discriminate).
Defined.
