(* ===== verification/Decode.v ===== *)
(** * What the hub reads back ([json.Unmarshal] on the hub's side)

    The variables the hub decodes samples, process lists, stored results of runs, settings of channels, the
    browser's terminal messages and the client data of passkeys into. Reading a floating-point number is the counterpart of writing it,
    and the two are a pair: the text of a number reads as that number. *)
From Stdlib Require Import ZArith Lia Ascii String SpecFloat.
From S2P Require Import Prelude GoStrings Float64 Library Update Protocol JSON Store StoreTables StoreSteps Metrics Hub Webauthn Auth Alerts AlertApi State Gateway Systems Control Shell Runs Agent Wire.
From stdpp Require Import base gmap strings list.
Local Open Scope string_scope.
Local Open Scope list_scope.
Local Open Scope Z_scope.
Local Open Scope lotse_scope.

(** ** Numbers *)
(** [strconv.ParseFloat] with 64 bits; [None] is an error, a number out of range among them. *)
Class FloatParse := parseFloat : string → option f64.
Definition isFloat64 (f : f64) : Prop := finite f = true ∧ valid_binary fprec femax f = true.
(** The shortest text that identifies a number reads as that number. *)
Class FloatParseLaws `{FloatText} `{FloatParse} := parseFloat_text f : isFloat64 f → parseFloat (floatText f) = Some f.
Section numbers.
Context `{FloatParse}.
Definition decodeFloat : decoder f64 := λ v x,
  match v with
  | VNull => (x, true)
  | VNum lit => match parseFloat (stringOf lit) with Some f => (f, true) | None => (x, false) end
  | _ => (x, false)
  end.
(** A pointer: null is nil, and a value goes to the variable it points to, or to a new one. *)
Definition decodePtr {A} (zero : A) (dec : decoder A) : decoder (option A) := λ v o,
  match v with VNull => (None, true) | _ => let '(x, ok) := dec v (default zero o) in (Some x, ok) end.

(** ** Samples and processes *)
Definition noBattery : Battery := mkBattery fzero "".
Definition decodeBattery : decoder Battery := decodeStruct
  [field "percent" bt_Percent (λ x m, mkBattery x (bt_State m)) decodeFloat;
   field "state" bt_State (λ x m, mkBattery (bt_Percent m) x) decodeString].
Definition noFilesystem : Filesystem := mkFilesystem "" "" "" 0 0.
Definition decodeFilesystem : decoder Filesystem := decodeStruct
  [field "mount" fs_Mount (λ x '(mkFilesystem _ b c d e), mkFilesystem x b c d e) decodeString;
   field "device" fs_Device (λ x '(mkFilesystem a _ c d e), mkFilesystem a x c d e) decodeString;
   field "type" fs_Type (λ x '(mkFilesystem a b _ d e), mkFilesystem a b x d e) decodeString;
   field "used" fs_Used (λ x '(mkFilesystem a b c _ e), mkFilesystem a b c x e) (decodeUint 64);
   field "total" fs_Total (λ x '(mkFilesystem a b c d _), mkFilesystem a b c d x) (decodeUint 64)].
Definition noContainer : Container := mkContainer "" "" "" "" "" fzero 0 0 fzero fzero.
Definition decodeContainer : decoder Container := decodeStruct
  [field "id" ct_ID (λ x '(mkContainer _ b c d e f g h i j), mkContainer x b c d e f g h i j) decodeString;
   field "name" ct_Name (λ x '(mkContainer a _ c d e f g h i j), mkContainer a x c d e f g h i j) decodeString;
   field "image" ct_Image (λ x '(mkContainer a b _ d e f g h i j), mkContainer a b x d e f g h i j) decodeString;
   field "state" ct_State (λ x '(mkContainer a b c _ e f g h i j), mkContainer a b c x e f g h i j) decodeString;
   field "status" ct_Status (λ x '(mkContainer a b c d _ f g h i j), mkContainer a b c d x f g h i j) decodeString;
   field "cpu" ct_CPU (λ x '(mkContainer a b c d e _ g h i j), mkContainer a b c d e x g h i j) decodeFloat;
   field "mem" ct_Mem (λ x '(mkContainer a b c d e f _ h i j), mkContainer a b c d e f x h i j) (decodeUint 64);
   field "mem_limit" ct_MemLimit (λ x '(mkContainer a b c d e f g _ i j), mkContainer a b c d e f g x i j) (decodeUint 64);
   field "net_rx" ct_NetRx (λ x '(mkContainer a b c d e f g h _ j), mkContainer a b c d e f g h x j) decodeFloat;
   field "net_tx" ct_NetTx (λ x '(mkContainer a b c d e f g h i _), mkContainer a b c d e f g h i x) decodeFloat].
Definition noMetrics : Metrics :=
  mkMetrics 0 fzero 0 0 0 0 0 0 fzero fzero fzero fzero fzero fzero fzero 0 None [] [].
Definition decodeMetrics : decoder Metrics := decodeStruct
  [field "t" me_Time (λ x '(mkMetrics _ b c d e f g h i j k l m n o p q r s), mkMetrics x b c d e f g h i j k l m n o p q r s) (decodeInt 64);
   field "cpu" me_CPU (λ x '(mkMetrics a _ c d e f g h i j k l m n o p q r s), mkMetrics a x c d e f g h i j k l m n o p q r s) decodeFloat;
   field "mem_used" me_MemUsed (λ x '(mkMetrics a b _ d e f g h i j k l m n o p q r s), mkMetrics a b x d e f g h i j k l m n o p q r s) (decodeUint 64);
   field "mem_total" me_MemTotal (λ x '(mkMetrics a b c _ e f g h i j k l m n o p q r s), mkMetrics a b c x e f g h i j k l m n o p q r s) (decodeUint 64);
   field "swap_used" me_SwapUsed (λ x '(mkMetrics a b c d _ f g h i j k l m n o p q r s), mkMetrics a b c d x f g h i j k l m n o p q r s) (decodeUint 64);
   field "swap_total" me_SwapTotal (λ x '(mkMetrics a b c d e _ g h i j k l m n o p q r s), mkMetrics a b c d e x g h i j k l m n o p q r s) (decodeUint 64);
   field "disk_used" me_DiskUsed (λ x '(mkMetrics a b c d e f _ h i j k l m n o p q r s), mkMetrics a b c d e f x h i j k l m n o p q r s) (decodeUint 64);
   field "disk_total" me_DiskTotal (λ x '(mkMetrics a b c d e f g _ i j k l m n o p q r s), mkMetrics a b c d e f g x i j k l m n o p q r s) (decodeUint 64);
   field "disk_read" me_DiskRead (λ x '(mkMetrics a b c d e f g h _ j k l m n o p q r s), mkMetrics a b c d e f g h x j k l m n o p q r s) decodeFloat;
   field "disk_write" me_DiskWrite (λ x '(mkMetrics a b c d e f g h i _ k l m n o p q r s), mkMetrics a b c d e f g h i x k l m n o p q r s) decodeFloat;
   field "net_rx" me_NetRx (λ x '(mkMetrics a b c d e f g h i j _ l m n o p q r s), mkMetrics a b c d e f g h i j x l m n o p q r s) decodeFloat;
   field "net_tx" me_NetTx (λ x '(mkMetrics a b c d e f g h i j k _ m n o p q r s), mkMetrics a b c d e f g h i j k x m n o p q r s) decodeFloat;
   field "load1" me_Load1 (λ x '(mkMetrics a b c d e f g h i j k l _ n o p q r s), mkMetrics a b c d e f g h i j k l x n o p q r s) decodeFloat;
   field "load5" me_Load5 (λ x '(mkMetrics a b c d e f g h i j k l m _ o p q r s), mkMetrics a b c d e f g h i j k l m x o p q r s) decodeFloat;
   field "load15" me_Load15 (λ x '(mkMetrics a b c d e f g h i j k l m n _ p q r s), mkMetrics a b c d e f g h i j k l m n x p q r s) decodeFloat;
   field "uptime" me_Uptime (λ x '(mkMetrics a b c d e f g h i j k l m n o _ q r s), mkMetrics a b c d e f g h i j k l m n o x q r s) (decodeUint 64);
   field "battery" me_Battery (λ x '(mkMetrics a b c d e f g h i j k l m n o p _ r s), mkMetrics a b c d e f g h i j k l m n o p x r s) (decodePtr noBattery decodeBattery);
   field "fs" me_Filesystems (λ x '(mkMetrics a b c d e f g h i j k l m n o p q _ s), mkMetrics a b c d e f g h i j k l m n o p q x s) (decodeSlice noFilesystem decodeFilesystem);
   field "containers" me_Containers (λ x '(mkMetrics a b c d e f g h i j k l m n o p q r _), mkMetrics a b c d e f g h i j k l m n o p q r x) (decodeSlice noContainer decodeContainer)].
Definition noProcess : Process := mkProcess 0 "" "" fzero 0 0 "".
Definition decodeProcess : decoder Process := decodeStruct
  [field "pid" pr_PID (λ x '(mkProcess _ b c d e f g), mkProcess x b c d e f g) (decodeInt 32);
   field "name" pr_Name (λ x '(mkProcess a _ c d e f g), mkProcess a x c d e f g) decodeString;
   field "user" pr_User (λ x '(mkProcess a b _ d e f g), mkProcess a b x d e f g) decodeString;
   field "cpu" pr_CPU (λ x '(mkProcess a b c _ e f g), mkProcess a b c x e f g) decodeFloat;
   field "mem" pr_Mem (λ x '(mkProcess a b c d _ f g), mkProcess a b c d x f g) (decodeUint 64);
   field "started" pr_Started (λ x '(mkProcess a b c d e _ g), mkProcess a b c d e x g) (decodeInt 64);
   field "cmd" pr_Command (λ x '(mkProcess a b c d e f _), mkProcess a b c d e f x) decodeString].
Definition decodeProcessList : decoder ProcessList := decodeStruct
  [field "processes" pl_Processes (λ x m, mkProcessList x (pl_Total m)) (decodeSlice noProcess decodeProcess);
   field "total" pl_Total (λ x m, mkProcessList (pl_Processes m) x) (decodeInt 64)].
#[export] Instance unmarshalMetrics : Unmarshal Metrics := unmarshalInto decodeMetrics noMetrics.
#[export] Instance unmarshalProcessList : Unmarshal ProcessList := unmarshalInto decodeProcessList (mkProcessList [] 0).
End numbers.

(** ** The hub's own texts, and the browser's *)
Definition noTarget : runTarget := mkRunTarget 0 "" "" None "" "" false 0 0.
Definition decodeTarget : decoder runTarget := decodeStruct
  [field "system_id" rt_SystemID (λ x '(mkRunTarget _ b c d e f g h i), mkRunTarget x b c d e f g h i) (decodeInt 64);
   field "system_name" rt_SystemName (λ x '(mkRunTarget a _ c d e f g h i), mkRunTarget a x c d e f g h i) decodeString;
   field "status" rt_Status (λ x '(mkRunTarget a b _ d e f g h i), mkRunTarget a b x d e f g h i) decodeString;
   field "exit_code" rt_ExitCode (λ x '(mkRunTarget a b c _ e f g h i), mkRunTarget a b c x e f g h i) (decodePtr 0 (decodeInt 64));
   field "error" rt_Error (λ x '(mkRunTarget a b c d _ f g h i), mkRunTarget a b c d x f g h i) decodeString;
   field "output" rt_Output (λ x '(mkRunTarget a b c d e _ g h i), mkRunTarget a b c d e x g h i) decodeString;
   field "truncated" rt_Truncated (λ x '(mkRunTarget a b c d e f _ h i), mkRunTarget a b c d e f x h i) decodeBool;
   field "started_at" rt_StartedAt (λ x '(mkRunTarget a b c d e f g _ i), mkRunTarget a b c d e f g x i) (decodeInt 64);
   field "finished_at" rt_FinishedAt (λ x '(mkRunTarget a b c d e f g h _), mkRunTarget a b c d e f g h x) (decodeInt 64)].
Definition decodeNotifierConfig : decoder notifierConfig := decodeStruct
  [field "url" nc_URL (λ x '(mkNotifierConfig _ b c d e f g h i j), mkNotifierConfig x b c d e f g h i j) decodeString;
   field "token" nc_Token (λ x '(mkNotifierConfig a _ c d e f g h i j), mkNotifierConfig a x c d e f g h i j) decodeString;
   field "chat_id" nc_ChatID (λ x '(mkNotifierConfig a b _ d e f g h i j), mkNotifierConfig a b x d e f g h i j) decodeString;
   field "host" nc_Host (λ x '(mkNotifierConfig a b c _ e f g h i j), mkNotifierConfig a b c x e f g h i j) decodeString;
   field "port" nc_Port (λ x '(mkNotifierConfig a b c d _ f g h i j), mkNotifierConfig a b c d x f g h i j) (decodeInt 64);
   field "username" nc_Username (λ x '(mkNotifierConfig a b c d e _ g h i j), mkNotifierConfig a b c d e x g h i j) decodeString;
   field "password" nc_Password (λ x '(mkNotifierConfig a b c d e f _ h i j), mkNotifierConfig a b c d e f x h i j) decodeString;
   field "from" nc_From (λ x '(mkNotifierConfig a b c d e f g _ i j), mkNotifierConfig a b c d e f g x i j) decodeString;
   field "to" nc_To (λ x '(mkNotifierConfig a b c d e f g h _ j), mkNotifierConfig a b c d e f g h x j) decodeString;
   field "tls" nc_TLS (λ x '(mkNotifierConfig a b c d e f g h i _), mkNotifierConfig a b c d e f g h i x) decodeString].
Definition decodeTermMsg : decoder termMsg := decodeStruct
  [field "type" tm_Type (λ x '(mkTermMsg _ b c d e f), mkTermMsg x b c d e f) decodeString;
   field "cols" tm_Cols (λ x '(mkTermMsg a _ c d e f), mkTermMsg a x c d e f) (decodeInt 64);
   field "rows" tm_Rows (λ x '(mkTermMsg a b _ d e f), mkTermMsg a b x d e f) (decodeInt 64);
   field "status" tm_Status (λ x '(mkTermMsg a b c _ e f), mkTermMsg a b c x e f) (decodePtr 0 (decodeInt 64));
   field "code" tm_Code (λ x '(mkTermMsg a b c d _ f), mkTermMsg a b c d x f) decodeString;
   field "message" tm_Message (λ x '(mkTermMsg a b c d e _), mkTermMsg a b c d e x) decodeString].
Definition decodeClientData : decoder clientData := decodeStruct
  [field "type" cd_Type (λ x '(mkClientData _ b c d), mkClientData x b c d) decodeString;
   field "challenge" cd_Challenge (λ x '(mkClientData a _ c d), mkClientData a x c d) decodeString;
   field "origin" cd_Origin (λ x '(mkClientData a b _ d), mkClientData a b x d) decodeString;
   field "crossOrigin" cd_CrossOrigin (λ x '(mkClientData a b c _), mkClientData a b c x) decodeBool].
#[export] Instance unmarshalTargets : Unmarshal (list runTarget) := unmarshalInto (decodeSlice noTarget decodeTarget) [].
#[export] Instance unmarshalNotifierConfig : Unmarshal notifierConfig :=
  unmarshalInto decodeNotifierConfig (mkNotifierConfig "" "" "" "" 0 "" "" "" "" "").
#[export] Instance unmarshalTermMsg : Unmarshal termMsg := unmarshalInto decodeTermMsg (mkTermMsg "" 0 0 None "" "").
#[export] Instance unmarshalClientData : Unmarshal clientData := unmarshalInto decodeClientData (mkClientData "" "" "" false).

(** ** What was written is read back *)
Definition cleanBattery (b : Battery) : Battery := mkBattery (bt_Percent b) (cleanStr (bt_State b)).
Definition cleanFilesystem (f : Filesystem) : Filesystem :=
  mkFilesystem (cleanStr (fs_Mount f)) (cleanStr (fs_Device f)) (cleanStr (fs_Type f)) (fs_Used f) (fs_Total f).
Definition cleanContainer (c : Container) : Container :=
  mkContainer (cleanStr (ct_ID c)) (cleanStr (ct_Name c)) (cleanStr (ct_Image c)) (cleanStr (ct_State c)) (cleanStr (ct_Status c))
    (ct_CPU c) (ct_Mem c) (ct_MemLimit c) (ct_NetRx c) (ct_NetTx c).
Definition cleanMetrics (m : Metrics) : Metrics :=
  mkMetrics (me_Time m) (me_CPU m) (me_MemUsed m) (me_MemTotal m) (me_SwapUsed m) (me_SwapTotal m) (me_DiskUsed m)
    (me_DiskTotal m) (me_DiskRead m) (me_DiskWrite m) (me_NetRx m) (me_NetTx m) (me_Load1 m) (me_Load5 m) (me_Load15 m)
    (me_Uptime m) (cleanBattery <$> me_Battery m) (map cleanFilesystem (me_Filesystems m)) (map cleanContainer (me_Containers m)).
Definition cleanProcess (p : Process) : Process :=
  mkProcess (pr_PID p) (cleanStr (pr_Name p)) (cleanStr (pr_User p)) (pr_CPU p) (pr_Mem p) (pr_Started p) (cleanStr (pr_Command p)).
Definition cleanProcesses (l : ProcessList) : ProcessList := mkProcessList (map cleanProcess (pl_Processes l)) (pl_Total l).
Definition cleanTarget (t : runTarget) : runTarget :=
  mkRunTarget (rt_SystemID t) (cleanStr (rt_SystemName t)) (cleanStr (rt_Status t)) (rt_ExitCode t) (cleanStr (rt_Error t)) (cleanStr (rt_Output t))
    (rt_Truncated t) (rt_StartedAt t) (rt_FinishedAt t).
Definition cleanNotifierConfig (c : notifierConfig) : notifierConfig :=
  mkNotifierConfig (cleanStr (nc_URL c)) (cleanStr (nc_Token c)) (cleanStr (nc_ChatID c)) (cleanStr (nc_Host c)) (nc_Port c)
    (cleanStr (nc_Username c)) (cleanStr (nc_Password c)) (cleanStr (nc_From c)) (cleanStr (nc_To c)) (cleanStr (nc_TLS c)).
(** The numbers fit their types. *)
Definition batteryFits (b : Battery) : Prop := isFloat64 (bt_Percent b).
Definition fsFits (f : Filesystem) : Prop := fitsUint 64 (fs_Used f) ∧ fitsUint 64 (fs_Total f).
Definition containerFits (c : Container) : Prop :=
  isFloat64 (ct_CPU c) ∧ fitsUint 64 (ct_Mem c) ∧ fitsUint 64 (ct_MemLimit c) ∧ isFloat64 (ct_NetRx c) ∧ isFloat64 (ct_NetTx c).
Record metricsFit (m : Metrics) : Prop := mkMetricsFit {
  mf_time : fitsInt 64 (me_Time m);
  mf_floats : Forall isFloat64 [me_CPU m; me_DiskRead m; me_DiskWrite m; me_NetRx m; me_NetTx m; me_Load1 m; me_Load5 m; me_Load15 m];
  mf_uints : Forall (fitsUint 64) [me_MemUsed m; me_MemTotal m; me_SwapUsed m; me_SwapTotal m; me_DiskUsed m; me_DiskTotal m; me_Uptime m];
  mf_battery : match me_Battery m with Some b => batteryFits b | None => True end;
  mf_fs : Forall fsFits (me_Filesystems m);
  mf_containers : Forall containerFits (me_Containers m);
}.
Definition processFits (p : Process) : Prop :=
  fitsInt 32 (pr_PID p) ∧ isFloat64 (pr_CPU p) ∧ fitsUint 64 (pr_Mem p) ∧ fitsInt 64 (pr_Started p).
Definition processesFit (l : ProcessList) : Prop := Forall processFits (pl_Processes l) ∧ fitsInt 64 (pl_Total l).
Definition targetFits (t : runTarget) : Prop :=
  fitsInt 64 (rt_SystemID t) ∧ match rt_ExitCode t with Some n => fitsInt 64 n | None => True end ∧ fitsInt 64 (rt_StartedAt t) ∧ fitsInt 64 (rt_FinishedAt t).

Section reading_back.
Context `{FloatText} `{!FloatTextLaws} `{FloatParse} `{!FloatParseLaws}.
Lemma decodeFloat_text f old : isFloat64 f → decodeFloat (valOf (JFloat f)) old = (f, true).
Proof. intros Hf. cbn [valOf decodeFloat]. by rewrite stringOf_bytesOf, parseFloat_text. Qed.
Lemma decodePtr_text {A} (zero : A) (dec : decoder A) v x : v ≠ VNull → dec v zero = (x, true) → decodePtr zero dec v None = (Some x, true).
Proof. intros Hv E. unfold decodePtr. cbn [default]. rewrite E. by destruct v. Qed.
End reading_back.
Ltac float_values :=
  repeat match goal with
  | H : isFloat64 ?f |- context [valOf (JFloat ?f)] =>
    let E := fresh in assert (E := λ old, decodeFloat_text f old H); generalize dependent (valOf (JFloat f)); intros ? E
  end.
Ltac wire_member :=
  match goal with
  | |- context [decodeMembers ?fs ((?k, ?v) :: ?ms) ?a] =>
    let i := eval vm_compute in (fieldIndex (map fst fs) k) in
    match i with
    | Some ?n => rewrite (decodeMembers_step fs n _ k v ms a ltac:(vm_compute; reflexivity) eq_refl)
    end
  end;
  cbn [snd field pl_Processes me_Battery me_Filesystems me_Containers rt_ExitCode];
  first [ match goal with H : ?d ?v ?o = (_, true) |- context [?d ?v ?o] => rewrite H end | match goal with H : _ |- _ => rewrite H end ].
(** The members of an object, floating-point numbers among them. *)
Ltac wire_object := unfold decodeStruct at 1; cbn [map fst snd app]; wire_values; float_values; repeat wire_member; cbn [decodeMembers andb].

Section reading_messages.
Context `{FloatText} `{!FloatTextLaws} `{FloatParse} `{!FloatParseLaws}.
Lemma battery_read b : batteryFits b → decodeBattery (valOf (JObj [("percent", JFloat (bt_Percent b)); ("state", JStr (bt_State b))])) noBattery = (cleanBattery b, true).
Proof. intros Hb. unfold batteryFits, decodeBattery in *. rewrite valOf_object. by wire_object. Qed.
Lemma filesystem_read f : fsFits f → decodeFilesystem (valOf (fsJSON f)) noFilesystem = (cleanFilesystem f, true).
Proof. intros [Hu Ht]. unfold fsJSON, decodeFilesystem, noFilesystem. rewrite valOf_object. by wire_object. Qed.
Lemma container_read c : containerFits c → decodeContainer (valOf (containerJSON c)) noContainer = (cleanContainer c, true).
Proof. intros (Hc & Hm & Hl & Hr & Ht). unfold containerJSON, decodeContainer, noContainer. rewrite valOf_object. by wire_object. Qed.
Lemma batteryJSON_read b : batteryFits b →
  decodePtr noBattery decodeBattery (valOf (JObj [("percent", JFloat (bt_Percent b)); ("state", JStr (bt_State b))])) None = (Some (cleanBattery b), true).
Proof. intros Hb. apply decodePtr_text; [done|by apply battery_read]. Qed.
Lemma filesystems_read l : Forall fsFits l → decodeSlice noFilesystem decodeFilesystem (valOf (JArr (map fsJSON l))) [] = (map cleanFilesystem l, true).
Proof. rewrite Forall_forall. intros Hl. apply decodeSlice_text. intros. by apply filesystem_read, Hl. Qed.
Lemma containers_read l : Forall containerFits l → decodeSlice noContainer decodeContainer (valOf (JArr (map containerJSON l))) [] = (map cleanContainer l, true).
Proof. rewrite Forall_forall. intros Hl. apply decodeSlice_text. intros. by apply container_read, Hl. Qed.
Lemma metrics_read m : metricsFit m → decodeMetrics (valOf (metricsJSON m)) noMetrics = (cleanMetrics m, true).
Proof.
  intros [Ht Hf Hu Hb Hs Hc]. rewrite !Forall_cons in Hf. rewrite !Forall_cons in Hu. destruct_and!. apply filesystems_read in Hs. apply containers_read in Hc.
  unfold metricsJSON, decodeMetrics, noMetrics, cleanMetrics. rewrite valOf_object.
  unfold decodeStruct at 1. cbn [map fst snd app]. wire_values. float_values. do 16 wire_member.
  destruct (me_Battery m) as [b|]; [apply batteryJSON_read in Hb|clear Hb];
    destruct (me_Filesystems m) as [|f fs], (me_Containers m) as [|c cs]; cbn [map] in Hs, Hc; cbn [fmap option_fmap option_map map fst snd app];
    repeat wire_member; cbn [decodeMembers andb]; done.
Qed.
Lemma process_read p : processFits p → decodeProcess (valOf (processJSON p)) noProcess = (cleanProcess p, true).
Proof.
  intros (Hp & Hc & Hm & Hs). unfold processJSON, decodeProcess, noProcess, omitEmpty, cleanProcess. rewrite valOf_object.
  destruct (String.eqb_spec (pr_User p) "") as [->|], (Z.eqb_spec (pr_Started p) 0) as [->|], (String.eqb_spec (pr_Command p) "") as [->|]; by wire_object.
Qed.
Lemma processes_read l : processesFit l → decodeProcessList (valOf (processListJSON l)) (mkProcessList [] 0) = (cleanProcesses l, true).
Proof.
  intros [Hl Ht]. unfold processListJSON, decodeProcessList. rewrite valOf_object. rewrite Forall_forall in Hl.
  pose proof (decodeSlice_text noProcess decodeProcess processJSON cleanProcess (pl_Processes l) (λ p Hp, process_read p (Hl p Hp))). by wire_object.
Qed.
Lemma exitCode_read o : match o with Some n => fitsInt 64 n | None => True end → decodePtr 0 (decodeInt 64) (valOf (JOptInt o)) None = (o, true).
Proof. destruct o as [n|]; intros Hn; [|done]. apply decodePtr_text; [done|by apply decodeInt_text]. Qed.
Lemma target_read t : targetFits t → decodeTarget (valOf (targetJSON t)) noTarget = (cleanTarget t, true).
Proof.
  intros (Hi & Hx & Hs & Hf). apply exitCode_read in Hx. unfold targetJSON, decodeTarget, noTarget, omitEmpty, cleanTarget. rewrite valOf_object.
  destruct (String.eqb_spec (rt_Error t) "") as [->|], (rt_Truncated t), (Z.eqb_spec (rt_StartedAt t) 0) as [->|], (Z.eqb_spec (rt_FinishedAt t) 0) as [->|]; by wire_object.
Qed.
Lemma targets_read l : Forall targetFits l → decodeSlice noTarget decodeTarget (valOf (JArr (map targetJSON l))) [] = (map cleanTarget l, true).
Proof. rewrite Forall_forall. intros Hl. apply decodeSlice_text. intros. by apply target_read, Hl. Qed.
(** A text with [omitempty]: left out, the variable keeps the empty text it holds. *)
Definition member (kx : string * json) : list Z * jval := (toValid (bytesOf kx.1), valOf kx.2).
Lemma strField_step {A} (fs : list (fieldSpec A)) i k (get : A → string) set a v ms :
  fieldIndex (map fst fs) (toValid (bytesOf k)) = Some i → nth_error fs i = Some (field k get set decodeString) → set "" a = a →
  decodeMembers fs (map member (strField k v) ++ ms) a = decodeMembers fs ms (set (cleanStr v) a).
Proof.
  intros Ei Ef Ha. unfold strField. destruct (String.eqb_spec v "") as [->|_]; cbn [map app]; [by change (cleanStr "") with ""; rewrite Ha|].
  unfold member. cbn [fst snd]. rewrite (decodeMembers_step _ _ _ _ _ _ _ Ei Ef). cbn [snd field]. rewrite decodeString_text.
  by destruct (decodeMembers fs ms _).
Qed.
Ltac text_member := erewrite strField_step; [|vm_compute; reflexivity|reflexivity|reflexivity].
Lemma notifierConfig_read c : fitsInt 64 (nc_Port c) →
  decodeNotifierConfig (valOf (JObj (configFields c))) (mkNotifierConfig "" "" "" "" 0 "" "" "" "" "") = (cleanNotifierConfig c, true).
Proof.
  intros Hp. rewrite valOf_object. change (map _ (configFields c)) with (map member (configFields c)). unfold decodeNotifierConfig, decodeStruct, configFields.
  rewrite !map_app, <-(app_nil_r (map member (strField "tls" _))). do 4 text_member.
  destruct (Z.eqb_spec (nc_Port c) 0) as [E|_]; cbn [map app].
  - do 5 text_member. unfold cleanNotifierConfig. rewrite E. done.
  - unfold member at 1. cbn [fst snd]. pose proof (decodeInt_text 64 (nc_Port c)) as Hd. erewrite decodeMembers_step; [|vm_compute; reflexivity|reflexivity].
    cbn [snd field]. rewrite Hd by (done || lia). do 5 text_member. done.
Qed.
End reading_messages.

(** ** Samples on their way to the history *)
(** [maxFilesystems] are kept. *)
Definition received (m : Metrics) : Metrics :=
  let m' := cleanMetrics m in
  if (maxFilesystems <? length (me_Filesystems m'))%nat then withMetricsFS (take maxFilesystems (me_Filesystems m')) m' else m'.
Lemma received_values m : metricValues (received m) = metricValues m.
Proof. unfold received. by destruct (_ <? _)%nat. Qed.
Lemma finite_floats {A} (f : A → json) l : (∀ x, x ∈ l → finiteIn (f x) = true) → forallb finiteIn (map f l) = true.
Proof. intros Hf. apply forallb_forall. intros y (x & <- & Hx)%in_map_iff. by apply Hf, list_elem_of_In. Qed.
Lemma array_depth {A} (f : A → json) l : (∀ x, depthOf (f x) ≤ 1) → depthOf (JArr (map f l)) ≤ 2.
Proof. intros Hf. cbn [depthOf]. apply (Z.add_le_mono_l _ 1 1), depths_bound; [done|]. by intros y (x & -> & _)%list_elem_of_fmap. Qed.
Lemma metrics_plain m : metricsFit m → plain (metricsJSON m).
Proof.
  intros [_ Hf _ Hb _ Hc]. rewrite !Forall_cons in Hf. destruct Hf as ([F1 _] & [F2 _] & [F3 _] & [F4 _] & [F5 _] & [F6 _] & [F7 _] & [F8 _] & _).
  rewrite Forall_forall in Hc. unfold plain, maxNestingDepth, metricsJSON.
  assert (Hbat : ∀ b, me_Battery m = Some b → finite (bt_Percent b) = true) by (intros b E; rewrite E in Hb; apply Hb).
  assert (Hcs : forallb finiteIn (map containerJSON (me_Containers m)) = true).
  { apply finite_floats. intros c Hin. destruct (Hc c Hin) as ([E1 _] & _ & _ & [E2 _] & [E3 _]). cbn. by rewrite E1, E2, E3. }
  assert (Hfs : forallb finiteIn (map fsJSON (me_Filesystems m)) = true) by by apply finite_floats.
  pose proof (array_depth containerJSON (me_Containers m) ltac:(done)) as Dc. pose proof (array_depth fsJSON (me_Filesystems m) ltac:(done)) as Df.
  destruct (me_Battery m) as [b|]; [specialize (Hbat b eq_refl)|]; destruct (me_Filesystems m), (me_Containers m);
    cbn [depthOf finiteIn fold_right forallb snd app map] in *; rewrite ?F1, ?F2, ?F3, ?F4, ?F5, ?F6, ?F7, ?F8, ?Hbat; cbn [andb]; rewrite ?Hfs, ?Hcs; (split; [lia|done]).
Qed.

Lemma target_plain t : depthOf (targetJSON t) ≤ 1 ∧ finiteIn (targetJSON t) = true.
Proof.
  unfold targetJSON, omitEmpty. destruct (rt_ExitCode t), (String.eqb _ ""), (rt_Truncated t), (rt_StartedAt t =? 0), (rt_FinishedAt t =? 0); done.
Qed.
Lemma targets_plain l : plain (JArr (map targetJSON l)).
Proof.
  split; [etrans; [apply array_depth; intros; apply target_plain|done]|]. cbn [finiteIn]. apply finite_floats. intros. apply target_plain.
Qed.
Lemma strField_plain k v : Forall (λ kx, depthOf kx.2 = 0 ∧ finiteIn kx.2 = true) (strField k v).
Proof. unfold strField. destruct (String.eqb v ""); by repeat constructor. Qed.
Lemma flat_plain l : Forall (λ kx : string * json, depthOf kx.2 = 0 ∧ finiteIn kx.2 = true) l → plain (JObj l).
Proof.
  intros Hl. unfold plain, maxNestingDepth. cbn [depthOf finiteIn]. induction Hl as [|kx l [Hd Hf] _ IH]; [done|].
  cbn [fold_right forallb]. rewrite Hd, Hf. destruct IH as [Hi ->]. split; [|done].
  destruct (Z.max_spec 0 (fold_right (λ kx m, Z.max (depthOf kx.2) m) 0 l)) as [[_ ->]|[_ ->]]; lia.
Qed.
Lemma notifierConfig_plain c : plain (JObj (configFields c)).
Proof.
  apply flat_plain. unfold configFields. repeat apply Forall_app_2; try apply strField_plain. destruct (nc_Port c =? 0); by repeat constructor.
Qed.
Lemma processes_plain l : processesFit l → plain (processListJSON l).
Proof.
  intros [Hl _]. rewrite Forall_forall in Hl.
  assert (Hd : ∀ p, depthOf (processJSON p) ≤ 1) by (intros p; unfold processJSON, omitEmpty; by destruct (String.eqb (pr_User p) ""), (pr_Started p =? 0), (String.eqb (pr_Command p) "")).
  pose proof (array_depth processJSON (pl_Processes l) Hd) as Ha. split; [unfold processListJSON, maxNestingDepth; cbn [depthOf fold_right snd] in *; lia|].
  unfold processListJSON. cbn [finiteIn forallb snd]. rewrite finite_floats; [done|]. intros p Hp. destruct (Hl p Hp) as (_ & [Hf _] & _).
  unfold processJSON, omitEmpty. destruct (String.eqb (pr_User p) ""), (pr_Started p =? 0), (String.eqb (pr_Command p) ""); cbn [finiteIn forallb snd app]; by rewrite Hf.
Qed.

Section stored.
Context `{FloatText} `{!FloatTextLaws} `{FloatParse} `{!FloatParseLaws}.
(** C16. What the hub stores or gets as JSON it reads back: the last sample of a system, the settings of a notification
    channel with their secrets, an agent's list of processes, and the results of a run, which a browser is shown
    from the database once the run has left the memory. Numbers must fit their types; texts are unchanged up to bytes that are not valid UTF-8. *)
Theorem stored_texts_read :
  (∀ m, metricsFit m → unmarshal (jsonMarshal (metricsJSON m)) = (cleanMetrics m, true))
  ∧ (∀ c, fitsInt 64 (nc_Port c) → unmarshal (jsonMarshal (JObj (configFields c))) = (cleanNotifierConfig c, true))
  ∧ (∀ l, processesFit l → unmarshal (jsonMarshal (processListJSON l)) = (cleanProcesses l, true))
  ∧ (∀ h rec l, h_runs h !! sn_ID rec = None → sn_Targets rec = jsonMarshal (JArr (map targetJSON l)) → Forall targetFits l →
       runDTO h rec = (rec, map cleanTarget l)).
Proof.
  split_and!.
  - intros m Hm. apply marshal_read; [by apply metrics_plain|by apply metrics_read].
  - intros c Hc. apply marshal_read; [apply notifierConfig_plain|by apply notifierConfig_read].
  - intros l Hl. apply marshal_read; [by apply processes_plain|by apply processes_read].
  - intros h rec l Hr Ht Hl. unfold runDTO. rewrite Hr, Ht. unfold unmarshal, unmarshalTargets.
    by rewrite (marshal_read _ _ _ _ (targets_plain l) (targets_read l Hl)).
Qed.
End stored.

Section history.
Context `{Lib} `{FloatText} `{!FloatTextLaws} `{FloatParse} `{!FloatParseLaws} (formatPct formatNum : f64 → string).
#[local] Instance historyMarshal : Marshal := jsonMarshal.
Abbreviation agentRequest := (agentRequest formatPct formatNum).
Abbreviation reports := (reports formatPct formatNum).
Abbreviation tables h := (m_db (h_m h)).
Lemma sample_recorded id m h : metricsFit m →
  agentRequest id ReqMetrics (jsonMarshal (metricsJSON m)) h = (record formatPct formatNum id (received m);; mret true) h.
Proof.
  intros Hm. unfold Gateway.agentRequest. cbn [String.eqb Ascii.eqb Bool.eqb ReqMetrics negb].
  unfold unmarshal, unmarshalMetrics. rewrite (marshal_read decodeMetrics noMetrics _ _ (metrics_plain m Hm) (metrics_read m Hm)). done.
Qed.
(** What the hub makes of an agent's messages: samples, as the agent sent them, with the second each arrived in; messages the
    hub refuses, the periodic flush and what does not concern this system may come in between. *)
Inductive telemetry (id : Z) : list (Z * Metrics) → hub → hub → Prop :=
| telemetry_none h : telemetry id [] h h
| telemetry_sample l h h1 h2 m ans : telemetry id l h h1 → metricsFit m →
    agentRequest id ReqMetrics (jsonMarshal (metricsJSON m)) h1 = (ans, h2) → clock (h_m h1) ≤ clock (h_m h2) →
    telemetry id (l ++ [(arrival h2, m)]) h h2
| telemetry_refused l h h1 h2 typ payload : telemetry id l h h1 → agentRequest id typ payload h1 = (false, h2) → telemetry id l h h2
| telemetry_flush l h h1 h2 : telemetry id l h h1 → flushState id false h1 = (tt, h2) → clock (h_m h1) ≤ clock (h_m h2) → telemetry id l h h2
| telemetry_other l h h1 h2 : telemetry id l h h1 → bystander id h1 h2 → clock (h_m h1) ≤ clock (h_m h2) → telemetry id l h h2.
Lemma refused_same id typ payload h h' : agentRequest id typ payload h = (false, h') → h' = h.
Proof.
  unfold Gateway.agentRequest. destruct (negb _); [by intros [= <-]|]. destruct (unmarshal payload) as [m ok].
  destruct (negb ok); [by intros [= <-]|]. unfold mbind, M_bind. by destruct (record _ _ _ _ _).
Qed.
Lemma telemetry_reports id l h h' : telemetry id l h h' → reports id (map (λ x, (x.1, received x.2)) l) h h'.
Proof.
  induction 1 as [h|l h h1 h2 m ans _ IH Hm Hr Hc|l h h1 h2 typ payload _ IH Hr|l h h1 h2 _ IH Hf Hc|l h h1 h2 _ IH Hb Hc].
  - constructor.
  - rewrite map_app. cbn [map fst snd]. rewrite sample_recorded in Hr by done. unfold mbind, M_bind in Hr.
    destruct (record _ _ _ _ h1) as [[] h3] eqn:E. injection Hr as _ <-. by eapply reports_sample.
  - by apply refused_same in Hr as ->.
  - by eapply reports_flush.
  - by eapply reports_other.
Qed.
Lemma inMinute_received l minute : inMinute (map (λ x, (x.1, received x.2)) l) minute = map received (inMinute l minute).
Proof.
  unfold inMinute, selectWhere. induction l as [|[t m] l IH]; [done|]. cbn [map List.filter fst snd]. by destruct (minuteOf t =? minute); cbn [map snd]; rewrite IH.
Qed.
Lemma average_received xs : averageOf (map received xs) = averageOf xs.
Proof.
  unfold averageOf. rewrite length_map. f_equal. unfold sumOf. generalize zeroSum. induction xs as [|m xs IH]; intros z; [done|].
  cbn [map fold_left]. by rewrite received_values, IH.
Qed.

(** C13. The history shows what the agent measured. From the bytes an agent sends to the charts, for a system the database knows, from
    its first connection since the hub started and over that connection: whatever mix of samples (their numbers fitting
    their types), refused messages, periodic flushes and events that do not concern this system follow, each minute that had
    samples is stored as the column-wise average of the values the agent sent, in the order they arrived, or is
    the bucket in memory with that average while it lasts; and the live chart shows the last 180 of them with their exact values.
    Encoding, decoding, the limits on lists and the storing lose and alter no value. The database works throughout and the
    hub's clock does not go back; a second connection within the minute is excluded, since it replaces the row of
    that minute (see [Systems.reconnect_replaces_minute]). *)
Theorem history_end_to_end (id : Z) (l : list (Z * Metrics)) (h h' : hub) (Hnew : justConnected id h) (Hrun : telemetry id l h h') :
  liveSeries id h' = drop (length l - 180) (map (λ x, mkMetricRow x.1 (metricValues x.2)) l)
  ∧ ∀ minute, inMinute l minute ≠ [] →
      if isOpen (stateAt id h') minute
      then ∃ row, currentBucket id h' = Some row ∧ mr_Values row = averageOf (inMinute l minute)
      else metrics (tables h') !! (id, Res1, minute) = Some (averageOf (inMinute l minute)).
Proof.
  apply telemetry_reports in Hrun. split.
  - destruct (live_chart _ _ _ _ _ _ Hnew Hrun) as [-> _]. rewrite length_map, map_map. f_equal. apply map_ext. intros [t m]. cbn [fst snd].
    by rewrite received_values.
  - intros minute Hsome. rewrite <-average_received, <-inMinute_received. apply (minute_averages _ _ _ _ _ _ Hnew Hrun).
    rewrite inMinute_received. by intros E%map_eq_nil.
Qed.
End history.

(** *** Witness: three samples, with numbers written as an integer that identifies them *)
Definition floatCode (f : f64) : Z :=
  match f with
  | S754_zero false => 0
  | S754_zero true => 1
  | S754_finite s m e => (if s then -1 else 1) * (Z.pos m * 4096 + (e + 2000))
  | _ => 2
  end.
Definition codedFloat (n : Z) : f64 :=
  if n =? 0 then S754_zero false else if n =? 1 then S754_zero true
  else match Z.abs n / 4096 with Z.pos m => S754_finite (n <? 0) m (Z.abs n mod 4096 - 2000) | _ => S754_nan end.
Definition codeText : FloatText := λ f, itoa (floatCode f).
Definition codeParse : FloatParse := λ s, let '(n, ok) := ParseInt 128 s in if (ok : bool) then Some (codedFloat n) else None.
Lemma codeTextLaws : @FloatTextLaws codeText.
Proof. intros f _. apply intText_numeric. Qed.
Lemma digits2_bound m : Z.pos m < 2 ^ Z.pos (digits2_pos m).
Proof.
  induction m as [m IH|m IH|]; [..|done]; cbn [digits2_pos]; rewrite Pos2Z.inj_succ, Z.pow_succ_r by lia; lia.
Qed.
Lemma finite_range s m e : isFloat64 (S754_finite s m e) → Z.pos m < 2 ^ 53 ∧ -1074 ≤ e ≤ 971.
Proof.
  intros [_ Hv]. cbn in Hv. unfold bounded, canonical_mantissa in Hv. apply andb_true_iff in Hv as [Hc He].
  apply Z.eqb_eq in Hc. apply Z.leb_le in He. unfold SpecFloat.fexp, SpecFloat.emin, femax, fprec in *.
  pose proof (digits2_bound m). assert (2 ^ Z.pos (digits2_pos m) ≤ 2 ^ 53) by (apply Z.pow_le_mono_r; lia). lia.
Qed.
Lemma codeParseLaws : @FloatParseLaws codeText codeParse.
Proof.
  intros f Hf. unfold parseFloat, codeParse, floatText, codeText.
  assert (Hr : - 2 ^ 127 ≤ floatCode f < 2 ^ 127 ∧ codedFloat (floatCode f) = f).
  { destruct f as [[]|[]| |s m e]; try done; try (by destruct Hf). apply finite_range in Hf as [Hm He].
    set (k := Z.pos m * 4096 + (e + 2000)). assert (Hk : 4096 ≤ k < 2 ^ 66) by lia.
    assert (Hq : k / 4096 = Z.pos m ∧ k mod 4096 = e + 2000).
    { split; [symmetry; apply (Z.div_unique _ _ _ (e + 2000)); lia|symmetry; apply (Z.mod_unique _ _ (Z.pos m)); lia]. }
    destruct Hq as [Hq Hmod]. unfold floatCode. fold k. split; [destruct s; lia|]. unfold codedFloat.
    rewrite !(proj2 (Z.eqb_neq _ _)) by (destruct s; lia).
    replace (Z.abs ((if s then -1 else 1) * k)) with k by (destruct s; lia). rewrite Hq, Hmod.
    replace ((if s then -1 else 1) * k <? 0) with s by (destruct s; symmetry; [apply Z.ltb_lt|apply Z.ltb_ge]; lia). f_equal. lia. }
  destruct Hr as [Hr E]. rewrite ParseInt_itoa by (done || lia). by rewrite E.
Qed.
Definition demoArrives (cpu : Z) : M hub bool :=
  @agentRequest demoLib (@jsonMarshal codeText) (@unmarshalMetrics codeParse) (λ _, "") (λ _, "") 1 ReqMetrics (@jsonMarshal codeText (metricsJSON (demoSample cpu))).
Definition demoTold : hub := (demoArrives 70 (demoArrives 30 (demoArrives 10 demoConnected).2).2).2.
Lemma history_end_to_end_witness :
  metrics (m_db (h_m demoTold)) !! (1, Res1, 120) = Some (averageOf [demoSample 10; demoSample 30])
  ∧ map mr_TS (liveSeries 1 demoTold) = [125; 135; 185].
Proof.
  assert (Hfit : metricsFit (demoSample 10) ∧ metricsFit (demoSample 30) ∧ metricsFit (demoSample 70)).
  { split_and!; (split; cbn [me_Time me_Battery me_Filesystems me_Containers demoSample]; [by vm_compute| | |done|by constructor..]);
      repeat constructor; by vm_compute. }
  destruct Hfit as (F1 & F2 & F3).
  assert (Hrun : @telemetry demoLib codeText codeParse (λ _, "") (λ _, "") 1 [(125, demoSample 10); (135, demoSample 30); (185, demoSample 70)] demoConnected demoTold).
  { pose proof (@telemetry_none demoLib codeText codeParse (λ _, "") (λ _, "") 1 demoConnected) as T0.
    pose proof (telemetry_sample _ _ _ _ _ _ _ _ _ T0 F1 (surjective_pairing _) ltac:(by vm_compute)) as T1.
    pose proof (telemetry_sample _ _ _ _ _ _ _ _ _ T1 F2 (surjective_pairing _) ltac:(by vm_compute)) as T2.
    exact (telemetry_sample _ _ _ _ _ _ _ _ _ T2 F3 (surjective_pairing _) ltac:(by vm_compute)). }
  destruct (@history_end_to_end demoLib codeText codeTextLaws codeParse codeParseLaws (λ _, "") (λ _, "") 1 _ demoConnected demoTold demoJustConnected Hrun) as [Hlive Hmin].
  split; [exact (Hmin 120 ltac:(discriminate))|]. rewrite Hlive. reflexivity.
Defined.
Lemma stored_texts_read_witness :
  let c := mkNotifierConfig "https://ntfy.sh/büro" "tk<1>" "" "" 0 "" "" "" "" "" in
  unmarshal (@jsonMarshal codeText (JObj (configFields c))) = (c, true)
  ∧ runDTO demoConnected (mkScriptRun 1 None "up" "sh" "uptime" 60 "ada" 0 (Some 5)
      (@jsonMarshal codeText (JArr (map targetJSON [mkRunTarget 1 "pi" "done" (Some 0) "" "up" false 1 2]))))
    = (mkScriptRun 1 None "up" "sh" "uptime" 60 "ada" 0 (Some 5)
        (@jsonMarshal codeText (JArr (map targetJSON [mkRunTarget 1 "pi" "done" (Some 0) "" "up" false 1 2]))), [mkRunTarget 1 "pi" "done" (Some 0) "" "up" false 1 2]).
Proof.
  destruct (@stored_texts_read codeText codeTextLaws codeParse codeParseLaws) as (_ & Hc & _ & Hr). intros c. split.
  - rewrite (Hc c) by by vm_compute. vm_compute. reflexivity.
  - rewrite (Hr demoConnected _ [mkRunTarget 1 "pi" "done" (Some 0) "" "up" false 1 2]); [vm_compute; reflexivity|reflexivity|reflexivity|].
    repeat constructor; by vm_compute.
Defined.
