(* ===== verification/EndToEnd.v ===== *)
(** * Hub and agent together

    The two sides of the protocol composed, byte by byte: what the browser is told of a remote action is
    what happened on the machine, a machine enrolls with its token once and is known by its key
    afterwards, and an update the hub offers is one the agent takes. *)
From Stdlib Require Import ZArith Lia Ascii String.
From S2P Require Import Prelude GoStrings Float64 Library Version Paths Migrations Store StoreTables StoreInv StoreSteps Metrics Limiter TailBuffer Update Wol Webauthn Protocol JSON Hub Auth AuthProps Alerts AlertProps AlertApi State Gateway Systems Links Control Runs Maintenance Host AgentConfig AgentState AgentUpdate AgentServices Processes Agent AgentShell AgentProps Sign AgentCommand HubStart Wire.
From stdpp Require Import base gmap strings list relations.
Local Open Scope string_scope.
Local Open Scope list_scope.
Local Open Scope Z_scope.
Local Open Scope lotse_scope.

(** A text that was there is still there after its way through JSON. *)
Lemma chars_nonempty p : p ≠ [] → ∃ c cs, chars p = c :: cs ∧ c ≠ [].
Proof.
  destruct p as [|b p]; [done|]. intros _. unfold chars. cbn [length charsOf]. eexists _, _. split; [done|].
  pose proof (runeWidth_pos b p). by destruct (runeWidth (b :: p)); [lia|].
Qed.
Lemma cleanStr_empty s : cleanStr s = "" → s = "".
Proof.
  destruct s as [|a s]; [done|]. unfold cleanStr. intros E. exfalso. apply (f_equal String.length) in E.
  unfold stringOf in E. rewrite <-length_list_ascii, list_ascii_of_string_of_list_ascii, length_map in E.
  unfold toValid in E. destruct (chars_nonempty (bytesOf (String a s)) ltac:(done)) as (c & cs & Ec & Hc). rewrite Ec in E.
  cbn [flat_map] in E. rewrite length_app in E. unfold validChar in E. destruct c as [|b [|b1 c]]; [done| |cbn in E; lia].
  destruct (b <? 128); cbn in E; lia.
Qed.

(** ** Remote actions *)
(** Rebooting or shutting down, controlling a service, stopping a process. *)
Inductive command : Type :=
| CmdPower (action : string)
| CmdService (name action : string)
| CmdSignal (signal name : string).

Section remote.
Context `{Lib} `{FloatText} `{!FloatTextLaws}.
Implicit Types (r : Hub.request) (s : Session) (h : hub) (a : agent) (w : world) (c : command).

Definition perform r s c : M hub response :=
  match c with
  | CmdPower action => postPower r s (Some action)
  | CmdService name action => postService r s (Some (mkServiceBody name action))
  | CmdSignal signal name => postSignal r s (Some (mkSignalBody signal name))
  end.
(** The request a command becomes; the process is named in the path. *)
Definition asked r c : hubRequest :=
  match c with
  | CmdPower action => RPower (Some action)
  | CmdService name action => RService (Some (name, action))
  | CmdSignal signal _ => RSignal (Some ((ParseInt 32 (rq_PathValue r "pid")).1, signal))
  end.
(** What the hub hears of an answer: nothing when it gets lost. *)
Definition delivered (lost : bool) (answer : bool * string) : list (bool * string * bool) := if lost then [] else [(answer.1, answer.2, true)].
(** What the browser is told when the agent's outcome is [err] (empty for success), and when the answer is lost. *)
Definition told c (lost : bool) (err : string) : response :=
  if lost then writeError 422 (match c with CmdSignal _ _ => "the agent did not answer" | _ => "the agent did not answer; it may need an update" end)
  else if String.eqb err "" then noContent else writeError 422 (cleanStr err).

(** The request and the end of the link after a lost answer. *)
Definition sentTo (ac : agentConn) (lost : bool) (typ : string) (j : json) : list effect :=
  ESend (ac_conn ac) typ j :: if lost then [ECloseLink (ac_conn ac)] else [].
Lemma wp_send_delivered conn typ j lost answer h (Q : bool * string * bool → hub → Prop) :
  h_replies h = delivered lost answer →
  (∀ h', h_trace h' = h_trace h ++ ESend conn typ j :: (if lost then [ECloseLink conn] else []) →
     Q (if lost then (false, "", false) else (answer.1, answer.2, true)) h') →
  wp (send conn typ j) Q h.
Proof.
  intros Hr HQ. unfold send. apply wp_bind, wp_modify, wp_bind, wp_get. cbn [h_replies Hub.with_trace]. rewrite Hr. unfold delivered.
  destruct lost; (apply wp_bind, wp_modify, wp_ret, HQ; cbn; by rewrite <-?app_assoc).
Qed.
(** The outcome of a handler: nothing was sent, or exactly the request, and the browser is told what came back. *)
Definition answered r c (lost : bool) (err : string) h (resp : response) h' : Prop :=
  h_trace h' = h_trace h
  ∨ ∃ ac typ j, h_agents h !! (ParseInt 64 (rq_PathValue r "id")).1 = Some ac ∧ encodeRequest (asked r c) = Some (typ, j)
      ∧ h_trace h' = h_trace h ++ sentTo ac lost typ j ∧ resp = told c lost err.
Lemma outcome_reply (err : string) : (unmarshal (replyOf (PAction err)).2 : ActionReply * bool).1 = mkActionReply (cleanStr err).
Proof. cbn [replyOf snd]. by rewrite outcome_read. Qed.
Lemma sendAction_told ac typ j lost err h (Q : string → hub → Prop) :
  h_replies h = delivered lost (replyOf (PAction err)) →
  (∀ h', h_trace h' = h_trace h ++ sentTo ac lost typ j →
     Q (if lost then "the agent did not answer; it may need an update" else cleanStr err) h') →
  wp (sendAction ac typ j) Q h.
Proof.
  intros Hr HQ. unfold sendAction. apply wp_bind, (wp_send_delivered _ _ _ lost (replyOf (PAction err))); [done|]. intros h' Ht.
  destruct lost; apply wp_ret.
  - apply HQ, Ht.
  - rewrite outcome_reply. cbn [rp_Error replyOf fst negb orb]. specialize (HQ h' Ht). destruct (String.eqb_spec err "") as [->|Hne]; [exact HQ|].
    cbn in HQ |- *. destruct (String.eqb_spec (cleanStr err) "") as [E|_]; [by apply cleanStr_empty in E|exact HQ].
Qed.
(** The last part of the handlers of power and services, from the re-authentication on. *)
Lemma answered_quiet r c lost err h resp h' : h_trace h' = h_trace h → answered r c lost err h resp h'.
Proof. by left. Qed.
Lemma guarded_told {A} r s c h h1 sys ac refused lost err typ j (act : M hub A) (finish : A → M hub response) :
  sameClock h h1 → sy_ID sys = (ParseInt 64 (rq_PathValue r "id")).1 → h_agents h !! sy_ID sys = Some ac →
  encodeRequest (asked r c) = Some (typ, j) →
  (∀ h2, h_replies h2 = h_replies h → h_trace h2 = h_trace h → wp act (λ x h3, h_trace h3 = h_trace h ++ sentTo ac lost typ j
     ∧ wp (finish x) (λ resp h4, h_trace h4 = h_trace h3 ∧ resp = told c lost err) h3) h2) →
  wp (_ ⇐ requireElevated s; _ ⇐ mret (ensure (has ac FeatureShell) refused); x ← act; finish x) (answered r c lost err h) h1.
Proof.
  intros (m & -> & _) Hid Hac Henc Hact. apply wp_bind, wp_elevated; [intros; by apply wp_ret, answered_quiet|]. intros m2 _ _ _.
  apply wp_bind, wp_ret. destruct (ensure _ _) as [?|[]]; [by apply wp_ret, answered_quiet|]. apply wp_bind.
  eapply wp_mono; [by apply Hact|]. intros x h3 [Ht Hf]. eapply wp_mono; [exact Hf|]. intros resp h4 [Ht4 ->]. right.
  exists ac, typ, j. rewrite <-Hid. split_and!; [done..|congruence|done].
Qed.
(** The last lines of the handlers: the activity log and the answer. *)
Lemma told_action r c s (sys : System) (lost : bool) (err good bad d1 d2 msg : string) h3 : msg = (if lost then "the agent did not answer; it may need an update" else cleanStr err) →
  match c with CmdSignal _ _ => False | _ => True end →
  wp (if negb (String.eqb msg "") then
        audit (Some r) (u_Username (s_User s)) bad (Some sys) d1;; mret (writeError 422 msg)
      else audit (Some r) (u_Username (s_User s)) good (Some sys) d2;; mret noContent)
    (λ resp h4, h_trace h4 = h_trace h3 ∧ resp = told c lost err) h3.
Proof.
  intros Hmsg Hc. assert (Hresp : (if negb (String.eqb msg "") then writeError 422 msg else noContent) = told c lost err).
  { unfold told. rewrite Hmsg. destruct lost; [by destruct c|]. destruct (String.eqb_spec err "") as [->|Hne]; [done|].
    destruct (String.eqb_spec (cleanStr err) "") as [E|_]; [by apply cleanStr_empty in E|done]. }
  destruct (negb _); apply wp_bind, wp_audit; intros h4 Ht _; by apply wp_ret.
Qed.
Lemma perform_told r s c lost err h : h_replies h = delivered lost (replyOf (PAction err)) → wp (perform r s c) (answered r c lost err h) h.
Proof.
  intros Hr. destruct c as [action|name action|signal pname]; cbn [perform]; unfold postPower, postService, postSignal;
    (apply wp_bind, wp_onlineAgent; [intros resp h1 Ht; by apply wp_ret, answered_quiet|]);
    intros sys ac h1 Hsc _ Hid Hac; assert (Hq : h_trace h1 = h_trace h) by (destruct Hsc as (m & -> & _); done).
  - apply wp_bind, wp_ret. cbn [readJSON]. apply wp_bind, wp_ret. destruct (ensure _ _) as [?|[]]; [by apply wp_ret, answered_quiet|].
    eapply guarded_told; [done..|]. intros h2 Hr2 Ht2. apply (sendAction_told _ _ _ lost err); [congruence|].
    intros h3 Ht3. split; [by rewrite Ht3, Ht2|]. by apply told_action.
  - apply wp_bind, wp_ret. cbn [readJSON]. apply wp_bind, wp_ret. destruct (ensure _ _) as [?|[]]; [by apply wp_ret, answered_quiet|].
    apply wp_bind, wp_ret. destruct (ensure _ _) as [?|[]]; [by apply wp_ret, answered_quiet|].
    eapply guarded_told; [done..|]. intros h2 Hr2 Ht2. apply (sendAction_told _ _ _ lost err); [congruence|].
    intros h3 Ht3. split; [by rewrite Ht3, Ht2|]. by apply told_action.
  - destruct (ParseInt 32 (rq_PathValue r "pid")) as [pid valid] eqn:Ep. apply wp_bind, wp_ret.
    destruct (ensure _ _) as [?|[]]; [by apply wp_ret, answered_quiet|]. apply wp_bind, wp_ret. cbn [readJSON].
    apply wp_bind, wp_ret. destruct (ensure _ _) as [?|[]]; [by apply wp_ret, answered_quiet|].
    eapply guarded_told; [done..|cbn [asked encodeRequest]; by rewrite Ep|]. intros h2 Hr2 Ht2.
    apply (wp_send_delivered _ _ _ lost (replyOf (PAction err))); [congruence|]. intros h3 Ht3. split; [by rewrite Ht3, Ht2|].
    assert (Hlog : ∀ action detail resp, resp = told (CmdSignal signal pname) lost err →
      wp (audit (Some r) (u_Username (s_User s)) action (Some sys) detail;; mret resp)
        (λ resp h4, h_trace h4 = h_trace h3 ∧ resp = told (CmdSignal signal pname) lost err) h3).
    { intros action detail resp ->. apply wp_bind, wp_audit. intros h4 Ht4 _. by apply wp_ret. }
    unfold told in *. destruct lost; cbn [negb orb]; [apply Hlog; reflexivity|]. rewrite outcome_reply. cbn [replyOf fst rp_Error negb].
    destruct (String.eqb_spec err "") as [->|Hne]; cbn [negb]; apply Hlog; [done|].
    by destruct (String.eqb_spec (cleanStr err) "") as [E|_]; [apply cleanStr_empty in E|].
Qed.

(** *** On the machine *)
(** The commands that reboot a machine and those that switch it off: programs and their arguments. *)
Definition powerPrograms w (os : goos) (action : string) : list (string * list string) :=
  let systemctl verb := if w_systemd w then [("systemctl", [verb])] else [] in
  match os with
  | Linux => if String.eqb action "reboot" then systemctl "reboot" ++ [("shutdown", ["-r"; "now"]); ("reboot", [])]
             else if String.eqb action "shutdown" then systemctl "poweroff" ++ [("shutdown", ["-h"; "now"]); ("poweroff", [])] else []
  | Darwin => if String.eqb action "reboot" then [("/sbin/shutdown", ["-r"; "now"])]
              else if String.eqb action "shutdown" then [("/sbin/shutdown", ["-h"; "now"])] else []
  | Windows => if String.eqb action "reboot" then [("shutdown.exe", ["/r"; "/f"; "/t"; "5"; "/d"; "p:0:0"; "/c"; "Requested from Lotse"])]
               else if String.eqb action "shutdown" then [("shutdown.exe", ["/s"; "/f"; "/t"; "5"; "/d"; "p:0:0"; "/c"; "Requested from Lotse"])] else []
  end.
(** A command succeeded. *)
Definition ranOk w (cmd : list string) : Prop := (w_run w cmd).1.2 = None.
(** The service manager was asked for this action on the service [name], and did not refuse. A restart on Windows is
    granted when the service stops or is stopped; the start follows in the background. *)
Inductive managerDid w (name : string) : goos → string → list hevent → Prop :=
| did_systemd action unit : unit = (if Web.Contains name "." then name else name +:+ ".service") →
    ranOk w ["systemctl"; "--no-block"; action; "--"; unit] → managerDid w name Linux action [HExec ["systemctl"; "--no-block"; action; "--"; unit]]
| did_kickstart : ranOk w ["launchctl"; "kickstart"; "system/" +:+ name] →
    managerDid w name Darwin "start" [HExec ["launchctl"; "kickstart"; "system/" +:+ name]]
| did_kickstart_k : ranOk w ["launchctl"; "kickstart"; "-k"; "system/" +:+ name] →
    managerDid w name Darwin "restart" [HExec ["launchctl"; "kickstart"; "-k"; "system/" +:+ name]]
| did_kill : ranOk w ["launchctl"; "kill"; "SIGTERM"; "system/" +:+ name] →
    managerDid w name Darwin "stop" [HExec ["launchctl"; "kill"; "SIGTERM"; "system/" +:+ name]]
| did_start : w_startErr w = None → managerDid w name Windows "start" [HService "start" name]
| did_stop : w_stopErr w = None → managerDid w name Windows "stop" [HService "stop" name]
| did_restart : (∀ e b, w_stopErr w = Some (e, b) → b = true) →
    managerDid w name Windows "restart" [HService "stop" name; HService "start" name].
(** The signal that stands for the one asked for; Windows only has one. *)
Definition signalFor (os : goos) (signal sig : string) : Prop :=
  (signal = "kill" ∧ sig = "kill") ∨ (signal = "terminate" ∧ sig = match os with Windows => "kill" | _ => "terminate" end).
(** The request was carried out, and the hub told so. For the power the command is found, the hub told, and the command
    started by a timer a second later. *)
Definition carriedOut w (req : hubRequest) a a1 : Prop :=
  cf_AllowShell (ag_cfg a) = true
  ∧ match req with
    | RPower (Some action) => ∃ prog args path, (prog, args) ∈ powerPrograms w (ag_os a) action ∧ w_LookPath w prog = Some path
        ∧ trace a1 = trace a ++ [HReply true ""; HAfter (seconds 1) (path :: args)]
        ∧ ∀ a2, trace (powerDue (w_run w) (path :: args) a2).2 = trace a2 ++ [HExec (path :: args)]
    | RSignal (Some (pid, signal)) => 1 < pid ∧ pid ≠ w_getpid w ∧ w_signaled w pid = None
        ∧ ∃ sig, signalFor (ag_os a) signal sig ∧ trace a1 = trace a ++ [HSignal pid sig; HReply true ""]
    | RService (Some (name, action)) => ∃ l, managerDid w name (ag_os a) action l ∧ trace a1 = trace a ++ l ++ [HReply true ""]
    | _ => False
    end.
(** The agent gave the reason why it did not, as its last word. *)
Definition declined (err : string) a a1 : Prop := err ≠ "" ∧ ∃ l, trace a1 = trace a ++ l ++ [HReply false err].
(** The errors of the operating system have a text. *)
Definition errorsHaveText w : Prop :=
  w_connect w ≠ Some "" ∧ w_startErr w ≠ Some "" ∧ fst <$> w_stopErr w ≠ Some "" ∧ ∀ pid, w_signaled w pid ≠ Some "".
Lemma default_text (x : option string) : x ≠ Some "" → default "" x = "" → x = None.
Proof. destruct x as [e|]; [|done]. cbn. by intros ? ->. Qed.

(** What an action on the machine leaves: events, and that they did it when there is no error. *)
Definition actionPost (did : list hevent → Prop) (h : host) (x : option string) (h' : host) : Prop :=
  ∃ l, ho_trace h' = ho_trace h ++ l ∧ (default "" x = "" → did l).
Lemma actionPost_error did (h : host) e : e ≠ "" → actionPost did h (Some e) h.
Proof. intros He. exists []. split; [by rewrite app_nil_r|]. by intros ?. Qed.
Lemma actionPost_one did (h : host) x e : did [e] → actionPost did h x (Host.with_trace (ho_trace h ++ [e]) h).
Proof. intros He. exists [e]. by split. Qed.
Lemma wp_Signal w os pid signal (h : host) : errorsHaveText w →
  wp (Signal os (w_getpid w) (w_signaled w) pid signal) (actionPost (λ l, 1 < pid ∧ pid ≠ w_getpid w ∧ w_signaled w pid = None
    ∧ ∃ sig, signalFor os signal sig ∧ l = [HSignal pid sig]) h) h.
Proof.
  intros (_ & _ & _ & Hs). unfold Signal. destruct (Z.leb_spec pid 1); [by apply wp_ret, actionPost_error|].
  destruct (Z.eqb_spec pid (w_getpid w)); [by apply wp_ret, actionPost_error|].
  destruct (String.eqb_spec signal "kill") as [->|]; [|destruct (String.eqb_spec signal "terminate") as [->|]; [|by apply wp_ret, actionPost_error]];
    apply wp_bind, wp_modify, wp_ret; (eexists; split; [done|]); intros E%default_text; try apply Hs; split_and!; try done;
    (eexists; split; [|done]); [by left|by right].
Qed.
Lemma wp_runService_error w cmd (Q : string * option string → host → Prop) (h : host) :
  (∀ out err, err ≠ Some "" → (err = None → ranOk w cmd) → Q (out, err) (Host.with_trace (ho_trace h ++ [HExec cmd]) h)) → wp (runServiceCommand (w_run w) cmd) Q h.
Proof.
  intros HQ. unfold ranOk in HQ. unfold runServiceCommand. apply wp_bind, wp_modify, wp_ret.
  destruct (w_run w cmd) as [[out [e|]] stderr]; apply HQ; [|done..].
  intros [= E]. destruct (String.eqb_spec (TrimSpace stderr) "") as [_|Hne]; cbn [negb] in E; [|done].
  destruct (default "" (head cmd)); by rewrite ?append_cons, ?append_nil in E.
Qed.
Lemma checkServiceAction_text name action own e : checkServiceAction name action own = Err e → e ≠ "".
Proof. unfold checkServiceAction. repeat case_match; by intros [= <-]. Qed.
Lemma actionPost_ran did (h : host) x e : x ≠ Some "" → (x = None → did [e]) → actionPost did h x (Host.with_trace (ho_trace h ++ [e]) h).
Proof. intros Hx He. exists [e]. split; [done|]. intros E%default_text; auto. Qed.
Lemma validAction_cases action : validAction action → action = "start" ∨ action = "stop" ∨ action = "restart".
Proof. unfold validAction. set_solver. Qed.
Lemma wp_controlService w os name action (h : host) : errorsHaveText w →
  wp (controlService (w_run w) (w_manager w) (w_connect w) (w_startErr w) (w_stopErr w) os name action)
    (actionPost (managerDid w name os action) h) h.
Proof.
  intros (Hc & Hs & Hp & _). destruct os; cbn [controlService].
  - unfold controlSystemd. destruct (checkServiceAction _ _ _) as [[]|e] eqn:E; [|apply wp_ret, actionPost_error; by eapply checkServiceAction_text].
    apply wp_bind, wp_runService_error. intros out err He Hran. apply wp_ret, actionPost_ran; [done|]. intros Hn.
    constructor; [by destruct (Web.Contains name ".")|auto].
  - unfold controlLaunchd. destruct (checkServiceAction _ _ _) as [[]|e] eqn:E; [|apply wp_ret, actionPost_error; by eapply checkServiceAction_text].
    apply checkServiceAction_ok in E as (Ha & _). apply validAction_cases in Ha as [-> | [-> | ->]]; cbn [String.eqb Ascii.eqb Bool.eqb];
      apply wp_bind, wp_runService_error; intros out err He Hran; apply wp_ret, actionPost_ran; try done; intros Hn; constructor; auto.
  - unfold controlWindows. destruct (checkServiceAction _ _ _) as [[]|e] eqn:E; [|apply wp_ret, actionPost_error; by eapply checkServiceAction_text].
    destruct (w_connect w) as [e|]; [apply wp_ret, actionPost_error; congruence|]. destruct (scm_open _ _); [|by apply wp_ret, actionPost_error].
    apply checkServiceAction_ok in E as (Ha & _). apply validAction_cases in Ha as [-> | [-> | ->]]; cbn [String.eqb Ascii.eqb Bool.eqb].
    + apply wp_bind, wp_modify, wp_ret, actionPost_ran; [done|]. by constructor.
    + apply wp_bind, wp_modify, wp_ret, actionPost_ran; [done|]. intros Hn%fmap_None. by constructor.
    + apply wp_bind, wp_modify. destruct (w_stopErr w) as [[e []]|] eqn:Es.
      2: { apply wp_ret, actionPost_ran; [cbn in Hp; congruence|done]. }
      all: apply wp_bind, wp_modify, wp_ret; (eexists; split; [cbn; by rewrite <-app_assoc|]); intros _; constructor; intros ? ?; rewrite Es; by intros [= <- <-].
Qed.
(** The command found is one of those that do what was asked. *)
Lemma powerCommand_programs w os action cmd : powerCommand (w_LookPath w) (w_systemd w) os action = Ok cmd →
  ∃ prog args path, (prog, args) ∈ powerPrograms w os action ∧ w_LookPath w prog = Some path ∧ cmd = path :: args.
Proof.
  unfold powerCommand. destruct (existsb _ _) eqn:Ea; [|done]. cbn [negb].
  destruct (firstInstalled _ _) as [c|] eqn:E; [|done]. intros [= <-].
  assert (Hfirst : ∀ l (c : list string), firstInstalled (w_LookPath w) l = Some c → ∃ x path, x ∈ l ∧ w_LookPath w (default "" (head x)) = Some path ∧ c = path :: tl x).
  { clear. induction l as [|x l IH]; intros c E; [done|]. cbn in E. destruct (w_LookPath w _) as [p|] eqn:El.
    - simplify_eq. exists x, p. split_and!; [constructor|done|done].
    - destruct (IH c E) as (y & p & ? & ? & ?). exists y, p. split_and!; [by constructor|done|done]. }
  destruct (Hfirst _ _ E) as (x & path & Hx & Hl & ->).
  assert (action = "reboot" ∨ action = "shutdown") as [-> | ->].
  { apply existsb_exists in Ea as (y & Hy & ->%String.eqb_eq). cbn in Hy. destruct Hy as [<-|[<-|[]]]; auto. }
  all: exists (default "" (head x)), (tl x), path; (split; [|done]); destruct os; unfold powerCandidates, powerPrograms in *; cbn in Hx |- *;
    destruct (w_systemd w); cbn in Hx |- *; rewrite ?elem_of_cons in Hx |- *; naive_solver set_solver.
Qed.

Lemma remoteControlOff_text what : what +:+ " " +:+ remoteControlOff ≠ "".
Proof. by destruct what. Qed.
(** An action through [ifAllowed], and its reply. *)
Lemma wp_allowed w what (act : M host (option string)) did a :
  (∀ h : host, wp act (actionPost did h) h) →
  wp (err ← ifAllowed what act; replyAction err) (λ p a1, ∃ err, p = PAction err
    ∧ if String.eqb err "" then cf_AllowShell (ag_cfg a) = true ∧ ∃ l, did l ∧ trace a1 = trace a ++ l ++ [HReply true ""] else declined err a a1) a.
Proof.
  intros Hact. apply wp_bind. unfold ifAllowed. apply wp_bind, wp_get. destruct (cf_AllowShell (ag_cfg a)) eqn:Ea; cbn [negb].
  - apply wp_bind, wp_onHost. eapply wp_mono; [apply Hact|]. intros x h1 (l & Hl & Hdid). apply wp_ret.
    unfold replyAction. apply wp_bind, wp_happen, wp_ret. exists (default "" x). split; [done|].
    destruct (String.eqb_spec (default "" x) "") as [E|Hne].
    + split; [done|]. exists l. split; [by apply Hdid|]. unfold trace. cbn. by rewrite Hl, E, <-app_assoc.
    + split; [done|]. exists l. unfold trace. cbn. rewrite Hl, <-app_assoc. by destruct (String.eqb_spec (default "" x) "").
  - apply wp_ret. unfold replyAction. apply wp_bind, wp_happen, wp_ret. eexists. split; [done|].
    pose proof (remoteControlOff_text what) as Hne. apply String.eqb_neq in Hne as E. rewrite E. split; [done|]. by exists [].
Qed.
Lemma request_outcome r c w a : errorsHaveText w →
  wp (AgentProps.request w (cleanRequest (asked r c))) (λ p a1, ∃ err, p = PAction err
    ∧ if String.eqb err "" then carriedOut w (cleanRequest (asked r c)) a a1 else declined err a a1) a.
Proof.
  intros Hw. unfold AgentProps.request, handleRequest, carriedOut. destruct c as [action|name action|signal pname];
    cbn [asked cleanRequest fmap option_fmap option_map fst snd]; apply wp_bind, wp_get.
  - destruct (cf_AllowShell (ag_cfg a)) eqn:Ea; cbn [negb].
    + destruct (powerCommand _ _ _ _) as [cmd|e] eqn:Ep.
      * apply wp_bind. unfold replyAction. apply wp_bind, wp_happen, wp_ret, wp_bind, wp_happen, wp_ret. exists "". split; [done|]. cbn.
        split; [done|]. destruct (powerCommand_programs w _ _ _ Ep) as (prog & args & path & Hin & Hl & ->).
        exists prog, args, path. split_and!; [done|done| |done]. unfold trace. cbn. by rewrite <-app_assoc.
      * unfold replyAction. apply wp_bind, wp_happen, wp_ret. exists e. split; [done|].
        assert (Hne : e ≠ "") by (unfold powerCommand in Ep; repeat case_match; by simplify_eq). apply String.eqb_neq in Hne as E. rewrite E.
        split; [done|]. by exists [].
    + unfold replyAction. apply wp_bind, wp_happen, wp_ret. eexists. split; [done|]. split; [done|]. by exists [].
  - eapply wp_mono; [apply (wp_allowed w); intros h; by apply wp_controlService|]. intros p a1 (err & -> & Hpost). exists err. split; [done|].
    destruct (String.eqb err ""); [|done]. destruct Hpost as (Ha & l & Hl & Ht). split; [done|]. by exists l.
  - eapply wp_mono; [apply (wp_allowed w); intros h; by apply wp_Signal|]. intros p a1 (err & -> & Hpost). exists err. split; [done|].
    destruct (String.eqb err ""); [|done]. destruct Hpost as (Ha & l & (Hpid & Hown & Hsig & sig & Hs & ->) & Ht). split; [done|]. split_and!; [done..|].
    exists sig. by split.
Qed.
Lemma carriedOut_declined w req err a a1 : carriedOut w req a a1 → declined err a a1 → False.
Proof.
  intros [_ Hc] [_ [l Hl]].
  assert (Hlast : ∀ l' e, trace a1 = trace a ++ l' ++ [e] → e = HReply false err).
  { intros l' e E. rewrite Hl, !app_assoc in E. by apply app_inj_tail in E as [_ <-]. }
  destruct req as [limit|[[pid sig]|]|[action|]| |[[name action]|]|[[macs bc]|]|[secs|]|t]; try done.
  - destruct Hc as (_ & _ & _ & x & _ & Ht). by specialize (Hlast [HSignal pid x] _ Ht).
  - destruct Hc as (prog & args & path & _ & _ & Ht & _). by specialize (Hlast [HReply true ""] _ Ht).
  - destruct Hc as (l' & _ & Ht). by specialize (Hlast l' _ Ht).
Qed.
Lemma asked_fits r c : requestFits (asked r c) ∧ is_Some (encodeRequest (asked r c)).
Proof. destruct c; cbn [asked]; (split; [|by eexists]); [done..|]. apply (ParseInt_range 32). lia. Qed.

End remote.

(** ** Saving the configuration on a machine where nothing fails *)
Section saving.
Context `{Marshal}.
Implicit Types (c : Config) (h : host).
Lemma writeConfig_works c h : ho_faults h = [] → is_ok (writeConfig c h).1 = true ∧ ho_faults (writeConfig c h).2 = [].
Proof.
  intros Hf. unfold writeConfig, mbind, M_bind. rewrite osWriteFile_run by done. cbn beta iota. set (h1 := with_files _ h).
  by erewrite (osRename_run _ _ _ h1); [|done|apply lookup_insert_eq].
Qed.
Lemma restrictDir_works dir h : ho_faults h = [] → is_Some (ho_dirs h !! dir) →
  restrictDir dir h = (Ok tt, with_dirs (<[dir := true]> (ho_dirs h)) h).
Proof. intros Hf [x Hx]. unfold restrictDir, fault, mbind, M_bind, mstate. rewrite Hf. by rewrite Hx. Qed.
Lemma osReadDir_works dir h : ho_faults h = [] →
  osReadDir dir h = (match ho_dirs h !! dir with Some _ => Ok (dirEntries h dir) | None => Err noSuchFile end, h).
Proof. intros Hf. unfold osReadDir, fault, mbind, M_bind, mstate. by rewrite Hf. Qed.
Lemma Save_works c h : ho_faults h = [] → ho_files h !! Dir (cf_path c) = None →
  is_ok (Save c h).1 = true ∧ ho_faults (Save c h).2 = [].
Proof.
  intros Hf Hd. unfold Save.
  assert (Hm : ∃ h1, osMkdirAll (Dir (cf_path c)) h = (Ok tt, h1) ∧ ho_faults h1 = [] ∧ is_Some (ho_dirs h1 !! Dir (cf_path c))).
  { unfold osMkdirAll, fault, mbind, M_bind, mstate. rewrite Hf. cbn. rewrite Hd. destruct (ho_dirs h !! Dir (cf_path c)) eqn:E; eexists; split; [done|by rewrite E|done|].
    split; [done|]. cbn. by rewrite lookup_insert_eq. }
  destruct Hm as (h1 & Em & Hf1 & [x Hx]). unfold DedicatedDir, mbind, M_bind. rewrite Em, osReadDir_works, Hx by done. cbn [mret M_ret]. destruct (forallb _ _); [|exact (writeConfig_works c h1 Hf1)].
  rewrite restrictDir_works by (done || by rewrite Hx). by apply writeConfig_works.
Qed.
End saving.

(** ** Enrollment *)
Section enroll.
Context `{Lib} `{Ssh} `{FloatText} `{!FloatTextLaws}.
#[local] Instance wireMarshal : Marshal := jsonMarshal.
Implicit Types (a : agent) (info : SystemInfo) (h : hub) (ac : agentConn).
Abbreviation tables h := (m_db (h_m h)).

(** The first request of an agent, as bytes. *)
Definition greeting info a : option (string * string) := Some (ReqHello, jsonMarshal (helloJSON (helloMsg info a))).
(** What the agent makes of the hub's answer. *)
Definition heard (answer : option (bool * json)) : sent HelloReply :=
  match answer with
  | Some (ok, reply) => Replied ok (unmarshal (jsonMarshal reply) : HelloReply * bool).1
  | None => SendErr "closed"
  end.
Definition infoFits info : Prop := fitsInt 64 (si_Cores info) ∧ fitsUint 64 (si_MemTotal info).
Lemma greeting_fits info a : infoFits info → helloFits (helloMsg info a).
Proof. intros [? ?]. by split_and!. Qed.

(** *** Registration keeps the tables *)
Definition tablesKept h h' : Prop := tables h' = tables h.
#[local] Instance tablesKept_preorder : PreOrder tablesKept.
Proof. split; unfold tablesKept; [done|]. intros h1 h2 h3 E1 E2. congruence. Qed.
Lemma steps_publish_tables e d : steps tablesKept (publish e d).
Proof. intros h. unfold publish, mmodify, tablesKept. cbn. by destruct (decide _). Qed.
Lemma steps_emit_tables e : steps tablesKept (Hub.emit e).
Proof. by intros h. Qed.
Lemma steps_timeNow_tables : steps tablesKept (db timeNow).
Proof. intros h. unfold tablesKept, db. destruct (h_m h) as [d [t [|k ks] fs rs]]; done. Qed.
Lemma steps_engine_tables f : steps tablesKept (onEngine f).
Proof. by intros h. Qed.
Hint Resolve steps_publish_tables steps_emit_tables steps_timeNow_tables steps_engine_tables : steps.
Lemma wp_register ac h :
  wp (register ac) (λ interval h', tablesKept h h' ∧ h_agents h' !! ac_id ac = Some ac ∧ interval = intervalLocked h) h.
Proof.
  assert (Ht : wp (register ac) (λ _ h', tablesKept h h') h).
  { eapply wp_steps; [|by intros]. unfold register, agentOnline. go_steps. intros x. done. }
  assert (Hi : wp (register ac) (λ i _, i = intervalLocked h) h).
  { unfold register. apply wp_bind, wp_get. do 4 (apply wp_bind, (wp_mono _ (λ _ _, True)); [done|]; intros ? ? _). by apply wp_ret. }
  pose proof (register_links ac h) as Hl. eapply wp_mono; [apply wp_and; [exact Ht|apply wp_and; [exact Hi|exact Hl]]|].
  intros i h' (? & ? & (E & _)). split_and!; [done| |done]. by rewrite E, lookup_insert_eq.
Qed.
(** *** Who is let in *)
(** No system appeared but one with the key [fp], and that only when there was none. *)
Definition onlyEnrolled (fp : string) h h' : Prop := ∀ s, s ∈ systems (tables h') →
  (∃ s0, s0 ∈ systems (tables h) ∧ sy_ID s0 = sy_ID s ∧ sy_Fingerprint s0 = sy_Fingerprint s) ∨ (sy_Fingerprint s = fp ∧ ¬ knownKey fp h).
(** The agent is connected as a system with its key. *)
Definition connectedAs (fp : string) (answer : option (bool * json)) (link : option agentConn) h' : Prop :=
  ∃ ac interval, answer = Some (true, helloReply true "" interval) ∧ fitsInt 64 interval ∧ link = Some ac
    ∧ h_agents h' !! ac_id ac = Some ac ∧ ∃ s, s ∈ systems (tables h') ∧ sy_ID s = ac_id ac ∧ sy_Fingerprint s = fp.
Lemma serveAgent_admits conn remote fp info a h : infoFits info → noFaults (h_m h) →
  knownKey fp h ∨ goodToken (cleanStr (cf_Token (ag_cfg a))) h →
  wp (serveAgent conn remote fp (greeting info a)) (λ x h', connectedAs fp x.1 x.2 h' ∧ onlyEnrolled fp h h') h.
Proof.
  intros Hinfo Hnf Hin. unfold serveAgent, greeting. change (negb (String.eqb ReqHello ReqHello)) with false. cbn iota.
  rewrite (greeting_read _ (greeting_fits info a Hinfo)). cbn [negb]. set (hello := cleanHello (helloMsg info a)).
  apply wp_bind. eapply wp_mono; [apply admit_post|]. intros r h1 (Hok & Hall & Hyes).
  destruct (Hyes Hnf eq_refl Hin) as [sys ->]. destruct (Hok sys eq_refl) as (_ & Hfp & s & Hs & Hid & Hsfp). clear Hok Hyes.
  set (ac := mkAgentConn _ _ _ _ _ _). apply wp_bind. eapply wp_mono; [apply wp_register|]. intros interval h2 (Ht & Hac & ->). unfold tablesKept in Ht.
  assert (Hfits : fitsInt 64 (intervalLocked h1)) by (unfold intervalLocked; destruct (h_live h1); by vm_compute).
  assert (Hsame : ∀ m, m_db m = tables h2 → onlyEnrolled fp h (with_m m h2)).
  { intros m Hm x. cbn. rewrite Hm, Ht. intros Hx. destruct (Hall x Hx) as [?|(? & _ & ? & _)]; [by left|by right]. }
  assert (Hconn : ∀ m, m_db m = tables h2 → connectedAs fp (Some (true, helloReply true "" (intervalLocked h1))) (Some ac) (with_m m h2)).
  { intros m Hm. exists ac, (intervalLocked h1). split_and!; [done..|]. exists s. cbn. rewrite Hm, Ht. by split_and!. }
  apply wp_bind, wp_db. unfold getSystem. apply wp_query_cases; intros m Hm _; cbn [h_m with_m] in *.
  - destruct (oneRow _) as [sys2|e] eqn:E; [apply wp_ret; split; [by apply Hconn|by apply Hsame]|].
    exfalso. assert (Hin2 : s ∈ selectWhere (λ x, sy_ID x =? sy_ID sys) (systems (tables h2))).
    { apply elem_of_selectWhere. rewrite Ht. split; [done|]. by rewrite Hid, Z.eqb_refl. }
    destruct (selectWhere _ _); [by apply not_elem_of_nil in Hin2|done].
  - apply wp_ret. split; [by apply Hconn|by apply Hsame].
Qed.
(** *** What the agent makes of it *)
(** The agent writes its configuration indented. *)
Abbreviation agentHello := (@hello jsonMarshalIndent).
Abbreviation agentSteps := (rtc (@agentStep _ jsonMarshalIndent)).
(** The disk takes the configuration. *)
Definition diskWorks a : Prop := ho_faults (ag_host a) = [] ∧ ho_files (ag_host a) !! Dir (cf_path (ag_cfg a)) = None.
Definition savedConfig a : Prop :=
  ho_files (ag_host a) !! cf_path (ag_cfg a) = Some (jsonMarshalIndent (configJSON (ag_cfg a)) +:+ NL).
(** The agent [a3] was started with the configuration file that [a] left. *)
Definition startedAgain a a3 : Prop := ∃ x x', ho_files x !! cf_path (ag_cfg a) = ho_files (ag_host a) !! cf_path (ag_cfg a)
  ∧ LoadConfig (cf_path (ag_cfg a)) x = (Ok (ag_cfg a3), x').
Lemma hello_accepted interval a : fitsInt 64 interval → cf_Token (ag_cfg a) ≠ "" →
  wp (agentHello (heard (Some (true, helloReply true "" interval)))) (λ r a1, r = Ok (clampInterval interval) ∧ cf_Token (ag_cfg a1) = ""
    ∧ (diskWorks a → savedConfig a1)) a.
Proof.
  intros Hi Hne. unfold heard. pose proof (greeting_answer_read (mkHelloReply true "" interval) Hi) as E. cbn [hr_OK hr_Error hr_Interval] in E.
  unfold helloReplyJSON in E. cbn [hr_OK hr_Error hr_Interval] in E. rewrite E. cbn [fst]. unfold hello. cbn [hr_OK hr_Error hr_Interval negb orb].
  apply wp_bind, wp_get. destruct (String.eqb_spec (cf_Token (ag_cfg a)) "") as [Et|Et]; [done|]; cbn [negb]; apply wp_bind.
  apply wp_bind, wp_modify, wp_bind, wp_get, wp_bind, wp_onHost. cbn [ag_cfg with_cfg].
  assert (Hs : wp (@Save jsonMarshalIndent (with_Token "" (ag_cfg a))) (λ r _, diskWorks a → is_ok r = true) (ag_host a)).
  { unfold wp. intros [Hf Hd]. by apply (@Save_works jsonMarshalIndent). }
  eapply wp_mono; [apply wp_and; [apply wp_Save|exact Hs]|].
  intros r h' [(_ & _ & Hp) Hok]. apply wp_ret, wp_ret. split_and!; [done|done|]. intros Hw. specialize (Hok Hw). by destruct r.
Qed.
Lemma agentSteps_token a a' : agentSteps a a' → cf_Token (ag_cfg a) = "" → cf_Token (ag_cfg a') = "".
Proof. induction 1 as [|x y z Hxy _ IH]; [done|]. intros Hx. apply IH. by eapply (@agentStep_token _ jsonMarshalIndent). Qed.
Lemma startedAgain_token a a3 : savedConfig a → cf_Token (ag_cfg a) = "" → startedAgain a a3 → cf_Token (ag_cfg a3) = "".
Proof.
  intros Hs Ht (x & x' & Hx & Hl). unfold LoadConfig in Hl. rewrite Hs in Hx.
  match type of Hl with ?m _ = _ =>
    refine (wp_run m (λ r _, r = Ok (ag_cfg a3) → cf_Token (ag_cfg a3) = "") x _ x' _ Hl eq_refl) end.
  apply wp_bind, wp_osReadFile; [intros; by apply wp_ret|]. intros data x1 _ Hd. rewrite Hx in Hd. injection Hd as <-.
  rewrite config_file_read. cbn [negb]. apply wp_ret. destruct (Validate _); [|done]. intros [= <-]. cbn. by rewrite Ht.
Qed.

(** C11. A machine enrolls with its token once and is known by its key ever after. An agent the hub does not know, whose
    token is valid (and text), is connected when its greeting arrives and the hub's database works, as a new system with its
    key and no other; reading the hub's answer it accepts the interval and forgets the token. No later greeting carries it,
    whatever requests and channels come, nor after restarts of the agent, if its disk took the configuration without the token and still has
    it. And whenever the agent greets again, even restarted with an old configuration that still has the token, the hub,
    its database working and the system still there, connects it as the system of its key and enrolls nothing. *)
Theorem enrollment_end_to_end (a : agent) (info info2 : SystemInfo) (fp remote remote2 : string) (conn conn2 : nat) (h : hub)
    (Hinfo : infoFits info) (Hinfo2 : infoFits info2) (Hworks : noFaults (h_m h)) (Hnew : ¬ knownKey fp h)
    (Htoken : goodToken (cf_Token (ag_cfg a)) h) (Hvalid : validStr (cf_Token (ag_cfg a)) = true) :
  let '(x, h1) := serveAgent conn remote fp (greeting info a) h in
  let '(r, a1) := agentHello (heard x.1) a in
  connectedAs fp x.1 x.2 h1 ∧ onlyEnrolled fp h h1
  ∧ (∃ d, r = Ok d ∧ seconds 1 <= d <= seconds 3600) ∧ cf_Token (ag_cfg a1) = ""
  ∧ (∀ a2, agentSteps a1 a2 → he_Token (helloMsg info2 a2) = "")
  ∧ (diskWorks a → ∀ a2 a3, startedAgain a1 a3 → agentSteps a3 a2 → he_Token (helloMsg info2 a2) = "")
  ∧ ∀ a2 h2, noFaults (h_m h2) → knownKey fp h2 →
      let '(y, h3) := serveAgent conn2 remote2 fp (greeting info2 a2) h2 in
      connectedAs fp y.1 y.2 h3 ∧ sameSystems h2 h3.
Proof.
  apply (wp_let (serveAgent conn remote fp (greeting info a)) (λ x h1, let '(r, a1) := agentHello (heard x.1) a in
    connectedAs fp x.1 x.2 h1 ∧ onlyEnrolled fp h h1 ∧ (∃ d, r = Ok d ∧ seconds 1 <= d <= seconds 3600) ∧ cf_Token (ag_cfg a1) = ""
    ∧ (∀ a2, agentSteps a1 a2 → he_Token (helloMsg info2 a2) = "")
    ∧ (diskWorks a → ∀ a2 a3, startedAgain a1 a3 → agentSteps a3 a2 → he_Token (helloMsg info2 a2) = "")
    ∧ ∀ a2 h2, noFaults (h_m h2) → knownKey fp h2 →
      let '(y, h3) := serveAgent conn2 remote2 fp (greeting info2 a2) h2 in connectedAs fp y.1 y.2 h3 ∧ sameSystems h2 h3)).
  eapply wp_mono; [apply serveAgent_admits; [done|done|right; by rewrite cleanStr_valid]|]. intros [answer link] h1 [Hc Ho]. cbn [fst snd] in *.
  assert (Hc' := Hc). destruct Hc' as (ac & interval & -> & Hfits & _). apply wp_let.
  eapply wp_mono; [apply hello_accepted; [done|apply Htoken]|]. intros r a1 (-> & Ht & Hsaved).
  split_and!; [done|done|exists (clampInterval interval); split; [done|apply clampInterval_bounds]|done|..].
  - intros a2 Hsteps. by apply (agentSteps_token a1).
  - intros Hdisk a2 a3 Hagain Hsteps. apply (agentSteps_token a3); [done|]. by apply (startedAgain_token a1); auto.
  - intros a2 h2 Hw Hk. apply wp_let. eapply wp_mono; [apply serveAgent_admits; [done|done|by left]|]. intros [answer2 link2] h3 [Hc2 Ho2].
    split; [done|]. intros s Hs. by destruct (Ho2 s Hs) as [?|[_ []]].
Qed.
End enroll.

(** ** Updates *)
Section updates.
Context `{Lib} `{FloatText} `{!FloatTextLaws} (runVersion : string → option string) (evalExecutable : result string string).
Implicit Types (a : agent) (info : SystemInfo) (h : hub) (m : Manifest).

(** The updates of the hub verify and are named after their files, as [HubStart.start_sound] shows for every start. *)
Definition goodUpdates h : Prop := ∀ name m, h_updates h !! name = Some m → Verify m = Ok tt ∧ mf_File m = name.
Lemma start_goodUpdates `{Ssh, !SshLaws, Marshal} `{!Unmarshal (list runTarget)} migrations summary gunzip denied uid gid text c e d d' h key :
  (fi_version (dk_db d) ≤ length migrations)%nat →
  New migrations summary gunzip denied uid gid text c e d = (Ok (h, key), d') → goodUpdates h.
Proof.
  intros Hv Hn. pose proof (wp_run _ _ _ _ _ (wp_New migrations summary gunzip denied uid gid text c e d Hv) Hn) as [[_ Hpost] _].
  destruct (Hpost h key eq_refl) as (_ & _ & _ & _ & Hup). intros name m Hm. destruct (Hup name m Hm) as (? & ? & _). done.
Qed.
Lemma offer_checked h a info m : goodUpdates h → si_OS info = GOOS (ag_os a) → si_Arch info = ag_arch a →
  updateFor h info (ag_version a) = Some m → cf_DisableUpdates (ag_cfg a) = false → ag_updating a = false →
  checkUpdate a (Some m) = if maxUpdateSize <? mf_Size m then Err "the update is too large" else Ok m.
Proof.
  intros Hg Hos Harch Hoff Hd Hu. unfold updateFor in Hoff. destruct (_ || _); [done|].
  destruct (h_updates h !! _) as [m'|] eqn:E; [|done]. destruct (Newer _ _) eqn:En; [|done]. injection Hoff as ->.
  destruct (Hg _ _ E) as [Hv Hf]. unfold checkUpdate. by rewrite Hd, Hv, Hf, Hos, Harch, String.eqb_refl, En, Hu.
Qed.

(** *** On a machine where nothing fails *)
Definition tempFor (os : goos) (exe seed : string) : string :=
  joinPath (Dir exe) (("." +:+ Base exe +:+ "-update-") +:+ seed +:+ match os with Windows => ".exe" | _ => "" end).
(** The disk works, the folder of the binary takes a new file, and the binary is there. *)
Definition machineReady (os : goos) (exe : string) (x : host) : Prop :=
  ho_faults x = [] ∧ exe = joinPath (Dir exe) (Base exe) ∧ is_Some (ho_files x !! exe)
  ∧ ∃ seed rest, ho_rand x = seed :: rest ∧ ho_files x !! tempFor os exe seed = None.
Lemma osCreateTemp_run dir pre suf seed rest (x : host) : ho_faults x = [] → ho_rand x = seed :: rest →
  ho_files x !! joinPath dir (pre +:+ seed +:+ suf) = None →
  osCreateTemp dir pre suf x = (Ok (joinPath dir (pre +:+ seed +:+ suf)), with_files (<[joinPath dir (pre +:+ seed +:+ suf) := ""]> (ho_files x)) (with_rand rest x)).
Proof. intros Hf Hr Hn. unfold osCreateTemp, fault, mbind, M_bind, mstate. rewrite Hf. cbn. by rewrite Hr; cbn; rewrite Hn. Qed.
Lemma wp_exactly {S A} (mm : M S A) (Q : A → S → Prop) (s : S) (x : A) (s' : S) : mm s = (x, s') → Q x s' → wp mm Q s.
Proof. intros E HQ. unfold wp. by rewrite E. Qed.
Lemma fault_none (x : host) : ho_faults x = [] → fault x = (None, x).
Proof. intros Hf. unfold fault, mstate. by rewrite Hf. Qed.
Lemma substring_whole s : substring 0 (String.length s) s = s.
Proof. induction s as [|c s IH]; [done|]. cbn. by rewrite IH. Qed.
Lemma wp_osRemove_file p (Q : ores unit → host → Prop) (x : host) : ho_faults x = [] →
  (∀ r x', ho_faults x' = [] → ho_files x' = delete p (ho_files x) → Q r x') → wp (osRemove p) Q x.
Proof.
  intros Hf HQ. unfold osRemove. apply wp_bind, (wp_exactly fault _ x None x); [by apply fault_none|]. unfold wp, mstate.
  destruct (ho_files x !! p) eqn:E; [by apply HQ|]. destruct (ho_dirs x !! p); [destruct (dirEntries x p)|]; apply HQ; cbn; try done; by rewrite delete_id.
Qed.
Lemma wp_swapIn_works os tmp exe data (x : host) : ho_faults x = [] → ho_files x !! tmp = Some data → is_Some (ho_files x !! exe) →
  tmp ≠ exe → tmp ≠ exe +:+ ".old" → wp (swapIn os tmp exe) (λ r x', r = Ok tt ∧ ho_faults x' = [] ∧ ho_files x' !! exe = Some data) x.
Proof.
  intros Hf Ht [old He] Hne Hno. unfold swapIn.
  assert (Hdirect : ∀ y, ho_faults y = [] → ho_files y !! tmp = Some data →
    wp (r ← osRename tmp exe; mret (match r with Ok _ => Ok tt | Err e => Err (osMsg e) end)) (λ r x', r = Ok tt ∧ ho_faults x' = [] ∧ ho_files x' !! exe = Some data) y).
  { intros y Hy Hty. apply wp_bind, (wp_exactly _ _ _ _ _ (osRename_run tmp exe data y Hy Hty)), wp_ret. split_and!; [done|done|]. cbn. by rewrite lookup_insert_eq. }
  destruct os; [by apply Hdirect..|]. apply wp_bind, wp_osRemove_file; [done|]. intros r x1 Hf1 E1.
  assert (Hexe : exe ≠ exe +:+ ".old") by (apply not_eq_sym, append_neq; done).
  assert (Hold : ho_files x1 !! exe = Some old) by (by rewrite E1, lookup_delete_ne).
  apply wp_bind, (wp_exactly _ _ _ _ _ (osRename_run exe (exe +:+ ".old") old x1 Hf1 Hold)). set (y := with_files _ x1).
  assert (Htmp : ho_files y !! tmp = Some data) by (cbn; by rewrite lookup_insert_ne, lookup_delete_ne, E1, lookup_delete_ne).
  apply wp_bind, (wp_exactly _ _ _ _ _ (osRename_run tmp exe data y Hf1 Htmp)), wp_ret.
  split_and!; [done|done|]. cbn. by rewrite lookup_insert_eq.
Qed.
Lemma append_longer_neq (s t : string) n : (String.length t + n < String.length s)%nat → s ≠ t.
Proof. intros Hl ->. lia. Qed.
Lemma wp_install_works os exe data m (x : host) : machineReady os exe x → goodBinary runVersion m data →
  wp (install runVersion os exe (mkStream data false) m) (λ r x', r = Ok tt ∧ ho_files x' !! exe = Some data) x.
Proof.
  intros (Hf & Hpath & Hexe & seed & rest & Hr & Hfree) (Hsize & Hsum & out & Hout & Hver). unfold install. set (tmp := tempFor os exe seed).
  pose proof (temp_longer exe seed (match os with Windows => ".exe" | _ => "" end) Hpath) as Hlong. fold (tempFor os exe seed) tmp in Hlong.
  assert (Hne : tmp ≠ exe) by (apply (append_longer_neq _ _ 4); lia).
  assert (Hno : tmp ≠ exe +:+ ".old") by (apply (append_longer_neq _ _ 0); rewrite length_append; cbn; lia).
  apply wp_bind, (wp_exactly _ _ _ _ _ (osCreateTemp_run _ _ _ seed rest x Hf Hr Hfree)). fold (tempFor os exe seed) tmp.
  set (x1 := with_files _ (with_rand rest x)). assert (Hf1 : ho_faults x1 = []) by exact Hf.
  set (x2 := with_files (<[tmp := data]> (ho_files x1)) x1). assert (Hf2 : ho_faults x2 = []) by exact Hf. apply wp_bind.
  eapply (wp_mono _ (λ r x', r = Ok tt ∧ ho_faults x' = [] ∧ ho_files x' !! exe = Some data)).
  - unfold installFrom, receive. cbn [sm_data sm_broken]. rewrite <-Hsize.
    assert (Hsub : substring 0 (Z.to_nat (strLen data)) data = data) by (unfold strLen; by rewrite Nat2Z.id, substring_whole). rewrite Hsub.
    apply wp_bind, wp_bind, (wp_exactly _ _ _ _ _ (osWriteFile_run tmp data x1 Hf1)). rewrite andb_false_r.
    apply wp_bind, (wp_exactly _ _ _ _ _ (fault_none x2 Hf2)), wp_ret. rewrite Z.eqb_refl, Hsum, String.eqb_refl. cbn [negb orb].
    apply wp_bind, (wp_exactly _ _ _ _ _ (fault_none x2 Hf2)). unfold execVersion. apply wp_bind, wp_bind, wp_modify, wp_bind, wp_gets, wp_ret.
    assert (Htmp : ho_files x2 !! tmp = Some data) by apply lookup_insert_eq. cbn [ho_files Host.with_trace]. rewrite Htmp.
    cbn [mbind option_bind]. rewrite Hout, Hver. cbn [negb].
    apply wp_swapIn_works; [done|done| |done|done]. cbn. by rewrite !lookup_insert_ne.
  - intros r x3 (-> & Hf3 & Hx3). apply wp_bind, wp_osRemove_file; [done|]. intros r x4 _ E4. apply wp_ret. split; [done|].
    by rewrite E4, lookup_delete_ne.
Qed.

(** The manifest is accepted and the binary is the one it was signed for. *)
Lemma wp_update_taken a m exe data : checkUpdate a (Some m) = Ok m → (executable evalExecutable a).1 = Ok exe →
  machineReady (ag_os a) exe (ag_host a) → goodBinary runVersion m data →
  wp (handleUpdate runVersion evalExecutable (Some m) true (mkStream data false)) (λ _ a', ho_files (ag_host a') !! exe = Some data
    ∧ ag_updating a' = false ∧ ∃ l, trace a' = trace a ++ l ++ [HReply true ""] ++ (if ag_canRestart a then [HRestart exe] else [])) a.
Proof.
  intros Hcheck Hexe Hready Hbin. unfold handleUpdate. apply wp_bind, wp_get. rewrite Hcheck.
  apply wp_bind, wp_modify, wp_bind, wp_bind, wp_get, wp_ret. cbn [ag_Executable with_updating].
  unfold executable, mbind, M_bind, mget, mret, M_ret in Hexe. cbn [fst] in Hexe. rewrite Hexe. cbn [negb].
  assert (Htr : wp (install runVersion (ag_os a) exe (mkStream data false) m) (λ _ x, happends (harmless true) (ag_host a) x) (ag_host a))
    by apply steps_install.
  apply wp_bind, wp_onHost. eapply wp_mono; [apply wp_and; [exact (wp_install_works (ag_os a) exe data m (ag_host a) Hready Hbin)|exact Htr]|].
  intros r x [[-> Hx] (l & El & _)].
  apply wp_bind, wp_happen, wp_bind. destruct (ag_canRestart a); [apply wp_happen|apply wp_ret]; apply wp_modify;
    (split_and!; [exact Hx|done|]); exists l; unfold trace; cbn; by rewrite El, <-?app_assoc.
Qed.

(** C12. An update the hub offers is one the agent takes, but for its size. When the hub finds an update, among manifests
    it checked as they were loaded, for a connected agent of the same platform that allows updates and is not installing one, the agent reads the same manifest from the bytes of the channel
    (its texts being valid UTF-8 and its size a number of 64 bits, as in every manifest read from a file). If the manifest
    says more than 200 MiB, which the hub does not look at, the agent refuses it and touches nothing. Otherwise it accepts;
    and when the binary that follows is the one the manifest was signed for, and nothing fails on the machine, the agent
    replaces its binary by exactly this one, tells the hub so and, where it can, starts over from it. *)
Theorem update_end_to_end (h : hub) (a : agent) (info : SystemInfo) (m : Manifest) (exe data : string)
    (Hgood : goodUpdates h) (Hos : si_OS info = GOOS (ag_os a)) (Harch : si_Arch info = ag_arch a)
    (Hoffer : updateFor h info (ag_version a) = Some m) (Htext : cleanManifest m = m) (Hfits : fitsInt 64 (mf_Size m))
    (Hallowed : FeatureUpdate ∈ features (ag_cfg a)) (Hidle : ag_updating a = false) :
  let '(_, a') := handleUpdate runVersion evalExecutable (decoded (jsonMarshal (manifestJSON m))) true (mkStream data false) a in
  (200 * 2 ^ 20 < mf_Size m → ho_files (ag_host a') = ho_files (ag_host a) ∧ trace a' = trace a ++ [HReject "the update is too large"])
  ∧ (mf_Size m ≤ 200 * 2 ^ 20 → (executable evalExecutable a).1 = Ok exe → machineReady (ag_os a) exe (ag_host a) → goodBinary runVersion m data →
     ho_files (ag_host a') !! exe = Some data ∧ ag_updating a' = false
     ∧ ∃ l, trace a' = trace a ++ l ++ [HReply true ""] ++ (if ag_canRestart a then [HRestart exe] else [])).
Proof.
  assert (Hd : cf_DisableUpdates (ag_cfg a) = false).
  { unfold features in Hallowed. destruct (cf_DisableUpdates (ag_cfg a)); [|done]. cbn [negb] in Hallowed. exfalso. revert Hallowed.
    destruct (cf_AllowShell _); cbn; rewrite ?elem_of_cons, elem_of_nil; intros Hc; naive_solver. }
  unfold decoded. rewrite (manifest_sent_read m Hfits), Htext.
  pose proof (offer_checked h a info m Hgood Hos Harch Hoffer Hd Hidle) as Hcheck.
  destruct (handleUpdate _ _ (Some m) true _ a) as [u a'] eqn:E. split.
  - intros Hlt. rewrite (proj2 (Z.ltb_lt maxUpdateSize _) Hlt) in Hcheck. unfold handleUpdate, mbind, M_bind, mget in E.
    rewrite Hcheck in E. by injection E as _ <-.
  - intros Hle Hexe Hready Hbin. rewrite (proj2 (Z.ltb_ge maxUpdateSize _) Hle) in Hcheck.
    exact (wp_run _ _ _ _ _ (wp_update_taken a m exe data Hcheck Hexe Hready Hbin) E).
Qed.
End updates.

(** ** Files that are written and read back *)
Section files.
Context `{FloatText} `{!FloatTextLaws}.
(** ASCII text is valid. *)
Lemma ascii_valid p : Forall (λ b, b < 128) p → validUTF8 p = true.
Proof.
  unfold validUTF8, chars. assert (Hgen : ∀ f p, Forall (λ b, b < 128) p → forallb (λ c, match c with [b] => b <? 128 | _ => true end) (charsOf f p) = true);
    [|by apply Hgen]. clear p. intros f. induction f as [|f IH]; intros p Hp; [done|]. destruct Hp as [|b p Hb Hp]; [done|].
  cbn [charsOf]. rewrite runeWidth_ascii by lia. cbn [take drop forallb]. rewrite (proj2 (Z.ltb_lt _ _) Hb). by apply IH.
Qed.
Lemma hexEncode_valid s : validStr (hexEncode s) = true.
Proof.
  apply ascii_valid. induction s as [|c s IH]; [done|]. cbn [hexEncode]. rewrite !bytesOf_cons.
  assert (Hd : ∀ n, 0 ≤ n < 16 → byte_of (hexDigit n) < 128).
  { intros n Hn. unfold hexDigit. rewrite byte_of_ascii_of; destruct (n <? 10) eqn:E; bool_hyps; unfold isByte; lia. }
  pose proof (nat_ascii_bounded c) as Hc.
  constructor; [|constructor; [|exact IH]]; apply Hd; [split; [apply Z.div_pos; lia|apply Z.div_lt_upper_bound; lia]|apply Z.mod_pos_bound; lia].
Qed.
#[local] Instance fileMarshal : Marshal := jsonMarshalIndent.
(** The configuration an agent saves is the one it loads. *)
Lemma config_reads_back c : validStr (cf_HubURL c) = true → validStr (cf_HubKey c) = true → validStr (cf_Token c) = true → configReadsBack c.
Proof.
  intros Hu Hk Ht. unfold configReadsBack. unfold marshal, fileMarshal. rewrite config_file_read. unfold cleanConfig. by rewrite !cleanStr_valid.
Qed.

Section release.
Context `{Lib, Signing, !SigningLaws}.
Implicit Types (h : host) (path version seed : string).
(** Names and version are valid text and the files no larger than an integer, and base64 is text. *)
Definition textual version seed h : Prop := validStr version = true
  ∧ (∀ path c, ho_files h !! path = Some c → validStr (Base path) = true ∧ strLen c < 2 ^ 63)
  ∧ ∀ msg, validStr (b64Encode (ed25519Sign seed msg)) = true.
Lemma manifests_read_back version seed h : textual version seed h → readsBack version seed h.
Proof.
  intros (Hv & Hf & Hb) path c m Hc Hm. unfold signedManifest in Hm. destruct (message _) as [msg|]; [|done]. injection Hm as <-.
  destruct (Hf path c Hc) as [Hn Hl]. unfold marshal, fileMarshal.
  rewrite manifest_file_read; [|unfold fitsInt; cbn; pose proof (strLen_nonneg c); lia]. unfold cleanManifest, describe, with_Signature. cbn [mf_File mf_Version mf_Size mf_SHA256 mf_Signature].
  by rewrite !cleanStr_valid by (done || apply hexEncode_valid).
Qed.

(** C17. What the release tool signs is what hubs and agents accept. On a working disk, with a private key whose
    public half is trusted, a release version and files that can be signed, all named in valid text: the tool succeeds, and next to every
    file there is a manifest whose bytes read back as one with a valid signature, naming the file, the version, the
    size and the hash of its contents; nothing else is written. *)
Theorem signed_manifest_roundtrip (version env raw : string) (optional : bool) (paths : list string) (h : host)
    (Henv : TrimSpace env ≠ "") (Hraw : b64Decode (TrimSpace env) = Some raw) (Hlen : strLen raw = 32)
    (Htrusted : b64Encode (ed25519Public raw) ∈ TrustedKeys) (Hver : IsRelease version = true)
    (Htext : textual version raw h) (Hwork : ho_faults h = []) (Hfiles : Forall (signable version h) paths)
    (Hsep : ∀ p q, p ∈ paths → q ∈ paths → p +:+ ManifestExt ≠ q) :
  let '(r, h') := run version optional env paths h in
  r = None ∧ Forall (signedAs version h h') paths
  ∧ (∀ p, p ∉ map (λ q, q +:+ ManifestExt) paths → ho_files h' !! p = ho_files h !! p).
Proof. apply wp_let, (run_signs version env raw); try done. by apply manifests_read_back. Qed.
End release.
End files.

(** ** Witnesses *)
Definition demoShellAgent : agent := AgentUpdate.demoAgent.
Definition demoCommand : command := CmdPower "reboot".
Definition demoTokenHub : hub :=
  newHub (Hub.mkConfig "" []) ∅ (mkMach (set_enroll_tokens [mkEnrollRow (@hashToken demoLib "token") 0 100] (freshStore 0)) (mkEnv 0 [] [] [])).
Definition demoNewAgent : agent := demoOffAgent.
Lemma enrollment_end_to_end_witness :
  let '(x, h1) := @serveAgent demoLib jsonMarshal unmarshalHello 7 "@" "SHA256:new" (greeting demoInfo demoNewAgent) demoTokenHub in
  connectedAs "SHA256:new" x.1 x.2 h1 ∧ cf_Token (ag_cfg (@hello jsonMarshalIndent (heard x.1) demoNewAgent).2) = "".
Proof.
  pose proof (@enrollment_end_to_end demoLib demoSsh demoFloatText demoFloatLaws demoNewAgent demoInfo demoInfo "SHA256:new" "@" "@" 7 8 demoTokenHub) as He.
  destruct (serveAgent _ _ _ _ _) as [x h1]. destruct (hello _ _) as [r a1] eqn:Eh.
  destruct He as (Hc & _ & _ & Ht & _); [by split; vm_compute|by split; vm_compute|reflexivity| | |reflexivity|].
  - intros (s & Hs & _). by apply elem_of_nil in Hs.
  - split; [done|]. eexists. split; [by left|]. by split.
  - split; [exact Hc|]. exact Ht.
Defined.
Definition demoOfferHub : hub := with_updates {[AgentFile "linux" "amd64" := AgentUpdate.demoManifest]} demoTokenHub.
Definition demoAmd64 : SystemInfo := mkSystemInfo "pc" "linux" "" "" "" "amd64" "" 4 4096 [].
Lemma update_end_to_end_witness :
  let a' := (@handleUpdate demoUpdateLib Some (Ok "/usr/bin/lotse-agent") (decoded (jsonMarshal (manifestJSON AgentUpdate.demoManifest))) true
    (mkStream "2.0.0" false) AgentUpdate.demoAgent).2 in
  ho_files (ag_host a') !! "/usr/bin/lotse-agent" = Some "2.0.0".
Proof.
  pose proof (@update_end_to_end demoUpdateLib demoFloatText demoFloatLaws Some (Ok "/usr/bin/lotse-agent") demoOfferHub AgentUpdate.demoAgent demoAmd64
    AgentUpdate.demoManifest "/usr/bin/lotse-agent" "2.0.0") as Hu.
  destruct (handleUpdate _ _ _ _ _ _) as [u a']. destruct Hu as [_ Hu]; try (vm_compute; (reflexivity || discriminate)).
  - intros name m Hm. unfold demoOfferHub in Hm. cbn [h_updates with_updates] in Hm. apply lookup_singleton_Some in Hm as [<- <-]. split; vm_compute; reflexivity.
  - vm_compute. split; discriminate || reflexivity.
  - vm_compute. right. right. by left.
  - apply Hu; try (vm_compute; (reflexivity || discriminate)).
    + split_and!; [vm_compute; reflexivity|vm_compute; reflexivity|by eexists|]. exists "seed", []. split; vm_compute; reflexivity.
    + split_and!; [vm_compute; reflexivity|vm_compute; reflexivity|]. exists "2.0.0". split; vm_compute; reflexivity.
Defined.
Lemma signed_manifest_roundtrip_witness :
  let '(r, h') := @run demoSignLib demoSigning jsonMarshalIndent "1.2.0" false trusted44 ["/dist/lotse-agent-linux-amd64"] demoDist in
  r = None ∧ Forall (@signedAs demoSignLib unmarshalManifest "1.2.0" demoDist h') ["/dist/lotse-agent-linux-amd64"].
Proof.
  pose proof (@signed_manifest_roundtrip demoFloatText demoFloatLaws demoSignLib demoSigning demoSigningLaws
    "1.2.0" trusted44 key32 false ["/dist/lotse-agent-linux-amd64"] demoDist) as Hs.
  destruct (run _ _ _ _ _) as [r h'].
  destruct Hs as (Hr & Hall & _); [done|reflexivity|reflexivity|by left|reflexivity| |reflexivity| | |by split].
  - split_and!; [reflexivity| |reflexivity]. intros path c Hc. unfold demoDist in Hc. cbn [ho_files] in Hc. apply lookup_singleton_Some in Hc as [<- <-]. by split; vm_compute.
  - constructor; [|constructor]. exists "binary". split; reflexivity.
  - intros p q ->%list_elem_of_singleton ->%list_elem_of_singleton. apply sigName_neq.
Defined.
