(* ===== verification/Commands.v ===== *)
(** * The command lines ([main] of [cmd/agent], [cmd/hub] and [cmd/sign], [scripts/install.sh])

    How arguments become what [AgentCommand], [HubCommand] and [Sign] do: the package [flag], the choice of the
    command, the exit status; and the way of an enrollment token from the hub's command line through the printed command
    and the install script to the agent that runs with it. *)
From Stdlib Require Import ZArith Lia Ascii String.
From S2P Require Import Prelude GoStrings Float64 Library Version Paths Web Store StoreInv Update Protocol JSON Hub Auth AuthProps HubCommand Host AgentConfig AgentUpdate Agent Sign AgentCommand HubStart Wire EndToEnd.
From stdpp Require Import base gmap strings list sorting.
Local Open Scope string_scope.
Local Open Scope list_scope.
Local Open Scope Z_scope.
Local Open Scope lotse_scope.

(** ** The package [flag] *)
Inductive flagValue : Type := VString (s : string) | VBool (b : bool) | VDuration (d : Z).
Definition FlagSet : Type := gmap string flagValue.
(** What an argument is, before its flag is looked up. *)
Inductive flagArg : Type := NotFlag | Terminator | BadSyntax | Named (name : string) (value : option string).
Definition dash : ascii := "-".
Definition nameAndValue (s : string) : flagArg :=
  match s with
  | "" => BadSyntax
  | String a _ =>
    if Ascii.eqb a dash || Ascii.eqb a "=" then BadSyntax else
    let '(name, value, found) := Cut "=" s in Named name (if found then Some value else None)
  end.
Definition readFlag (s : string) : flagArg :=
  match s with
  | String a (String b rest) =>
    if negb (Ascii.eqb a dash) then NotFlag
    else if Ascii.eqb b dash then (if String.eqb rest "" then Terminator else nameAndValue rest)
    else nameAndValue (String b rest)
  | _ => NotFlag
  end.
(** [strconv.ParseBool]. *)
Definition ParseBool (s : string) : option bool :=
  if existsb (String.eqb s) ["1"; "t"; "T"; "true"; "TRUE"; "True"] then Some true
  else if existsb (String.eqb s) ["0"; "f"; "F"; "false"; "FALSE"; "False"] then Some false
  else None.
Section flag.
(** [time.ParseDuration]. *)
Context (ParseDuration : string → option Z).
(** [Value.Set], for a flag that has the value [v]. *)
Definition setFlag (v : flagValue) (s : string) : option flagValue :=
  match v with
  | VString _ => Some (VString s)
  | VBool _ => VBool <$> ParseBool s
  | VDuration _ => VDuration <$> ParseDuration s
  end.
(** [FlagSet.Parse] with [ExitOnError]: the flags and the arguments after them, or the exit status. *)
Fixpoint Parse (fs : FlagSet) (args : list string) : result Z (FlagSet * list string) :=
  match args with
  | [] => Ok (fs, [])
  | s :: rest =>
    match readFlag s with
    | NotFlag => Ok (fs, args)
    | Terminator => Ok (fs, rest)
    | BadSyntax => Err 2
    | Named name value =>
      match fs !! name with
      | None => Err (if String.eqb name "help" || String.eqb name "h" then 0 else 2)
      | Some (VBool b) =>
        match setFlag (VBool b) (default "true" value) with
        | Some v => Parse (<[name := v]> fs) rest
        | None => Err 2
        end
      | Some v0 =>
        match value with
        | Some x => match setFlag v0 x with Some v => Parse (<[name := v]> fs) rest | None => Err 2 end
        | None =>
          match rest with
          | [] => Err 2
          | x :: rest' => match setFlag v0 x with Some v => Parse (<[name := v]> fs) rest' | None => Err 2 end
          end
        end
      end
    end
  end.
End flag.
Definition getString (fs : FlagSet) (name : string) : string := match fs !! name with Some (VString s) => s | _ => "" end.
Definition getBool (fs : FlagSet) (name : string) : bool := match fs !! name with Some (VBool b) => b | _ => false end.
Definition getDuration (fs : FlagSet) (name : string) : Z := match fs !! name with Some (VDuration d) => d | _ => 0 end.

(** The exit status, and what is printed after "error:". *)
Definition exit : Type := Z * option string.
Definition exitWith (err : option string) : exit := match err with Some e => (1, Some e) | None => (0, None) end.
(** A command with its flags. *)
Definition withFlags {S} (ParseDuration : string → option Z) (fs : FlagSet) (args : list string)
    (f : FlagSet → list string → M S (option string)) : M S exit :=
  match Parse ParseDuration fs args with
  | Err code => mret (code, None)
  | Ok (fs, rest) => e ← f fs rest; mret (exitWith e)
  end.

(** ** The agent *)
(** No command of the agent or the release tool has a duration. *)
Definition noDuration (_ : string) : option Z := None.
Section agent.
Context `{Lib} `{Ssh} `{Marshal} `{!Unmarshal Config}.
Context (os : goos) (ProgramData : string).

(** [service.Run] asks the manager, which starts the program; it returns when the service is stopped, or with an error. *)
Definition cmdRun (interactive : bool) (cfgPath : string) : M machine (option string) :=
  _ ← onMachine (newLogger os interactive cfgPath);
  n ← ask (CNew (serviceConfig cfgPath));
  match isErr n with
  | Some e => mret (Some e)
  | None =>
    a ← ask CRun;
    match isErr a with
    | Some e => mret (Some e)
    | None =>
      started ← onMachine (programStart cfgPath);
      match started with
      | Err e => mret (Some e)
      | Ok (cfg, hubKey, key) => _ ← ask (CAgent cfg hubKey key); mret None
      end
    end
  end.
Definition runFlagSet : FlagSet := {[ "config" := VString (DefaultConfigPath os ProgramData) ]}.
Definition installFlagSet : FlagSet :=
  {[ "hub" := VString ""; "key" := VString ""; "token" := VString ""; "allow-shell" := VBool false; "no-updates" := VBool false;
     "config" := VString (DefaultConfigPath os ProgramData) ]}.
Definition uninstallFlagSet : FlagSet := {[ "purge" := VBool false; "config" := VString (DefaultConfigPath os ProgramData) ]}.
Definition installFlagsOf (fs : FlagSet) : installFlags :=
  mkInstallFlags (getString fs "hub") (getString fs "key") (getString fs "token") (getBool fs "allow-shell") (getBool fs "no-updates")
    (getString fs "config").
(** [main]; [args] is [os.Args]. *)
Definition agentMain (interactive admin : bool) (args : list string) : M machine exit :=
  match args with
  | _ :: cmd :: rest =>
    if String.eqb cmd "run" then
      withFlags noDuration runFlagSet rest (λ fs _, cmdRun interactive (getString fs "config"))
    else if String.eqb cmd "install" then
      withFlags noDuration installFlagSet rest (λ fs _,
        r ← cmdInstall os ProgramData admin (installFlagsOf fs);
        mret (match r with Err e => Some e | Ok _ => None end))
    else if String.eqb cmd "uninstall" then
      withFlags noDuration uninstallFlagSet rest (λ fs _, cmdUninstall os admin (getBool fs "purge") (getString fs "config"))
    else if existsb (String.eqb cmd) ["version"; "--version"; "help"; "-h"; "--help"] then mret (0, None)
    else mret (2, None)
  | _ => mret (2, None)
  end.
End agent.

(** ** The hub *)
Section hub.
Context `{Lib} (walk : string → list (string + string)) (ParseDuration : string → option Z).
Context (c : hubConfig) (PUID PGID : string).
Definition tokenFlagSet : FlagSet := {[ "ttl" := VDuration (hours 1); "allow-shell" := VBool false ]}.
(** [main]; [ran], [opened], [port] and [answer] are those of [serve], [token] and [healthcheck]. *)
Definition hubMain (ran : option string) (opened : result string string) (port : option string)
    (answer : string → result string (Z * string)) (args : list string) : M (process * mach) exit :=
  let cmd := default "" (args !! 1%nat) in
  if String.eqb cmd "" || String.eqb cmd "serve" then λ s,
    let '(e, p) := serve walk (hc_DataDir c) PUID PGID ran s.1 in (exitWith e, (p, s.2))
  else if String.eqb cmd "token" then
    withFlags ParseDuration tokenFlagSet (drop 2 args) (λ fs _,
      r ← token walk (hc_DataDir c) (hc_PublicURL c) PUID PGID opened (getDuration fs "ttl") (getBool fs "allow-shell");
      mret (match r with Err e => Some e | Ok _ => None end))
  else if String.eqb cmd "healthcheck" then mret (exitWith (healthcheck (hc_Addr c) port answer))
  else if existsb (String.eqb cmd) ["version"; "--version"] then mret (0, None)
  else mret (2, None).
End hub.

(** ** The release tool *)
Section tool.
Context `{Lib, Signing} `{Marshal}.
(** What [run keygen] prints: the private key and the public key. *)
Definition keygen (seed : string) : string * string := (b64Encode seed, b64Encode (ed25519Public seed)).
Definition signFlagSet : FlagSet := {[ "version" := VString ""; "optional" := VBool false ]}.
(** [main] without the program's name; [env] is the variable with the key. *)
Definition signMain (env : string) (args : list string) : M host exit :=
  if bool_decide (head args = Some "keygen") then mret (0, None) else
  withFlags noDuration signFlagSet args (λ fs paths, Sign.run (getString fs "version") (getBool fs "optional") env paths).
(** Whoever has the printed private key signs what the printed public key accepts. *)
Lemma keygen_pair `{!SigningLaws} seed m msg : (keygen seed).2 ∈ TrustedKeys → message m = Ok msg →
  ∃ raw, b64Decode (keygen seed).1 = Some raw ∧ Verify (with_Signature (b64Encode (ed25519Sign raw msg)) m) = Ok tt.
Proof. intros Ht Hm. exists seed. split; [apply Sign.decode_encode|by apply Sign_Verify]. Qed.
End tool.

(** ** The install script *)
Record scriptOptions := mkScriptOptions { so_HUB : string; so_KEY : string; so_TOKEN : string; so_ALLOW_SHELL : string; so_NO_UPDATES : string }.
(** The loop over the arguments; [Err] is what is printed before the script exits with 1. *)
Fixpoint readOptions (o : scriptOptions) (args : list string) : result string scriptOptions :=
  let '(mkScriptOptions hub key tok allow no) := o in
  match args with
  | [] => Ok o
  | a :: rest =>
    if String.eqb a "--hub" then
      match rest with v :: rest' => readOptions (mkScriptOptions v key tok allow no) rest' | [] => Err "2: parameter not set" end
    else if String.eqb a "--key" then
      match rest with v :: rest' => readOptions (mkScriptOptions hub v tok allow no) rest' | [] => Err "2: parameter not set" end
    else if String.eqb a "--token" then
      match rest with v :: rest' => readOptions (mkScriptOptions hub key v allow no) rest' | [] => Err "2: parameter not set" end
    else if String.eqb a "--allow-shell" then readOptions (mkScriptOptions hub key tok "true" no) rest
    else if String.eqb a "--no-updates" then readOptions (mkScriptOptions hub key tok allow "true") rest
    else Err ("unknown option: " +:+ a)
  end.
(** The folders the script tries for the binary. *)
Definition scriptDirs : list string := ["/usr/local/bin"; "/opt/" +:+ AgentName; "/var/lib/" +:+ AgentName].
Definition binPath (dir : string) : string := dir +:+ "/" +:+ AgentName.

Section script.
(** What curl or wget gets from an address, and whether all of it (nothing when neither is installed); whether a
    folder is writable; whether a program with these contents can be run in a folder. *)
Context (fetch : string → string * bool) (writable : string → bool) (runs : string → string → bool).

(** mkdir -p *)
Definition shMkdir (d : string) : M host bool :=
  f ← fault;
  match f with
  | Some _ => mret false
  | None => mstate (λ h,
      match ho_files h !! d, ho_dirs h !! d with
      | Some _, _ => (false, h)
      | None, Some _ => (true, h)
      | None, None => (true, with_dirs (<[d := false]> (ho_dirs h)) h)
      end)
  end.
(** rm -f *)
Definition shRm (p : string) : M host bool :=
  r ← osRemove p; mret (match r with Ok _ => true | Err e => isNotExist e end).
(** The script ends at a failing command, with the trap that removes the temporary file. *)
Definition quit (tmp msg : string) : M host (result string string) := _ ← shRm tmp; mret (Err msg).
Definition download (url tmp : string) : M host bool :=
  w ← osWriteFile tmp (fetch url).1; mret ((fetch url).2 && is_ok w).
(** The loop over the folders: the path of the binary, or the message before the script exits with an error. *)
Fixpoint place (url : string) (dirs : list string) : M host (result string string) :=
  match dirs with
  | [] => mret (Err ("found no writable location that allows running programs (tried /usr/local/bin, /opt/" +:+ AgentName +:+ ", /var/lib/" +:+ AgentName +:+ ")"))
  | dir :: rest =>
    made ← shMkdir dir;
    if negb (made && writable dir) then place url rest else
    t ← osCreateTemp dir ("." +:+ AgentName +:+ ".") "";
    match t with
    | Err _ => place url rest
    | Ok tmp =>
      got ← download url tmp;
      if negb got then quit tmp "download failed" else
      chmod ← fault;
      match chmod with
      | Some _ => quit tmp "chmod failed"
      | None =>
        _ ← emit (HExec [tmp; "version"]);
        data ← mgets (λ h, default "" (ho_files h !! tmp));
        if runs dir data then
          m ← osRename tmp (binPath dir);
          match m with Err _ => quit tmp "mv failed" | Ok _ => mret (Ok (binPath dir)) end
        else
          r ← shRm tmp;
          if negb r then quit tmp "rm failed" else place url rest
      end
    end
  end.
(** The whole script, up to the call of the agent it installed: the agent's arguments, or what is printed before the script
    exits with an error. [uid], [unameS] and [unameM] are the answers of [id] and [uname]. *)
Definition installSh (uid : Z) (unameS unameM : string) (args : list string) : M host (result string (list string)) :=
  match readOptions (mkScriptOptions "" "" "" "false" "false") args with
  | Err e => mret (Err e)
  | Ok o =>
    if String.eqb (so_HUB o) "" || String.eqb (so_KEY o) "" then mret (Err "usage: install.sh --hub URL --key 'ssh-ed25519 ...' [--token TOKEN]")
    else if negb (uid =? 0) then mret (Err "please run as root (sudo)") else
    match (if String.eqb unameS "Linux" then Some "linux" else if String.eqb unameS "Darwin" then Some "darwin" else None),
          (if existsb (String.eqb unameM) ["x86_64"; "amd64"] then Some "amd64"
           else if existsb (String.eqb unameM) ["aarch64"; "arm64"] then Some "arm64" else None) with
    | None, _ => mret (Err ("unsupported OS: " +:+ unameS))
    | _, None => mret (Err ("unsupported architecture: " +:+ unameM))
    | Some os, Some arch =>
      r ← place (so_HUB o +:+ "/download/" +:+ AgentName +:+ "-" +:+ os +:+ "-" +:+ arch) scriptDirs;
      match r with
      | Err e => mret (Err e)
      | Ok bin =>
        mret (Ok ([bin; "install"; "--hub=" +:+ so_HUB o; "--key=" +:+ so_KEY o; "--token=" +:+ so_TOKEN o; "--allow-shell=" +:+ so_ALLOW_SHELL o]
            ++ if String.eqb (so_NO_UPDATES o) "true" then ["--no-updates"] else []))
      end
    end
  end.

(** *** What the script does to files *)
Implicit Types (h : host) (p : string).
Definition tmpPath (dir seed : string) : string := joinPath dir (("." +:+ AgentName +:+ ".") +:+ seed +:+ "").
Lemma tmpPath_binPath dir dir' seed : dir ∈ scriptDirs → dir' ∈ scriptDirs → tmpPath dir seed ≠ binPath dir'.
Proof.
  unfold scriptDirs. rewrite !elem_of_cons, !elem_of_nil.
  intros [->|[->|[->|[]]]] [->|[->|[->|[]]]]; unfold tmpPath, joinPath, binPath; intros E; cbv in E; discriminate E.
Qed.
(** A binary, or a temporary file that was not there before. *)
Definition scriptFile h p : Prop :=
  (∃ dir, dir ∈ scriptDirs ∧ p = binPath dir) ∨ (∃ dir seed, dir ∈ scriptDirs ∧ p = tmpPath dir seed ∧ ho_files h !! p = None).
(** A complete download that runs in the folder. *)
Definition goodDownload (url dir data : string) : Prop := fetch url = (data, true) ∧ runs dir data = true.
(** Since [h0] no other file was touched, and no binary but by a complete download that runs. *)
Definition scriptInv (url : string) h0 h : Prop :=
  (∀ p, ¬ scriptFile h0 p → ho_files h !! p = ho_files h0 !! p)
  ∧ (∀ dir, dir ∈ scriptDirs → ho_files h !! binPath dir = ho_files h0 !! binPath dir
       ∨ ∃ data, ho_files h !! binPath dir = Some data ∧ goodDownload url dir data).
Lemma scriptInv_same url h0 h h' : ho_files h' = ho_files h → scriptInv url h0 h → scriptInv url h0 h'.
Proof. unfold scriptInv. by intros ->. Qed.
(** A change of the temporary file. *)
Lemma scriptInv_tmp url h0 h h' dir seed : dir ∈ scriptDirs → ho_files h0 !! tmpPath dir seed = None →
  (∀ p, p ≠ tmpPath dir seed → ho_files h' !! p = ho_files h !! p) → scriptInv url h0 h → scriptInv url h0 h'.
Proof.
  intros Hd Ht Hk [Hf Hb]. split.
  - intros p Hp. rewrite Hk; [by apply Hf|]. intros ->. apply Hp. right. eauto.
  - intros d Hin. rewrite Hk; [by apply Hb|]. by apply not_eq_sym, tmpPath_binPath.
Qed.
Lemma scriptInv_fresh url h0 h dir seed : dir ∈ scriptDirs → scriptInv url h0 h → ho_files h !! tmpPath dir seed = None →
  ho_files h0 !! tmpPath dir seed = None.
Proof.
  intros Hd [Hf _] Hn. destruct (ho_files h0 !! tmpPath dir seed) eqn:E; [|done]. rewrite <-Hn, <-E. symmetry. apply Hf.
  intros [(d & Hin & Eq)|(d & sd & _ & _ & Eq)]; [by apply (tmpPath_binPath dir d seed)|congruence].
Qed.
Lemma wp_shRm p (Q : bool → host → Prop) h :
  (∀ b h', (∀ q, q ≠ p → ho_files h' !! q = ho_files h !! q) → Q b h') → wp (shRm p) Q h.
Proof.
  intros HQ. unfold shRm. apply wp_bind, wp_osRemove.
  - intros e h' Hs _ _. apply wp_ret, HQ. by destruct (sameButFaults_spec _ _ Hs) as [-> _].
  - intros h' Hs _. apply wp_ret, HQ. intros q Hq. cbn. rewrite lookup_delete_ne by done. by destruct (sameButFaults_spec _ _ Hs) as [-> _].
  - intros h' Hs _ _. apply wp_ret, HQ. intros q Hq. cbn. by destruct (sameButFaults_spec _ _ Hs) as [-> _].
Qed.
Lemma wp_shMkdir d (Q : bool → host → Prop) h : (∀ b h', ho_files h' = ho_files h → Q b h') → wp (shMkdir d) Q h.
Proof.
  intros HQ. unfold shMkdir. apply wp_skip_fault. intros [n|] h1 E1; [by apply wp_ret, HQ|].
  unfold wp, mstate. rewrite E1. destruct (ho_files h !! d), (ho_dirs h1 !! d); cbn; by apply HQ.
Qed.
Definition placePost (url : string) h0 (r : result string string) h' : Prop :=
  scriptInv url h0 h'
  ∧ ∀ bin, r = Ok bin → ∃ dir data, dir ∈ scriptDirs ∧ bin = binPath dir ∧ ho_files h' !! bin = Some data ∧ goodDownload url dir data.
Lemma wp_place url dirs h0 h : dirs ⊆ scriptDirs → scriptInv url h0 h → wp (place url dirs) (placePost url h0) h.
Proof.
  revert h. induction dirs as [|dir rest IH]; intros h Hsub Hinv; cbn [place]; [by apply wp_ret|].
  assert (Hd : dir ∈ scriptDirs) by set_solver. assert (Hrest : rest ⊆ scriptDirs) by set_solver.
  apply wp_bind, wp_shMkdir. intros made h1 E1. apply (scriptInv_same _ _ _ h1) in Hinv; [|done].
  destruct (negb _); [by apply IH|]. apply wp_bind, wp_osCreateTemp.
  { intros e h2 E2. apply IH; [done|]. by eapply scriptInv_same. }
  intros seed h2 tmp Hfree E2. subst tmp. fold (tmpPath dir seed) in *. set (tmp := tmpPath dir seed) in *.
  pose proof (scriptInv_fresh _ _ _ _ _ Hd Hinv Hfree) as H0.
  assert (Hinv2 : scriptInv url h0 h2).
  { eapply scriptInv_tmp; [done..| |exact Hinv]. intros p Hp. by rewrite E2, lookup_insert_ne. }
  assert (Hquit : ∀ msg x, scriptInv url h0 x → wp (quit tmp msg) (placePost url h0) x).
  { intros msg x Hx. unfold quit. apply wp_bind, wp_shRm. intros b x' Hx'. apply wp_ret. split; [by eapply scriptInv_tmp|done]. }
  apply wp_bind. unfold download. apply wp_bind.
  assert (Hdown : wp (osWriteFile tmp (fetch url).1) (λ w x, scriptInv url h0 x ∧ (is_ok w = true → ho_files x !! tmp = Some (fetch url).1)) h2).
  { apply wp_osWriteFile.
    - intros n x Hs _. split; [|done]. eapply scriptInv_tmp; [done..| |exact Hinv2]. intros p Hp. cbn.
      rewrite lookup_insert_ne by done. by destruct (sameButFaults_spec _ _ Hs) as [-> _].
    - intros x Hs. split; [|intros _; cbn; by rewrite lookup_insert_eq]. eapply scriptInv_tmp; [done..| |exact Hinv2]. intros p Hp. cbn.
      rewrite lookup_insert_ne by done. by destruct (sameButFaults_spec _ _ Hs) as [-> _]. }
  eapply wp_mono; [exact Hdown|]. intros w h3 [Hinv3 Hw]. apply wp_ret.
  destruct ((fetch url).2 && is_ok w) eqn:Egot; cbn [negb]; [|by apply Hquit]. apply andb_prop in Egot as [Efetch Eok]. specialize (Hw Eok).
  apply wp_skip_fault. intros [n|] h4 E4; [by eapply Hquit, scriptInv_same|].
  apply wp_bind, wp_modify, wp_bind, wp_gets. set (h5 := Host.with_trace _ h4). cbn beta.
  assert (Hdata : default "" (ho_files h5 !! tmp) = (fetch url).1) by (cbn; by rewrite E4, Hw). rewrite Hdata.
  assert (Hinv5 : scriptInv url h0 h5) by (by apply (scriptInv_same _ _ h3)).
  destruct (runs dir (fetch url).1) eqn:Eruns.
  - assert (Hgood : goodDownload url dir (fetch url).1) by (split; [by destruct (fetch url); cbn in *; subst|done]).
    apply wp_bind, wp_osRename; [intros e h6 Hs _; apply Hquit, (scriptInv_same _ _ h5); [by destruct (sameButFaults_spec _ _ Hs)|done]|].
    intros c h6 Hs Hc. cbn in Hc. rewrite E4, Hw in Hc. injection Hc as <-. apply wp_ret. destruct (sameButFaults_spec _ _ Hs) as [E6 _].
    split.
    + destruct Hinv5 as [Hf Hb]. split.
      * intros p Hp. cbn. rewrite lookup_insert_ne by (intros <-; apply Hp; left; eauto).
        rewrite lookup_delete_ne by (intros <-; apply Hp; right; eauto). rewrite E6. by apply Hf.
      * intros d Hin. cbn. destruct (decide (binPath dir = binPath d)) as [Eb|Hne].
        -- right. exists (fetch url).1. rewrite Eb, lookup_insert_eq. split; [done|]. destruct Hgood as [Hg1 Hg2]. split; [done|].
           assert (Edir : dir = d); [|by rewrite <-Edir].
           revert Hd Hin Eb. unfold scriptDirs. rewrite !elem_of_cons, !elem_of_nil. clear.
           intros [->|[->|[->|[]]]] [->|[->|[->|[]]]]; unfold binPath; cbv; done.
        -- rewrite lookup_insert_ne, lookup_delete_ne by (done || by apply tmpPath_binPath). rewrite E6. by apply Hb.
    + intros bin [= <-]. exists dir, (fetch url).1. split_and!; [done|done|cbn; by rewrite lookup_insert_eq|apply Hgood..].
  - apply wp_bind, wp_shRm. intros b h6 E6. assert (Hinv6 : scriptInv url h0 h6) by (by eapply scriptInv_tmp).
    destruct b; [by apply IH|by apply Hquit].
Qed.
End script.

(** The arguments of the script that is piped into [sudo sh -s -- ...]. *)
Fixpoint pipedArgs (l : list shToken) : list string :=
  match l with
  | Pipe :: Word sudo :: Word sh :: Word s :: Word dashes :: rest =>
    if bool_decide ([sudo; sh; s; dashes] = ["sudo"; "sh"; "-s"; "--"])
    then omap (λ t, match t with Word w => Some w | Pipe => None end) rest else []
  | _ :: rest => pipedArgs rest
  | [] => []
  end.

(** ** From the token to the running agent *)
Section install.
Context `{Lib} `{Ssh} `{!SshLaws} `{FloatText} `{!FloatTextLaws}.
#[local] Instance diskMarshal : Marshal := jsonMarshalIndent.
Implicit Types (os : goos) (s : machine) (h : host) (f : installFlags) (c : Config) (allow : bool).

Definition unameOf os : string := match os with Linux => "Linux" | Darwin => "Darwin" | Windows => "MINGW64_NT" end.
(** What the machine gets from an address, where it lets files be written and programs run. *)
Context (fetch : string → string * bool) (writable : string → bool) (runs : string → string → bool).
(** Pasting a command into a terminal of the machine; the binary of the hub is the agent. *)
Definition pasted os (unameM : string) (interactive admin : bool) (command : string) : M machine exit :=
  match shTokens command with
  | None => mret (2, None)
  | Some words =>
    r ← onMachine (installSh fetch writable runs (if admin then 0 else 1000) (unameOf os) unameM (pipedArgs words));
    match r with
    | Err e => mret (1, Some e)
    | Ok argv => agentMain os "" interactive admin argv
    end
  end.
Definition wanted os (hubURL hubKey tok : string) (allow : bool) : installFlags :=
  mkInstallFlags hubURL hubKey tok allow false (DefaultConfigPath os "").
Definition knownArch (unameM : string) : bool := existsb (String.eqb unameM) ["x86_64"; "amd64"; "aarch64"; "arm64"].

Lemma pipedArgs_command hubURL hubKey tok allow : ∃ words, shTokens (unixCommand hubURL hubKey tok allow) = Some words
  ∧ pipedArgs words = ["--hub"; hubURL; "--key"; hubKey; "--token"; tok] ++ if allow then ["--allow-shell"] else [].
Proof. eexists. split; [apply install_command_words|]. by destruct allow. Qed.
Lemma readOptions_command hubURL hubKey tok allow :
  readOptions (mkScriptOptions "" "" "" "false" "false") (["--hub"; hubURL; "--key"; hubKey; "--token"; tok] ++ if allow then ["--allow-shell"] else [])
  = Ok (mkScriptOptions hubURL hubKey tok (if allow then "true" else "false") "false").
Proof. by destruct allow. Qed.
Lemma installFlags_parsed os bin hubURL hubKey tok allow interactive s :
  agentMain os "" interactive true [bin; "install"; "--hub=" +:+ hubURL; "--key=" +:+ hubKey; "--token=" +:+ tok;
    "--allow-shell=" +:+ (if allow then "true" else "false" : string)] s
  = let '(r, s') := cmdInstall os "" true (wanted os hubURL hubKey tok allow) s in (exitWith (match r with Err e => Some e | Ok _ => None end), s').
Proof.
  assert (E : ∃ fs, Parse noDuration (installFlagSet os "") ["--hub=" +:+ hubURL; "--key=" +:+ hubKey; "--token=" +:+ tok;
    "--allow-shell=" +:+ (if allow then "true" else "false" : string)] = Ok (fs, []) ∧ installFlagsOf fs = wanted os hubURL hubKey tok allow).
  { eexists. split; [by destruct os, allow|]. by destruct os, allow. }
  destruct E as (fs & E & Ef). cbn [agentMain String.eqb Ascii.eqb Bool.eqb]. unfold withFlags. rewrite E, Ef.
  unfold mbind, M_bind. by destruct (cmdInstall _ _ _ _ _) as [[]].
Qed.
(** Where the binary for a machine is. *)
Definition binaryURL os (unameM hubURL : string) : string :=
  hubURL +:+ "/download/" +:+ AgentName +:+ "-" +:+ GOOS os +:+ "-" +:+ (if existsb (String.eqb unameM) ["x86_64"; "amd64"] then "amd64" else "arm64").
Definition withHost h s : machine := mkMachine h (mg_calls s) (mg_answers s).
(** The command does nothing; or it places a binary, and installs with exactly what it was made of. *)
Lemma pasted_command os unameM interactive admin hubURL hubKey tok allow s :
  let run := pasted os unameM interactive admin (unixCommand hubURL hubKey tok allow) s in
  (run.2 = s ∧ run.1.1 ≠ 0 ∧ ¬ (os ≠ Windows ∧ knownArch unameM = true ∧ admin = true ∧ hubURL ≠ "" ∧ hubKey ≠ ""))
  ∨ ∃ r h1, place fetch writable runs (binaryURL os unameM hubURL) scriptDirs (mg_host s) = (r, h1)
      ∧ match r with
        | Err e => run = ((1, Some e), withHost h1 s)
        | Ok _ => ∃ r' s', cmdInstall os "" true (wanted os hubURL hubKey tok allow) (withHost h1 s) = (r', s')
                    ∧ run = (exitWith (match r' with Err e => Some e | Ok _ => None end), s')
        end.
Proof.
  intros run. unfold run, pasted. destruct (pipedArgs_command hubURL hubKey tok allow) as (words & -> & ->).
  assert (Hback : mkMachine (mg_host s) (mg_calls s) (mg_answers s) = s) by by destruct s.
  unfold mbind, M_bind, onMachine, installSh. rewrite readOptions_command. cbn [so_HUB so_KEY so_TOKEN so_ALLOW_SHELL so_NO_UPDATES].
  destruct (String.eqb_spec hubURL "") as [->|Hu]; [left; cbn; rewrite Hback; split_and!; naive_solver|].
  destruct (String.eqb_spec hubKey "") as [->|Hk]; [left; cbn; rewrite Hback; split_and!; naive_solver|]. cbn [orb].
  destruct admin; [|left; cbn; rewrite Hback; split_and!; naive_solver]. cbn [negb Z.eqb].
  assert (Harch : (∃ a, (if existsb (String.eqb unameM) ["x86_64"; "amd64"] then Some "amd64"
             else if existsb (String.eqb unameM) ["aarch64"; "arm64"] then Some "arm64" else None) = Some a
           ∧ a = if existsb (String.eqb unameM) ["x86_64"; "amd64"] then "amd64" else "arm64")
         ∨ (existsb (String.eqb unameM) ["x86_64"; "amd64"] = false ∧ existsb (String.eqb unameM) ["aarch64"; "arm64"] = false ∧ knownArch unameM = false)).
  { unfold knownArch. cbn. repeat (destruct (String.eqb unameM _); [left; eexists; by split|]). by right. }
  destruct Harch as [(arch & -> & ->)|(-> & -> & Hno)];
    [|left; split_and!; [destruct os; exact Hback|by destruct os|intros (_ & Hk' & _); congruence]].
  destruct os; cbn [unameOf String.eqb Ascii.eqb Bool.eqb]; [right|right|left; cbn; rewrite Hback; split_and!; naive_solver].
  all: destruct (place fetch writable runs (binaryURL _ unameM hubURL) scriptDirs (mg_host s)) as [r h1] eqn:Ep; exists r, h1; (split; [reflexivity|]).
  all: unfold binaryURL in Ep; cbn [GOOS] in Ep; unfold mbind, M_bind; rewrite Ep; destruct r as [bin|e]; [|done].
  all: cbn [mret M_ret app String.eqb Ascii.eqb Bool.eqb]; rewrite installFlags_parsed; fold (withHost h1 s);
    destruct (cmdInstall _ _ _ _ _) as [r s']; by eexists _, _.
Qed.

(** *** Nothing fails: the installation succeeds *)
(** The machine lets the agent be installed: the hub's address and key are valid, the folder is free for
    the agent, a key that is there is readable, and no call fails. *)
Definition installable c s : Prop :=
  Validate c = Ok tt ∧ ho_faults (mg_host s) = [] ∧ mg_answers s = []
  ∧ ho_files (mg_host s) !! Dir (cf_path c) = None
  ∧ forallb (λ e, existsb (String.eqb e) (ownFiles c)) (dirEntries (mg_host s) (Dir (cf_path c))) = true
  ∧ (∀ data, ho_files (mg_host s) !! KeyPath c = Some data → is_Some (ParsePrivateKey data)).
(** The first folder takes the binary the hub has for this machine. *)
Definition placeable (url : string) h : Prop :=
  ∃ data seed rest, fetch url = (data, true) ∧ runs "/usr/local/bin" data = true ∧ writable "/usr/local/bin" = true
    ∧ ho_files h !! "/usr/local/bin" = None ∧ ho_rand h = seed :: rest ∧ ho_files h !! tmpPath "/usr/local/bin" seed = None.
Lemma place_works url h : placeable url h → ho_faults h = [] →
  ∃ seed h1, place fetch writable runs url scriptDirs h = (Ok (binPath "/usr/local/bin"), h1) ∧ ho_faults h1 = []
    ∧ (∀ p, p ≠ binPath "/usr/local/bin" → p ≠ tmpPath "/usr/local/bin" seed → ho_files h1 !! p = ho_files h !! p)
    ∧ ho_files h1 !! tmpPath "/usr/local/bin" seed = None
    ∧ (∀ d, d ≠ "/usr/local/bin" → ho_dirs h1 !! d = ho_dirs h !! d).
Proof.
  intros (data & seed & rest & Ef & Eruns & Ew & Hd & Hr & Hfree) Hf. exists seed.
  set (dir := "/usr/local/bin") in *. set (tmp := tmpPath dir seed) in *.
  assert (Hm : ∃ h1, shMkdir dir h = (true, h1) ∧ ho_faults h1 = [] ∧ ho_files h1 = ho_files h ∧ ho_rand h1 = ho_rand h
                ∧ ∀ d, d ≠ dir → ho_dirs h1 !! d = ho_dirs h !! d).
  { unfold shMkdir, mbind, M_bind. rewrite fault_none by done. unfold mstate. rewrite Hd. destruct (ho_dirs h !! dir); eexists; split_and!; try done.
    intros d Hne. cbn. by rewrite lookup_insert_ne. }
  destruct Hm as (h1 & Em & Hf1 & Efiles & Erand & Edirs). unfold scriptDirs. cbn [place]. fold dir. unfold mbind, M_bind. rewrite Em, Ew. cbn [negb andb].
  assert (Ht : osCreateTemp dir ("." +:+ AgentName +:+ ".") "" h1 = (Ok tmp, with_files (<[tmp := ""]> (ho_files h1)) (with_rand rest h1))).
  { apply osCreateTemp_run; [done|congruence|by rewrite Efiles]. }
  rewrite Ht. unfold download, mbind, M_bind. rewrite osWriteFile_run by done. rewrite Ef. cbn [fst snd negb andb is_ok mret M_ret].
  rewrite fault_none by done. unfold emit, mmodify, mgets. cbn [ho_files Host.with_trace with_files]. rewrite lookup_insert_eq. change (default "" (Some data)) with data. rewrite Eruns.
  erewrite (osRename_run tmp (binPath dir) data); [|done|cbn; by rewrite lookup_insert_eq]. eexists. split; [done|]. cbn. split_and!; [done| | |done].
  - intros p Hb Htm. by rewrite lookup_insert_ne, lookup_delete_ne, !lookup_insert_ne, Efiles by done.
  - rewrite lookup_insert_ne; [by rewrite lookup_delete_eq|]. intros Eb. apply (tmpPath_binPath dir dir seed); [by left..|done].
Qed.
Lemma elem_of_dirEntries h d name : name ∈ dirEntries h d ↔
  ∃ p, (is_Some (ho_files h !! p) ∨ is_Some (ho_dirs h !! p)) ∧ inDir d p = true ∧ Base p = name.
Proof.
  unfold dirEntries. rewrite merge_sort_Permutation, list_elem_of_fmap. setoid_rewrite elem_of_selectWhere.
  setoid_rewrite elem_of_app. setoid_rewrite elem_of_map_keys. naive_solver.
Qed.
(** The folder of the configuration is none of the binary's. *)
Lemma configDir_apart os seed : os ≠ Windows → let c := mkConfig "" "" "" false false (DefaultConfigPath os "") in
  Forall (λ p, p ≠ binPath "/usr/local/bin" ∧ p ≠ tmpPath "/usr/local/bin" seed) [Dir (cf_path c); KeyPath c]
  ∧ inDir (Dir (cf_path c)) (binPath "/usr/local/bin") = false ∧ inDir (Dir (cf_path c)) "/usr/local/bin" = false.
Proof.
  intros Hos. destruct os; [..|done]; (split; [repeat constructor; intros E; cbv in E; discriminate E|split; vm_compute; reflexivity]).
Qed.
Lemma installable_placed os seed hubURL hubKey tok allow s h1 : os ≠ Windows → let c := installConfig (wanted os hubURL hubKey tok allow) in
  installable c s → ho_faults h1 = [] →
  (∀ p, p ≠ binPath "/usr/local/bin" → p ≠ tmpPath "/usr/local/bin" seed → ho_files h1 !! p = ho_files (mg_host s) !! p) →
  ho_files h1 !! tmpPath "/usr/local/bin" seed = None →
  (∀ d, d ≠ "/usr/local/bin" → ho_dirs h1 !! d = ho_dirs (mg_host s) !! d) → installable c (withHost h1 s).
Proof.
  intros Hos c (Hv & _ & Ha & Hfree & Hown & Hkey) Hf1 Hfiles Htmp Hdirs. destruct (configDir_apart os seed Hos) as (Hp & Hb & Hd).
  apply Forall_cons in Hp as [[Hp1 Hp2] [[Hk1 Hk2] _]%Forall_cons]. cbn [cf_path] in *. unfold installable, c, installConfig, wanted in *.
  cbn [cf_path fl_config mg_host withHost mg_answers] in *. split_and!; [done|done|done|by rewrite Hfiles| |].
  - apply forallb_forall. intros name Hn%list_elem_of_In. rewrite forallb_forall in Hown. apply Hown, list_elem_of_In, elem_of_dirEntries.
    apply elem_of_dirEntries in Hn as (p & Hp & Hin & <-). exists p. split; [|done]. destruct Hp as [Hp|Hp].
    + left. rewrite <-Hfiles; [done|intros ->; congruence|intros ->; rewrite Htmp in Hp; by destruct Hp].
    + right. rewrite <-Hdirs; [done|]. intros ->. congruence.
  - intros data. change (KeyPath _) with (KeyPath (mkConfig "" "" "" false false (DefaultConfigPath os ""))). rewrite Hfiles by done. exact (Hkey data).
Qed.
Lemma installService_works path s : mg_answers s = [] → (installService path s).1 = None.
Proof. destruct s as [h cs a]. cbn. by intros ->. Qed.
Lemma cmdInstall_works os f s :
  fl_config f ∉ [KeyPath (installConfig f); KeyPath (installConfig f) +:+ ".tmp"] →
  Dir (fl_config f) ∉ [fl_config f; fl_config f +:+ ".tmp"] → KeyPath (installConfig f) ≠ fl_config f +:+ ".tmp" →
  Dir (KeyPath (installConfig f)) = Dir (fl_config f) →
  installable (installConfig f) s → is_ok (cmdInstall os "" true f s).1 = true.
Proof.
  intros Hname Hdir Htmp Hkd (Hv & Hf & Ha & Hfree & Hown & Hkey). unfold cmdInstall. cbn [requireAdmin]. unfold NewConfig.
  change (Validate (mkConfig _ _ _ _ false _)) with (Validate (installConfig f)). rewrite Hv. set (c0 := mkConfig _ _ _ _ false _).
  assert (Hded : DedicatedDir c0 (mg_host s) = (Ok true, mg_host s)).
  { unfold DedicatedDir, mbind, M_bind. rewrite osReadDir_works by done. cbn [cf_path c0]. destruct (ho_dirs _ !! _); [|done].
    unfold mret, M_ret. f_equal. f_equal. exact Hown. }
  unfold mbind, M_bind, onMachine. rewrite Hded. change (with_DisableUpdates (fl_noUpdates f) c0) with (installConfig f). cbn [mg_host mg_calls mg_answers].
  destruct (Save_works (installConfig f) (mg_host s) Hf Hfree) as [Hs1 Hs2]. pose proof (wp_Save (installConfig f) (mg_host s)) as Hp. unfold wp in Hp.
  destruct (Save (installConfig f) (mg_host s)) as [r h1]. cbn [fst snd] in *. destruct r as [[]|]; [|done]. destruct Hp as ((Hk & _) & _ & _).
  cbn [cf_path installConfig] in Hk, Hfree. cbn [mg_host mg_calls mg_answers].
  destruct (LoadOrCreate_works (KeyPath (installConfig f)) h1 Hs2) as [Hl1 Hl2].
  { rewrite Hkd, Hk by done. exact Hfree. }
  { rewrite Hk; [exact Hkey|]. intros [E|E%list_elem_of_singleton]%elem_of_cons; [|by apply Htmp]. apply Hname. rewrite E. by left. }
  destruct (LoadOrCreate _ h1) as [k h2]. cbn [fst snd] in *. destruct k as [k|]; [|done].
  pose proof (installService_works (fl_config f) (mkMachine h2 (mg_calls s) (mg_answers s)) Ha) as Hi.
  destruct (installService _ _) as [e s3]. cbn [fst] in Hi. by subst e.
Qed.

(** *** The service runs the agent *)
Lemma newLogger_keeps os interactive path p h : ho_faults h = [] → os ≠ Windows →
  p ∉ ["/Library/Logs/lotse-agent.log"; "/Library/Logs/lotse-agent.log.1"] →
  let h' := (newLogger os interactive path h).2 in ho_faults h' = [] ∧ ho_files h' !! p = ho_files h !! p.
Proof.
  intros Hf Hos Hp. destruct os, interactive; try done. cbn [newLogger]. unfold mbind, M_bind.
  pose proof (openLogFile_inv "/Library/Logs/lotse-agent.log" h Hf) as Ho. change (pathJoin _) with "/Library/Logs/lotse-agent.log".
  destruct (openLogFile _ h) as [r h']. destruct Ho as (l & -> & Hinv & [Hk _] & _). split; [apply (li_work _ _ _ _ Hinv)|by apply Hk].
Qed.
Lemma run_parsed os interactive admin exe path :
  agentMain os "" interactive admin (exe :: sc_Arguments (serviceConfig path))
  = (e ← cmdRun os interactive path; mret (exitWith e)).
Proof. by destruct os. Qed.
Lemma service_runs os interactive admin exe c data key s : os ≠ Windows → cf_path c = DefaultConfigPath os "" →
  Validate c = Ok tt → configReadsBack c → ho_faults (mg_host s) = [] → mg_answers s = [] →
  ho_files (mg_host s) !! cf_path c = Some (marshal (configJSON c) +:+ NL) → ho_files (mg_host s) !! KeyPath c = Some data → ParsePrivateKey data = Some key →
  ∃ hubKey, let '(x, s') := agentMain os "" interactive admin (exe :: sc_Arguments (serviceConfig (cf_path c))) s in
    x.1 = 0
    ∧ mg_calls s' = mg_calls s ++ [CNew (serviceConfig (cf_path c)); CRun; CAgent c hubKey key].
Proof.
  intros Hos Hpath Hv Hj Hf Ha Hc Hd Hkey.
  assert (Hlog : (cf_path c ∉ ["/Library/Logs/lotse-agent.log"; "/Library/Logs/lotse-agent.log.1"])
    ∧ (KeyPath c ∉ ["/Library/Logs/lotse-agent.log"; "/Library/Logs/lotse-agent.log.1"])).
  { unfold KeyPath. rewrite Hpath. destruct os; [..|done]; split; apply (bool_decide_unpack _); vm_compute; exact I. }
  destruct Hlog as [Hlog1 Hlog2].
  pose proof (newLogger_keeps os interactive (cf_path c) _ (mg_host s) Hf Hos Hlog1) as [Hf1 Hc1].
  pose proof (newLogger_keeps os interactive (cf_path c) _ (mg_host s) Hf Hos Hlog2) as [_ Hk1].
  rewrite run_parsed. unfold cmdRun, mbind, M_bind, onMachine. destruct (newLogger os interactive (cf_path c) (mg_host s)) as [lg h1]. cbn [snd] in *.
  destruct (programStart_ok c h1 data key) as [hubKey Hs]; [done|done|done|by rewrite Hc1|by rewrite Hk1|done|].
  exists hubKey. unfold ask, mstate. cbn [mg_host mg_calls mg_answers]. rewrite Ha. cbn [head tail default isErr].
  cbn [mg_host mg_calls mg_answers head tail default isErr]. destruct (programStart (cf_path c) h1) as [r h2]. cbn [fst] in Hs. subst r.
  cbn. by rewrite <-!app_assoc.
Qed.

(** *** The token on the hub *)
Lemma token_printed walk dataDir publicURL PUID PGID opened ttl allow ps ps' tok cmds :
  token walk dataDir publicURL PUID PGID opened ttl allow ps = (Ok (tok, cmds), ps') →
  ∃ hubKey expires, opened = Ok hubKey ∧ tokenStored tok expires ps.2 ps'.2
    ∧ cmds = InstallCommands (if String.eqb publicURL "" then "http://HUB-ADDRESS:8090" else publicURL) hubKey tok allow.
Proof.
  unfold token. destruct (dropPrivileges _ _ _ _ _) as [[e|] p]; [done|].
  pose proof (hubCreateEnrollToken_spec opened ttl ps.2) as Hs. unfold wp in Hs.
  assert (Hop : ∀ x, (hubCreateEnrollToken opened ttl ps.2).1 = Ok x → opened = Ok x.2).
  { unfold hubCreateEnrollToken. destruct opened as [k|]; [|done]. unfold mbind, M_bind. destruct (randomToken _) as [t m1].
    destruct (timeNow m1) as [n m2]. destruct (CreateEnrollToken _ _ m2) as [r m3]. intros x. cbn. destruct r; [|done]. by intros [= <-]. }
  destruct (hubCreateEnrollToken opened ttl ps.2) as [[[[t e] k]|e] m]; [|done]. cbn [fst snd] in *. intros [= <- <- <-].
  exists k, e. split_and!; [by apply (Hop (t, e, k))|exact Hs|done].
Qed.

End install.

(** *** Witness *)
Definition demoShellUser : process * mach := (mkProcess 65532 65532 [] ∅ [] [], demoMach).
Definition demoNewMachine : machine := mkMachine (mkHost {["/etc/hosts" := "x"]} ∅ [] ["Ab12Cd"; "seed"] []) [] [].
Definition demoFetch (url : string) : string * bool := ("binary of " +:+ url, true).
Definition demoPasted : M machine exit :=
  @pasted demoLib demoSsh demoFloatText demoFetch (λ _, true) (λ _ _, true) Linux "x86_64" true true
    (unixCommand "https://hub.example" "ssh-ed25519 key" "random" true).
