(* ===== verification/Server.v ===== *)
(** * The assembled hub ([Handler] of [internal/hub/api.go])

    The multiplexer of [Routes] with the handlers of the other files behind it: one function from a request to its answer.
    What a request carries and what the world does while it is served is an [input]; every handler takes from it
    the body it decodes, and the answers it gets. *)
From Stdlib Require Import ZArith Lia Ascii String.
From S2P Require Import Prelude GoStrings Float64 Library Paths Web Store StoreTables Limiter Update Proxy Webauthn Protocol Hub Auth Passkeys Users Alerts AlertApi State Gateway Systems Routes Control Shell Files Runs Events.
From stdpp Require Import base gmap strings list.
Local Open Scope string_scope.
Local Open Scope list_scope.
Local Open Scope Z_scope.
Local Open Scope lotse_scope.

(** ** Inputs *)
Record input {W : Type} := mkInput {
  (* the body, as the handler that reads it decodes it; [None] is a body it refuses *)
  in_credentials : option credentials;
  in_passwordChange : option passwordChange;
  in_totpEnable : option totpEnable;
  in_attestation : option (string * attestation);
  in_text : option string;                       (* a body with one text: a name, an action, a purpose *)
  in_service : option serviceBody;
  in_signal : option signalBody;
  in_script : option Script;
  in_run : option runRequest;
  in_rule : option AlertRule;
  in_notifier : option notifierInput;
  in_newUser : option newUser;
  in_userPatch : option userPatch;
  in_fileAction : option fileAction;
  in_upload : upload;
  in_acceptEncoding : string;
  (* the world *)
  in_channel : nat;                              (* a new channel of the broker or of a run *)
  in_connects : bool;                            (* the first write of an event stream succeeds *)
  in_rounds : list round;
  in_accepted : bool;                            (* the upgrade to a WebSocket *)
  in_shell : shellStart * list termEvent * termEnd;
  in_handshake : option (string * option (string * string));
  in_sftp : sftpStart;
  in_machine : W;                                (* the files of the other machine *)
  in_net : string → bool * list bool;            (* what sending a packet to an address gives *)
  in_transfer : transfer;
  in_testOutcome : option string;
}.
Arguments input : clear implicits.

Section server.
Context `{Lib} `{Marshal} `{!Unmarshal clientData} `{!Unmarshal SystemInfo} `{!Unmarshal Metrics} `{!Unmarshal ProcessList}
  `{!Unmarshal notifierConfig} `{!Unmarshal termMsg} `{!Unmarshal ActionReply} `{!Unmarshal (list runTarget)} `{!Unmarshal Hello}.
Context {W : Type} `{!Sftp W}.
Context (dummySalt PublicKey agentDir version : string) (keyURL : string → string → string) (keyImage : string → string → option string).
Context (formatDateTime durationString : Z → string) (formatG : f64 → string) (ToLower targetsSummary : string → string).
Context (scripts dist opened gunzip : string → option string) (statOK : string → bool).
Context (pathUnescape : string → string).

(** A handler that works on another machine too. *)
Definition withMachine {A} (w : W) (m : M (hub * W) A) : M hub A := λ h, let '(a, (h', _)) := m (h, w) in (a, h').
Definition plainly (a : fileAnswer) : response := match a with Plainly resp => resp | Stream _ _ _ => mkResponse 200 [] None end.
(** The response of a handler that streams is its status. *)
Definition shellResponse (a : shellAnswer) : response :=
  match a with ShellHTTP resp => resp | NoUpgrade => mkResponse 400 [] None | ShellSocket _ _ => mkResponse 101 [] None end.
Definition webResponseOf (w : webResponse) : response := mkResponse (wr_status w) [] None.

(** [getRunEvents]: the viewer subscribes to the run while the stream lasts; what it carries is what [Runs] publishes.
    [connects]: writing the snapshot succeeds. The subscription is given up only after that. *)
Definition getRunEvents (ch : nat) (connects : bool) (r : request) (s : Session) : M hub response :=
  rec ⇐ lookupRun r;
  k ← track s RoleOperator;
  h ← mget;
  (match h_runs h !! sn_ID rec with
   | None => mret tt
   | Some ar =>
     onRun (sn_ID rec) (λ ar, (subscribeRun ch ar).2);;
     if negb connects || ar_done ar then mret tt else onRun (sn_ID rec) (unsubscribeRun ch)
   end);;
  untrack k;;
  mret (mkResponse 200 [] None).

(** The handlers without a session. *)
Definition openHandler (i : input W) (path : string) (e : endpoint) (r : request) : M hub response :=
  match e with
  | Health => mret (writeJSON 200 (JObj [("status", JStr "ok")]))
  | GetSetup => getSetup r
  | PostSetup => postSetup r (in_credentials i)
  | PostLogin => postLogin dummySalt r (in_credentials i)
  | PostLoginPasskeyOptions => postLoginPasskeyOptions r
  | PostLogout => postLogout r
  | HandleAgent => _ ← handleAgent (in_channel i) r (in_accepted i) (in_handshake i); mret (mkResponse 101 [] None)
  | GetInstallScript => mret (webResponseOf (getInstallScript scripts path))
  | GetAgentBinary => mret (webResponseOf (getAgentBinary agentDir version opened statOK gunzip (rq_PathValue r "file") (in_acceptEncoding i)))
  | Static => mret (webResponseOf (static dist (rq_method r) path))
  | _ => mret (writeError 404 "not found")
  end.
(** The handlers with a session. *)
Definition sessionHandlers (i : input W) (e : endpoint) : sessionHandler := λ r s,
  match e with
  | GetMe => getMe r s
  | PostPassword => postPassword r s (in_passwordChange i)
  | PostTOTPSetup => postTOTPSetup keyURL keyImage s
  | PostTOTPEnable => postTOTPEnable r s (in_totpEnable i)
  | PostTOTPDisable => postTOTPDisable r s (in_credentials i)
  | GetPasskeys => getPasskeys r s
  | PostPasskey => postPasskey r s (in_attestation i)
  | PostPasskeyOptions => postPasskeyOptions r s (in_text i)
  | PatchPasskey => patchPasskey r s (in_text i)
  | DeletePasskey => deletePasskey r s
  | PostElevate => postElevate r s (in_credentials i)
  | GetAudit => getAudit r s
  | HandleEvents => _ ← handleEvents (in_channel i) (in_connects i) (in_rounds i) s; mret (mkResponse 200 [] None)
  | GetSystems => getSystems r s
  | GetSystem => showSystem r s
  | GetMetrics => getMetrics r s
  | GetProcesses => getProcesses r s
  | GetServices => getServices r s
  | GetAlerts => getAlerts r s
  | GetAlertRules => getAlertRules r s
  | GetNotifiers => getNotifiers r s
  | PatchSystem => patchSystem r s (in_text i)
  | HandleShell =>
    let '(start, evs, how) := in_shell i in
    a ← handleShell durationString (in_accepted i) start evs how r s; mret (shellResponse a)
  | PostWake => postWake (in_net i) r s
  | PostPower => postPower r s (in_text i)
  | PostService => postService r s (in_service i)
  | PostSignal => postSignal r s (in_signal i)
  | GetFiles => withMachine (in_machine i) (getFiles ToLower (in_sftp i) r s)
  | DownloadFile => a ← withMachine (in_machine i) (downloadFile durationString (in_sftp i) r s); mret (plainly a)
  | PutFile => withMachine (in_machine i) (putFile (in_sftp i) r s (in_upload i))
  | PostFileAction => withMachine (in_machine i) (postFileAction (in_sftp i) r s (in_fileAction i))
  | GetScripts => getScripts r s
  | SaveScript => saveScript r s (in_script i)
  | DeleteScript => deleteScript r s
  | GetRuns => getRuns r s
  | PostRun => postRun targetsSummary r s (in_run i)
  | GetRun => getRun r s
  | GetRunEvents => getRunEvents (in_channel i) (in_connects i) r s
  | PostRunCancel => postRunCancel r s
  | DeleteSystem => deleteSystem r s
  | PostAgentUpdate => postAgentUpdate r s (in_transfer i)
  | PostEnroll => postEnroll formatDateTime PublicKey r s
  | SaveAlertRule => saveAlertRule formatG durationString r s (in_rule i)
  | DeleteAlertRule => deleteAlertRule r s
  | SaveNotifier => saveNotifier r s (in_notifier i)
  | TestNotifier => testNotifier r s (in_notifier i) (in_testOutcome i)
  | DeleteNotifier => deleteNotifier r s
  | GetUsers => getUsers r s
  | PostUser => postUser r s (in_newUser i)
  | PatchUser => patchUser r s (in_userPatch i)
  | DeleteUser => deleteUser r s
  | _ => mret (writeError 404 "not found")
  end.
(** A request from the network to its answer. *)
Definition serveHTTP (i : input W) (path : string) (r : request) : M hub answer := λ h,
  Handler (openHandler i path) (sessionHandlers i) pathUnescape (cfg_proxies (h_cfg h)) path r h.
End server.

(** A viewer whose connection breaks with the first write stays subscribed to the run: its channel fills, and is kept until the run ends. *)
Theorem subscription_left_behind (ch : nat) (r : request) (s : Session) (rec : ScriptRun) (ar : activeRun) (m : gmap nat (list runEvent)) (h h1 : hub)
    (Hrec : lookupRun r h = (inr rec, h1)) (Hrun : h_runs h1 !! sn_ID rec = Some ar) (Hdone : ar_done ar = false) (Hsubs : ar_subs ar = Some m) :
  ∃ ar', h_runs (getRunEvents ch false r s h).2 !! sn_ID rec = Some ar' ∧ ar_subs ar' = Some (<[ch := []]> m).
Proof.
  unfold getRunEvents, mbind at 1, M_bind at 1. rewrite Hrec. unfold track, untrack, onRun, mbind, M_bind, mget, mmodify, mstate, mret, M_ret. cbn.
  rewrite Hrun. cbn. rewrite lookup_alter_eq, Hrun. cbn. eexists. split; [done|]. cbn. by rewrite Hdone, Hsubs.
Qed.
