(* ===== verification/Authority.v ===== *)
(** * Who may change what

    An abstract specification of the hub's authority: the operations on the database that a sender of a request may
    cause, by role and by account, and the effects on machines. The assembled hub of [Server] refines it: whatever
    the request, what it does is a sequence of operations its sender may cause. The consequences for the tables follow from the
    specification alone. *)
From Stdlib Require Import ZArith Lia Ascii String.
From S2P Require Import Prelude GoStrings Float64 Library Paths Web Store StoreTables StoreInv StoreSteps Metrics Limiter Update Proxy Webauthn Protocol Hub Auth AuthProps Passkeys Users Alerts AlertApi State Gateway Systems Routes Control Shell Files Runs Events Server.
From stdpp Require Import base gmap strings list relations.
Local Open Scope string_scope.
Local Open Scope list_scope.
Local Open Scope Z_scope.
Local Open Scope lotse_scope.

(** ** Operations *)
(** The operations of the store that change it; [OpRead] stands for every query, the clock and random bytes. *)
Inductive dbOp : Type :=
| OpRead
| OpAddAudit (e : AuditEntry)
| OpCreateUser (name hash role : string)
| OpSetRole (id : Z) (role : string)
| OpDeleteUser (id : Z)
| OpSetLastLogin (id t : Z)
| OpSetPassword (id : Z) (hash : string)
| OpSetTOTPSecret (id : Z) (secret : string)
| OpCreateSession (hash : string) (id expires : Z)
| OpElevateSession (hash : string) (until : Z)
| OpDeleteOtherSessions (id : Z) (keep : string)
| OpDeleteSessions (id : Z)
| OpDeleteSession (hash : string)
| OpCreateEnrollToken (hash : string) (expires : Z)
| OpCreateSystem (name fp info version : string)
| OpUpdateSystemInfo (id : Z) (info version : string)
| OpRenameSystem (id : Z) (name : string)
| OpUpdateLastSeen (id ts : Z) (lm : string)
| OpDeleteSystem (id : Z)
| OpPasskeyHandle (id : Z)
| OpCreatePasskey (p : Passkey)
| OpUsePasskey (id n : Z)
| OpRenamePasskey (id user : Z) (name : string)
| OpDeletePasskey (id user : Z)
| OpDeletePasskeysOf (user : Z)
| OpSaveNotifier (n : Notifier)
| OpDeleteNotifier (id : Z)
| OpNotifierResult (id t : Z) (err : string)
| OpSaveAlertRule (r : AlertRule)
| OpDeleteAlertRule (id : Z)
| OpResolveAlertsWhere (rule system t : Z)
| OpSaveScript (x : Script)
| OpDeleteScript (id : Z)
| OpCreateRun (r : ScriptRun)
| OpInsertMetrics (system res_ : Z) (row : MetricRow).

Section operations.
Context `{Lib} (targetsSummary : string → string).
(** What an operation does, failing statements included. *)
Definition performs (op : dbOp) (m m' : mach) : Prop :=
  match op with
  | OpRead => m_db m' = m_db m
  | OpAddAudit e => m' = (AddAudit e m).2
  | OpCreateUser n h r => m' = (CreateUser n h r m).2
  | OpSetRole id r => m' = (SetRole id r m).2
  | OpDeleteUser id => m' = (Store.DeleteUser id m).2
  | OpSetLastLogin id t => m' = (SetLastLogin id t m).2
  | OpSetPassword id h => m' = (SetPassword id h m).2
  | OpSetTOTPSecret id x => m' = (SetTOTPSecret id x m).2
  | OpCreateSession h id e => m' = (CreateSession h id e m).2
  | OpElevateSession h u => m' = (ElevateSession h u m).2
  | OpDeleteOtherSessions id k => m' = (DeleteOtherSessions id k m).2
  | OpDeleteSessions id => m' = (DeleteSessions id m).2
  | OpDeleteSession h => m' = (DeleteSession h m).2
  | OpCreateEnrollToken h e => m' = (CreateEnrollToken h e m).2
  | OpCreateSystem n f i v => m' = (CreateSystem n f i v m).2
  | OpUpdateSystemInfo id i v => m' = (UpdateSystemInfo id i v m).2
  | OpRenameSystem id n => m' = (RenameSystem id n m).2
  | OpUpdateLastSeen id t l => m' = (UpdateLastSeen id t l m).2
  | OpDeleteSystem id => m' = (Store.DeleteSystem id m).2
  | OpPasskeyHandle id => m' = (PasskeyHandle id m).2
  | OpCreatePasskey p => m' = (CreatePasskey p m).2
  | OpUsePasskey id n => m' = (UsePasskey id n m).2
  | OpRenamePasskey id u n => m' = (RenamePasskey id u n m).2
  | OpDeletePasskey id u => m' = (StoreTables.DeletePasskey id u m).2
  | OpDeletePasskeysOf u => m' = (DeletePasskeysOf u m).2
  | OpSaveNotifier n => m' = (StoreTables.SaveNotifier n m).2
  | OpDeleteNotifier id => m' = (StoreTables.DeleteNotifier id m).2
  | OpNotifierResult id t e => m' = (NotifierResult id t e m).2
  | OpSaveAlertRule r => m' = (StoreTables.SaveAlertRule r m).2
  | OpDeleteAlertRule id => m' = (StoreTables.DeleteAlertRule id m).2
  | OpResolveAlertsWhere r y t => m' = (ResolveAlertsWhere r y t m).2
  | OpSaveScript x => m' = (StoreTables.SaveScript x m).2
  | OpDeleteScript id => m' = (StoreTables.DeleteScript id m).2
  | OpCreateRun r => m' = (CreateRun targetsSummary r m).2
  | OpInsertMetrics id r row => m' = (InsertMetrics id r row m).2
  end.

(** ** The specification *)
(** Who sends a request: someone without a session, with the cookie that came along, or the user of a session. *)
Inductive principal : Type := Anyone (cookie : option string) | As (s : Session).
Definition isOperator (s : Session) : Prop := RoleIncludes (u_Role (s_User s)) RoleOperator = true.
Definition isAdministrator (s : Session) : Prop := RoleIncludes (u_Role (s_User s)) RoleAdmin = true.
(** The own account, or any for an administrator. *)
Definition account (s : Session) (id : Z) : Prop := id = u_ID (s_User s) ∨ isAdministrator s.
Definition may (p : principal) (d : store) (op : dbOp) : Prop :=
  match p, op with
  (* reading, the activity log, and the handle of an account's passkeys, a random number given once *)
  | _, (OpRead | OpAddAudit _ | OpPasskeyHandle _) => True
  (* signing in and out, the first account, and what agents report; an agent enrolls only while there are tokens *)
  | Anyone _, (OpCreateSession _ _ _ | OpSetLastLogin _ _ | OpUsePasskey _ _) => True
  | Anyone cookie, OpDeleteSession hash => ∃ c, cookie = Some c ∧ hash = hashToken c
  | Anyone _, OpCreateUser _ _ _ => users d = []
  | Anyone _, OpCreateSystem _ _ _ _ => enroll_tokens d ≠ []
  | Anyone _, (OpUpdateSystemInfo _ _ _ | OpUpdateLastSeen _ _ _ | OpInsertMetrics _ _ _) => True
  | Anyone _, _ => False
  (* every user: the own account *)
  | As s, (OpSetPassword id _ | OpSetTOTPSecret id _ | OpDeleteOtherSessions id _
           | OpRenamePasskey _ id _ | OpDeletePasskey _ id) => account s id
  | As s, OpCreatePasskey p => account s (pk_UserID p)
  | As s, OpElevateSession hash _ => hash = s_TokenHash s
  | As _, OpUsePasskey _ _ => True
  (* operators: names, scripts and runs *)
  | As s, (OpRenameSystem _ _ | OpSaveScript _ | OpDeleteScript _ | OpCreateRun _) => isOperator s
  (* administrators: the rest *)
  | As s, _ => isAdministrator s
  end.
(** Acting on a machine: anything sent to an agent but questions and the report interval, and starting a script. *)
Definition acting (e : effect) : bool :=
  match e with
  | ESend _ name _ => negb (existsb (String.eqb name) [ReqProcesses; ReqServices; ReqInterval])
  | EExecute _ _ => true
  | _ => false
  end.
Definition mayCause (p : principal) (e : effect) : Prop :=
  acting e = true → match p with Anyone _ => False | As s => isOperator s end.

(** A step of the hub that the specification allows: one operation, or a change in memory with some effects. *)
Inductive allowedStep (p : principal) (h : hub) : hub → Prop :=
| allowed_op op m' : may p (m_db (h_m h)) op → performs op (h_m h) m' → allowedStep p h (with_m m' h)
| allowed_memory h' l : m_db (h_m h') = m_db (h_m h) → h_trace h' = h_trace h ++ l → Forall (mayCause p) l → allowedStep p h h'.
Definition within (p : principal) : hub → hub → Prop := rtc (allowedStep p).
#[export] Instance within_preorder p : PreOrder (within p).
Proof. unfold within. split; apply _. Qed.

(** ** Every handler stays within *)
Implicit Types (p : principal) (h : hub) (s : Session) (r : request).
Lemma steps_op {A} p op (f : M mach A) :
  (∀ m, performs op m (f m).2) → (∀ d, may p d op) → steps (within p) (db f).
Proof.
  intros Hp Hm h. apply rtc_once. unfold db. pose proof (Hp (h_m h)) as E. destruct (f (h_m h)) as [a m']. by eapply allowed_op.
Qed.
Lemma steps_reading {A} p (f : M mach A) : steps (onDB (frames id)) f → steps (within p) (db f).
Proof. intros Hf. apply (steps_op p OpRead); [exact Hf|by destruct p]. Qed.
Lemma within_memory p h h' l : m_db (h_m h') = m_db (h_m h) → h_trace h' = h_trace h ++ l → Forall (mayCause p) l → within p h h'.
Proof. intros. apply rtc_once. by eapply allowed_memory. Qed.
Lemma within_quiet p h h' : m_db (h_m h') = m_db (h_m h) → h_trace h' = h_trace h → within p h h'.
Proof. intros ? Ht. apply (within_memory p h h' []); [done|by rewrite app_nil_r|done]. Qed.
Lemma steps_emitting p e : mayCause p e → steps (within p) (emit e).
Proof. intros He h. by apply (within_memory p h _ [e]); [| |constructor]. Qed.
End operations.

(** The label of an operation, from the term that performs it. *)
Ltac op_label t :=
  lazymatch t with
  | AddAudit ?e => constr:(OpAddAudit e)
  | CreateUser ?n ?h ?r => constr:(OpCreateUser n h r)
  | SetRole ?id ?r => constr:(OpSetRole id r)
  | Store.DeleteUser ?id => constr:(OpDeleteUser id)
  | SetLastLogin ?id ?t => constr:(OpSetLastLogin id t)
  | SetPassword ?id ?h => constr:(OpSetPassword id h)
  | SetTOTPSecret ?id ?x => constr:(OpSetTOTPSecret id x)
  | CreateSession ?h ?id ?e => constr:(OpCreateSession h id e)
  | ElevateSession ?h ?u => constr:(OpElevateSession h u)
  | DeleteOtherSessions ?id ?k => constr:(OpDeleteOtherSessions id k)
  | DeleteSessions ?id => constr:(OpDeleteSessions id)
  | DeleteSession ?h => constr:(OpDeleteSession h)
  | CreateEnrollToken ?h ?e => constr:(OpCreateEnrollToken h e)
  | CreateSystem ?n ?f ?i ?v => constr:(OpCreateSystem n f i v)
  | UpdateSystemInfo ?id ?i ?v => constr:(OpUpdateSystemInfo id i v)
  | RenameSystem ?id ?n => constr:(OpRenameSystem id n)
  | UpdateLastSeen ?id ?t ?l => constr:(OpUpdateLastSeen id t l)
  | Store.DeleteSystem ?id => constr:(OpDeleteSystem id)
  | PasskeyHandle ?id => constr:(OpPasskeyHandle id)
  | CreatePasskey ?p => constr:(OpCreatePasskey p)
  | UsePasskey ?id ?n => constr:(OpUsePasskey id n)
  | RenamePasskey ?id ?u ?n => constr:(OpRenamePasskey id u n)
  | StoreTables.DeletePasskey ?id ?u => constr:(OpDeletePasskey id u)
  | DeletePasskeysOf ?u => constr:(OpDeletePasskeysOf u)
  | StoreTables.SaveNotifier ?n => constr:(OpSaveNotifier n)
  | StoreTables.DeleteNotifier ?id => constr:(OpDeleteNotifier id)
  | NotifierResult ?id ?t ?e => constr:(OpNotifierResult id t e)
  | StoreTables.SaveAlertRule ?r => constr:(OpSaveAlertRule r)
  | StoreTables.DeleteAlertRule ?id => constr:(OpDeleteAlertRule id)
  | ResolveAlertsWhere ?r ?y ?t => constr:(OpResolveAlertsWhere r y t)
  | StoreTables.SaveScript ?x => constr:(OpSaveScript x)
  | StoreTables.DeleteScript ?id => constr:(OpDeleteScript id)
  | CreateRun _ ?r => constr:(OpCreateRun r)
  | InsertMetrics ?id ?r ?row => constr:(OpInsertMetrics id r row)
  end.
Ltac head_of t := lazymatch t with ?f _ => head_of f | _ => t end.
(** A program that only reads: unfolded until queries, the clock and random bytes are left. *)
Ltac reading := repeat first [ solve [eauto 2 with steps] | step1 | apply steps_query; apply _ | apply steps_randRead; apply _
  | apply steps_timeNow; apply _
  | lazymatch goal with |- steps _ ?m => let f := head_of m in unfold f end ].
(** What [may] asks for is known. *)
Ltac granted := cbn [may]; first [ done | eassumption | by left | by right | eauto ].
(** A change in memory without effects. *)
Ltac in_memory :=
  let h := fresh in intros h; apply within_quiet; unfold mstate, mmodify; cbn; repeat (case_match; cbn); done.
Ltac within1 :=
  lazymatch goal with
  | |- steps _ (db ?op) => first [ let o := op_label op in apply (steps_op _ _ o); [done|intros ?; solve [granted]] | apply steps_reading; reading ]
  | |- steps _ (emit ?e) => apply steps_emitting; solve [done | intros _; eassumption]
  | |- steps _ (mmodify _) => in_memory
  | |- steps _ (mstate _) => in_memory
  | |- steps _ ?m => let f := head_of m in unfold f
  end.
Ltac stays := repeat first [ solve [eauto 2 with steps] | step1 | within1 ].

Section handlers.
Context `{Lib} `{Marshal} `{!Unmarshal clientData} `{!Unmarshal SystemInfo} `{!Unmarshal Metrics} `{!Unmarshal ProcessList}
  `{!Unmarshal notifierConfig} `{!Unmarshal termMsg} `{!Unmarshal ActionReply} `{!Unmarshal (list runTarget)} `{!Unmarshal Hello}.
Context (targetsSummary : string → string).
Abbreviation within := (within targetsSummary).
Implicit Types (p : principal) (h : hub) (s : Session) (r : request).

(** *** What several handlers use *)
Lemma steps_effects {A} p (f : hub → A) (l : A → list effect) : (∀ a, Forall (mayCause p) (l a)) →
  steps (within p) (mmodify (λ h, with_trace (h_trace h ++ l (f h)) h)).
Proof. intros Hl h. by eapply within_memory. Qed.
Lemma steps_closing p q : steps (within p) (closeConns q).
Proof.
  intros h. eapply within_memory; [done|done|]. apply Forall_forall. by intros x (c & -> & _)%list_elem_of_fmap.
Qed.
Lemma steps_tracking p s role : steps (within p) (track s role).
Proof. intros h. by apply within_quiet. Qed.
Lemma steps_interval p : steps (within p) broadcastIntervalLocked.
Proof.
  intros h. eapply within_memory; [done|done|]. apply Forall_forall. by intros x (c & -> & _)%list_elem_of_fmap.
Qed.
Hint Resolve steps_closing steps_tracking steps_interval : steps.
Lemma steps_publishAll p l : steps (within p) (publishAll l).
Proof.
  intros h. unfold publishAll. cbn [snd]. revert h. induction l as [|e l IH]; intros h; cbn [fold_left]; [done|].
  etrans; [|apply IH]. assert (Hp : steps (within p) (publish e.1 e.2)) by stays. apply Hp.
Qed.
Hint Resolve steps_publishAll : steps.
Lemma steps_stream p ch rs : steps (within p) (stream ch rs).
Proof. induction rs as [|x rs IH]; cbn [stream]; stays. Qed.
Lemma steps_tryRelays s macs sn l : isOperator s → steps (within (As s)) (tryRelays macs sn l).
Proof. intros Hop. induction l as [|x l IH]; cbn [tryRelays]; stays. Qed.
Lemma steps_trySubnets s macs sns l : isOperator s → steps (within (As s)) (trySubnets macs sns l).
Proof. intros Hop. pose proof (λ sn, steps_tryRelays s macs sn l Hop). induction sns as [|x sns IH]; cbn [trySubnets]; stays. Qed.
Lemma steps_pendingTargets p l : steps (within p) (pendingTargets l).
Proof. induction l as [|x l IH]; cbn [pendingTargets]; stays. Qed.
Lemma steps_notifiersExist p l : steps (within p) (notifiersExist l).
Proof. induction l as [|x l IH]; cbn [notifiersExist]; stays. Qed.
Lemma steps_detach s id l : isAdministrator s → steps (within (As s)) (detach id l).
Proof. intros Ha. induction l as [|x l IH]; cbn [detach]; stays. Qed.
Hint Resolve steps_stream steps_trySubnets steps_pendingTargets steps_notifiersExist steps_detach : steps.

(** *** Every user *)
Lemma viewer_handlers r s : 
  (∀ b, steps (within (As s)) (postPassword r s b)) ∧ (∀ u i, steps (within (As s)) (postTOTPSetup u i s))
  ∧ (∀ b, steps (within (As s)) (postTOTPEnable r s b)) ∧ (∀ b, steps (within (As s)) (postTOTPDisable r s b))
  ∧ steps (within (As s)) (getPasskeys r s) ∧ (∀ b, steps (within (As s)) (postPasskeyOptions r s b))
  ∧ (∀ b, steps (within (As s)) (patchPasskey r s b)) ∧ steps (within (As s)) (deletePasskey r s)
  ∧ (∀ b, steps (within (As s)) (postElevate r s b)) ∧ steps (within (As s)) (getAudit r s)
  ∧ (∀ ch c rs, steps (within (As s)) (handleEvents ch c rs s)) ∧ steps (within (As s)) (getMe r s)
  ∧ steps (within (As s)) (getSystems r s) ∧ steps (within (As s)) (showSystem r s) ∧ steps (within (As s)) (getMetrics r s)
  ∧ steps (within (As s)) (getProcesses r s) ∧ steps (within (As s)) (getServices r s) ∧ steps (within (As s)) (getAlerts r s)
  ∧ steps (within (As s)) (getAlertRules r s) ∧ steps (within (As s)) (getNotifiers r s).
Proof. split_and!; intros; stays. Qed.
Lemma operator_handlers r s : isOperator s →
  (∀ b, steps (within (As s)) (patchSystem r s b)) ∧ (∀ net, steps (within (As s)) (postWake net r s))
  ∧ (∀ b, steps (within (As s)) (postPower r s b)) ∧ (∀ b, steps (within (As s)) (postService r s b))
  ∧ (∀ b, steps (within (As s)) (postSignal r s b)) ∧ steps (within (As s)) (getScripts r s)
  ∧ (∀ b, steps (within (As s)) (saveScript r s b)) ∧ steps (within (As s)) (deleteScript r s)
  ∧ steps (within (As s)) (getRuns r s) ∧ (∀ b, steps (within (As s)) (postRun targetsSummary r s b))
  ∧ steps (within (As s)) (getRun r s) ∧ steps (within (As s)) (postRunCancel r s)
  ∧ (∀ ch c, steps (within (As s)) (getRunEvents ch c r s)).
Proof. intros Hop. split_and!; intros; stays. Qed.
Lemma admin_handlers r s : isOperator s → isAdministrator s →
  steps (within (As s)) (deleteSystem r s) ∧ (∀ t, steps (within (As s)) (postAgentUpdate r s t))
  ∧ (∀ f k, steps (within (As s)) (postEnroll f k r s)) ∧ (∀ f k b, steps (within (As s)) (saveAlertRule f k r s b))
  ∧ steps (within (As s)) (deleteAlertRule r s) ∧ (∀ b, steps (within (As s)) (saveNotifier r s b))
  ∧ (∀ b o, steps (within (As s)) (testNotifier r s b o)) ∧ steps (within (As s)) (deleteNotifier r s)
  ∧ steps (within (As s)) (getUsers r s) ∧ (∀ b, steps (within (As s)) (postUser r s b))
  ∧ (∀ b, steps (within (As s)) (patchUser r s b)) ∧ steps (within (As s)) (deleteUser r s).
Proof. intros Hop Ha. split_and!; intros; stays. Qed.
Lemma public_handlers r :
  let p := Anyone (rq_cookie r) in
  steps (within p) (getSetup r) ∧ (∀ k b, steps (within p) (postLogin k r b))
  ∧ steps (within p) (postLoginPasskeyOptions r) ∧ steps (within p) (postLogout r).
Proof. cbn zeta. split_and!; intros; stays. Qed.

(** *** The terminal checks the role itself *)
Lemma steps_runShell f sys ac evs how r s : isOperator s → steps (within (As s)) (runShell f sys ac evs how r s).
Proof.
  intros Hop. assert (Hall : ∀ l, Forall (mayCause (As s)) (map (ESend (ac_conn ac) "window-change") l)).
  { intros l. apply Forall_forall. intros x (c & -> & _)%list_elem_of_fmap _. exact Hop. }
  pose proof (steps_effects (As s) (λ _, ()) (λ _, map (ESend (ac_conn ac) "window-change") (te_requests (runTerminal evs))) (λ _, Hall _)).
  unfold runShell. stays.
Qed.
Lemma steps_handleShell f ok start evs how r s : steps (within (As s)) (handleShell f ok start evs how r s).
Proof.
  unfold handleShell. destruct (Can (s_User s) RoleOperator) eqn:Hop; cbn [negb]; [|stays].
  change (isOperator s) in Hop. pose proof (λ sys ac, steps_runShell f sys ac evs how r s Hop). stays.
Qed.

(** *** Files: the part of the state that is the hub's *)
Section files.
Context {W : Type} `{!Sftp W} (ToLower : string → string) (durationString : Z → string).
Definition withinBoth p (x y : hub * W) : Prop := within p x.1 y.1.
#[local] Instance withinBoth_preorder p : PreOrder (withinBoth p).
Proof. split; [intros x; unfold withinBoth; reflexivity|intros x y z; unfold withinBoth; apply transitivity]. Qed.
Lemma steps_onHub_ {A} p (m : M hub A) : steps (within p) m → steps (withinBoth p) (onHub_ (W := W) m).
Proof. intros Hm [h w]. unfold withinBoth, onHub_. cbn [fst snd]. pose proof (Hm h) as E. by destruct (m h). Qed.
Lemma steps_remote {A} p (m : M W A) : steps (withinBoth p) (remote m).
Proof. intros [h w]. unfold withinBoth, remote. cbn [fst snd]. by destruct (m w). Qed.
Lemma steps_withMachine {A} p w (m : M (hub * W) A) : steps (withinBoth p) m → steps (within p) (withMachine w m).
Proof. intros Hm h. unfold withMachine. pose proof (Hm (h, w)) as E. by destruct (m (h, w)) as [a [h' w']]. Qed.
Lemma file_handlers start r s : isOperator s →
  steps (withinBoth (As s)) (getFiles ToLower start r s) ∧ steps (withinBoth (As s)) (downloadFile durationString start r s)
  ∧ (∀ u, steps (withinBoth (As s)) (putFile start r s u)) ∧ (∀ b, steps (withinBoth (As s)) (postFileAction start r s b)).
Proof.
  intros Hop. unfold getFiles, downloadFile, putFile, postFileAction.
  split_and!; intros; repeat first [ step1 | apply steps_remote | apply steps_onHub_; solve [stays] ].
Qed.
End files.

(** *** Handlers whose right to an operation comes from what they have read *)
Lemma wp_within {A} p (m : M hub A) h0 h : steps (within p) m → within p h0 h → wp m (λ _ h', within p h0 h') h.
Proof. intros Hm Hh. unfold wp. by etrans. Qed.
Lemma within_op {A} p op (f : M mach A) h0 h : within p h0 h → (∀ m, performs targetsSummary op m (f m).2) → may p (m_db (h_m h)) op →
  within p h0 (db f h).2.
Proof.
  intros Hh Hp Hm. etrans; [exact Hh|]. apply rtc_once. unfold db. pose proof (Hp (h_m h)) as E. destruct (f (h_m h)) as [a m']. by eapply allowed_op.
Qed.
(** A read: the state afterwards has the same tables, and the result is that of the query. *)
Lemma wp_read {A} p (f : store → res A) (Q : res A → hub → Prop) h0 h : within p h0 h →
  (∀ x h', (∀ a, x = Ok a → f (m_db (h_m h)) = Ok a) → m_db (h_m h') = m_db (h_m h) → within p h0 h' → Q x h') → wp (db (query f)) Q h.
Proof.
  intros Hh HQ. apply wp_db, wp_query_cases; intros m Hm _; (apply HQ; [|by destruct h|etrans; [exact Hh|]; by apply within_quiet; destruct h]); [by intros a ->|done].
Qed.
Lemma attested_own r a s h k : (verifyAttestation r a s h).1 = Ok k → pk_UserID k = u_ID (s_User s).
Proof.
  unfold verifyAttestation, mbind, M_bind. repeat (case_match; try done). all: cbn; try done.
  all: repeat (case_match; try done). all: intros [= <-]; done.
Qed.
Lemma steps_postPasskey r s body : steps (within (As s)) (postPasskey r s body).
Proof.
  unfold postPasskey. apply steps_bind; [apply _|stays|]. intros [resp|[name0 cred]]; [stays|].
  apply steps_bind; [apply _|stays|]. intros [resp|[]]; [stays|]. destruct (passkeyName name0) as [name ok].
  apply steps_bind; [apply _|stays|]. intros [resp|[]]; [stays|]. intros h.
  assert (Hv : steps (within (As s)) (verifyAttestation r cred s)) by stays. specialize (Hv h).
  pose proof (attested_own r cred s h) as Hown. unfold mbind at 1, M_bind at 1.
  destruct (verifyAttestation r cred s h) as [[key|e] h1]; cbn [fst snd] in *; (etrans; [exact Hv|]).
  - specialize (Hown key eq_refl). match goal with |- within _ h1 (?m h1).2 => assert (Hs : steps (within (As s)) m); [|apply Hs] end.
    apply steps_bind; [apply _| |intros; stays]. apply (steps_op _ _ (OpCreatePasskey (withPkName name key))); [done|]. intros d. by left.
  - match goal with |- within _ h1 (?m h1).2 => assert (Hs : steps (within (As s)) m) by stays; apply Hs end.
Qed.
Lemma wp_known {A} (P : hub → Prop) (m : M hub A) (Q : A → hub → Prop) h : P (m h).2 → (∀ a h', P h' → Q a h') → wp m Q h.
Proof. intros HP HQ. by apply HQ. Qed.
Lemma steps_postSetup r body : steps (within (Anyone (rq_cookie r))) (postSetup r body).
Proof.
  set (p := Anyone (rq_cookie r)). intros h. change (wp (postSetup r body) (λ _ h', within p h h') h). unfold postSetup.
  destruct body as [c0|]; [|by apply wp_bind, wp_ret, wp_ret]. apply wp_bind, wp_ret. cbn [readJSON]. destruct (validate c0) as [c msg].
  apply wp_bind, wp_ret. destruct (String.eqb msg ""); cbn [ensure]; [|by apply wp_ret]. apply wp_bind, wp_bind. unfold CountUsers.
  apply (wp_read p _ _ h h); [done|]. intros x h1 Hx E1 W1. apply wp_ret. destruct x as [n|e]; cbn [orInternal]; [|by apply wp_ret].
  specialize (Hx n eq_refl). injection Hx as Hn. apply wp_bind, wp_ret. destruct (Z.leb_spec n 0) as [Hle|]; cbn [ensure]; [|by apply wp_ret].
  assert (Hno : users (m_db (h_m h)) = []) by (destruct (users _); [done|cbn in *; lia]). apply wp_bind.
  apply (wp_known (λ h', within p h h' ∧ m_db (h_m h') = m_db (h_m h))).
  { split; [etrans; [exact W1|]; assert (Hs : steps (within p) (db (generateHash (cr_Password c)))) by stays; apply Hs|].
    rewrite <-E1. apply (steps_db (frames id)). unfold generateHash. go_steps. }
  intros [hash|] h2 [W2 E2]; [|by apply wp_ret]. apply wp_bind, wp_bind, (wp_known (within p h)).
  { apply (within_op _ (OpCreateUser (cr_Username c) hash RoleAdmin)); [exact W2|done|by cbn; rewrite E2]. }
  intros u h3 W3. apply wp_ret. destruct (orInternal u); [by apply wp_ret|]. apply wp_within; [stays|exact W3].
Qed.
Lemma steps_admitAgent cookie fp hello : steps (within (Anyone cookie)) (admitAgent fp hello).
Proof.
  unfold admitAgent. destruct (negb _); [stays|]. apply steps_bind; [apply _|stays|]. intros [sys|[]]; [stays| |stays..].
  destruct (String.eqb _ ""); [stays|]. intros h. set (p := Anyone cookie).
  match goal with |- within _ h (?m h).2 => change (wp m (λ _ h', within p h h') h) end.
  apply wp_bind. unfold ValidEnrollToken. apply wp_db, wp_bind, wp_timeNow. intros m1 E1. apply wp_query_cases; intros m2 Em _.
  all: assert (W2 : within p h (with_m m2 h)) by (apply within_quiet; destruct h; cbn in *; congruence).
  all: cbv beta iota; try (apply wp_ret; exact W2). destruct (_ <? _)%nat eqn:Ev; [|apply wp_ret; exact W2].
  assert (Hne : enroll_tokens (m_db (h_m (with_m m2 h))) ≠ []) by (destruct h; cbn in *; rewrite Em; by intros E0; rewrite E0 in Ev).
  apply wp_bind, (wp_known (within p h)); [|intros; apply wp_within; [stays|done]].
  match goal with |- context [CreateSystem ?n ?f ?j ?v] => apply (within_op _ (OpCreateSystem n f j v)); done end.
Qed.
Hint Resolve steps_admitAgent : steps.
Lemma steps_handleAgent cookie conn r acc hs : steps (within (Anyone cookie)) (handleAgent conn r acc hs).
Proof. stays. Qed.
End handlers.
