(* ===== verification/Access.v ===== *)
(** * What a request may change

    The assembled hub refines the specification of [Authority]: a request does what its sender may cause, and nothing
    else. From the specification alone follows what it takes to change each part of the database, and to act on a machine. *)
From Stdlib Require Import ZArith Lia Ascii String.
From S2P Require Import Prelude GoStrings Float64 Library Paths Web Store StoreTables StoreInv StoreSteps Metrics Limiter Update Proxy Webauthn Protocol Hub Auth AuthProps Passkeys Users Alerts AlertApi State Gateway Systems Routes Control Shell Files FileProps Runs Events Server Authority.
From stdpp Require Import base gmap strings list relations.
Local Open Scope string_scope.
Local Open Scope list_scope.
Local Open Scope Z_scope.
Local Open Scope lotse_scope.

Section access.
Context `{Lib}.
(** ** Parts of the database *)
(** What administrators decide: accounts and roles, enrollment tokens, channels and rules. *)
Definition accountOf (x : userRow) : Z * string * string * Z :=
  (ur_ID x, u_Username (ur_user x), u_Role (ur_user x), u_CreatedAt (ur_user x)).
Definition hubSettings (d : store) := (map accountOf (users d), enroll_tokens d, notifiers d, alert_rules d).
(** What operators decide: scripts and runs; the names of systems are apart, since agents add systems. *)
Definition work (d : store) := (Store.scripts d, script_runs d).
(** What signs an account in: password, two-factor secret, passkeys (without when they were used). *)
Definition secretsOf (x : userRow) : string * string := (u_PasswordHash (ur_user x), u_TOTPSecret (ur_user x)).
Definition unused (k : Passkey) : Passkey := withUse 0 0 k.
Definition credentialsOf (id : Z) (d : store) :=
  (map secretsOf (selectWhere (λ x, ur_ID x =? id) (users d)), map unused (selectWhere (λ k, pk_UserID k =? id) (passkeys d))).
(** Every system is still there, with the same [g]. *)
Definition keptSystems {B} (g : System → B) (d d' : store) : Prop := ∀ y, y ∈ systems d → ∃ y', y' ∈ systems d' ∧ g y' = g y.

(** ** Rights *)
Definition holds (p : principal) (role : string) : bool :=
  match p with Anyone _ => false | As s => RoleIncludes (u_Role (s_User s)) role end.
Definition owns (p : principal) (id : Z) : bool :=
  match p with Anyone _ => false | As s => (id =? u_ID (s_User s)) || holds p RoleAdmin end.
(** The session the request came with. *)
Definition ownHash (p : principal) : option string :=
  match p with Anyone c => hashToken <$> c | As s => Some (s_TokenHash s) end.

(** What a step may change, by the rights of who causes it. *)
Record bounded (p : principal) (d d' : store) : Prop := mkBounded {
  bd_settings : holds p RoleAdmin = false → hubSettings d' = hubSettings d;
  bd_systems : holds p RoleAdmin = false → keptSystems sy_ID d d';
  bd_work : holds p RoleOperator = false → work d' = work d ∧ keptSystems (λ y, (sy_ID y, sy_Name y)) d d';
  bd_credentials id : owns p id = false → credentialsOf id d' = credentialsOf id d;
  bd_sessions x : owns p (sr_user_id x) = false → ownHash p ≠ Some (sr_token_hash x) → x ∈ sessions d → x ∈ sessions d';
}.
#[export] Instance bounded_preorder p : PreOrder (bounded p).
Proof.
  split.
  - intros d. split; intros; try done; try (split; [done|]); intros y Hy; by exists y.
  - intros d1 d2 d3 [A1 A2 A3 A4 A5] [B1 B2 B3 B4 B5]. split; intros.
    + rewrite B1, A1 by done. done.
    + intros y Hy. destruct (A2 ltac:(done) y Hy) as (y1 & H1 & <-). by destruct (B2 ltac:(done) y1 H1) as (y2 & ? & <-); eauto.
    + destruct A3 as [W1 A3], B3 as [W2 B3]; [done..|]. split; [congruence|]. intros y Hy.
      destruct (A3 y Hy) as (y1 & H1 & <-). by destruct (B3 y1 H1) as (y2 & ? & <-); eauto.
    + by rewrite B4, A4.
    + auto.
Qed.
Lemma admin_operator role : RoleIncludes role RoleAdmin = true → RoleIncludes role RoleOperator = true.
Proof. unfold RoleIncludes. change (roleRank RoleAdmin) with 3. change (roleRank RoleOperator) with 2. rewrite !Z.leb_le. lia. Qed.

(** ** Tables and updates *)
Section rows.
Context {A B : Type} (g : A → B) (q : A → bool).
Implicit Types (p : A → bool) (f : A → A) (l : list A).
Lemma select_update p f l : (∀ x, p x = true → q (f x) = q x ∧ (q x = true → g (f x) = g x)) →
  map g (selectWhere q (updateWhere p f l)) = map g (selectWhere q l).
Proof.
  intros Hf. unfold selectWhere, updateWhere. induction l as [|x l IH]; [done|]. cbn. destruct (p x) eqn:Ep.
  - destruct (Hf x Ep) as [Hq Hg]. rewrite Hq. destruct (q x); cbn; [rewrite Hg by done; by f_equal|done].
  - destruct (q x); cbn; by rewrite IH.
Qed.
Lemma select_delete p l : (∀ x, x ∈ l → p x = true → q x = false) → map g (selectWhere q (deleteWhere p l)) = map g (selectWhere q l).
Proof.
  unfold selectWhere, deleteWhere. induction l as [|x l IH]; intros Hp; [done|]. cbn.
  assert (Hl : ∀ x, x ∈ l → p x = true → q x = false) by (intros; apply Hp; [by constructor|done]).
  destruct (p x) eqn:Ep; cbn; [rewrite (Hp x) by (done || constructor); auto|]. destruct (q x); cbn; by rewrite IH.
Qed.
Lemma select_snoc x l : q x = false → map g (selectWhere q (l ++ [x])) = map g (selectWhere q l).
Proof. intros Hx. unfold selectWhere. rewrite List.filter_app. cbn. by rewrite Hx, app_nil_r. Qed.
Lemma kept_update p f l x : (∀ x, g (f x) = g x) → x ∈ l → ∃ y, y ∈ updateWhere p f l ∧ g y = g x.
Proof.
  intros Hf Hx. exists (if p x then f x else x). split; [apply elem_of_updateWhere; eauto|]. by destruct (p x).
Qed.
End rows.

(** ** One lemma per table *)
Section tables.
Context (p : principal).
Implicit Types (d : store).
Lemma kept_refl {B} (g : System → B) d d' : systems d' = systems d → keptSystems g d d'.
Proof. intros E y Hy. exists y. by rewrite E. Qed.
Ltac untouched := first [ done | by apply kept_refl | split; [done|by apply kept_refl] ].
Lemma bounded_users d l : (holds p RoleAdmin = false → map accountOf l = map accountOf (users d)) →
  (∀ id, owns p id = false → map secretsOf (selectWhere (λ x, ur_ID x =? id) l) = map secretsOf (selectWhere (λ x, ur_ID x =? id) (users d))) →
  bounded p d (set_users l d).
Proof.
  intros Ha Hs. destruct d. split; cbn; intros; try untouched; unfold hubSettings, credentialsOf; cbn; [by rewrite Ha|by rewrite Hs].
Qed.
Lemma bounded_passkeys d l :
  (∀ id, owns p id = false → map unused (selectWhere (λ k, pk_UserID k =? id) l) = map unused (selectWhere (λ k, pk_UserID k =? id) (passkeys d))) →
  bounded p d (set_passkeys l d).
Proof. intros Hs. destruct d. split; cbn; intros; try untouched. unfold credentialsOf. cbn. by rewrite Hs. Qed.
Lemma bounded_sessions d l :
  (∀ x, owns p (sr_user_id x) = false → ownHash p ≠ Some (sr_token_hash x) → x ∈ sessions d → x ∈ l) → bounded p d (set_sessions l d).
Proof. intros Hs. destruct d. split; cbn; intros; try untouched. auto. Qed.
Lemma bounded_systems d l : (∀ y, y ∈ systems d → ∃ y', y' ∈ l ∧ sy_ID y' = sy_ID y ∧ (holds p RoleOperator = false → sy_Name y' = sy_Name y)) →
  bounded p d (set_systems l d).
Proof.
  intros Hs. destruct d. split; cbn; intros; try done.
  - intros y Hy. destruct (Hs y Hy) as (y' & ? & ? & _). eauto.
  - split; [done|]. intros y Hy. destruct (Hs y Hy) as (y' & ? & ? & Hn). exists y'. split; [done|]. rewrite Hn by done. congruence.
Qed.
Lemma bounded_work d d' : users d' = users d → sessions d' = sessions d → enroll_tokens d' = enroll_tokens d → systems d' = systems d →
  notifiers d' = notifiers d → alert_rules d' = alert_rules d → passkeys d' = passkeys d →
  (holds p RoleOperator = false → work d' = work d) → bounded p d d'.
Proof.
  intros E1 E2 E3 E4 E5 E6 E7 Hw. split; intros.
  - unfold hubSettings. congruence.
  - by apply kept_refl.
  - split; [auto|by apply kept_refl].
  - unfold credentialsOf. congruence.
  - congruence.
Qed.
End tables.

(** ** Operations *)
Section operations.
Context (targetsSummary : string → string) (p : principal).
Lemma bounded_everything d d' : holds p RoleAdmin = true → bounded p d d'.
Proof.
  intros Ha. assert (Hop : holds p RoleOperator = true) by (destruct p; [done|by apply admin_operator]).
  assert (Hown : ∀ id, owns p id = true) by (intros; destruct p; [done|]; cbn in *; by rewrite Ha, orb_true_r).
  split; intros; congruence.
Qed.
(** Rows of [users]: what is not the row of an account one owns keeps its secrets. *)
Lemma bounded_updateUsers q f d : (∀ u, u_ID (f u) = u_ID u ∧ u_Username (f u) = u_Username u ∧ u_Role (f u) = u_Role u ∧ u_CreatedAt (f u) = u_CreatedAt u) →
  (∀ x, q x = true → owns p (ur_ID x) = true ∨ secretsOf (withUser f x) = secretsOf x) → bounded p d (updateUsers q f d).2.
Proof.
  intros Hf Hq. apply bounded_users.
  - intros _. apply map_updateWhere. intros x _. unfold accountOf, ur_ID, withUser. cbn. by destruct (Hf (ur_user x)) as (-> & -> & -> & ->).
  - intros id Hid. apply select_update. intros x Hx. assert (E : ur_ID (withUser f x) = ur_ID x) by apply Hf. rewrite E. split; [done|].
    intros Hi%Z.eqb_eq. destruct (Hq x Hx); [congruence|done].
Qed.
Lemma bounded_setHandle id hd d : bounded p d (setHandle id hd d).2.
Proof.
  unfold setHandle. destruct (_ && _); [done|]. apply bounded_users; [intros _; by apply map_updateWhere|]. intros. by apply select_update.
Qed.
Lemma steps_users id : 
  (∀ t, steps (onDB (bounded p)) (SetLastLogin id t)) ∧ steps (onDB (bounded p)) (PasskeyHandle id)
  ∧ (owns p id = true → ∀ x, steps (onDB (bounded p)) (SetPassword id x))
  ∧ (owns p id = true → ∀ x, steps (onDB (bounded p)) (SetTOTPSecret id x)).
Proof.
  split_and!; intros; unfold SetLastLogin, PasskeyHandle, SetPassword, SetTOTPSecret; go_steps; apply steps_sql; try apply _; intros d;
    try apply bounded_setHandle; apply bounded_updateUsers; try done; intros ? ?; bool_hyps; subst; auto.
Qed.
Lemma steps_sessions :
  (∀ x id e, steps (onDB (bounded p)) (CreateSession x id e))
  ∧ (∀ x t, ownHash p = Some x → steps (onDB (bounded p)) (ElevateSession x t))
  ∧ (∀ x, ownHash p = Some x → steps (onDB (bounded p)) (DeleteSession x))
  ∧ (∀ id x, owns p id = true → steps (onDB (bounded p)) (DeleteOtherSessions id x)).
Proof.
  split_and!; intros; unfold CreateSession, ElevateSession, DeleteSession, DeleteOtherSessions, deleteSessionsWhere; go_steps;
    apply steps_sql; try apply _; intros d; cbn [snd].
  - unfold insertSession. repeat (case_match; [done|]). apply bounded_sessions. intros y ? _ ?. apply elem_of_app. by left.
  - apply bounded_sessions. intros y _ Hh Hy. apply elem_of_updateWhere. exists y. split; [done|].
    destruct (String.eqb_spec (sr_token_hash y) x); congruence.
  - apply bounded_sessions. intros y _ Hh Hy. apply elem_of_deleteWhere. split; [done|].
    destruct (String.eqb_spec (sr_token_hash y) x); congruence.
  - apply bounded_sessions. intros y Hown _ Hy. apply elem_of_deleteWhere. split; [done|].
    destruct (Z.eqb_spec (sr_user_id y) id); [congruence|done].
Qed.
Lemma steps_passkeys :
  (∀ k, owns p (pk_UserID k) = true → steps (onDB (bounded p)) (CreatePasskey k))
  ∧ (∀ id n, steps (onDB (bounded p)) (UsePasskey id n))
  ∧ (∀ id user x, owns p user = true → steps (onDB (bounded p)) (RenamePasskey id user x)).
Proof.
  split_and!; intros; unfold CreatePasskey, UsePasskey, RenamePasskey; go_steps; apply steps_sql; try apply _; intros d.
  - unfold insertPasskey. repeat (case_match; [done|]). apply bounded_passkeys. intros id Hid. apply select_snoc. cbn.
    apply Z.eqb_neq. congruence.
  - apply bounded_passkeys. intros u Hu. by apply select_update.
  - apply bounded_passkeys. intros u Hu. apply select_update. intros k Hk. split; [done|]. intros. bool_hyps. subst. congruence.
Qed.
(** The key is looked up with its owner, and deleted by its number, which is its own. *)
Lemma deletePasskey_bounded id user m : owns p user = true → store_wf (m_db m) →
  bounded p (m_db m) (m_db (StoreTables.DeletePasskey id user m).2).
Proof.
  intros Hown Hwf. change (wp (StoreTables.DeletePasskey id user) (λ _ m', bounded p (m_db m) (m_db m')) m).
  unfold StoreTables.DeletePasskey. apply wp_bind, wp_query_cases; intros m1 E1 _; [|apply wp_ret; by rewrite E1].
  destruct (selectWhere _ _) as [|key l] eqn:Es; cbn [oneRow]; [apply wp_ret; by rewrite E1|].
  assert (Hk : key ∈ passkeys (m_db m) ∧ pk_ID key = id ∧ pk_UserID key = user).
  { assert (Hin : key ∈ key :: l) by constructor. rewrite <-Es in Hin. apply elem_of_selectWhere in Hin as [??]. bool_hyps. done. }
  destruct Hk as (Hk & Hid & Hu). apply wp_bind, wp_sql_cases; intros m2 E2 _; apply wp_ret; rewrite E2, E1; [|done].
  apply bounded_passkeys. intros u Hne. apply select_delete. intros k Hin Hkid. bool_hyps.
  assert (k = key) as -> by (eapply (key_unique pk_ID); [apply Hwf|done..|congruence]). apply Z.eqb_neq. congruence.
Qed.
Lemma steps_systems :
  (∀ n f i v, steps (onDB (bounded p)) (CreateSystem n f i v)) ∧ (∀ id i v, steps (onDB (bounded p)) (UpdateSystemInfo id i v))
  ∧ (∀ id t l, steps (onDB (bounded p)) (UpdateLastSeen id t l))
  ∧ (∀ id n, holds p RoleOperator = true → steps (onDB (bounded p)) (RenameSystem id n)).
Proof.
  split_and!; intros; unfold CreateSystem, getSystem, UpdateSystemInfo, UpdateLastSeen, RenameSystem; go_steps; apply steps_sql; try apply _; intros d.
  - unfold insertSystem. case_match; [done|]. apply bounded_systems. intros y Hy. exists y. split; [apply elem_of_app; by left|done].
  - apply bounded_systems. intros y Hy. destruct (kept_update (λ y, (sy_ID y, sy_Name y)) (λ x, sy_ID x =? id) (withInfo i v) _ y ltac:(done) Hy) as (y' & ? & [=]). eauto.
  - apply bounded_systems. intros y Hy. destruct (kept_update (λ y, (sy_ID y, sy_Name y)) (λ x, sy_ID x =? id) (withSeen t l) _ y ltac:(done) Hy) as (y' & ? & [=]). eauto.
  - apply bounded_systems. intros y Hy. destruct (kept_update sy_ID (λ x, sy_ID x =? id) (withName n) _ y ltac:(done) Hy) as (y' & ? & ?). 
    exists y'. split_and!; [done..|congruence].
Qed.
Lemma steps_work : 
  (holds p RoleOperator = true → ∀ x, steps (onDB (bounded p)) (StoreTables.SaveScript x))
  ∧ (holds p RoleOperator = true → ∀ id, steps (onDB (bounded p)) (StoreTables.DeleteScript id))
  ∧ (holds p RoleOperator = true → ∀ x, steps (onDB (bounded p)) (CreateRun targetsSummary x))
  ∧ (∀ e, steps (onDB (bounded p)) (AddAudit e)) ∧ (∀ id r row, steps (onDB (bounded p)) (InsertMetrics id r row)).
Proof.
  split_and!; intros; unfold StoreTables.SaveScript, StoreTables.DeleteScript, CreateRun, AddAudit, InsertMetrics; go_steps; apply steps_sql; try apply _;
    intros d; try (unfold insertMetric; case_match; [done|]); apply bounded_work; try (by destruct d); try congruence.
Qed.

Lemma performs_sound op m m' : performs targetsSummary op m m' → sound (m_db m) (m_db m').
Proof.
  intros Hp. destruct op; cbn in Hp; subst; [rewrite Hp; reflexivity|..];
    apply (dbStep_sound targetsSummary (λ _, fzero) (λ _, fzero)); constructor.
Qed.
Lemma performs_bounded op m m' : StoreSteps.healthy (m_db m) → may p (m_db m) op → performs targetsSummary op m m' → bounded p (m_db m) (m_db m').
Proof.
  intros [Hwf Had] Hm Hp. destruct (holds p RoleAdmin) eqn:Ha; [by apply bounded_everything|].
  pose proof deletePasskey_bounded as Hd. pose proof steps_users as Hu. pose proof steps_sessions as (Hs1 & Hs2 & Hs3 & Hs4). pose proof steps_passkeys as (Hk1 & Hk2 & Hk3).
  pose proof steps_systems as (Hy1 & Hy2 & Hy3 & Hy4). pose proof steps_work as (Hw1 & Hw2 & Hw3 & Hw4 & Hw5).
  assert (Hno : users (m_db m) ≠ []) by (intros E; unfold has_admin, admins in Had; rewrite E in Had; by apply Nat.lt_irrefl in Had).
  assert (Hacc : ∀ s id, p = As s → account s id → owns p id = true).
  { intros s id -> [->|Hb]; cbn in *; [by rewrite Z.eqb_refl|congruence]. }
  destruct p as [c|s] eqn:Ep; destruct op; cbn in Hm; try done; cbn in Hp; try subst m'; try (unfold isAdministrator in Hm; cbn in Ha; congruence).
  all: try (rewrite Hp; reflexivity).
  all: try match goal with Hop : _ |- _ => apply Hop end.
  all: try (by eapply Hacc); try exact Hm; try (by subst).
  by destruct Hm as (t & -> & ->).
Qed.
(** From here on only the specification matters. *)
Lemma within_bounded h h' : within targetsSummary p h h' → StoreSteps.healthy (m_db (h_m h)) →
  StoreSteps.healthy (m_db (h_m h')) ∧ bounded p (m_db (h_m h)) (m_db (h_m h')).
Proof.
  intros Hrun. induction Hrun as [h|h1 h2 h3 Hstep _ IH]; intros Hok; [done|].
  assert (Hone : StoreSteps.healthy (m_db (h_m h2)) ∧ bounded p (m_db (h_m h1)) (m_db (h_m h2))).
  { destruct Hstep as [op m' Hm Hp|h2 l Hd _ _]; [|by rewrite Hd].
    assert (E : h_m (with_m m' h1) = m') by by destruct h1. rewrite E. pose proof Hok as [Hwf Ha]. destruct (performs_sound _ _ _ Hp Hwf). 
    split; [split; auto|]. by eapply performs_bounded. }
  destruct Hone as [Hok2 Hb]. destruct (IH Hok2) as [? ?]. split; [done|]. by etrans.
Qed.
Lemma within_trace h h' : within targetsSummary p h h' → ∃ l, h_trace h' = h_trace h ++ l ∧ Forall (mayCause p) l.
Proof.
  intros Hrun. induction Hrun as [h|h1 h2 h3 Hstep _ (l2 & E2 & F2)]; [exists []; by rewrite app_nil_r|].
  destruct Hstep as [op m' _ _|h2 l _ E F].
  - exists l2. split; [|done]. rewrite E2. by destruct h1.
  - exists (l ++ l2). split; [by rewrite E2, E, app_assoc|by apply Forall_app].
Qed.
End operations.
End access.

(** ** The hub refines the specification *)
(** What a handler behind a session relies on its guard for. *)
Definition needs (e : endpoint) : Routes.guard :=
  match e with
  | PatchSystem | PostWake | PostPower | PostService | PostSignal | GetFiles | DownloadFile | PutFile | PostFileAction
  | GetScripts | SaveScript | DeleteScript | GetRuns | PostRun | GetRun | GetRunEvents | PostRunCancel => NeedsRole RoleOperator
  | DeleteSystem | PostAgentUpdate | PostEnroll | SaveAlertRule | DeleteAlertRule | SaveNotifier | TestNotifier | DeleteNotifier
  | GetUsers | PostUser | PatchUser | DeleteUser => NeedsRole RoleAdmin
  | _ => AnyUser
  end.
(** Every route has the guard its handler relies on. *)
Definition guardSuffices (rt : route) : bool :=
  match rt_guard rt, needs (rt_handler rt) with
  | Public, _ | _, AnyUser => true
  | g, n => bool_decide (g = n)
  end.
Lemma guards_suffice : forallb guardSuffices routes = true.
Proof. vm_compute. reflexivity. Qed.

Section refinement.
Context `{Lib} `{Marshal} `{!Unmarshal clientData} `{!Unmarshal SystemInfo} `{!Unmarshal Metrics} `{!Unmarshal ProcessList}
  `{!Unmarshal notifierConfig} `{!Unmarshal termMsg} `{!Unmarshal ActionReply} `{!Unmarshal (list runTarget)} `{!Unmarshal Hello}.
Context {W : Type} `{!Sftp W}.
Context (dummySalt PublicKey agentDir version : string) (keyURL : string → string → string) (keyImage : string → string → option string).
Context (formatDateTime durationString : Z → string) (formatG : f64 → string) (ToLower targetsSummary : string → string).
Context (scripts dist opened gunzip : string → option string) (statOK : string → bool).
Context (pathUnescape : string → string).
Abbreviation within := (within targetsSummary).
Abbreviation openHandler := (openHandler dummySalt agentDir version scripts dist opened gunzip statOK).
Abbreviation sessionHandlers := (sessionHandlers PublicKey keyURL keyImage formatDateTime durationString formatG ToLower targetsSummary).
Abbreviation serveHTTP := (serveHTTP dummySalt PublicKey agentDir version keyURL keyImage formatDateTime durationString formatG ToLower
  targetsSummary scripts dist opened gunzip statOK pathUnescape).
Abbreviation tables h := (m_db (h_m h)).
Implicit Types (i : input W) (r : request) (h : hub) (s : Session).

Lemma open_within i path e r : steps (within (Anyone (rq_cookie r))) (openHandler i path e r).
Proof.
  destruct (public_handlers targetsSummary r) as (Hp1 & Hp2 & Hp3 & Hp4). pose proof (steps_postSetup targetsSummary r).
  pose proof (steps_handleAgent targetsSummary (rq_cookie r)). destruct e; cbn [Server.openHandler]; go_steps.
Qed.
Lemma session_within i e r s : allowed (needs e) s → steps (within (As s)) (sessionHandlers i e r s).
Proof.
  intros Ha. pose proof (viewer_handlers targetsSummary r s) as Hv. pose proof (steps_postPasskey targetsSummary r s) as Hp.
  pose proof (λ a b c d f, steps_handleShell targetsSummary a b c d f r s) as Hsh.
  destruct e; cbn [needs allowed] in Ha; cbn [Server.sessionHandlers].
  all: try (assert (Hop : isOperator s) by first [exact Ha | apply admin_operator, Ha]).
  all: try pose proof (operator_handlers targetsSummary r s Hop) as Ho.
  all: try pose proof (λ d t, file_handlers targetsSummary ToLower d t r s Hop) as Hf.
  all: try pose proof (admin_handlers targetsSummary r s Hop Ha) as Hadm.
  all: destruct_and?; go_steps.
  all: apply steps_withMachine; destruct (Hf durationString (in_sftp i)) as (?&?&?&?); auto.
Qed.

(** Who sent a request: nobody known, or the user of the session its cookie names, valid when it was looked up. *)
Inductive sentBy (cookie : option string) (h : hub) : principal → Prop :=
| sentByAnyone : sentBy cookie h (Anyone cookie)
| sentByUser token s h1 : cookie = Some token → onlyMach h h1 → validSession (tables h) token (unix (clock (h_m h1))) s → sentBy cookie h (As s).
Definition keepsWithin (cookie : option string) h h' : Prop := ∃ p, sentBy cookie h p ∧ within p h h'.
Lemma keepsWithin_quiet c h h1 : onlyMach h h1 → tables h1 = tables h → keepsWithin c h h1.
Proof.
  intros Ho Ht. exists (Anyone c). split; [constructor|]. apply within_quiet; [done|]. rewrite Ho. by destruct h.
Qed.
Lemma guarded_within i path rt r h : rt ∈ routes → wp (guarded (openHandler i path) (sessionHandlers i) rt r) (λ _, keepsWithin (rq_cookie r) h) h.
Proof.
  intros Hin. pose proof guards_suffice as Hg. rewrite forallb_forall in Hg. specialize (Hg rt (proj1 (list_elem_of_In _ _) Hin)).
  assert (Hsig : ∀ token s h1, rq_cookie r = Some token → onlyMach h h1 → tables h1 = tables h →
    validSession (tables h) token (unix (clock (h_m h1))) s → allowed (needs (rt_handler rt)) s →
    wp (sessionHandlers i (rt_handler rt) r s) (λ _, keepsWithin (rq_cookie r) h) h1).
  { intros token s h1 Hc Ho Ht Hv Ha. exists (As s). split; [by econstructor|]. transitivity h1; [|by apply session_within].
    apply within_quiet; [done|]. rewrite Ho. by destruct h. }
  unfold guarded, guardSuffices in *. destruct (rt_guard rt) as [| |role].
  - exists (Anyone (rq_cookie r)). split; [constructor|apply open_within].
  - apply wp_requireUser; [intros; by apply keepsWithin_quiet|]. intros. eapply Hsig; try done. by destruct (needs _).
  - apply wp_requireRole; [intros; by apply keepsWithin_quiet|]. intros token s h1 ???? Hr. eapply Hsig; try done.
    destruct (needs _); [done|done|]. apply bool_decide_eq_true in Hg as [= <-]. exact Hr.
Qed.
Lemma serveMux_within i path r h : wp (serveMux (openHandler i path) (sessionHandlers i) pathUnescape path r) (λ _, keepsWithin (rq_cookie r) h) h.
Proof.
  assert (Hnone : keepsWithin (rq_cookie r) h h) by by apply keepsWithin_quiet. apply wp_serveMux; [done|done|]. intros rt Hin _.
  apply (guarded_within i path rt (with_PathValue _ r) h Hin).
Qed.
Lemma Handler_within i path r h proxies :
  wp (Handler (openHandler i path) (sessionHandlers i) pathUnescape proxies path r) (λ _, keepsWithin (rq_cookie r) h) h.
Proof.
  assert (Hnone : keepsWithin (rq_cookie r) h h) by by apply keepsWithin_quiet. unfold Handler, securityHeaders. apply wp_bind. set (r1 := with_RemoteAddr _ r).
  eapply (wp_mono _ (λ _, keepsWithin (rq_cookie r) h)); [|intros; by apply wp_ret].
  pose proof (serveMux_within i path r1 h) as Hmux. unfold sameOrigin.
  repeat (case_match; try (by apply wp_ret); try exact Hmux).
Qed.
Lemma serveHTTP_within i path r h : wp (serveHTTP i path r) (λ _, keepsWithin (rq_cookie r) h) h.
Proof.
  pose proof (Handler_within i path r h (cfg_proxies (h_cfg h))) as Hh. unfold wp in *. unfold Server.serveHTTP. exact Hh.
Qed.

(** C2. The hub does only what the sender of a request may cause: whatever the request, its body, the other machines and
    the failing statements are, serving it is a sequence of operations of the store and of changes in memory that the
    specification of authority allows, for the user of the valid session its cookie names, or for a stranger. *)
Theorem requests_refine_authority (i : input W) (path : string) (r : request) (h : hub) :
  let '(ans, h') := serveHTTP i path r h in ∃ p, sentBy (rq_cookie r) h p ∧ within p h h'.
Proof. apply wp_let, serveHTTP_within. Qed.

(** The cookie names a session, valid when it was looked up, of a user with the right. *)
Definition signedIn (cookie : option string) h (right : Session → Prop) : Prop :=
  ∃ token s h1, cookie = Some token ∧ onlyMach h h1 ∧ validSession (tables h) token (unix (clock (h_m h1))) s ∧ right s.
Lemma sentBy_holds c h p role : sentBy c h p → holds p role = true → signedIn c h (λ s, RoleIncludes (u_Role (s_User s)) role = true).
Proof. destruct 1 as [|token s h1]; [done|]. intros. exists token, s, h1. done. Qed.
Lemma sentBy_owns c h p id : sentBy c h p → owns p id = true → signedIn c h (λ s, account s id).
Proof.
  destruct 1 as [|token s h1]; [done|]. intros [E%Z.eqb_eq|E]%orb_true_iff; exists token, s, h1; (split_and!; [done..|]); [by left|by right].
Qed.
Lemma sentBy_ownHash c h p : sentBy c h p → ownHash p = hashToken <$> c.
Proof. destruct 1 as [|token s h1 -> _ (x & row & _ & _ & _ & _ & _ & ->)]; done. Qed.

(** C1. Changes need the right to make them. Accounts and roles, enrollment tokens, channels and rules change, and systems are
    removed, only for a cookie with a valid session of an administrator; scripts and runs change, systems are renamed and anything
    is done on a machine, only for an operator's; the password, two-factor secret and passkeys of an account change only for its
    user's or an administrator's, and so end sessions other than the one the request came with. The tables stay consistent, with an administrator. *)
Theorem changes_need_authority (i : input W) (path : string) (r : request) (h : hub) (Hok : StoreSteps.healthy (tables h)) :
  let '(ans, h') := serveHTTP i path r h in
  let d := tables h in let d' := tables h' in let sent := signedIn (rq_cookie r) h in
  StoreSteps.healthy d'
  ∧ (hubSettings d' ≠ hubSettings d → sent isAdministrator)
  ∧ (¬ keptSystems sy_ID d d' → sent isAdministrator)
  ∧ (work d' ≠ work d → sent isOperator)
  ∧ (¬ keptSystems (λ y, (sy_ID y, sy_Name y)) d d' → sent isOperator)
  ∧ (∃ l, h_trace h' = h_trace h ++ l ∧ (existsb acting l = true → sent isOperator))
  ∧ (∀ id, credentialsOf id d' ≠ credentialsOf id d → sent (λ s, account s id))
  ∧ (∀ x, x ∈ sessions d → x ∉ sessions d' → Some (sr_token_hash x) ≠ hashToken <$> rq_cookie r →
       sent (λ s, account s (sr_user_id x))).
Proof.
  apply wp_let. eapply wp_mono; [apply serveHTTP_within|]. intros _ h' (p & Hs & Hw). cbn zeta.
  destruct (within_bounded _ p h h' Hw Hok) as [Hok' [B1 B2 B3 B4 B5]]. destruct (within_trace _ p h h' Hw) as (l & El & Hl).
  pose proof (sentBy_holds _ _ _ RoleAdmin Hs) as HA. pose proof (sentBy_holds _ _ _ RoleOperator Hs) as HO. pose proof (λ id, sentBy_owns _ _ _ id Hs) as HW.
  split_and!; [done|..].
  - destruct (holds p RoleAdmin); [intros _; by apply HA|]. intros Hne. by destruct Hne; apply B1.
  - destruct (holds p RoleAdmin); [intros _; by apply HA|]. intros Hne. by destruct Hne; apply B2.
  - destruct (holds p RoleOperator); [intros _; by apply HO|]. intros Hne. by destruct Hne; apply B3.
  - destruct (holds p RoleOperator); [intros _; by apply HO|]. intros Hne. by destruct Hne; apply B3.
  - exists l. split; [done|]. intros (e & Hin & He)%existsb_exists. apply HO. rewrite Forall_forall in Hl.
    specialize (Hl e (proj2 (list_elem_of_In _ _) Hin) He). by destruct p.
  - intros id Hne. apply HW. destruct (owns p id) eqn:E; [done|]. by destruct Hne; apply B4.
  - intros x Hx Hx' Hh. apply HW. destruct (owns p _) eqn:E; [done|]. destruct Hx'. apply B5; [done| |done]. rewrite (sentBy_ownHash _ _ _ Hs). congruence.
Qed.
End refinement.

(** ** Witness: the cookie of an administrator's session, and a new script *)
Definition demoInput : input (gmap string string) := {|
  in_credentials := None; in_passwordChange := None; in_totpEnable := None; in_attestation := None; in_text := None; in_service := None;
  in_signal := None; in_script := Some (mkScript 0 "up" "" "sh" "uptime" 60 "" 0 0); in_run := None; in_rule := None; in_notifier := None;
  in_newUser := None; in_userPatch := None; in_fileAction := None; in_upload := mkUpload "" false 0; in_acceptEncoding := "";
  in_channel := 0%nat; in_connects := true; in_rounds := []; in_accepted := true; in_shell := (ShellRuns, [], SessionEnded);
  in_handshake := None; in_sftp := Serving; in_machine := ∅; in_net := λ _, (true, []); in_transfer := NoBinary; in_testOutcome := None |}.
Definition demoSignedHub : hub :=
  let m := (ElevateSession "cookie" (seconds 1000) (CreateSession "cookie" 1 (seconds 1000) demoAdmin).2).2 in
  newHub (mkConfig "" []) ∅ m.
Definition demoPost (cookie : option string) : request :=
  mkRequest "POST" "10.0.0.1" "hub" "" cookie false "" "" [] (λ _, "") (λ _, "") false.
Definition demoServe (r : request) : M hub answer :=
  @serveHTTP demoLib demoMarsh demoClientData (λ _, (demoInfo, true)) (λ _, (demoSample 0, true)) (λ _, (mkProcessList [] 0, true)) demoConfig
    demoTerm demoReply (λ _, ([], true)) (λ _, (mkHello 1 "1.0.0" "" demoInfo [], true)) _ demoSftp "" "" "" "" (λ _ _, "") (λ _ _, None)
    (λ _, "") (λ _, "") (λ _, "") id id (λ _, None) (λ _, None) (λ _, None) (λ _, None) (λ _, false) id demoInput "/api/scripts" r.
Lemma demoSignedHub_healthy : StoreSteps.healthy (m_db (h_m demoSignedHub)).
Proof.
  split; [|vm_compute; lia]. pose proof (@dbStep_sound demoLib id (λ _, fzero) (λ _, fzero)) as Hs.
  apply (Hs _ _ (step_ElevateSession _ _ _ _ "cookie" (seconds 1000))), (Hs _ _ (step_CreateSession _ _ _ _ "cookie" 1 (seconds 1000))), wf_demoAdmin.
Qed.
Lemma changes_need_authority_witness :
  work (m_db (h_m (demoServe (demoPost None) demoSignedHub).2)) = work (m_db (h_m demoSignedHub))
  ∧ work (m_db (h_m (demoServe (demoPost (Some "cookie")) demoSignedHub).2)) ≠ work (m_db (h_m demoSignedHub))
  ∧ @signedIn demoLib (Some "cookie") demoSignedHub isOperator.
Proof.
  assert (Hne : work (m_db (h_m (demoServe (demoPost (Some "cookie")) demoSignedHub).2)) ≠ work (m_db (h_m demoSignedHub)))
    by (vm_compute; discriminate).
  split_and!; [vm_compute; reflexivity|exact Hne|].
  pose proof (@changes_need_authority demoLib demoMarsh demoClientData (λ _, (demoInfo, true)) (λ _, (demoSample 0, true)) (λ _, (mkProcessList [] 0, true)) demoConfig
    demoTerm demoReply (λ _, ([], true)) (λ _, (mkHello 1 "1.0.0" "" demoInfo [], true)) _ demoSftp "" "" "" "" (λ _ _, "") (λ _ _, None)
    (λ _, "") (λ _, "") (λ _, "") id id (λ _, None) (λ _, None) (λ _, None) (λ _, None) (λ _, false) id demoInput "/api/scripts"
    (demoPost (Some "cookie")) demoSignedHub demoSignedHub_healthy) as Hc.
  fold (demoServe (demoPost (Some "cookie"))) in Hc. destruct (demoServe (demoPost (Some "cookie")) demoSignedHub) as [ans h'].
  destruct Hc as (_ & _ & _ & Hw & _). exact (Hw Hne).
Defined.
